(** * PowerGenome generator clustering: a shallow embedding of
      [powergenome/generators.py] and proofs about it.

    Tables (pandas data frames) are lists of records, one record per row,
    with the columns the embedded code reads or writes.  A float column is
    [Q]; a float column that may hold NaN is [option Q] with [None] for NaN.
    Floating-point rounding error is not modelled: arithmetic is exact.
    Exceptions are values of [exn], fallible code returns [result]. *)

From Stdlib Require Import List Bool Arith ZArith QArith Qround Qabs.
From Stdlib Require Import String Ascii DecimalString DecimalPos DecimalZ.
From Stdlib Require Import Permutation Sorted Lia Lqa.
Import ListNotations.

Local Open Scope Q_scope.
Local Open Scope string_scope.
Local Open Scope list_scope.

(** ** Exceptions and results *)

Inductive exn : Type :=
| AssertionError (msg : string)
| KeyError (msg : string)
| TypeError (msg : string)
| AttributeError (msg : string)
| ValueError (msg : string)
| ZeroDivisionError (msg : string).

Inductive result (A : Type) : Type :=
| Ok (a : A)
| Raise (e : exn).

Arguments Ok {A} a.
Arguments Raise {A} e.

Definition bind {A B : Type} (m : result A) (f : A -> result B) : result B :=
  match m with
  | Ok a => f a
  | Raise e => Raise e
  end.

Notation "x <- m ;; k" := (bind m (fun x => k))
  (at level 61, m at next level, right associativity).

Definition is_ok {A : Type} (m : result A) : bool :=
  match m with Ok _ => true | Raise _ => false end.

(** [for x in xs: body], threading a state and stopping at the first
    exception. *)
Fixpoint for_each {S X : Type} (body : X -> S -> result S)
         (xs : list X) (s : S) : result S :=
  match xs with
  | [] => Ok s
  | x :: rest => s' <- body x s ;; for_each body rest s'
  end.

(** ** Float columns with NaN *)

Definition isnull (x : option Q) : bool :=
  match x with None => true | Some _ => false end.

Definition Qlt_bool (a b : Q) : bool := negb (Qle_bool b a).

(** Comparisons of a float cell with a constant: every ordered comparison
    with NaN is False, [!=] with NaN is True. *)
Definition cell_lt (x : option Q) (c : Q) : bool :=
  match x with Some v => Qlt_bool v c | None => false end.
Definition cell_gt (x : option Q) (c : Q) : bool :=
  match x with Some v => Qlt_bool c v | None => false end.
Definition cell_le (x : option Q) (c : Q) : bool :=
  match x with Some v => Qle_bool v c | None => false end.
Definition cell_ne (x : option Q) (c : Q) : bool :=
  match x with Some v => negb (Qeq_bool v c) | None => true end.

(** [Series.sum()]: NaN cells are skipped. *)
Fixpoint nansum (xs : list (option Q)) : Q :=
  match xs with
  | [] => 0
  | Some v :: rest => v + nansum rest
  | None :: rest => nansum rest
  end.

Fixpoint Qsum (xs : list Q) : Q :=
  match xs with
  | [] => 0
  | v :: rest => v + Qsum rest
  end.

Lemma Qlt_bool_iff (a b : Q) : Qlt_bool a b = true <-> a < b.
Proof.
  unfold Qlt_bool. rewrite negb_true_iff.
  split; intro H.
  - apply Qnot_le_lt. intro Hle. apply Qle_bool_iff in Hle. congruence.
  - destruct (Qle_bool b a) eqn:E; [|reflexivity].
    apply Qle_bool_iff in E. exfalso. apply (Qlt_not_le _ _ H E).
Qed.

Lemma Qlt_bool_false_iff (a b : Q) : Qlt_bool a b = false <-> b <= a.
Proof.
  unfold Qlt_bool. rewrite negb_false_iff. apply Qle_bool_iff.
Qed.

Lemma nansum_app (xs ys : list (option Q)) :
  nansum (xs ++ ys) == nansum xs + nansum ys.
Proof.
  induction xs as [|[v|] xs IH]; simpl.
  - ring.
  - rewrite IH. ring.
  - exact IH.
Qed.

Lemma nansum_perm (xs ys : list (option Q)) :
  Permutation xs ys -> nansum xs == nansum ys.
Proof.
  induction 1 as [|x l l' _ IH|x y l|l l' l'' _ IH1 _ IH2]; simpl.
  - reflexivity.
  - destruct x; rewrite IH; reflexivity.
  - destruct x, y; ring.
  - rewrite IH1. exact IH2.
Qed.

(** ** Removing canceled and retired generators (EIA 860m amendments) *)

Module Removal.

(** One generator of the EIA 860 table, or one line of an 860m sheet. *)
Record generator := {
  plant_id_eia : Z;
  generator_id : string;
  technology_description : option string;
  capacity_mw : option Q
}.

(** [astype(str)] of an integer column. *)
Definition astype_str (z : Z) : string :=
  NilZero.string_of_int (Z.to_int z).

(** [create_plant_gen_id]: the table with the extra column [plant_gen_id];
    a row of the extended table is the row paired with its key. *)
Definition plant_gen_id (g : generator) : string :=
  astype_str (plant_id_eia g) ++ "_" ++ generator_id g.

Definition create_plant_gen_id (df : list generator)
  : list (generator * string) :=
  map (fun g => (g, plant_gen_id g)) df.

(** [Series.isin(values)]. *)
Definition isin (k : string) (values : list string) : bool :=
  existsb (String.eqb k) values.

(** [df.drop(columns="plant_gen_id")]. *)
Definition drop_plant_gen_id (df : list (generator * string))
  : list generator := map fst df.

Definition empty {A : Type} (df : list A) : bool :=
  match df with [] => true | _ => false end.

(** The rows selected as canceled (line 859). *)
Definition canceled_rows (df canceled_860m : list generator)
  : list (generator * string) :=
  let df := create_plant_gen_id df in
  let canceled_860m := create_plant_gen_id canceled_860m in
  filter (fun r => isin (snd r) (map snd canceled_860m)) df.

Definition remove_canceled_860m (df canceled_860m : list generator)
  : result (list generator) :=
  let df := create_plant_gen_id df in
  let canceled_860m := create_plant_gen_id canceled_860m in
  let canceled :=
    filter (fun r => isin (snd r) (map snd canceled_860m)) df in
  let not_canceled_df :=
    filter (fun r => negb (isin (snd r) (map snd canceled_860m))) df in
  let not_canceled_df := drop_plant_gen_id not_canceled_df in
  if negb (empty canceled) then
    if (List.length df =? List.length canceled + List.length not_canceled_df)%nat
    then Ok not_canceled_df
    else Raise (AssertionError "")
  else Ok not_canceled_df.

(** The rows selected as retired (line 890). *)
Definition retired_rows (df retired_860m : list generator)
  : list (generator * string) :=
  let df := create_plant_gen_id df in
  let retired_860m := create_plant_gen_id retired_860m in
  filter (fun r => isin (snd r) (map snd retired_860m)) df.

Definition remove_retired_860m (df retired_860m : list generator)
  : result (list generator) :=
  let df := create_plant_gen_id df in
  let retired_860m := create_plant_gen_id retired_860m in
  let retired :=
    filter (fun r => isin (snd r) (map snd retired_860m)) df in
  let not_retired_df :=
    filter (fun r => negb (isin (snd r) (map snd retired_860m))) df in
  let not_retired_df := drop_plant_gen_id not_retired_df in
  if negb (empty retired) then
    if (List.length df =? List.length retired + List.length not_retired_df)%nat
    then Ok not_retired_df
    else Raise (AssertionError "")
  else Ok not_retired_df.

Definition remove_future_retirements_860m (df retired_860m : list generator)
  : result (list generator) :=
  let df := create_plant_gen_id df in
  let retired_860m := create_plant_gen_id retired_860m in
  let retired :=
    filter (fun r => isin (snd r) (map snd retired_860m)) df in
  let not_retired_df :=
    filter (fun r => negb (isin (snd r) (map snd retired_860m))) df in
  let not_retired_df := drop_plant_gen_id not_retired_df in
  if negb (empty retired) then
    if (List.length df =? List.length retired + List.length not_retired_df)%nat
    then Ok not_retired_df
    else Raise (AssertionError "")
  else Ok not_retired_df.

(** [df[capacity_col].sum()]. *)
Definition total_capacity (df : list generator) : Q :=
  nansum (map capacity_mw df).

(** *** The kept and the removed rows *)

(** The kept and the removed rows, as sub-tables of the input. *)
Definition kept (df amendment : list generator) : list generator :=
  filter (fun g => negb (isin (plant_gen_id g)
                           (map plant_gen_id amendment))) df.

Definition removed (df amendment : list generator) : list generator :=
  filter (fun g => isin (plant_gen_id g) (map plant_gen_id amendment)) df.

(** *** Facts about the anti-join *)

Lemma filter_split_length {A : Type} (p : A -> bool) (l : list A) :
  List.length l
  = (List.length (filter p l)
     + List.length (filter (fun x => negb (p x)) l))%nat.
Proof.
  induction l as [|x l IH]; simpl; [reflexivity|].
  destruct (p x); simpl; lia.
Qed.

Lemma filter_split_perm {A : Type} (p : A -> bool) (l : list A) :
  Permutation l (filter p l ++ filter (fun x => negb (p x)) l).
Proof.
  induction l as [|x l IH]; simpl; [constructor|].
  destruct (p x); simpl.
  - now constructor.
  - now apply Permutation_cons_app.
Qed.

Lemma drop_create (df : list generator) :
  drop_plant_gen_id (create_plant_gen_id df) = df.
Proof.
  unfold drop_plant_gen_id, create_plant_gen_id.
  rewrite map_map. simpl. apply map_id.
Qed.

Lemma filter_create (p : string -> bool) (df : list generator) :
  filter (fun r => p (snd r)) (create_plant_gen_id df)
  = create_plant_gen_id (filter (fun g => p (plant_gen_id g)) df).
Proof.
  unfold create_plant_gen_id.
  induction df as [|g df IH]; simpl; [reflexivity|].
  destruct (p (plant_gen_id g)); simpl; now rewrite IH.
Qed.

Lemma amendment_keys (amendment : list generator) :
  map snd (create_plant_gen_id amendment) = map plant_gen_id amendment.
Proof.
  unfold create_plant_gen_id. rewrite map_map. reflexivity.
Qed.

Lemma canceled_rows_removed (df c : list generator) :
  drop_plant_gen_id (canceled_rows df c) = removed df c.
Proof.
  unfold canceled_rows, removed. rewrite amendment_keys.
  rewrite (filter_create (fun k => isin k (map plant_gen_id c))).
  apply drop_create.
Qed.

Lemma retired_rows_removed (df c : list generator) :
  drop_plant_gen_id (retired_rows df c) = removed df c.
Proof.
  unfold retired_rows, removed. rewrite amendment_keys.
  rewrite (filter_create (fun k => isin k (map plant_gen_id c))).
  apply drop_create.
Qed.

Lemma remove_canceled_860m_kept (df c : list generator) :
  remove_canceled_860m df c = Ok (kept df c).
Proof.
  unfold remove_canceled_860m, kept, drop_plant_gen_id.
  rewrite amendment_keys.
  rewrite (filter_create (fun k => negb (isin k (map plant_gen_id c)))).
  fold (drop_plant_gen_id
          (create_plant_gen_id
             (filter (fun g => negb (isin (plant_gen_id g)
                                       (map plant_gen_id c))) df))).
  rewrite drop_create.
  destruct (negb (empty _)); [|reflexivity].
  rewrite (filter_create (fun k => isin k (map plant_gen_id c))).
  unfold create_plant_gen_id. rewrite !length_map.
  rewrite (filter_split_length
             (fun g => isin (plant_gen_id g) (map plant_gen_id c)) df)
    at 1.
  rewrite Nat.eqb_refl. reflexivity.
Qed.

Lemma remove_retired_860m_kept (df c : list generator) :
  remove_retired_860m df c = Ok (kept df c).
Proof.
  exact (remove_canceled_860m_kept df c).
Qed.

Lemma removed_kept_disjoint (df c : list generator) (g : generator) :
  In g (removed df c) -> In g (kept df c) -> False.
Proof.
  unfold removed, kept. rewrite !filter_In.
  intros [_ H1] [_ H2]. rewrite H1 in H2. discriminate.
Qed.

Lemma total_capacity_split (df c : list generator) :
  total_capacity df
  == total_capacity (kept df c) + total_capacity (removed df c).
Proof.
  unfold total_capacity.
  rewrite (nansum_perm _ _
             (Permutation_map capacity_mw
                (filter_split_perm
                   (fun g => isin (plant_gen_id g) (map plant_gen_id c))
                   df))).
  rewrite map_app, nansum_app. unfold kept, removed. ring.
Qed.

(** C6.  Removing canceled (and likewise retired) generators partitions the
    input table: both functions return normally (the length assertion never
    fires), the rows they return and the rows they select for removal are
    disjoint sub-tables whose concatenation is a rearrangement of the input,
    so the row counts add up and the capacity total before removal is the
    capacity kept plus the capacity removed. *)
Theorem removal_is_partition (df amendment : list generator) :
  remove_canceled_860m df amendment = Ok (kept df amendment)
  /\ remove_retired_860m df amendment = Ok (kept df amendment)
  /\ drop_plant_gen_id (canceled_rows df amendment) = removed df amendment
  /\ drop_plant_gen_id (retired_rows df amendment) = removed df amendment
  /\ List.length df
     = (List.length (removed df amendment)
        + List.length (kept df amendment))%nat
  /\ Permutation df (removed df amendment ++ kept df amendment)
  /\ (forall g, ~ (In g (removed df amendment) /\ In g (kept df amendment)))
  /\ total_capacity df
     == total_capacity (kept df amendment)
        + total_capacity (removed df amendment).
Proof.
  split; [apply remove_canceled_860m_kept|].
  split; [apply remove_retired_860m_kept|].
  split; [apply canceled_rows_removed|].
  split; [apply retired_rows_removed|].
  split; [apply filter_split_length|].
  split; [apply filter_split_perm|].
  split; [|apply total_capacity_split].
  intros g [H1 H2]. exact (removed_kept_disjoint df amendment g H1 H2).
Qed.

(** C9.  [remove_retired_860m] and [remove_future_retirements_860m] return
    the same result on every pair of tables. *)
Theorem remove_retired_eq_remove_future_retirements
        (df retired_860m : list generator) :
  remove_retired_860m df retired_860m
  = remove_future_retirements_860m df retired_860m.
Proof.
  rewrite remove_retired_860m_kept.
  unfold remove_future_retirements_860m.
  fold (remove_retired_860m df retired_860m).
  symmetry. apply remove_retired_860m_kept.
Qed.

Example remove_canceled_run :
  let g1 := {| plant_id_eia := 3; generator_id := "1";
               technology_description := Some "Nuclear";
               capacity_mw := Some (100 # 1) |} in
  let g2 := {| plant_id_eia := 3; generator_id := "2";
               technology_description := Some "Nuclear";
               capacity_mw := None |} in
  let c := {| plant_id_eia := 3; generator_id := "2";
              technology_description := None; capacity_mw := None |} in
  plant_gen_id g2 = "3_2"
  /\ remove_canceled_860m [g1; g2] [c] = Ok [g1].
Proof. split; reflexivity. Qed.

End Removal.

(** ** Heat-rate estimation: banding and fallback
    ([GeneratorClusters.create_region_technology_clusters], lines 2709-2743,
    and [GeneratorClusters.fill_na_heat_rates]) *)

Module HeatRate.

(** One row of [units_model] after the left merge with the official unit
    heat rates: the three index columns, the unit id, the technology and the
    heat rate (NaN where the merge found no official value). *)
Record unit_row := {
  plant_id_eia : Z;
  prime_mover_code : string;
  energy_source_code_1 : string;
  unit_id_pudl : string;
  technology_description : option string;
  heat_rate_mmbtu_mwh : option Q
}.

Definition index_key : Type := Z * string * string.

Definition index_of (r : unit_row) : index_key :=
  (plant_id_eia r, prime_mover_code r, energy_source_code_1 r).

Definition set_heat_rate (r : unit_row) (v : option Q) : unit_row :=
  {| plant_id_eia := plant_id_eia r;
     prime_mover_code := prime_mover_code r;
     energy_source_code_1 := energy_source_code_1 r;
     unit_id_pudl := unit_id_pudl r;
     technology_description := technology_description r;
     heat_rate_mmbtu_mwh := v |}.

(** [df.loc[mask]]. *)
Definition loc (mask : unit_row -> bool) (df : list unit_row)
  : list unit_row := filter mask df.

(** [df.loc[mask, "heat_rate_mmbtu_mwh"] = values]: the values are written,
    in order, into the rows the mask selects.  Every use computes the values
    from that same selection, so there is one value per selected row. *)
Fixpoint loc_set (mask : unit_row -> bool) (values : list (option Q))
         (df : list unit_row) : list unit_row :=
  match df with
  | [] => []
  | r :: rest =>
      if mask r then
        match values with
        | v :: vs => set_heat_rate r v :: loc_set mask vs rest
        | [] => r :: loc_set mask [] rest
        end
      else r :: loc_set mask values rest
  end.

(** [df.loc[mask, "heat_rate_mmbtu_mwh"] = np.nan]. *)
Definition loc_set_scalar (mask : unit_row -> bool) (v : option Q)
           (df : list unit_row) : list unit_row :=
  map (fun r => if mask r then set_heat_rate r v else r) df.

(** [df.index.map(prime_mover_hr_map)]: a key absent from the dictionary
    maps to NaN.  The dictionary is read as a function from keys to cells;
    an infinite heat rate (fuel use without generation) fails the band like
    any value above 35 and is not told apart from one. *)
Definition index_map (prime_mover_hr_map : index_key -> option Q)
           (df : list unit_row) : list (option Q) :=
  map (fun r => prime_mover_hr_map (index_of r)) df.

Definition hr_isnull (r : unit_row) : bool :=
  isnull (heat_rate_mmbtu_mwh r).

Definition hr_gt_35 (r : unit_row) : bool :=
  cell_gt (heat_rate_mmbtu_mwh r) (35 # 1).

(** Lines 2709-2721: plant/prime-mover/fuel heat rates where the unit heat
    rate is null, then again where it exceeds 35. *)
Definition assign_prime_mover_heat_rates
           (prime_mover_hr_map : index_key -> option Q)
           (units_model : list unit_row) : list unit_row :=
  let units_model :=
    loc_set hr_isnull
            (index_map prime_mover_hr_map (loc hr_isnull units_model))
            units_model in
  loc_set hr_gt_35
          (index_map prime_mover_hr_map (loc hr_gt_35 units_model))
          units_model.

(** Lines 2725-2732. *)
Definition out_of_band (x : option Q) : bool :=
  (cell_lt x (5 # 1) && cell_ne x 0) || cell_gt x (35 # 1).

Definition set_outliers_to_nan (units_model : list unit_row)
  : list unit_row :=
  loc_set_scalar (fun r => out_of_band (heat_rate_mmbtu_mwh r)) None
                 units_model.

(** [Series.median()]: the middle of the sorted non-null values, the mean of
    the two middle values when their number is even, NaN when there is none. *)
Fixpoint insert_sorted (x : Q) (l : list Q) : list Q :=
  match l with
  | [] => [x]
  | y :: rest => if Qle_bool x y then x :: l else y :: insert_sorted x rest
  end.

Fixpoint sort_values (l : list Q) : list Q :=
  match l with
  | [] => []
  | x :: rest => insert_sorted x (sort_values rest)
  end.

Fixpoint dropna (s : list (option Q)) : list Q :=
  match s with
  | [] => []
  | Some v :: rest => v :: dropna rest
  | None :: rest => dropna rest
  end.

Definition median (s : list (option Q)) : option Q :=
  let l := sort_values (dropna s) in
  let n := List.length l in
  match l with
  | [] => None
  | _ :: _ =>
      Some (if Nat.even n
            then (nth (n / 2 - 1) l 0 + nth (n / 2) l 0) / (2 # 1)
            else nth (n / 2) l 0)
  end.

Definition fillna (value : option Q) (x : option Q) : option Q :=
  match x with
  | Some v => Some v
  | None => value
  end.

(** [fill_na_heat_rates]. *)
Definition fill_na_heat_rates (s : list (option Q)) : list (option Q) :=
  if existsb isnull s then
    let median_hr := median s in
    map (fillna median_hr) s
  else s.

(** [units_model.technology_description == tech]; a null technology equals
    nothing, itself included. *)
Definition tech_eq (tech : option string) (r : unit_row) : bool :=
  match tech, technology_description r with
  | Some t, Some t' => String.eqb t' t
  | _, _ => false
  end.

(** One turn of the loop of lines 2735-2743. *)
Definition fill_tech (tech : option string) (units_model : list unit_row)
  : list unit_row :=
  loc_set (tech_eq tech)
          (fill_na_heat_rates
             (map heat_rate_mmbtu_mwh (loc (tech_eq tech) units_model)))
          units_model.

(** The loop: one turn per row of the technology column. *)
Definition fill_null_heat_rates (units_model : list unit_row)
  : list unit_row :=
  fold_left (fun df tech => fill_tech tech df)
            (map technology_description units_model) units_model.

(** The table after banding, before the median fill. *)
Definition banded_units (prime_mover_hr_map : index_key -> option Q)
           (units_model : list unit_row) : list unit_row :=
  set_outliers_to_nan
    (assign_prime_mover_heat_rates prime_mover_hr_map units_model).

(** Lines 2709-2743 as a whole. *)
Definition estimate_heat_rates (prime_mover_hr_map : index_key -> option Q)
           (units_model : list unit_row) : list unit_row :=
  fill_null_heat_rates (banded_units prime_mover_hr_map units_model).

(** The median of the non-null banded heat rates of one technology. *)
Definition technology_median (prime_mover_hr_map : index_key -> option Q)
           (units_model : list unit_row) (tech : option string) : option Q :=
  median (map heat_rate_mmbtu_mwh
              (loc (tech_eq tech)
                   (banded_units prime_mover_hr_map units_model))).

(** A heat rate is in the accepted band: exactly 0, or within [5, 35]. *)
Definition in_band (v : Q) : Prop := v == 0 \/ (5 # 1 <= v /\ v <= 35 # 1).

(** *** Row-wise values, loop invariant and sample data *)

(** The heat rate of a row after lines 2709-2721. *)
Definition prime_mover_value (prime_mover_hr_map : index_key -> option Q)
           (r : unit_row) : option Q :=
  let h := if isnull (heat_rate_mmbtu_mwh r)
           then prime_mover_hr_map (index_of r)
           else heat_rate_mmbtu_mwh r in
  if cell_gt h (35 # 1) then prime_mover_hr_map (index_of r) else h.

(** The heat rate of a row after banding. *)
Definition banded_value (prime_mover_hr_map : index_key -> option Q)
           (r : unit_row) : option Q :=
  let h := prime_mover_value prime_mover_hr_map r in
  if out_of_band h then None else h.

Inductive ascending : list Q -> Prop :=
| asc_nil : ascending []
| asc_one x : ascending [x]
| asc_cons x y l : x <= y -> ascending (y :: l) -> ascending (x :: y :: l).

(** The heat-rate series of one technology. *)
Definition tech_series (tech : option string) (df : list unit_row)
  : list (option Q) :=
  map heat_rate_mmbtu_mwh (loc (tech_eq tech) df).

(** A row once its technology has had its turn in the loop. *)
Definition filled_row (df : list unit_row) (r : unit_row) : unit_row :=
  set_heat_rate r
    (fillna (median (tech_series (technology_description r) df))
            (heat_rate_mmbtu_mwh r)).

(** The technology of [r] is among the technologies already visited. *)
Definition visited (techs : list (option string)) (r : unit_row) : bool :=
  existsb (fun t => tech_eq t r) techs.

Definition partly_filled (df : list unit_row) (techs : list (option string))
           (r : unit_row) : unit_row :=
  if visited techs r then filled_row df r else r.

(** The heat rate of a row when lines 2709-2743 are done. *)
Definition final_value (prime_mover_hr_map : index_key -> option Q)
           (units_model : list unit_row) (r : unit_row) : option Q :=
  fillna (technology_median prime_mover_hr_map units_model
                            (technology_description r))
         (banded_value prime_mover_hr_map r).

(** *** The median as the rank statistics define it *)

(** How many of [vals] are below [x], and how many are [x] at most. *)
Definition count_below (x : Q) (vals : list Q) : nat :=
  List.length (filter (fun v => Qlt_bool v x) vals).

Definition count_up_to (x : Q) (vals : list Q) : nat :=
  List.length (filter (fun v => Qle_bool v x) vals).

(** [x] is the value of rank [k], counted from 0, of [vals] in ascending
    order: it is one of them, at most [k] of them are below it and more than
    [k] of them are no larger. *)
Definition has_rank (vals : list Q) (k : nat) (x : Q) : Prop :=
  In x vals
  /\ (count_below x vals <= k)%nat
  /\ (k < count_up_to x vals)%nat.

(** [m] is the median of [vals]: the mean of the values of the two middle
    ranks, which are one and the same rank when the number of values is
    odd.  No list is sorted here; an empty list has no median. *)
Definition is_median (vals : list Q) (m : Q) : Prop :=
  exists a b,
    has_rank vals ((List.length vals - 1) / 2) a
    /\ has_rank vals (List.length vals / 2) b
    /\ m == (a + b) / (2 # 1).

(** The non-null heat rates, after banding, of the rows of one technology,
    read row by row. *)
Definition same_technology_heat_rates
           (prime_mover_hr_map : index_key -> option Q)
           (units_model : list unit_row) (tech : option string) : list Q :=
  flat_map (fun q => match banded_value prime_mover_hr_map q with
                     | Some v => [v]
                     | None => []
                     end)
           (filter (tech_eq tech) units_model).

(** A small units table: five coal units and a pumped-storage unit. *)
Definition sample_prime_mover_hr_map (k : index_key) : option Q :=
  let '(plant, _, _) := k in
  if (plant =? 1)%Z then Some (21 # 2)
  else if (plant =? 2)%Z then Some (50 # 1)
  else None.

Definition sample_unit (plant : Z) (tech : string) (hr : option Q)
  : unit_row :=
  {| plant_id_eia := plant; prime_mover_code := "ST";
     energy_source_code_1 := "BIT"; unit_id_pudl := "1";
     technology_description := Some tech; heat_rate_mmbtu_mwh := hr |}.

Definition sample_units : list unit_row :=
  [ sample_unit 1 "Conventional Steam Coal" None;
    sample_unit 2 "Conventional Steam Coal" (Some (40 # 1));
    sample_unit 3 "Conventional Steam Coal" (Some (3 # 1));
    sample_unit 4 "Conventional Steam Coal" (Some (9 # 1));
    sample_unit 5 "Hydroelectric Pumped Storage" (Some 0);
    sample_unit 6 "Conventional Steam Coal" (Some (12 # 1)) ].

(** Coal units without an official heat rate: plant 1 has an aggregate of
    10.5, plant 7 has none, plant 2 has one of 50. *)
Definition fallback_units : list unit_row :=
  [ sample_unit 1 "Conventional Steam Coal" None;
    sample_unit 7 "Conventional Steam Coal" None;
    sample_unit 2 "Conventional Steam Coal" None;
    sample_unit 4 "Conventional Steam Coal" (Some (9 # 1));
    sample_unit 6 "Conventional Steam Coal" (Some (12 # 1));
    sample_unit 8 "Conventional Steam Coal" (Some (11 # 1));
    sample_unit 5 "Hydroelectric Pumped Storage" (Some 0) ].

(** *** Row-wise reading of the table operations *)

Lemma set_heat_rate_same (r : unit_row) :
  set_heat_rate r (heat_rate_mmbtu_mwh r) = r.
Proof. destruct r; reflexivity. Qed.

Lemma loc_set_map (mask : unit_row -> bool) (f : unit_row -> option Q)
      (df : list unit_row) :
  loc_set mask (map f (loc mask df)) df
  = map (fun r => if mask r then set_heat_rate r (f r) else r) df.
Proof.
  unfold loc.
  induction df as [|r df IH]; simpl; [reflexivity|].
  destruct (mask r); simpl; now rewrite IH.
Qed.

Lemma assign_prime_mover_heat_rates_map pm (df : list unit_row) :
  assign_prime_mover_heat_rates pm df
  = map (fun r => set_heat_rate r (prime_mover_value pm r)) df.
Proof.
  unfold assign_prime_mover_heat_rates, index_map.
  rewrite !loc_set_map, map_map.
  apply map_ext. intro r.
  unfold prime_mover_value, hr_isnull, hr_gt_35.
  destruct (isnull (heat_rate_mmbtu_mwh r)) eqn:E; simpl.
  - destruct (cell_gt (pm (index_of r)) (35 # 1)); reflexivity.
  - destruct (cell_gt (heat_rate_mmbtu_mwh r) (35 # 1)).
    + reflexivity.
    + symmetry. apply set_heat_rate_same.
Qed.

Lemma banded_units_map pm (df : list unit_row) :
  banded_units pm df = map (fun r => set_heat_rate r (banded_value pm r)) df.
Proof.
  unfold banded_units, set_outliers_to_nan, loc_set_scalar.
  rewrite assign_prime_mover_heat_rates_map, map_map.
  apply map_ext. intro r. unfold banded_value. simpl.
  destruct (out_of_band (prime_mover_value pm r)); reflexivity.
Qed.

(** *** The median *)

Lemma insert_sorted_length (x : Q) (l : list Q) :
  List.length (insert_sorted x l) = S (List.length l).
Proof.
  induction l as [|y l IH]; simpl; [reflexivity|].
  destruct (Qle_bool x y); simpl; [reflexivity|now rewrite IH].
Qed.

Lemma sort_values_length (l : list Q) :
  List.length (sort_values l) = List.length l.
Proof.
  induction l as [|x l IH]; simpl; [reflexivity|].
  now rewrite insert_sorted_length, IH.
Qed.

Lemma insert_sorted_perm (x : Q) (l : list Q) :
  Permutation (x :: l) (insert_sorted x l).
Proof.
  induction l as [|y l IH]; simpl; [constructor; constructor|].
  destruct (Qle_bool x y); [apply Permutation_refl|].
  eapply perm_trans; [apply perm_swap|]. now constructor.
Qed.

Lemma sort_values_perm (l : list Q) : Permutation l (sort_values l).
Proof.
  induction l as [|x l IH]; simpl; [constructor|].
  eapply perm_trans; [|apply insert_sorted_perm]. now constructor.
Qed.

Lemma insert_sorted_ascending (x : Q) (l : list Q) :
  ascending l -> ascending (insert_sorted x l).
Proof.
  induction 1 as [|y|y z l Hyz Hl IH]; simpl.
  - constructor.
  - destruct (Qle_bool x y) eqn:E.
    + constructor; [now apply Qle_bool_iff|constructor].
    + constructor; [|constructor].
      apply Qlt_le_weak. apply Qlt_bool_iff. unfold Qlt_bool. now rewrite E.
  - destruct (Qle_bool x y) eqn:E.
    + constructor; [now apply Qle_bool_iff|now constructor].
    + simpl in IH. destruct (Qle_bool x z) eqn:E2.
      * constructor; [|exact IH].
        apply Qlt_le_weak. apply Qlt_bool_iff. unfold Qlt_bool. now rewrite E.
      * constructor; assumption.
Qed.

Lemma sort_values_ascending (l : list Q) : ascending (sort_values l).
Proof.
  induction l as [|x l IH]; simpl; [constructor|].
  now apply insert_sorted_ascending.
Qed.

Lemma median_none_iff (s : list (option Q)) :
  median s = None <-> dropna s = [].
Proof.
  unfold median.
  pose proof (sort_values_length (dropna s)) as HL.
  destruct (sort_values (dropna s)) as [|x l] eqn:E.
  - split; [|reflexivity]. intros _.
    destruct (dropna s); [reflexivity|discriminate].
  - split; [discriminate|]. intro H. rewrite H in HL. discriminate.
Qed.

Lemma dropna_nil_all_null (s : list (option Q)) :
  dropna s = [] -> forall x, In x s -> x = None.
Proof.
  induction s as [|[v|] s IH]; simpl; intros H x Hx.
  - contradiction.
  - discriminate.
  - destruct Hx as [<-|Hx]; [reflexivity|now apply IH].
Qed.

Lemma fillna_none (x : option Q) : fillna None x = x.
Proof. destruct x; reflexivity. Qed.

Example median_odd :
  median [Some (9 # 1); None; Some (7 # 1); Some (12 # 1)] = Some (9 # 1).
Proof. reflexivity. Qed.

Example median_even :
  match median [Some (0 # 1); None; Some (6 # 1)] with
  | Some m => Qeq_bool m (3 # 1)
  | None => false
  end = true.
Proof. reflexivity. Qed.

Example median_all_null : median [None; None] = None.
Proof. reflexivity. Qed.

(** *** The fill loop *)

Lemma fill_tech_map (tech : option string) (df : list unit_row) :
  fill_tech tech df
  = map (fun r =>
           if tech_eq tech r
           then set_heat_rate r (fillna (median (tech_series tech df))
                                        (heat_rate_mmbtu_mwh r))
           else r) df.
Proof.
  unfold fill_tech, fill_na_heat_rates. fold (tech_series tech df).
  destruct (existsb isnull (tech_series tech df)) eqn:E.
  - unfold tech_series. rewrite map_map. apply loc_set_map.
  - rewrite <- (map_id (tech_series tech df)) at 1.
    unfold tech_series at 1. rewrite map_map, loc_set_map.
    apply map_ext_in. intros r Hr.
    destruct (tech_eq tech r) eqn:Et; [|reflexivity].
    destruct (heat_rate_mmbtu_mwh r) as [v|] eqn:Eh; [reflexivity|].
    exfalso.
    assert (Hin : In None (tech_series tech df)).
    { unfold tech_series. rewrite <- Eh. apply in_map.
      unfold loc. apply filter_In. now split. }
    assert (Hex : existsb isnull (tech_series tech df) = true).
    { apply existsb_exists. exists None. now split. }
    congruence.
Qed.

Lemma tech_eq_true (tech : option string) (r : unit_row) :
  tech_eq tech r = true -> technology_description r = tech.
Proof.
  unfold tech_eq. destruct tech as [t|]; [|discriminate].
  destruct (technology_description r) as [t'|]; [|discriminate].
  intro H. apply String.eqb_eq in H. now subst.
Qed.

Lemma tech_eq_same_tech (tech : option string) (r q : unit_row) :
  technology_description r = technology_description q ->
  tech_eq tech r = tech_eq tech q.
Proof. unfold tech_eq. now intros ->. Qed.

Lemma tech_eq_none (r : unit_row) : tech_eq None r = false.
Proof. reflexivity. Qed.

Lemma visited_same_tech techs (r q : unit_row) :
  technology_description r = technology_description q ->
  visited techs r = visited techs q.
Proof.
  intro H. unfold visited.
  induction techs as [|t techs IH]; simpl; [reflexivity|].
  now rewrite IH, (tech_eq_same_tech t r q H).
Qed.

Lemma partly_filled_tech df techs r :
  technology_description (partly_filled df techs r)
  = technology_description r.
Proof. unfold partly_filled. destruct (visited techs r); reflexivity. Qed.

Lemma loc_partly_filled df techs tech (d : list unit_row) :
  loc (tech_eq tech) (map (partly_filled df techs) d)
  = map (partly_filled df techs) (loc (tech_eq tech) d).
Proof.
  unfold loc. induction d as [|r d IH]; simpl; [reflexivity|].
  rewrite (tech_eq_same_tech tech _ r (partly_filled_tech df techs r)).
  destruct (tech_eq tech r); simpl; now rewrite IH.
Qed.

Lemma fill_tech_step (df : list unit_row) techs tech :
  fill_tech tech (map (partly_filled df techs) df)
  = map (partly_filled df (tech :: techs)) df.
Proof.
  rewrite fill_tech_map, map_map. apply map_ext_in. intros r Hr.
  rewrite (tech_eq_same_tech tech _ r (partly_filled_tech df techs r)).
  change (partly_filled df (tech :: techs) r)
    with (if tech_eq tech r || visited techs r
          then filled_row df r else r).
  destruct (tech_eq tech r) eqn:Et; simpl; [|reflexivity].
  pose proof (tech_eq_true _ _ Et) as Htech.
  assert (Hser :
    tech_series tech (map (partly_filled df techs) df)
    = map (fun q => heat_rate_mmbtu_mwh (partly_filled df techs q))
          (loc (tech_eq tech) df)).
  { unfold tech_series. now rewrite loc_partly_filled, map_map. }
  rewrite Hser. clear Hser.
  destruct (visited techs r) eqn:Ev.
  - (* already filled: a second turn changes nothing *)
    assert (Hall : map (fun q => heat_rate_mmbtu_mwh (partly_filled df techs q))
                       (loc (tech_eq tech) df)
                   = map (fillna (median (tech_series tech df)))
                         (tech_series tech df)).
    { unfold tech_series. rewrite map_map. apply map_ext_in. intros q Hq.
      apply filter_In in Hq. destruct Hq as [_ Hq].
      pose proof (tech_eq_true _ _ Hq) as Hqt.
      unfold partly_filled.
      rewrite (visited_same_tech techs q r) by congruence.
      rewrite Ev. unfold filled_row. simpl. now rewrite Hqt. }
    rewrite Hall. clear Hall.
    unfold partly_filled. rewrite Ev. unfold filled_row. simpl.
    rewrite Htech.
    destruct (median (tech_series tech df)) as [m|] eqn:Em.
    + destruct (heat_rate_mmbtu_mwh r); reflexivity.
    + rewrite (map_ext _ (fun x => x) fillna_none), map_id, Em.
      now rewrite !fillna_none.
  - (* first turn for this technology *)
    assert (Hall : map (fun q => heat_rate_mmbtu_mwh (partly_filled df techs q))
                       (loc (tech_eq tech) df)
                   = tech_series tech df).
    { unfold tech_series. apply map_ext_in. intros q Hq.
      apply filter_In in Hq. destruct Hq as [_ Hq].
      pose proof (tech_eq_true _ _ Hq) as Hqt.
      unfold partly_filled.
      rewrite (visited_same_tech techs q r) by congruence.
      now rewrite Ev. }
    rewrite Hall. clear Hall.
    unfold partly_filled. rewrite Ev. unfold filled_row.
    now rewrite Htech.
Qed.

Lemma fill_loop_invariant (df : list unit_row) (todo techs : list (option string)) :
  fold_left (fun d tech => fill_tech tech d) todo
            (map (partly_filled df techs) df)
  = map (partly_filled df (rev todo ++ techs)) df.
Proof.
  revert techs. induction todo as [|t todo IH]; intro techs; simpl.
  - reflexivity.
  - rewrite fill_tech_step, IH. now rewrite <- app_assoc.
Qed.

Lemma visited_all (df : list unit_row) (r : unit_row) (t : string) :
  In r df -> technology_description r = Some t ->
  visited (rev (map technology_description df) ++ []) r = true.
Proof.
  intros Hin Ht. unfold visited. apply existsb_exists.
  exists (Some t). split.
  - rewrite app_nil_r, <- in_rev, <- Ht. now apply in_map.
  - unfold tech_eq. rewrite Ht. apply String.eqb_refl.
Qed.

Lemma fill_null_heat_rates_map (df : list unit_row) :
  fill_null_heat_rates df = map (filled_row df) df.
Proof.
  unfold fill_null_heat_rates.
  assert (H0 : map (partly_filled df []) df = df).
  { transitivity (map (fun x : unit_row => x) df); [|apply map_id].
    apply map_ext. reflexivity. }
  rewrite <- H0 at 2. rewrite fill_loop_invariant.
  apply map_ext_in. intros r Hr. unfold partly_filled.
  destruct (technology_description r) as [t|] eqn:Et.
  - now rewrite (visited_all df r t Hr Et).
  - destruct (visited _ r); [reflexivity|].
    unfold filled_row. rewrite Et. unfold tech_series, loc.
    assert (Hnil : filter (tech_eq None) df = []).
    { clear. induction df; simpl; [reflexivity|assumption]. }
    rewrite Hnil.
    change (median (map heat_rate_mmbtu_mwh [])) with (@None Q).
    now rewrite fillna_none, set_heat_rate_same.
Qed.

Lemma estimate_heat_rates_map pm (df : list unit_row) :
  estimate_heat_rates pm df
  = map (fun r => set_heat_rate r (final_value pm df r)) df.
Proof.
  unfold estimate_heat_rates. rewrite fill_null_heat_rates_map.
  rewrite banded_units_map at 2. rewrite map_map.
  apply map_ext. intro r. unfold filled_row, final_value, technology_median.
  reflexivity.
Qed.

Lemma estimate_heat_rates_nth pm (df : list unit_row) (i : nat) (r : unit_row) :
  nth_error df i = Some r ->
  nth_error (estimate_heat_rates pm df) i
  = Some (set_heat_rate r (final_value pm df r)).
Proof.
  intro H. rewrite estimate_heat_rates_map, nth_error_map, H. reflexivity.
Qed.

Lemma banded_units_nth pm (df : list unit_row) (i : nat) (r : unit_row) :
  nth_error df i = Some r ->
  nth_error (banded_units pm df) i
  = Some (set_heat_rate r (banded_value pm r)).
Proof.
  intro H. rewrite banded_units_map, nth_error_map, H. reflexivity.
Qed.

(** *** The band *)

Lemma out_of_band_some (v : Q) : out_of_band (Some v) = false <-> in_band v.
Proof.
  unfold out_of_band, in_band, cell_lt, cell_gt, cell_ne.
  rewrite orb_false_iff, andb_false_iff, negb_false_iff.
  rewrite !Qlt_bool_false_iff, Qeq_bool_iff.
  split.
  - intros [[H | H] H2]; [right; now split | now left].
  - intros [H | [H1 H2]].
    + split; [now right|]. rewrite H. discriminate.
    + split; [now left | assumption].
Qed.

Lemma out_of_band_none : out_of_band None = false.
Proof. reflexivity. Qed.

Lemma banded_value_in_band pm (r : unit_row) (v : Q) :
  banded_value pm r = Some v -> in_band v.
Proof.
  unfold banded_value.
  destruct (out_of_band (prime_mover_value pm r)) eqn:E; [discriminate|].
  intro H. rewrite H in E. now apply out_of_band_some.
Qed.

Lemma banded_value_official_in_band pm (r : unit_row) (h : Q) :
  heat_rate_mmbtu_mwh r = Some h -> in_band h -> banded_value pm r = Some h.
Proof.
  intros Hh Hb. unfold banded_value, prime_mover_value. rewrite Hh. simpl.
  pose proof (proj2 (out_of_band_some h) Hb) as Hout.
  assert (Hgt : Qlt_bool (35 # 1) h = false).
  { apply Qlt_bool_false_iff. destruct Hb as [H | [_ H]]; [|exact H].
    rewrite H. discriminate. }
  rewrite Hgt. now rewrite Hout.
Qed.

Lemma banded_value_official_low pm (r : unit_row) (h : Q) :
  heat_rate_mmbtu_mwh r = Some h -> h < 5 # 1 -> ~ h == 0 ->
  banded_value pm r = None.
Proof.
  intros Hh Hlt Hnz. unfold banded_value, prime_mover_value. rewrite Hh. simpl.
  assert (Hgt : Qlt_bool (35 # 1) h = false).
  { apply Qlt_bool_false_iff. apply Qlt_le_weak.
    eapply Qlt_trans; [exact Hlt | reflexivity]. }
  rewrite Hgt.
  destruct (out_of_band (Some h)) eqn:E; [reflexivity|].
  apply out_of_band_some in E. destruct E as [E | [E _]].
  - contradiction.
  - exfalso. apply (Qlt_not_le _ _ Hlt E).
Qed.

Lemma banded_value_replaced pm (r : unit_row) :
  cell_gt (heat_rate_mmbtu_mwh r) (35 # 1) = true
  \/ heat_rate_mmbtu_mwh r = None ->
  banded_value pm r
  = if out_of_band (pm (index_of r)) then None else pm (index_of r).
Proof.
  intros H. unfold banded_value, prime_mover_value.
  destruct (heat_rate_mmbtu_mwh r) as [h|] eqn:Hh; simpl.
  - destruct H as [H | H]; [|discriminate]. simpl in H. rewrite H.
    reflexivity.
  - destruct (cell_gt (pm (index_of r)) (35 # 1)); reflexivity.
Qed.

Lemma dropna_In (s : list (option Q)) (v : Q) :
  In v (dropna s) -> In (Some v) s.
Proof.
  induction s as [|[w|] s IH]; simpl; intro H.
  - contradiction.
  - destruct H as [<- | H]; [now left | right; now apply IH].
  - right; now apply IH.
Qed.

Lemma median_in_range (lo hi : Q) (s : list (option Q)) (m : Q) :
  (forall v, In (Some v) s -> lo <= v /\ v <= hi) ->
  median s = Some m -> lo <= m /\ m <= hi.
Proof.
  intros Hall. unfold median.
  remember (sort_values (dropna s)) as l eqn:El.
  assert (Hl : forall k, (k < List.length l)%nat ->
                         lo <= nth k l 0 /\ nth k l 0 <= hi).
  { intros k Hk. apply Hall, dropna_In.
    apply (Permutation_in _ (Permutation_sym (sort_values_perm (dropna s)))).
    rewrite <- El. now apply nth_In. }
  assert (Hlen : l <> [] -> (0 < List.length l)%nat).
  { destruct l; [congruence | simpl; lia]. }
  remember (List.length l) as n eqn:En.
  destruct l as [|x l'] eqn:E0; [discriminate|].
  rewrite <- E0 in *.
  assert (Hn : (0 < n)%nat) by (apply Hlen; rewrite E0; discriminate).
  assert (H2 : (n / 2 < n)%nat) by (apply Nat.div_lt; lia).
  intro H.
  assert (Hm : (if Nat.even n
                then (nth (n / 2 - 1) l 0 + nth (n / 2) l 0) / (2 # 1)
                else nth (n / 2) l 0) = m) by congruence.
  clear H. destruct (Nat.even n).
  - pose proof (Hl (n / 2 - 1)%nat ltac:(lia)) as [Ha1 Ha2].
    pose proof (Hl (n / 2)%nat H2) as [Hb1 Hb2].
    rewrite <- Hm. split.
    + apply Qle_shift_div_l; [reflexivity|]. lra.
    + apply Qle_shift_div_r; [reflexivity|]. lra.
  - rewrite <- Hm. now apply Hl.
Qed.

Lemma in_band_range (v : Q) : in_band v -> 0 <= v /\ v <= 35 # 1.
Proof.
  intros [H | [H1 H2]].
  - rewrite H. split; discriminate.
  - split; [|exact H2]. eapply Qle_trans; [|exact H1]. discriminate.
Qed.

Lemma final_value_range pm (df : list unit_row) (r : unit_row) (v : Q) :
  final_value pm df r = Some v -> 0 <= v /\ v <= 35 # 1.
Proof.
  unfold final_value.
  destruct (banded_value pm r) as [b|] eqn:Eb; simpl.
  - intro H. injection H as <-.
    apply in_band_range. now apply (banded_value_in_band pm r).
  - unfold technology_median. apply median_in_range.
    intros w Hw. apply in_map_iff in Hw. destruct Hw as [q [Hq1 Hq2]].
    apply filter_In in Hq2. destruct Hq2 as [Hq2 _].
    rewrite banded_units_map in Hq2.
    apply in_map_iff in Hq2. destruct Hq2 as [q0 [<- _]].
    simpl in Hq1. apply in_band_range.
    now apply (banded_value_in_band pm q0).
Qed.

(** C1.  Heat-rate banding.  For a row of the units table with an official
    heat rate [h]: after banding (before the median fill) every heat rate in
    the table is missing, exactly 0, or within [5, 35]; a heat rate of exactly
    0 or within [5, 35] (so 0, 5 and 35) is kept unchanged to the end; a
    heat rate below 5 other than 0 (so 3) is reset to missing and then takes
    the technology median; a heat rate above 35 (so 40) is replaced by the
    plant/prime-mover/fuel value when that one is in the band and otherwise
    reset to missing and filled with the technology median, and is never
    kept.  No heat rate outside [0, 35] survives. *)
Theorem heat_rate_banding
        (prime_mover_hr_map : index_key -> option Q)
        (units_model : list unit_row) (i : nat) (r : unit_row) (h : Q)
        (Hrow : nth_error units_model i = Some r)
        (Hraw : heat_rate_mmbtu_mwh r = Some h) :
  let before_fill := banded_value prime_mover_hr_map r in
  let after_fill := final_value prime_mover_hr_map units_model r in
  nth_error (banded_units prime_mover_hr_map units_model) i
  = Some (set_heat_rate r before_fill)
  /\ nth_error (estimate_heat_rates prime_mover_hr_map units_model) i
     = Some (set_heat_rate r after_fill)
  /\ (forall q v, In q (banded_units prime_mover_hr_map units_model) ->
                  heat_rate_mmbtu_mwh q = Some v -> in_band v)
  /\ (in_band h -> before_fill = Some h /\ after_fill = Some h)
  /\ (h < 5 # 1 /\ ~ h == 0 ->
      before_fill = None
      /\ after_fill
         = technology_median prime_mover_hr_map units_model
                             (technology_description r))
  /\ (35 # 1 < h ->
      before_fill
      = (if out_of_band (prime_mover_hr_map (index_of r))
         then None else prime_mover_hr_map (index_of r))
      /\ after_fill
         = fillna (technology_median prime_mover_hr_map units_model
                                     (technology_description r))
                  before_fill
      /\ after_fill <> Some h)
  /\ (forall v, after_fill = Some v -> 0 <= v /\ v <= 35 # 1).
Proof.
  intros before_fill after_fill.
  split; [now apply banded_units_nth|].
  split; [now apply estimate_heat_rates_nth|].
  split.
  { intros q v Hq Hv. rewrite banded_units_map in Hq.
    apply in_map_iff in Hq. destruct Hq as [q0 [<- _]].
    simpl in Hv. now apply (banded_value_in_band prime_mover_hr_map q0). }
  split.
  { intro Hb. unfold after_fill, final_value. fold before_fill.
    assert (E : before_fill = Some h)
      by now apply banded_value_official_in_band.
    rewrite E. now split. }
  split.
  { intros [Hlt Hnz]. unfold after_fill, final_value. fold before_fill.
    assert (E : before_fill = None)
      by now apply (banded_value_official_low prime_mover_hr_map r h).
    rewrite E. now split. }
  split.
  { intro Hgt. split; [|split].
    - apply banded_value_replaced. left. rewrite Hraw. simpl.
      now apply Qlt_bool_iff.
    - reflexivity.
    - intro E.
      destruct (final_value_range prime_mover_hr_map units_model r h E)
        as [_ Hle].
      apply (Qlt_not_le _ _ Hgt Hle). }
  intros v Hv. now apply (final_value_range prime_mover_hr_map units_model r).
Qed.

(** *** The median by ranks *)

Lemma filter_length_perm {A : Type} (p : A -> bool) (l l' : list A) :
  Permutation l l' ->
  List.length (filter p l) = List.length (filter p l').
Proof.
  induction 1 as [|x l l' _ IH|x y l|l l' l'' _ IH1 _ IH2]; simpl.
  - reflexivity.
  - destruct (p x); simpl; now rewrite IH.
  - destruct (p x), (p y); reflexivity.
  - now rewrite IH1.
Qed.

Lemma filter_length_le {A : Type} (p q : A -> bool) (l : list A) :
  (forall x, p x = true -> q x = true) ->
  (List.length (filter p l) <= List.length (filter q l))%nat.
Proof.
  intro H. induction l as [|x l IH]; simpl; [lia|].
  destruct (p x) eqn:Ep.
  - rewrite (H x Ep). simpl. lia.
  - destruct (q x); simpl; lia.
Qed.

Lemma ascending_tail (x : Q) (l : list Q) :
  ascending (x :: l) -> ascending l.
Proof. inversion 1; [constructor | assumption]. Qed.

Lemma ascending_head_le (x : Q) (l : list Q) :
  ascending (x :: l) -> forall y, In y l -> x <= y.
Proof.
  revert x. induction l as [|z l IH]; intros x H y Hy; [contradiction|].
  inversion H as [| |x' z' l' Hxz Hzl]; subst.
  destruct Hy as [<- | Hy]; [exact Hxz|].
  apply Qle_trans with z; [exact Hxz | now apply IH].
Qed.

Lemma ascending_rank (l : list Q) (k : nat) :
  ascending l -> (k < List.length l)%nat -> has_rank l k (nth k l 0).
Proof.
  revert k. induction l as [|x l IH]; intros k Hasc Hk; simpl in Hk; [lia|].
  pose proof (ascending_head_le x l Hasc) as Hmin.
  destruct k as [|k].
  - simpl. split; [now left|]. unfold count_below, count_up_to. simpl.
    assert (Hxx : Qlt_bool x x = false)
      by (apply Qlt_bool_false_iff; apply Qle_refl).
    assert (Hle : Qle_bool x x = true)
      by (apply Qle_bool_iff; apply Qle_refl).
    rewrite Hxx, Hle. simpl. split; [|lia].
    assert (E : filter (fun v => Qlt_bool v x) l = []).
    { clear - Hmin. induction l as [|y l IH]; [reflexivity|]. simpl.
      assert (Hy : Qlt_bool y x = false)
        by (apply Qlt_bool_false_iff; apply Hmin; now left).
      rewrite Hy. apply IH. intros z Hz. apply Hmin. now right. }
    rewrite E. simpl. lia.
  - assert (Hk' : (k < List.length l)%nat) by lia.
    destruct (IH k (ascending_tail x l Hasc) Hk') as (Hin & Hlo & Hhi).
    change (nth (S k) (x :: l) 0) with (nth k l 0).
    set (y := nth k l 0) in *.
    split; [now right|]. unfold count_below, count_up_to in *. simpl.
    assert (Hxy : Qle_bool x y = true)
      by (apply Qle_bool_iff; now apply Hmin).
    rewrite Hxy. simpl. split; [|lia].
    destruct (Qlt_bool x y); simpl; lia.
Qed.

Lemma has_rank_perm (l l' : list Q) (k : nat) (x : Q) :
  Permutation l l' -> has_rank l k x -> has_rank l' k x.
Proof.
  intros Hp (Hin & Hlo & Hhi). unfold has_rank, count_below, count_up_to in *.
  rewrite <- (filter_length_perm (fun v => Qlt_bool v x) l l' Hp).
  rewrite <- (filter_length_perm (fun v => Qle_bool v x) l l' Hp).
  split; [exact (Permutation_in x Hp Hin) | now split].
Qed.

(** A rank has one value. *)
Lemma has_rank_unique (vals : list Q) (k : nat) (x y : Q) :
  has_rank vals k x -> has_rank vals k y -> x == y.
Proof.
  assert (Hlt : forall a b, has_rank vals k a -> has_rank vals k b ->
                            a < b -> False).
  { intros a b (_ & _ & Ha) (_ & Hb & _) Hab.
    unfold count_below, count_up_to in *.
    pose proof (filter_length_le (fun v => Qle_bool v a)
                                 (fun v => Qlt_bool v b) vals) as H.
    assert (Hle : (List.length (filter (fun v => Qle_bool v a) vals)
                   <= List.length (filter (fun v => Qlt_bool v b) vals))%nat).
    { apply H. intros v Hv. apply Qle_bool_iff in Hv.
      apply Qlt_bool_iff. now apply Qle_lt_trans with a. }
    lia. }
  intros Hx Hy. destruct (Q_dec x y) as [[H | H] | H].
  - exfalso. exact (Hlt x y Hx Hy H).
  - exfalso. exact (Hlt y x Hy Hx H).
  - exact H.
Qed.

(** A list has one median. *)
Lemma is_median_unique (vals : list Q) (m m' : Q) :
  is_median vals m -> is_median vals m' -> m == m'.
Proof.
  intros (a & b & Ha & Hb & Hm) (a' & b' & Ha' & Hb' & Hm').
  rewrite Hm, Hm'.
  rewrite (has_rank_unique vals _ a a' Ha Ha').
  rewrite (has_rank_unique vals _ b b' Hb Hb').
  reflexivity.
Qed.

(** [Series.median()] returns the median of the non-null values, and NaN
    exactly when there is none. *)
Lemma median_is_median (s : list (option Q)) :
  match median s with
  | Some m => is_median (dropna s) m
  | None => dropna s = []
  end.
Proof.
  destruct (median s) as [m|] eqn:E; [|now apply median_none_iff].
  unfold median in E.
  pose proof (sort_values_perm (dropna s)) as Hperm.
  pose proof (sort_values_ascending (dropna s)) as Hasc.
  pose proof (sort_values_length (dropna s)) as Hlen.
  set (l := sort_values (dropna s)) in *.
  set (n := List.length l) in *.
  assert (Hn : (0 < n)%nat).
  { unfold n. destruct l; [discriminate | simpl; lia]. }
  assert (Hm : (if Nat.even n
                then (nth (n / 2 - 1) l 0 + nth (n / 2) l 0) / (2 # 1)
                else nth (n / 2) l 0) = m).
  { destruct l; [discriminate | now injection E]. }
  clear E.
  assert (Hlo : ((n - 1) / 2 < n)%nat).
  { apply Nat.le_lt_trans with (n - 1)%nat; [|lia].
    apply Nat.Div0.div_le_upper_bound. lia. }
  assert (Hhi : (n / 2 < n)%nat) by (apply Nat.div_lt; lia).
  exists (nth ((n - 1) / 2) l 0), (nth (n / 2) l 0).
  rewrite <- Hlen. fold n.
  split; [|split].
  - apply (has_rank_perm l); [now apply Permutation_sym|].
    now apply ascending_rank.
  - apply (has_rank_perm l); [now apply Permutation_sym|].
    now apply ascending_rank.
  - rewrite <- Hm. destruct (Nat.even n) eqn:Ev.
    + apply Nat.even_spec in Ev. destruct Ev as [j Hj].
      assert (E1 : ((n - 1) / 2 = n / 2 - 1)%nat).
      { assert (E2 : (n / 2 = j)%nat)
          by (rewrite Hj, Nat.mul_comm; apply Nat.div_mul; lia).
        rewrite E2. symmetry.
        apply (Nat.div_unique (n - 1) 2 (j - 1) 1); lia. }
      rewrite E1. reflexivity.
    + assert (Hodd : Nat.odd n = true)
        by (unfold Nat.odd; now rewrite Ev).
      apply Nat.odd_spec in Hodd. destruct Hodd as [j Hj].
      assert (E1 : ((n - 1) / 2 = n / 2)%nat).
      { assert (E2 : (n / 2 = j)%nat)
          by (symmetry; apply (Nat.div_unique n 2 j 1); lia).
        rewrite E2. replace (n - 1)%nat with (j * 2)%nat by lia.
        apply Nat.div_mul. lia. }
      rewrite E1. field.
Qed.

Lemma banded_heat_rates pm (df : list unit_row) (tech : option string) :
  dropna (map heat_rate_mmbtu_mwh (loc (tech_eq tech) (banded_units pm df)))
  = same_technology_heat_rates pm df tech.
Proof.
  rewrite banded_units_map. unfold loc, same_technology_heat_rates.
  induction df as [|r df IH]; [reflexivity|]. simpl.
  change (tech_eq tech (set_heat_rate r (banded_value pm r)))
    with (tech_eq tech r).
  destruct (tech_eq tech r); [|exact IH]. simpl.
  destruct (banded_value pm r); simpl; now rewrite IH.
Qed.

(** C2.  Fallback chain.  For a row with no official heat rate: when the
    plant/prime-mover/fuel aggregate has a value in the band (10.5, say) the
    final heat rate is that value; when the aggregate is absent or out of the
    band, the final heat rate is the median of the non-null banded heat rates
    of the rows with the same technology (the mean of the two middle ranks),
    and it is missing only when no row of the technology has a heat
    rate. *)
Theorem heat_rate_fallback_chain
        (prime_mover_hr_map : index_key -> option Q)
        (units_model : list unit_row) (i : nat) (r : unit_row)
        (Hrow : nth_error units_model i = Some r)
        (Hraw : heat_rate_mmbtu_mwh r = None) :
  let after_fill := final_value prime_mover_hr_map units_model r in
  let others :=
    same_technology_heat_rates prime_mover_hr_map units_model
                               (technology_description r) in
  nth_error (estimate_heat_rates prime_mover_hr_map units_model) i
  = Some (set_heat_rate r after_fill)
  /\ (forall v, prime_mover_hr_map (index_of r) = Some v -> in_band v ->
                after_fill = Some v)
  /\ (prime_mover_hr_map (index_of r) = None
      \/ (exists v, prime_mover_hr_map (index_of r) = Some v /\ ~ in_band v)
      -> match after_fill with
         | Some m => is_median others m
         | None => others = []
         end).
Proof.
  intros after_fill others.
  split; [now apply estimate_heat_rates_nth|].
  pose proof (banded_value_replaced prime_mover_hr_map r (or_intror Hraw))
    as Hb.
  unfold after_fill, final_value. rewrite Hb.
  split.
  - intros v Hv Hin. rewrite Hv.
    now rewrite (proj2 (out_of_band_some v) Hin).
  - intro Hno.
    assert (E : (if out_of_band (prime_mover_hr_map (index_of r))
                 then None else prime_mover_hr_map (index_of r)) = None).
    { destruct Hno as [Hnone | [v [Hv Hout]]].
      - now rewrite Hnone.
      - rewrite Hv. destruct (out_of_band (Some v)) eqn:E; [reflexivity|].
        apply out_of_band_some in E. contradiction. }
    rewrite E. simpl. unfold technology_median.
    pose proof (median_is_median
                  (map heat_rate_mmbtu_mwh
                       (loc (tech_eq (technology_description r))
                            (banded_units prime_mover_hr_map units_model))))
      as Hmed.
    rewrite banded_heat_rates in Hmed. exact Hmed.
Qed.

Example sample_heat_rates :
  map heat_rate_mmbtu_mwh
      (estimate_heat_rates sample_prime_mover_hr_map sample_units)
  = [ Some (21 # 2); Some (21 # 2); Some (21 # 2); Some (9 # 1); Some 0;
      Some (12 # 1) ].
Proof. reflexivity. Qed.

Lemma heat_rate_banding_witness :
  nth_error sample_units 2
  = Some (sample_unit 3 "Conventional Steam Coal" (Some (3 # 1)))
  /\ banded_value sample_prime_mover_hr_map
                  (sample_unit 3 "Conventional Steam Coal" (Some (3 # 1)))
     = None
  /\ final_value sample_prime_mover_hr_map sample_units
                 (sample_unit 3 "Conventional Steam Coal" (Some (3 # 1)))
     = technology_median sample_prime_mover_hr_map sample_units
                         (Some "Conventional Steam Coal").
Proof.
  split; [reflexivity|].
  destruct (heat_rate_banding sample_prime_mover_hr_map sample_units 2
              (sample_unit 3 "Conventional Steam Coal" (Some (3 # 1)))
              (3 # 1) eq_refl eq_refl)
    as (_ & _ & _ & _ & Hlow & _).
  apply Hlow. split; [reflexivity | discriminate].
Defined.

Lemma heat_rate_fallback_chain_witness :
  nth_error fallback_units 0
  = Some (sample_unit 1 "Conventional Steam Coal" None)
  /\ final_value sample_prime_mover_hr_map fallback_units
                 (sample_unit 1 "Conventional Steam Coal" None)
     = Some (21 # 2)
  /\ nth_error fallback_units 1
     = Some (sample_unit 7 "Conventional Steam Coal" None)
  /\ same_technology_heat_rates sample_prime_mover_hr_map fallback_units
                                (Some "Conventional Steam Coal")
     = [21 # 2; 9 # 1; 12 # 1; 11 # 1]
  /\ exists m,
       final_value sample_prime_mover_hr_map fallback_units
                   (sample_unit 7 "Conventional Steam Coal" None)
       = Some m
       /\ m == 43 # 4.
Proof.
  split; [reflexivity|]. split.
  { destruct (heat_rate_fallback_chain
                sample_prime_mover_hr_map fallback_units 0
                (sample_unit 1 "Conventional Steam Coal" None)
                eq_refl eq_refl)
      as (_ & Hpm & _).
    apply Hpm; [reflexivity|]. right. split; discriminate. }
  split; [reflexivity|]. split; [reflexivity|].
  destruct (heat_rate_fallback_chain
              sample_prime_mover_hr_map fallback_units 1
              (sample_unit 7 "Conventional Steam Coal" None)
              eq_refl eq_refl)
    as (_ & _ & Hmed).
  specialize (Hmed (or_introl eq_refl)). cbv zeta in Hmed.
  change (same_technology_heat_rates
            sample_prime_mover_hr_map fallback_units
            (technology_description
               (sample_unit 7 "Conventional Steam Coal" None)))
    with [21 # 2; 9 # 1; 12 # 1; 11 # 1] in Hmed.
  destruct (final_value sample_prime_mover_hr_map fallback_units
                        (sample_unit 7 "Conventional Steam Coal" None))
    as [m|]; [|discriminate Hmed].
  exists m. split; [reflexivity|].
  apply (is_median_unique [21 # 2; 9 # 1; 12 # 1; 11 # 1] m (43 # 4) Hmed).
  exists (21 # 2), (11 # 1).
  unfold has_rank, count_below, count_up_to. simpl.
  repeat split; try lia; auto.
Defined.

End HeatRate.

(** ** Clustering unit-groups and aggregating each cluster
    ([calc_unit_cluster_values] and the loop of
    [GeneratorClusters.create_region_technology_clusters], lines 2856-2932) *)

Module Clustering.

(** One row of [grouped], the table [group_units] returns for one
    (region, technology) group: one row per (plant, unit-group).  Capacity and
    minimum load are sums and never NaN; the three means can be NaN. *)
Record unit_group := {
  plant_id_eia : Z;
  unit_id_pudl : string;
  capacity_col : Q;
  minimum_load_mw : Q;
  heat_rate_mmbtu_mwh : option Q;
  Fixed_OM_Cost_per_MWyr : option Q;
  Var_OM_Cost_per_MWh : option Q
}.

(** [grouped] before and after the column [cluster] is added: a clustered
    row is the row paired with its 1-based label. *)
Inductive frame : Type :=
| Unclustered (rows : list unit_group)
| Clustered (rows : list (unit_group * nat)).

(** One row of the table [calc_unit_cluster_values] returns.  The columns
    keep the names of the input columns in the code; here the aggregate is
    part of the name.  The diagnostic columns (inter-quartile range and
    standard deviations) feed nothing else and are left out. *)
Record cluster_row := {
  cluster : nat;
  capacity_mean : Q;
  minimum_load_mw_mean : Q;
  heat_rate_mmbtu_mwh_wm : option Q;
  Fixed_OM_Cost_per_MWyr_wm : option Q;
  Var_OM_Cost_per_MWh_wm : option Q;
  Min_Power : Q;
  num_units : nat;
  technology : option string
}.

Definition count (rows : list (unit_group * nat)) : Q :=
  inject_Z (Z.of_nat (List.length rows)).

(** ["mean"] of a non-NaN column over the rows of one group. *)
Definition mean (col : unit_group -> Q) (rows : list (unit_group * nat)) : Q :=
  Qsum (map (fun r => col (fst r)) rows) / count rows.

(** [sum(x * w)]; NaN as soon as one [x] is NaN. *)
Fixpoint weighted_sum (col : unit_group -> option Q)
         (rows : list (unit_group * nat)) : option Q :=
  match rows with
  | [] => Some 0
  | r :: rest =>
      match col (fst r), weighted_sum col rest with
      | Some x, Some acc => Some (x * capacity_col (fst r) + acc)
      | _, _ => None
      end
  end.

Definition total_weight (rows : list (unit_group * nat)) : Q :=
  Qsum (map (fun r => capacity_col (fst r)) rows).

(** [wm]: [np.average(x, weights=df.loc[x.index, capacity_col])]. *)
Definition wm (col : unit_group -> option Q) (rows : list (unit_group * nat))
  : result (option Q) :=
  if Qeq_bool (total_weight rows) 0
  then Raise (ZeroDivisionError "Weights sum to zero, can't be normalized")
  else Ok (option_map (fun s => s / total_weight rows)
                      (weighted_sum col rows)).

(** The keys of [df.groupby("cluster")], ascending. *)
Definition cluster_keys (df : list (unit_group * nat)) : list nat :=
  filter (fun c => existsb (fun r => snd r =? c)%nat df)
         (seq 0 (S (list_max (map snd df)))).

Definition members (c : nat) (df : list (unit_group * nat))
  : list (unit_group * nat) :=
  filter (fun r => snd r =? c)%nat df.

Fixpoint traverse {A B : Type} (f : A -> result B) (l : list A)
  : result (list B) :=
  match l with
  | [] => Ok []
  | a :: rest => b <- f a ;; bs <- traverse f rest ;; Ok (b :: bs)
  end.

(** [if technology: df_values["technology"] = technology]: the column is
    set for a non-empty name only. *)
Definition technology_column (technology : option string) : option string :=
  match technology with
  | Some t => if String.eqb t "" then None else Some t
  | None => None
  end.

(** Rows whose heat rate is null are dropped (lines 1269-1278). *)
Definition drop_null_heat_rates (df : list (unit_group * nat))
  : list (unit_group * nat) :=
  if existsb (fun r => isnull (heat_rate_mmbtu_mwh (fst r))) df
  then filter (fun r => negb (isnull (heat_rate_mmbtu_mwh (fst r)))) df
  else df.

Definition aggregate_cluster (df : list (unit_group * nat))
           (tech : option string) (c : nat) : result cluster_row :=
  let rows := members c df in
  hr <- wm heat_rate_mmbtu_mwh rows ;;
  fom <- wm Fixed_OM_Cost_per_MWyr rows ;;
  vom <- wm Var_OM_Cost_per_MWh rows ;;
  Ok {| cluster := c;
        capacity_mean := mean capacity_col rows;
        minimum_load_mw_mean := mean minimum_load_mw rows;
        heat_rate_mmbtu_mwh_wm := hr;
        Fixed_OM_Cost_per_MWyr_wm := fom;
        Var_OM_Cost_per_MWh_wm := vom;
        Min_Power := mean minimum_load_mw rows / mean capacity_col rows;
        num_units := List.length rows;
        technology := technology_column tech |}.

Definition calc_unit_cluster_values (df : frame) (technology : option string)
  : result (list cluster_row) :=
  match df with
  | Unclustered _ => Raise (KeyError "cluster")
  | Clustered df =>
      let df := drop_null_heat_rates df in
      traverse (aggregate_cluster df technology) (cluster_keys df)
  end.

(** One row of [cluster_list]: the aggregates with the region and the ids of
    the member unit-groups (lines 2924-2930). *)
Record region_cluster := {
  values : cluster_row;
  region : string;
  member_plant_id_eia : list Z;
  member_unit_id_pudl : list string
}.

Definition label_region (region : string) (grouped : frame)
           (row : cluster_row) : region_cluster :=
  let rows := match grouped with
              | Clustered rows => members (cluster row) rows
              | Unclustered _ => []
              end in
  {| values := row;
     region := region;
     member_plant_id_eia := map (fun r => plant_id_eia (fst r)) rows;
     member_unit_id_pudl := map (fun r => unit_id_pudl (fst r)) rows |}.

(** The feature columns handed to the scaler and k-means. *)
Definition cluster_cols (g : unit_group) : list (option Q) :=
  [Fixed_OM_Cost_per_MWyr g; heat_rate_mmbtu_mwh g].

Definition all_cols (g : unit_group) : list (option Q) :=
  [Some (capacity_col g); Some (minimum_load_mw g); heat_rate_mmbtu_mwh g;
   Fixed_OM_Cost_per_MWyr g; Var_OM_Cost_per_MWh g].

(** [grouped["cluster"] = clusters.labels_ + 1]. *)
Definition set_cluster (grouped : list unit_group) (labels_ : list nat)
  : result frame :=
  if (List.length labels_ =? List.length grouped)%nat
  then Ok (Clustered (combine grouped (map S labels_)))
  else Raise (ValueError "Length of values does not match length of index").

(** [region in alt_cluster_method and
     tech in alt_cluster_method[region]["technology_description"]]. *)
Definition uses_alt_method (alt_cluster_method : list (string * list string))
           (region tech : string) : bool :=
  existsb (fun e => String.eqb (fst e) region
                    && existsb (String.eqb tech) (snd e))
          alt_cluster_method.

Definition set_num_clusters (num_clusters : string -> string -> Z)
           (region tech : string) (k : Z) : string -> string -> Z :=
  fun r t => if String.eqb r region && String.eqb t tech
             then k else num_clusters r t.

Section Loop.

(** The state of the random generator k-means draws from when it is given
    no seed, and scikit-learn's
    [cluster.KMeans(n_clusters, random_state).fit(
       preprocessing.StandardScaler().fit_transform(X)).labels_]. *)
Variable Entropy : Type.
Variable KMeans_labels :
  option Z -> Z -> list (list (option Q)) -> Entropy
  -> result (list nat) * Entropy.

Record loop_state := {
  num_clusters : string -> string -> Z;
  unit_list : list frame;
  cluster_list : list (list region_cluster)
}.

(** k-means with the seed of the code, then the 1-based labels. *)
Definition kmeans_frame (k : Z) (X : list (list (option Q)))
           (grouped : list unit_group) (e : Entropy)
  : result (Z * frame) * Entropy :=
  match KMeans_labels (Some 6%Z) k X e with
  | (Ok labels_, e') => (f <- set_cluster grouped labels_ ;; Ok (k, f), e')
  | (Raise err, e') => (Raise err, e')
  end.

(** The clustering step of one turn (lines 2863-2916): the cluster count
    in force afterwards and the table [grouped], with the random state. *)
Definition assign_clusters (alt_cluster_method : list (string * list string))
           (region tech : string) (grouped : list unit_group)
           (k : Z) (e : Entropy)
  : result (Z * frame) * Entropy :=
  match alt_cluster_method with
  | [] =>
      if (k >? 0)%Z then
        let k := if (Z.of_nat (List.length grouped) <? k)%Z
                 then Z.of_nat (List.length grouped) else k in
        kmeans_frame k (map cluster_cols grouped) grouped e
      else (Ok (k, Unclustered grouped), e)
  | _ :: _ =>
      if uses_alt_method alt_cluster_method region tech then
        (* [self.weighted_ownership] is never assigned *)
        (Raise (AttributeError "weighted_ownership"), e)
      else if (k >? 0)%Z then
        kmeans_frame k (map all_cols grouped) grouped e
      else (Ok (k, Unclustered grouped), e)
  end.

(** One turn of the loop over the (region, technology) groups. *)
Definition cluster_group (alt_cluster_method : list (string * list string))
           (group : string * string * list unit_group)
           (st : loop_state) (e : Entropy)
  : result loop_state * Entropy :=
  let '(region, tech, grouped) := group in
  match assign_clusters alt_cluster_method region tech grouped
                        (num_clusters st region tech) e with
  | (Raise err, e') => (Raise err, e')
  | (Ok (k, grouped), e') =>
      let num := set_num_clusters (num_clusters st) region tech k in
      let units := unit_list st ++ [grouped] in
      if (k =? 0)%Z then
        (Ok {| num_clusters := num; unit_list := units;
               cluster_list := cluster_list st |}, e')
      else
        match calc_unit_cluster_values grouped (Some tech) with
        | Raise err => (Raise err, e')
        | Ok _df =>
            (Ok {| num_clusters := num; unit_list := units;
                   cluster_list :=
                     cluster_list st
                     ++ [map (label_region region grouped) _df] |}, e')
        end
  end.

Fixpoint cluster_groups (alt_cluster_method : list (string * list string))
         (groups : list (string * string * list unit_group))
         (st : loop_state) (e : Entropy) : result loop_state * Entropy :=
  match groups with
  | [] => (Ok st, e)
  | g :: rest =>
      match cluster_group alt_cluster_method g st e with
      | (Ok st', e') => cluster_groups alt_cluster_method rest st' e'
      | (Raise err, e') => (Raise err, e')
      end
  end.

End Loop.

(** *** The k-means contract and sample data *)

(** The aggregate row of a cluster whose capacities do not sum to zero. *)
Definition aggregate_row (df : list (unit_group * nat))
           (tech : option string) (c : nat) : cluster_row :=
  let rows := members c df in
  {| cluster := c;
     capacity_mean := mean capacity_col rows;
     minimum_load_mw_mean := mean minimum_load_mw rows;
     heat_rate_mmbtu_mwh_wm :=
       option_map (fun s => s / total_weight rows)
                  (weighted_sum heat_rate_mmbtu_mwh rows);
     Fixed_OM_Cost_per_MWyr_wm :=
       option_map (fun s => s / total_weight rows)
                  (weighted_sum Fixed_OM_Cost_per_MWyr rows);
     Var_OM_Cost_per_MWh_wm :=
       option_map (fun s => s / total_weight rows)
                  (weighted_sum Var_OM_Cost_per_MWh rows);
     Min_Power := mean minimum_load_mw rows / mean capacity_col rows;
     num_units := List.length rows;
     technology := technology_column tech |}.

(** What scikit-learn promises of the labels: one per row of [X], each below
    [n_clusters]; and k-means runs whenever [1 <= n_clusters <= len(X)] and
    [X] holds no NaN. *)
Definition KMeans_contract {Entropy : Type}
           (KMeans_labels : option Z -> Z -> list (list (option Q))
                            -> Entropy -> result (list nat) * Entropy)
  : Prop :=
  (forall rs k X e labels_ e',
      KMeans_labels rs k X e = (Ok labels_, e') ->
      List.length labels_ = List.length X
      /\ forall l, In l labels_ -> (Z.of_nat l < k)%Z)
  /\ (forall rs k X e,
        (0 < k <= Z.of_nat (List.length X))%Z ->
        (forall x c, In x X -> In c x -> c <> None) ->
        exists labels_ e', KMeans_labels rs k X e = (Ok labels_, e')).

Definition sizes (rows : list region_cluster) : list nat :=
  map (fun row => num_units (values row)) rows.

Definition KMeans_accepts (k : Z) (X : list (list (option Q))) : bool :=
  ((0 <? k)%Z && (k <=? Z.of_nat (List.length X))%Z)
  && forallb (forallb (fun c => negb (isnull c))) X.

(** Every row takes the first label: what k-means returns when all rows of
    [X] coincide, each point being at distance 0 from every centre. *)
Definition KMeans_first_label (rs : option Z) (k : Z)
           (X : list (list (option Q))) (e : nat)
  : result (list nat) * nat :=
  if KMeans_accepts k X
  then (Ok (map (fun _ => 0%nat) X), S e)
  else (Raise (ValueError "KMeans"), S e).

(** Row [i] takes label [i mod k]. *)
Definition KMeans_round_robin (rs : option Z) (k : Z)
           (X : list (list (option Q))) (e : nat)
  : result (list nat) * nat :=
  if KMeans_accepts k X
  then (Ok (map (fun i => i mod Z.to_nat k)%nat (seq 0 (List.length X))),
        S e)
  else (Raise (ValueError "KMeans"), S e).

(** Row [i] takes label [(i + offset) mod k], the offset being the seed, or
    drawn from the random state when no seed is given. *)
Definition KMeans_shifted (rs : option Z) (k : Z)
           (X : list (list (option Q))) (e : nat)
  : result (list nat) * nat :=
  if KMeans_accepts k X
  then
    let offset := match rs with
                  | Some seed => Z.to_nat seed
                  | None => e
                  end in
    (Ok (map (fun i => (i + offset) mod Z.to_nat k)%nat
             (seq 0 (List.length X))), S e)
  else (Raise (ValueError "KMeans"), S e).

Definition sample_unit_group (plant : Z) (cap minload hr fom vom : Q)
  : unit_group :=
  {| plant_id_eia := plant; unit_id_pudl := "1";
     capacity_col := cap; minimum_load_mw := minload;
     heat_rate_mmbtu_mwh := Some hr;
     Fixed_OM_Cost_per_MWyr := Some fom;
     Var_OM_Cost_per_MWh := Some vom |}.

Definition sample_grouped : list unit_group :=
  [ sample_unit_group 1 (100 # 1) (40 # 1) (10 # 1) (30 # 1) (2 # 1);
    sample_unit_group 2 (300 # 1) (60 # 1) (12 # 1) (30 # 1) (4 # 1) ].

(** Two unit-groups with the same fixed O&M and heat rate. *)
Definition twin_grouped : list unit_group :=
  [ sample_unit_group 1 (100 # 1) (40 # 1) (10 # 1) (30 # 1) (2 # 1);
    sample_unit_group 2 (300 # 1) (60 # 1) (10 # 1) (30 # 1) (4 # 1) ].

(** Four unit-groups in two clusters: the third has no heat rate and is
    dropped, the fourth has no variable O&M cost. *)
Definition mixed_clustered : list (unit_group * nat) :=
  [ (sample_unit_group 1 (100 # 1) (40 # 1) (10 # 1) (30 # 1) (2 # 1), 1%nat);
    (sample_unit_group 2 (300 # 1) (60 # 1) (12 # 1) (30 # 1) (4 # 1), 1%nat);
    ({| plant_id_eia := 3; unit_id_pudl := "1";
        capacity_col := 50 # 1; minimum_load_mw := 10 # 1;
        heat_rate_mmbtu_mwh := None;
        Fixed_OM_Cost_per_MWyr := Some (25 # 1);
        Var_OM_Cost_per_MWh := Some (3 # 1) |}, 2%nat);
    ({| plant_id_eia := 4; unit_id_pudl := "1";
        capacity_col := 200 # 1; minimum_load_mw := 80 # 1;
        heat_rate_mmbtu_mwh := Some (9 # 1);
        Fixed_OM_Cost_per_MWyr := Some (20 # 1);
        Var_OM_Cost_per_MWh := None |}, 2%nat) ].

Definition sample_state (k : Z) : loop_state :=
  {| num_clusters := fun _ _ => k; unit_list := []; cluster_list := [] |}.

(** *** Aggregation *)

Lemma traverse_inv {A B : Type} (f : A -> result B) (l : list A)
      (bs : list B) :
  traverse f l = Ok bs -> Forall2 (fun a b => f a = Ok b) l bs.
Proof.
  revert bs. induction l as [|a l IH]; simpl; intros bs H.
  - injection H as <-. constructor.
  - destruct (f a) as [b|] eqn:Ea; simpl in H; [|discriminate].
    destruct (traverse f l) as [bs'|] eqn:El; simpl in H; [|discriminate].
    injection H as <-. constructor; [exact Ea | now apply IH].
Qed.

Lemma traverse_total {A B : Type} (f : A -> result B) (l : list A) :
  (forall a, In a l -> exists b, f a = Ok b) ->
  exists bs, traverse f l = Ok bs.
Proof.
  induction l as [|a l IH]; simpl; intro H.
  - now exists [].
  - destruct (H a (or_introl eq_refl)) as [b Hb].
    destruct IH as [bs Hbs]; [intros; apply H; now right|].
    exists (b :: bs). now rewrite Hb, Hbs.
Qed.

Lemma Forall2_In_r {A B : Type} (R : A -> B -> Prop) (l : list A)
      (bs : list B) (b : B) :
  Forall2 R l bs -> In b bs -> exists a, In a l /\ R a b.
Proof.
  induction 1 as [|a b' l bs HR _ IH]; simpl; intro H; [contradiction|].
  destruct H as [<- | H].
  - exists a. split; [now left | exact HR].
  - destruct (IH H) as [a' [Ha' HR']]. exists a'. split; [now right | exact HR'].
Qed.

Lemma aggregate_cluster_eq (df : list (unit_group * nat))
      (tech : option string) (c : nat) :
  aggregate_cluster df tech c
  = if Qeq_bool (total_weight (members c df)) 0
    then Raise (ZeroDivisionError "Weights sum to zero, can't be normalized")
    else Ok (aggregate_row df tech c).
Proof.
  unfold aggregate_cluster, wm, aggregate_row.
  destruct (Qeq_bool (total_weight (members c df)) 0); reflexivity.
Qed.

Lemma cluster_keys_In (df : list (unit_group * nat)) (c : nat) :
  In c (cluster_keys df) <-> exists r, In r df /\ snd r = c.
Proof.
  unfold cluster_keys. rewrite filter_In, existsb_exists. split.
  - intros [_ [r [Hr Hc]]]. exists r. split; [exact Hr|].
    now apply Nat.eqb_eq.
  - intros [r [Hr Hc]]. split.
    + apply in_seq. split; [lia|]. simpl.
      assert (H : (list_max (map snd df) <= list_max (map snd df))%nat)
        by lia.
      apply list_max_le in H. rewrite Forall_forall in H.
      specialize (H c). rewrite <- Hc in *.
      specialize (H (in_map snd df r Hr)). lia.
    + exists r. split; [exact Hr | now apply Nat.eqb_eq].
Qed.

Lemma cluster_keys_NoDup (df : list (unit_group * nat)) :
  NoDup (cluster_keys df).
Proof. unfold cluster_keys. apply NoDup_filter, seq_NoDup. Qed.

Lemma members_nonempty (df : list (unit_group * nat)) (c : nat) :
  In c (cluster_keys df) -> members c df <> [].
Proof.
  intro H. apply cluster_keys_In in H. destruct H as [r [Hr Hc]].
  intro E. assert (Hin : In r (members c df)).
  { unfold members. apply filter_In. split; [exact Hr|now apply Nat.eqb_eq]. }
  rewrite E in Hin. contradiction.
Qed.

Lemma count_pos (rows : list (unit_group * nat)) :
  rows <> [] -> 0 < count rows.
Proof.
  intro H. unfold count. destruct rows; [congruence|].
  unfold Qlt. simpl. lia.
Qed.

Lemma mean_capacity_nonzero (rows : list (unit_group * nat)) :
  rows <> [] -> ~ total_weight rows == 0 -> ~ mean capacity_col rows == 0.
Proof.
  intros Hne Hw Hm. apply Hw. unfold mean in Hm. fold (total_weight rows) in Hm.
  pose proof (count_pos rows Hne) as Hc.
  assert (Hc0 : ~ count rows == 0) by (intro E; rewrite E in Hc; discriminate).
  rewrite <- (Qmult_div_r (total_weight rows) (count rows) Hc0).
  rewrite Hm. ring.
Qed.

Lemma drop_null_heat_rates_id (df : list (unit_group * nat)) :
  (forall r, In r df -> heat_rate_mmbtu_mwh (fst r) <> None) ->
  drop_null_heat_rates df = df.
Proof.
  intro H. unfold drop_null_heat_rates.
  destruct (existsb _ df) eqn:E; [|reflexivity].
  apply existsb_exists in E. destruct E as [r [Hr Hn]].
  specialize (H r Hr). destruct (heat_rate_mmbtu_mwh (fst r));
    [discriminate | congruence].
Qed.

Lemma drop_null_heat_rates_spec (df : list (unit_group * nat)) :
  drop_null_heat_rates df
  = filter (fun r => negb (isnull (heat_rate_mmbtu_mwh (fst r)))) df.
Proof.
  unfold drop_null_heat_rates.
  destruct (existsb _ df) eqn:E; [reflexivity|].
  symmetry. apply forallb_filter_id. apply forallb_forall. intros r Hr.
  destruct (isnull (heat_rate_mmbtu_mwh (fst r))) eqn:En; [|reflexivity].
  assert (existsb (fun r => isnull (heat_rate_mmbtu_mwh (fst r))) df = true)
    by (apply existsb_exists; now exists r).
  congruence.
Qed.

Lemma weighted_sum_some (col : unit_group -> option Q)
      (rows : list (unit_group * nat)) :
  (forall r, In r rows -> col (fst r) <> None) ->
  exists s, weighted_sum col rows = Some s.
Proof.
  induction rows as [|r rows IH]; simpl; intro H.
  - now exists 0.
  - destruct (col (fst r)) as [x|] eqn:Ex.
    + destruct IH as [s Hs]; [intros; apply H; now right|].
      rewrite Hs. now eexists.
    + exfalso. apply (H r); [now left | exact Ex].
Qed.

(** The sum np.average divides, written out: the products of the values
    with the capacities, added up. *)
Lemma weighted_sum_products (col : unit_group -> option Q)
      (rows : list (unit_group * nat)) (xs : list Q) :
  map (fun r => col (fst r)) rows = map Some xs ->
  weighted_sum col rows
  = Some (Qsum (map (fun p => fst p * snd p)
                    (combine xs (map (fun r => capacity_col (fst r))
                                     rows)))).
Proof.
  revert xs. induction rows as [|r rows IH]; intros [|x xs] H;
    simpl in H; try discriminate; [reflexivity|].
  injection H as Hx Hrest. simpl. rewrite Hx, (IH xs Hrest). reflexivity.
Qed.

(** One NaN among the values makes the sum NaN. *)
Lemma weighted_sum_nan (col : unit_group -> option Q)
      (rows : list (unit_group * nat)) :
  (exists r, In r rows /\ col (fst r) = None) ->
  weighted_sum col rows = None.
Proof.
  induction rows as [|r rows IH]; intros [q [Hq Hn]]; [contradiction|].
  simpl. destruct Hq as [-> | Hq].
  - now rewrite Hn.
  - rewrite IH by (now exists q). now destruct (col (fst r)).
Qed.

Lemma values_of_non_null (col : unit_group -> option Q)
      (rows : list (unit_group * nat)) :
  (forall r, In r rows -> col (fst r) <> None) ->
  exists xs, map (fun r => col (fst r)) rows = map Some xs.
Proof.
  induction rows as [|r rows IH]; intro H.
  - now exists [].
  - destruct IH as [xs Hxs]; [intros; apply H; now right|].
    destruct (col (fst r)) as [x|] eqn:Ex.
    + exists (x :: xs). simpl. now rewrite Ex, Hxs.
    + exfalso. apply (H r); [now left | exact Ex].
Qed.

Lemma StronglySorted_seq (a n : nat) : StronglySorted lt (seq a n).
Proof.
  revert a. induction n as [|n IH]; intro a; simpl; constructor.
  - apply IH.
  - apply Forall_forall. intros x Hx. apply in_seq in Hx. lia.
Qed.

Lemma StronglySorted_filter {A : Type} (R : A -> A -> Prop)
      (p : A -> bool) (l : list A) :
  StronglySorted R l -> StronglySorted R (filter p l).
Proof.
  induction 1 as [|a l Hl IH Ha]; simpl; [constructor|].
  destruct (p a); [|exact IH]. constructor; [exact IH|].
  apply Forall_forall. intros x Hx. apply filter_In in Hx.
  rewrite Forall_forall in Ha. now apply Ha.
Qed.

Lemma cluster_keys_sorted (df : list (unit_group * nat)) :
  StronglySorted lt (cluster_keys df).
Proof. unfold cluster_keys. apply StronglySorted_filter, StronglySorted_seq. Qed.

(** C4.  Aggregation per cluster.  The members of a cluster are the rows
    with its label, less the rows whose heat rate is null, which are dropped
    first.  [calc_unit_cluster_values] returns normally exactly when no
    cluster's capacities sum to zero, and then it returns one row per
    cluster label, in ascending order, in which: capacity and minimum load
    are the sums over the members divided by their number; heat rate and
    fixed and variable O&M are the sums of value times capacity divided by
    the sum of the capacities (the heat rate never NaN, a cost NaN as soon
    as one member's cost is); num_units is the number of members; and
    Min_Power is the mean minimum load divided by the mean capacity, which
    is not zero.  A table with no null heat rate loses no row. *)
Theorem cluster_aggregation_semantics
        (df : list (unit_group * nat)) (tech : option string) :
  let kept :=
    filter (fun r => negb (isnull (heat_rate_mmbtu_mwh (fst r)))) df in
  let members_of c := filter (fun r => (snd r =? c)%nat) kept in
  let column (col : unit_group -> Q) c :=
    map (fun r => col (fst r)) (members_of c) in
  let products (xs ws : list Q) :=
    map (fun p => fst p * snd p) (combine xs ws) in
  (is_ok (calc_unit_cluster_values (Clustered df) tech) = true
   <-> forall r, In r kept -> ~ Qsum (column capacity_col (snd r)) == 0)
  /\ (forall rows,
        calc_unit_cluster_values (Clustered df) tech = Ok rows ->
        StronglySorted lt (map cluster rows)
        /\ (forall c, In c (map cluster rows)
                      <-> exists r, In r kept /\ snd r = c)
        /\ forall row, In row rows ->
             let ms := members_of (cluster row) in
             let n := inject_Z (Z.of_nat (List.length ms)) in
             let ws := column capacity_col (cluster row) in
             let weighted_mean (col : unit_group -> option Q)
                               (v : option Q) :=
               (forall xs,
                   map (fun r => col (fst r)) ms = map Some xs ->
                   v = Some (Qsum (products xs ws) / Qsum ws))
               /\ ((exists r, In r ms /\ col (fst r) = None) -> v = None) in
             ms <> []
             /\ num_units row = List.length ms
             /\ capacity_mean row = Qsum ws / n
             /\ minimum_load_mw_mean row
                = Qsum (column minimum_load_mw (cluster row)) / n
             /\ (exists xs,
                    map (fun r => heat_rate_mmbtu_mwh (fst r)) ms
                    = map Some xs
                    /\ heat_rate_mmbtu_mwh_wm row
                       = Some (Qsum (products xs ws) / Qsum ws))
             /\ weighted_mean Fixed_OM_Cost_per_MWyr
                              (Fixed_OM_Cost_per_MWyr_wm row)
             /\ weighted_mean Var_OM_Cost_per_MWh
                              (Var_OM_Cost_per_MWh_wm row)
             /\ Min_Power row
                = (Qsum (column minimum_load_mw (cluster row)) / n)
                  / (Qsum ws / n)
             /\ ~ Qsum ws == 0
             /\ ~ Qsum ws / n == 0)
  /\ ((forall r, In r df -> heat_rate_mmbtu_mwh (fst r) <> None) ->
      kept = df).
Proof.
  intros kept members_of column products.
  assert (Hkept : drop_null_heat_rates df = kept)
    by apply drop_null_heat_rates_spec.
  simpl calc_unit_cluster_values. rewrite Hkept.
  assert (Hweight : forall c, total_weight (members c kept)
                              = Qsum (column capacity_col c))
    by reflexivity.
  split; [|split].
  - split.
    + intros Hok r Hr Hz.
      assert (Hc : In (snd r) (cluster_keys kept))
        by (apply cluster_keys_In; now exists r).
      destruct (traverse (aggregate_cluster kept tech) (cluster_keys kept))
        as [rows|] eqn:E; [|discriminate].
      apply traverse_inv in E.
      assert (Hex : exists row, aggregate_cluster kept tech (snd r) = Ok row).
      { clear Hok. induction E as [|a b l bs Hab _ IH]; [contradiction|].
        destruct Hc as [<- | Hc]; [now exists b | now apply IH]. }
      destruct Hex as [row Hrow]. rewrite aggregate_cluster_eq in Hrow.
      rewrite <- Hweight in Hz.
      apply Qeq_bool_iff in Hz. rewrite Hz in Hrow. discriminate.
    + intro H.
      destruct (traverse_total (aggregate_cluster kept tech)
                               (cluster_keys kept)) as [rows Hrows].
      * intros c Hc. rewrite aggregate_cluster_eq.
        destruct (Qeq_bool (total_weight (members c kept)) 0) eqn:E.
        -- apply Qeq_bool_iff in E. exfalso.
           apply cluster_keys_In in Hc. destruct Hc as [r [Hr <-]].
           exact (H r Hr E).
        -- now eexists.
      * now rewrite Hrows.
  - intros rows Hrows. apply traverse_inv in Hrows.
    assert (Hkeys : map cluster rows = cluster_keys kept).
    { induction Hrows as [|c row l bs Hc _ IH]; [reflexivity|].
      simpl. rewrite IH. f_equal.
      rewrite aggregate_cluster_eq in Hc.
      destruct (Qeq_bool _ 0); [discriminate|]. now injection Hc as <-. }
    split; [rewrite Hkeys; apply cluster_keys_sorted|].
    split; [intro c; rewrite Hkeys; apply cluster_keys_In|].
    intros row Hrow.
    destruct (Forall2_In_r _ _ _ _ Hrows Hrow) as [c [Hc Hagg]].
    rewrite aggregate_cluster_eq in Hagg.
    destruct (Qeq_bool (total_weight (members c kept)) 0) eqn:Ez;
      [discriminate|].
    injection Hagg as <-. cbv zeta. cbn [cluster aggregate_row].
    fold (members c kept).
    assert (Hw : ~ total_weight (members c kept) == 0).
    { intro E. apply Qeq_bool_iff in E. congruence. }
    pose proof (members_nonempty kept c Hc) as Hne.
    assert (Hwm : forall col,
               (forall xs,
                   map (fun r => col (fst r)) (members c kept) = map Some xs ->
                   option_map (fun s => s / total_weight (members c kept))
                              (weighted_sum col (members c kept))
                   = Some (Qsum (products xs (column capacity_col c))
                           / Qsum (column capacity_col c)))
               /\ ((exists r, In r (members c kept) /\ col (fst r) = None) ->
                   option_map (fun s => s / total_weight (members c kept))
                              (weighted_sum col (members c kept))
                   = None)).
    { intro col. split.
      - intros xs Hxs. now rewrite (weighted_sum_products col _ xs Hxs).
      - intro Hnan. now rewrite (weighted_sum_nan col _ Hnan). }
    split; [exact Hne|]. split; [reflexivity|]. split; [reflexivity|].
    split; [reflexivity|]. split.
    { destruct (values_of_non_null heat_rate_mmbtu_mwh (members c kept))
        as [xs Hxs].
      { intros r Hr. apply filter_In in Hr. destruct Hr as [Hr _].
        apply filter_In in Hr. destruct Hr as [_ Hr].
        destruct (heat_rate_mmbtu_mwh (fst r)); [discriminate|discriminate]. }
      exists xs. split; [exact Hxs|].
      exact (proj1 (Hwm heat_rate_mmbtu_mwh) xs Hxs). }
    split; [exact (Hwm Fixed_OM_Cost_per_MWyr)|].
    split; [exact (Hwm Var_OM_Cost_per_MWh)|].
    split; [reflexivity|]. split; [exact Hw|].
    exact (mean_capacity_nonzero (members c kept) Hne Hw).
  - intro H. unfold kept. apply forallb_filter_id. apply forallb_forall.
    intros r Hr. specialize (H r Hr).
    now destruct (heat_rate_mmbtu_mwh (fst r)).
Qed.

(** *** Counting clusters and members *)

Lemma indicator_sum (c : nat) (keys : list nat) :
  NoDup keys -> In c keys ->
  list_sum (map (fun k => if (c =? k)%nat then 1 else 0)%nat keys) = 1%nat.
Proof.
  induction 1 as [|k keys Hk Hnd IH]; simpl; intro Hin; [contradiction|].
  destruct Hin as [-> | Hin].
  - rewrite Nat.eqb_refl.
    assert (H0 : list_sum (map (fun k => if (c =? k)%nat then 1 else 0)%nat
                               keys) = 0%nat).
    { clear IH Hnd. induction keys as [|k keys IH]; simpl; [reflexivity|].
      destruct (c =? k)%nat eqn:E.
      - apply Nat.eqb_eq in E. subst. exfalso. apply Hk. now left.
      - apply IH. intro H. apply Hk. now right. }
    lia.
  - destruct (c =? k)%nat eqn:E.
    + apply Nat.eqb_eq in E. subst. contradiction.
    + now apply IH.
Qed.

Lemma members_length_sum (df : list (unit_group * nat)) (keys : list nat) :
  NoDup keys -> (forall r, In r df -> In (snd r) keys) ->
  list_sum (map (fun c => List.length (members c df)) keys)
  = List.length df.
Proof.
  intros Hnd. induction df as [|r df IH]; intro Hin.
  - clear. induction keys; simpl; [reflexivity | assumption].
  - assert (Hsplit :
      map (fun c => List.length (members c (r :: df))) keys
      = map (fun c => ((if (snd r =? c)%nat then 1 else 0)
                       + List.length (members c df))%nat) keys).
    { apply map_ext. intro c. unfold members. simpl.
      destruct (snd r =? c)%nat; reflexivity. }
    rewrite Hsplit.
    assert (Hadd : forall (f g : nat -> nat) l,
               list_sum (map (fun c => (f c + g c)%nat) l)
               = (list_sum (map f l) + list_sum (map g l))%nat).
    { intros f g l. induction l; simpl; lia. }
    rewrite Hadd, IH by (intros; apply Hin; now right).
    rewrite (indicator_sum (snd r) keys Hnd (Hin r (or_introl eq_refl))).
    reflexivity.
Qed.

Lemma cluster_keys_length_sum (df : list (unit_group * nat)) :
  list_sum (map (fun c => List.length (members c df)) (cluster_keys df))
  = List.length df.
Proof.
  apply members_length_sum; [apply cluster_keys_NoDup|].
  intros r Hr. apply cluster_keys_In. now exists r.
Qed.

Lemma all_ones (l : list nat) :
  (forall x, In x l -> 1 <= x)%nat -> list_sum l = List.length l ->
  forall x, In x l -> x = 1%nat.
Proof.
  induction l as [|y l IH]; simpl; intros Hge Hsum x Hx; [contradiction|].
  assert (Hlow : (List.length l <= list_sum l)%nat).
  { clear IH Hsum Hx. induction l as [|z l IHl]; simpl; [lia|].
    assert (1 <= z)%nat by (apply Hge; right; now left).
    assert (List.length l <= list_sum l)%nat.
    { apply IHl. intros w Hw. apply Hge. simpl.
      destruct Hw as [-> | Hw]; [now left | right; now right]. }
    lia. }
  assert (1 <= y)%nat by (apply Hge; now left).
  destruct Hx as [<- | Hx]; [lia|].
  apply IH; [intros; apply Hge; now right | lia | exact Hx].
Qed.

Lemma total_weight_pos (rows : list (unit_group * nat)) :
  rows <> [] -> (forall r, In r rows -> 0 < capacity_col (fst r)) ->
  0 < total_weight rows.
Proof.
  unfold total_weight.
  induction rows as [|r rows IH]; intros Hne Hpos; [congruence|].
  simpl. assert (H1 : 0 < capacity_col (fst r)) by (apply Hpos; now left).
  destruct rows as [|r' rows'].
  - simpl. lra.
  - assert (0 < Qsum (map (fun r0 => capacity_col (fst r0)) (r' :: rows'))).
    { apply IH; [discriminate|]. intros; apply Hpos; now right. }
    lra.
Qed.

Lemma in_combine_exists {A B : Type} (a : list A) (b : list B) (y : B) :
  List.length a = List.length b -> In y b ->
  exists x, In (x, y) (combine a b).
Proof.
  revert b. induction a as [|x a IH]; intros [|y' b] Hlen Hin;
    simpl in *; try contradiction; try discriminate.
  destruct Hin as [-> | Hin].
  - exists x. now left.
  - destruct (IH b ltac:(lia) Hin) as [x' Hx']. exists x'. now right.
Qed.

Lemma traverse_ok {A B : Type} (f : A -> result B) (g : A -> B)
      (l : list A) :
  (forall a, In a l -> f a = Ok (g a)) -> traverse f l = Ok (map g l).
Proof.
  induction l as [|a l IH]; simpl; intro H; [reflexivity|].
  rewrite (H a (or_introl eq_refl)). simpl.
  rewrite IH by (intros; apply H; now right). reflexivity.
Qed.

Lemma calc_unit_cluster_values_ok (df : list (unit_group * nat))
      (tech : option string) :
  (forall c, In c (cluster_keys (drop_null_heat_rates df)) ->
             ~ total_weight (members c (drop_null_heat_rates df)) == 0) ->
  calc_unit_cluster_values (Clustered df) tech
  = Ok (map (aggregate_row (drop_null_heat_rates df) tech)
            (cluster_keys (drop_null_heat_rates df))).
Proof.
  intro H. simpl. apply traverse_ok. intros c Hc.
  rewrite aggregate_cluster_eq.
  destruct (Qeq_bool _ 0) eqn:E; [|reflexivity].
  apply Qeq_bool_iff in E. exfalso. exact (H c Hc E).
Qed.

Lemma min_clamp (k n : Z) :
  (if (n <? k)%Z then n else k) = Z.min k n.
Proof. destruct (Z.ltb_spec n k); lia. Qed.

Lemma set_num_clusters_same num (region tech : string) (k : Z) :
  set_num_clusters num region tech k region tech = k.
Proof. unfold set_num_clusters. now rewrite !String.eqb_refl. Qed.

(** The default method on one group: the labels k-means returns decide the
    clusters. *)
Lemma cluster_group_default
      (Entropy : Type)
      (KMeans_labels : option Z -> Z -> list (list (option Q)) -> Entropy
                       -> result (list nat) * Entropy)
      (region tech : string) (grouped : list unit_group)
      (st : loop_state) (e e' : Entropy) (labels_ : list nat) :
  let k := Z.min (num_clusters st region tech)
                 (Z.of_nat (List.length grouped)) in
  let df := combine grouped (map S labels_) in
  (0 < k)%Z ->
  KMeans_labels (Some 6%Z) k (map cluster_cols grouped) e
  = (Ok labels_, e') ->
  List.length labels_ = List.length grouped ->
  (forall g, In g grouped -> heat_rate_mmbtu_mwh g <> None) ->
  (forall g, In g grouped -> 0 < capacity_col g) ->
  cluster_group Entropy KMeans_labels [] (region, tech, grouped) st e
  = (Ok {| num_clusters :=
             set_num_clusters (num_clusters st) region tech k;
           unit_list := unit_list st ++ [Clustered df];
           cluster_list :=
             cluster_list st
             ++ [map (label_region region (Clustered df))
                     (map (aggregate_row df (Some tech))
                          (cluster_keys df))] |}, e').
Proof.
  intros k df Hk HKM Hlen Hhr Hcap.
  assert (Hk0 : (0 < num_clusters st region tech)%Z) by (unfold k in Hk; lia).
  unfold cluster_group, assign_clusters.
  assert (Hgt : (num_clusters st region tech >? 0)%Z = true) by lia.
  rewrite Hgt, min_clamp. fold k. unfold kmeans_frame. rewrite HKM.
  unfold set_cluster. rewrite Hlen, Nat.eqb_refl. simpl bind. cbv iota beta.
  fold df.
  assert (Hz : (k =? 0)%Z = false) by lia. rewrite Hz.
  assert (Hdrop : drop_null_heat_rates df = df).
  { apply drop_null_heat_rates_id. intros r Hr. apply Hhr.
    destruct r as [g c]. apply (in_combine_l _ _ _ _ Hr). }
  rewrite calc_unit_cluster_values_ok; rewrite Hdrop.
  - reflexivity.
  - intros c Hc Hz0.
    assert (Hpos : 0 < total_weight (members c df)).
    { apply total_weight_pos; [now apply members_nonempty|].
      intros r Hr. apply filter_In in Hr. destruct Hr as [Hr _].
      apply Hcap. destruct r as [g c']. apply (in_combine_l _ _ _ _ Hr). }
    rewrite Hz0 in Hpos. discriminate.
Qed.

Lemma sizes_label_region (region : string) (df : list (unit_group * nat))
      (tech : option string) (keys : list nat) :
  sizes (map (label_region region (Clustered df))
             (map (aggregate_row df tech) keys))
  = map (fun c => List.length (members c df)) keys.
Proof. unfold sizes. rewrite !map_map. reflexivity. Qed.

Lemma labels_label_region (region : string) (df : list (unit_group * nat))
      (tech : option string) (keys : list nat) :
  map (fun row => cluster (values row))
      (map (label_region region (Clustered df))
           (map (aggregate_row df tech) keys))
  = keys.
Proof. rewrite !map_map. simpl. apply map_id. Qed.

(** C3 (as the code has it).  Under the default method, for a group of
    [n >= 1] unit-groups with configured [num_clusters > 0], complete
    features and positive capacities, and any k-means labelling that meets
    scikit-learn's contract: the cluster count in force becomes
    [min(num_clusters, n)]; the turn returns normally and produces one
    cluster per distinct label, so at most [min(num_clusters, n)] clusters,
    each with [num_units >= 1], the sizes summing to [n]; and when the
    labelling uses every label there are exactly [min(num_clusters, n)]
    clusters, all singletons when [num_clusters >= n]. *)
Theorem cluster_partition
        (Entropy : Type)
        (KMeans_labels : option Z -> Z -> list (list (option Q)) -> Entropy
                         -> result (list nat) * Entropy)
        (HK : KMeans_contract KMeans_labels)
        (region tech : string) (grouped : list unit_group)
        (st : loop_state) (e : Entropy)
        (Hk : (0 < num_clusters st region tech)%Z)
        (Hne : grouped <> [])
        (Hfeat : forall g, In g grouped ->
                           heat_rate_mmbtu_mwh g <> None
                           /\ Fixed_OM_Cost_per_MWyr g <> None)
        (Hcap : forall g, In g grouped -> 0 < capacity_col g) :
  let k := Z.min (num_clusters st region tech)
                 (Z.of_nat (List.length grouped)) in
  exists labels_ e' st' rows,
    KMeans_labels (Some 6%Z) k (map cluster_cols grouped) e
    = (Ok labels_, e')
    /\ cluster_group Entropy KMeans_labels [] (region, tech, grouped) st e
       = (Ok st', e')
    /\ num_clusters st' region tech = k
    /\ cluster_list st' = cluster_list st ++ [rows]
    /\ (forall c, In c (map (fun row => cluster (values row)) rows)
                  <-> exists l, In l labels_ /\ c = S l)
    /\ NoDup (map (fun row => cluster (values row)) rows)
    /\ (Z.of_nat (List.length rows) <= k)%Z
    /\ (forall row, In row rows -> (1 <= num_units (values row))%nat)
    /\ list_sum (sizes rows) = List.length grouped
    /\ ((forall l, (Z.of_nat l < k)%Z -> In l labels_) ->
        Z.of_nat (List.length rows) = k
        /\ ((Z.of_nat (List.length grouped)
             <= num_clusters st region tech)%Z ->
            forall row, In row rows -> num_units (values row) = 1%nat)).
Proof.
  intro k.
  assert (Hn : (0 < List.length grouped)%nat)
    by (destruct grouped; [congruence | simpl; lia]).
  assert (Hk' : (0 < k)%Z) by (unfold k; lia).
  destruct HK as [Hrange Htotal].
  destruct (Htotal (Some 6%Z) k (map cluster_cols grouped) e)
    as [labels_ [e' HKM]].
  { rewrite length_map. unfold k. lia. }
  { intros x c Hx Hc. apply in_map_iff in Hx. destruct Hx as [g [<- Hg]].
    destruct (Hfeat g Hg) as [H1 H2]. unfold cluster_cols in Hc. simpl in Hc.
    destruct Hc as [<- | [<- | []]]; assumption. }
  destruct (Hrange _ _ _ _ _ _ HKM) as [Hlen Hlt].
  rewrite length_map in Hlen.
  set (df := combine grouped (map S labels_)).
  set (keys := cluster_keys df).
  set (rows := map (label_region region (Clustered df))
                   (map (aggregate_row df (Some tech)) keys)).
  assert (Hdf : List.length df = List.length grouped).
  { unfold df. rewrite length_combine, length_map. lia. }
  assert (Hkeys : forall c, In c keys <-> exists l, In l labels_ /\ c = S l).
  { intro c. unfold keys. rewrite cluster_keys_In. split.
    - intros [[g c'] [Hr Hc]]. simpl in Hc. subst c'.
      apply in_combine_r in Hr. apply in_map_iff in Hr.
      destruct Hr as [l [Hl1 Hl2]]. exists l. now split.
    - intros [l [Hl ->]].
      destruct (in_combine_exists grouped (map S labels_) (S l)) as [g Hg].
      + rewrite length_map. lia.
      + now apply in_map.
      + exists (g, S l). now split. }
  assert (Hlabels : map (fun row => cluster (values row)) rows = keys)
    by apply labels_label_region.
  assert (Hsizes : sizes rows
                   = map (fun c => List.length (members c df)) keys)
    by apply sizes_label_region.
  assert (Hrows : List.length rows = List.length keys).
  { unfold rows. now rewrite !length_map. }
  assert (Hincl : incl keys (seq 1 (Z.to_nat k))).
  { intros c Hc. apply Hkeys in Hc. destruct Hc as [l [Hl ->]].
    apply in_seq. specialize (Hlt l Hl). lia. }
  assert (Hle : (List.length keys <= Z.to_nat k)%nat).
  { rewrite <- (length_seq (Z.to_nat k) 1).
    apply NoDup_incl_length; [apply cluster_keys_NoDup | exact Hincl]. }
  assert (Hge1 : forall row, In row rows -> (1 <= num_units (values row))%nat).
  { intros row Hrow. unfold rows in Hrow. rewrite map_map in Hrow.
    apply in_map_iff in Hrow. destruct Hrow as [c [<- Hc]]. simpl.
    pose proof (members_nonempty df c Hc) as Hm.
    destruct (members c df); [congruence | simpl; lia]. }
  assert (Hsum : list_sum (sizes rows) = List.length grouped).
  { rewrite Hsizes. unfold keys. rewrite cluster_keys_length_sum. exact Hdf. }
  exists labels_, e'.
  eexists. exists rows.
  split; [exact HKM|].
  split.
  { exact (cluster_group_default Entropy KMeans_labels region tech grouped
             st e e' labels_ Hk' HKM Hlen
             (fun g Hg => proj1 (Hfeat g Hg)) Hcap). }
  simpl num_clusters. simpl cluster_list. fold k.
  split; [apply set_num_clusters_same|].
  split; [reflexivity|].
  split; [now rewrite Hlabels|].
  split; [rewrite Hlabels; apply cluster_keys_NoDup|].
  split; [lia|].
  split; [exact Hge1|].
  split; [exact Hsum|].
  intro Honto.
  assert (Heq : List.length keys = Z.to_nat k).
  { apply Nat.le_antisymm; [exact Hle|].
    rewrite <- (length_seq (Z.to_nat k) 1).
    apply NoDup_incl_length; [apply seq_NoDup|].
    intros c Hc. apply in_seq in Hc. apply Hkeys.
    exists (pred c). split; [apply Honto; lia | lia]. }
  split; [lia|].
  intros Hnk row Hrow.
  apply (all_ones (sizes rows)).
  - intros x Hx. unfold sizes in Hx. apply in_map_iff in Hx.
    destruct Hx as [row' [<- Hrow']]. now apply Hge1.
  - rewrite Hsum. unfold sizes. rewrite length_map, Hrows, Heq.
    unfold k. lia.
  - unfold sizes.
    exact (in_map (fun r : region_cluster => num_units (values r))
                  rows row Hrow).
Qed.

(** *** Two labellings that meet the contract *)

Lemma KMeans_accepts_true (k : Z) (X : list (list (option Q))) :
  (0 < k <= Z.of_nat (List.length X))%Z ->
  (forall x c, In x X -> In c x -> c <> None) ->
  KMeans_accepts k X = true.
Proof.
  intros [H1 H2] Hnn. unfold KMeans_accepts.
  apply andb_true_intro. split.
  - apply andb_true_intro. split; lia.
  - apply forallb_forall. intros x Hx. apply forallb_forall. intros c Hc.
    specialize (Hnn x c Hx Hc). destruct c; [reflexivity | congruence].
Qed.

Lemma KMeans_accepts_pos (k : Z) (X : list (list (option Q))) :
  KMeans_accepts k X = true -> (0 < k)%Z.
Proof.
  unfold KMeans_accepts. rewrite !andb_true_iff. intros [[H _] _]. lia.
Qed.

Lemma KMeans_first_label_contract : KMeans_contract KMeans_first_label.
Proof.
  split.
  - intros rs k X e labels_ e' H. unfold KMeans_first_label in H.
    destruct (KMeans_accepts k X) eqn:E; [|discriminate].
    injection H as <- _. split; [apply length_map|].
    intros l Hl. apply in_map_iff in Hl. destruct Hl as [_ [<- _]].
    apply KMeans_accepts_pos in E. lia.
  - intros rs k X e Hk Hnn. unfold KMeans_first_label.
    rewrite (KMeans_accepts_true k X Hk Hnn). now eexists; eexists.
Qed.

Lemma KMeans_round_robin_contract : KMeans_contract KMeans_round_robin.
Proof.
  split.
  - intros rs k X e labels_ e' H. unfold KMeans_round_robin in H.
    destruct (KMeans_accepts k X) eqn:E; [|discriminate].
    injection H as <- _. split; [now rewrite length_map, length_seq|].
    intros l Hl. apply in_map_iff in Hl. destruct Hl as [i [<- _]].
    apply KMeans_accepts_pos in E.
    assert (i mod Z.to_nat k < Z.to_nat k)%nat
      by (apply Nat.mod_upper_bound; lia).
    lia.
  - intros rs k X e Hk Hnn. unfold KMeans_round_robin.
    rewrite (KMeans_accepts_true k X Hk Hnn). now eexists; eexists.
Qed.

Example sample_aggregation :
  match calc_unit_cluster_values
          (Clustered (combine sample_grouped [1%nat; 1%nat]))
          (Some "Conventional Steam Coal") with
  | Ok [row] =>
      Qeq_bool (capacity_mean row) (200 # 1)
      && Qeq_bool (minimum_load_mw_mean row) (50 # 1)
      && match heat_rate_mmbtu_mwh_wm row with
         | Some hr => Qeq_bool hr (23 # 2)
         | None => false
         end
      && Qeq_bool (Min_Power row) (1 # 4)
      && (num_units row =? 2)%nat
  | _ => false
  end = true.
Proof. reflexivity. Qed.

Lemma cluster_aggregation_semantics_witness :
  exists rows,
    calc_unit_cluster_values (Clustered mixed_clustered)
                             (Some "Conventional Steam Coal") = Ok rows
    /\ map cluster rows = [1%nat; 2%nat]
    /\ forall row, In row rows ->
         (cluster row = 1%nat ->
          num_units row = 2%nat
          /\ capacity_mean row == 200 # 1
          /\ minimum_load_mw_mean row == 50 # 1
          /\ (exists hr, heat_rate_mmbtu_mwh_wm row = Some hr
                         /\ hr == 23 # 2)
          /\ (exists fom, Fixed_OM_Cost_per_MWyr_wm row = Some fom
                          /\ fom == 30 # 1)
          /\ (exists vom, Var_OM_Cost_per_MWh_wm row = Some vom
                          /\ vom == 7 # 2)
          /\ Min_Power row == 1 # 4)
         /\ (cluster row = 2%nat ->
             num_units row = 1%nat
             /\ capacity_mean row == 200 # 1
             /\ (exists hr, heat_rate_mmbtu_mwh_wm row = Some hr
                            /\ hr == 9 # 1)
             /\ Var_OM_Cost_per_MWh_wm row = None
             /\ Min_Power row == 2 # 5).
Proof.
  destruct (cluster_aggregation_semantics
              mixed_clustered (Some "Conventional Steam Coal"))
    as [_ [H _]].
  destruct (calc_unit_cluster_values (Clustered mixed_clustered)
                                     (Some "Conventional Steam Coal"))
    as [rows|e] eqn:E; [|vm_compute in E; discriminate E].
  exists rows. split; [reflexivity|].
  destruct (H rows eq_refl) as (_ & _ & Hrow).
  split; [vm_compute in E; injection E as <-; reflexivity|].
  intros row Hin. specialize (Hrow row Hin). cbv zeta in Hrow.
  destruct Hrow as (_ & Hn & Hcap & Hload & [xs [Hxs Hhr]] & [Hfom _]
                    & [Hvom Hvom_nan] & Hmin & _).
  split; intro Hc; rewrite Hc in *.
  - split; [exact Hn|].
    split; [rewrite Hcap; vm_compute; reflexivity|].
    split; [rewrite Hload; vm_compute; reflexivity|].
    split.
    { destruct xs as [|x1 [|x2 [|x3 xs]]]; try discriminate Hxs.
      injection Hxs as <- <-. eexists. split; [exact Hhr|].
      vm_compute. reflexivity. }
    split.
    { eexists. split; [exact (Hfom [30 # 1; 30 # 1] eq_refl)|].
      vm_compute. reflexivity. }
    split.
    { eexists. split; [exact (Hvom [2 # 1; 4 # 1] eq_refl)|].
      vm_compute. reflexivity. }
    rewrite Hmin. vm_compute. reflexivity.
  - split; [exact Hn|].
    split; [rewrite Hcap; vm_compute; reflexivity|].
    split.
    { destruct xs as [|x1 [|x2 xs]]; try discriminate Hxs.
      injection Hxs as <-. eexists. split; [exact Hhr|].
      vm_compute. reflexivity. }
    split.
    { apply Hvom_nan. eexists.
      split; [simpl; left; reflexivity | reflexivity]. }
    rewrite Hmin. vm_compute. reflexivity.
Defined.

Lemma cluster_partition_witness :
  KMeans_contract KMeans_round_robin
  /\ exists st' e' rows,
       cluster_group nat KMeans_round_robin []
                     ("WECC", "Conventional Steam Coal", sample_grouped)
                     (sample_state 5) 0%nat
       = (Ok st', e')
       /\ num_clusters st' "WECC" "Conventional Steam Coal" = 2%Z
       /\ cluster_list st' = [rows]
       /\ list_sum (sizes rows) = 2%nat.
Proof.
  split; [exact KMeans_round_robin_contract|].
  assert (Hfeat : forall g, In g sample_grouped ->
                            heat_rate_mmbtu_mwh g <> None
                            /\ Fixed_OM_Cost_per_MWyr g <> None).
  { intros g [<- | [<- | []]]; split; discriminate. }
  assert (Hcap : forall g, In g sample_grouped -> 0 < capacity_col g).
  { intros g [<- | [<- | []]]; reflexivity. }
  destruct (cluster_partition nat KMeans_round_robin
              KMeans_round_robin_contract
              "WECC" "Conventional Steam Coal" sample_grouped
              (sample_state 5) 0%nat eq_refl
              ltac:(discriminate) Hfeat Hcap)
    as (labels_ & e' & st' & rows & _ & Hrun & Hnum & Hlist & _ & _ & _ & _
        & Hsum & _).
  exists st', e', rows. repeat split; assumption.
Defined.

(** C3 as stated fails.  Two unit-groups with coinciding features and
    [num_clusters = 2] give one cluster of two, not two clusters; with
    [num_clusters = 5] the count is cut to 2 and again there is one cluster
    of two, not two singletons. *)
Lemma cluster_count_counterexample :
  KMeans_contract KMeans_first_label
  /\ match cluster_group nat KMeans_first_label []
                         ("WECC", "Conventional Steam Coal", twin_grouped)
                         (sample_state 2) 0%nat with
     | (Ok st', _) =>
         num_clusters st' "WECC" "Conventional Steam Coal" = 2%Z
         /\ map sizes (cluster_list st') = [[2%nat]]
     | (Raise _, _) => False
     end
  /\ match cluster_group nat KMeans_first_label []
                         ("WECC", "Conventional Steam Coal", twin_grouped)
                         (sample_state 5) 0%nat with
     | (Ok st', _) =>
         num_clusters st' "WECC" "Conventional Steam Coal" = 2%Z
         /\ map sizes (cluster_list st') = [[2%nat]]
     | (Raise _, _) => False
     end.
Proof.
  split; [exact KMeans_first_label_contract|].
  split; vm_compute; split; reflexivity.
Qed.

End Clustering.

(** ** The existing-resource table and the final resource table
    ([GeneratorClusters.create_region_technology_clusters], lines 2947-3007,
    and [GeneratorClusters.create_all_generators]) *)

Module Resources.

(** One row of [results] / [all_resources], with the columns the embedded
    code reads or writes.  A column that does not exist yet reads as NaN.
    The columns added by the enrichment functions (startup fuel and costs,
    fuel labels, model tags, profiles) are not part of the model. *)
Record resource := {
  region : string;
  technology : option string;
  cluster : nat;
  Cap_size : option Q;
  Min_Power : option Q;
  Heat_Rate_MMBTU_per_MWh : option Q;
  Fixed_OM_Cost_per_MWyr : option Q;
  Var_OM_Cost_per_MWh : option Q;
  num_units : option nat;
  plant_id_eia : list Z;
  unit_id_pudl : list string;
  capacity_factor : option Q;
  unmodified_cap_size : option Q;
  Existing_Cap_MW : option Q;
  unmodified_existing_cap_mw : option Q
}.

(** The settings read between the clustering loop and line 3007. *)
Record settings := {
  capacity_factor_techs_is_list : bool;
  derate_capacity : bool;
  derate_techs : option (list string)
}.

(** [pd.concat(cluster_list)] with the columns renamed (lines 2948-2968). *)
Definition to_resource (c : Clustering.region_cluster) : resource :=
  let v := Clustering.values c in
  {| region := Clustering.region c;
     technology := Clustering.technology v;
     cluster := Clustering.cluster v;
     Cap_size := Some (Clustering.capacity_mean v);
     Min_Power := Some (Clustering.Min_Power v);
     Heat_Rate_MMBTU_per_MWh := Clustering.heat_rate_mmbtu_mwh_wm v;
     Fixed_OM_Cost_per_MWyr := Clustering.Fixed_OM_Cost_per_MWyr_wm v;
     Var_OM_Cost_per_MWh := Clustering.Var_OM_Cost_per_MWh_wm v;
     num_units := Some (Clustering.num_units v);
     plant_id_eia := Clustering.member_plant_id_eia c;
     unit_id_pudl := Clustering.member_unit_id_pudl c;
     capacity_factor := None;
     unmodified_cap_size := None;
     Existing_Cap_MW := None;
     unmodified_existing_cap_mw := None |}.

Definition concat_clusters (cluster_list : list (list Clustering.region_cluster))
  : result (list resource) :=
  match cluster_list with
  | [] => Raise (ValueError "No objects to concatenate")
  | _ :: _ => Ok (map to_resource (List.concat cluster_list))
  end.

Definition with_capacity_factor (r : resource) (cf : option Q) : resource :=
  {| region := region r; technology := technology r; cluster := cluster r;
     Cap_size := Cap_size r; Min_Power := Min_Power r;
     Heat_Rate_MMBTU_per_MWh := Heat_Rate_MMBTU_per_MWh r;
     Fixed_OM_Cost_per_MWyr := Fixed_OM_Cost_per_MWyr r;
     Var_OM_Cost_per_MWh := Var_OM_Cost_per_MWh r;
     num_units := num_units r; plant_id_eia := plant_id_eia r;
     unit_id_pudl := unit_id_pudl r;
     capacity_factor := cf;
     unmodified_cap_size := unmodified_cap_size r;
     Existing_Cap_MW := Existing_Cap_MW r;
     unmodified_existing_cap_mw := unmodified_existing_cap_mw r |}.

Definition tech_is (t : option string) (t' : string) : bool :=
  match t with Some s => String.eqb s t' | None => false end.

(** [pd.merge(results, capacity_factors, on=["region", "technology"],
    how="left")]: one output row per matching right row, one row with NaN
    when there is none. *)
Definition merge_capacity_factors
           (capacity_factors : list (string * string * option Q))
           (results : list resource) : list resource :=
  flat_map
    (fun r =>
       match filter (fun cf => String.eqb (fst (fst cf)) (region r)
                               && tech_is (technology r) (snd (fst cf)))
                    capacity_factors with
       | [] => [with_capacity_factor r None]
       | matches => map (fun cf => with_capacity_factor r (snd cf)) matches
       end)
    results.

Definition cell_mul (a b : option Q) : option Q :=
  match a, b with
  | Some x, Some y => Some (x * y)
  | _, _ => None
  end.

Definition cell_times (a : option Q) (n : option nat) : option Q :=
  cell_mul a (option_map (fun k => inject_Z (Z.of_nat k)) n).

(** Lines 2983-2998. *)
Definition derate (derate_techs : list string) (r : resource) : resource :=
  let unmodified := Cap_size r in
  {| region := region r; technology := technology r; cluster := cluster r;
     Cap_size :=
       if existsb (tech_is (technology r)) derate_techs
       then cell_mul unmodified (capacity_factor r)
       else Cap_size r;
     Min_Power := Min_Power r;
     Heat_Rate_MMBTU_per_MWh := Heat_Rate_MMBTU_per_MWh r;
     Fixed_OM_Cost_per_MWyr := Fixed_OM_Cost_per_MWyr r;
     Var_OM_Cost_per_MWh := Var_OM_Cost_per_MWh r;
     num_units := num_units r; plant_id_eia := plant_id_eia r;
     unit_id_pudl := unit_id_pudl r;
     capacity_factor := capacity_factor r;
     unmodified_cap_size := unmodified;
     Existing_Cap_MW := Existing_Cap_MW r;
     unmodified_existing_cap_mw := unmodified_existing_cap_mw r |}.

(** [np.round]: to the nearest integer, a tie to the even one. *)
Definition round_half_even (q : Q) : Z :=
  let f := Qfloor q in
  match Qcompare (q - inject_Z f) (1 # 2) with
  | Lt => f
  | Gt => (f + 1)%Z
  | Eq => if Z.even f then f else (f + 1)%Z
  end.

(** [round(3)] of one float. *)
Definition round3 (q : Q) : Q :=
  inject_Z (round_half_even (q * (1000 # 1))) / (1000 # 1).

(** [DataFrame.round(3)]: every float column, the integer and the list
    columns untouched. *)
Definition round_resource (r : resource) : resource :=
  {| region := region r; technology := technology r; cluster := cluster r;
     Cap_size := option_map round3 (Cap_size r);
     Min_Power := option_map round3 (Min_Power r);
     Heat_Rate_MMBTU_per_MWh := option_map round3 (Heat_Rate_MMBTU_per_MWh r);
     Fixed_OM_Cost_per_MWyr := option_map round3 (Fixed_OM_Cost_per_MWyr r);
     Var_OM_Cost_per_MWh := option_map round3 (Var_OM_Cost_per_MWh r);
     num_units := num_units r; plant_id_eia := plant_id_eia r;
     unit_id_pudl := unit_id_pudl r;
     capacity_factor := option_map round3 (capacity_factor r);
     unmodified_cap_size := option_map round3 (unmodified_cap_size r);
     Existing_Cap_MW := option_map round3 (Existing_Cap_MW r);
     unmodified_existing_cap_mw :=
       option_map round3 (unmodified_existing_cap_mw r) |}.

(** Line 3003. *)
Definition set_existing_cap (r : resource) : resource :=
  {| region := region r; technology := technology r; cluster := cluster r;
     Cap_size := Cap_size r; Min_Power := Min_Power r;
     Heat_Rate_MMBTU_per_MWh := Heat_Rate_MMBTU_per_MWh r;
     Fixed_OM_Cost_per_MWyr := Fixed_OM_Cost_per_MWyr r;
     Var_OM_Cost_per_MWh := Var_OM_Cost_per_MWh r;
     num_units := num_units r; plant_id_eia := plant_id_eia r;
     unit_id_pudl := unit_id_pudl r;
     capacity_factor := capacity_factor r;
     unmodified_cap_size := unmodified_cap_size r;
     Existing_Cap_MW := cell_times (Cap_size r) (num_units r);
     unmodified_existing_cap_mw := unmodified_existing_cap_mw r |}.

(** Lines 3005-3007. *)
Definition set_unmodified_existing_cap (r : resource) : resource :=
  {| region := region r; technology := technology r; cluster := cluster r;
     Cap_size := Cap_size r; Min_Power := Min_Power r;
     Heat_Rate_MMBTU_per_MWh := Heat_Rate_MMBTU_per_MWh r;
     Fixed_OM_Cost_per_MWyr := Fixed_OM_Cost_per_MWyr r;
     Var_OM_Cost_per_MWh := Var_OM_Cost_per_MWh r;
     num_units := num_units r; plant_id_eia := plant_id_eia r;
     unit_id_pudl := unit_id_pudl r;
     capacity_factor := capacity_factor r;
     unmodified_cap_size := unmodified_cap_size r;
     Existing_Cap_MW := Existing_Cap_MW r;
     unmodified_existing_cap_mw :=
       cell_times (unmodified_cap_size r) (num_units r) |}.

(** Lines 2970-2998: the capacity factors and the derating. *)
Definition add_capacity_factors (s : settings)
           (capacity_factors : list (string * string * option Q))
           (results : list resource) : result (list resource) :=
  if capacity_factor_techs_is_list s then
    let results := merge_capacity_factors capacity_factors results in
    if derate_capacity s then
      match derate_techs s with
      | Some techs => Ok (map (derate techs) results)
      | None => Raise (KeyError "derate_techs")
      end
    else Ok results
  else Ok results.

(** Lines 3000-3007. *)
Definition existing_capacity (s : settings) (results : list resource)
  : result (list resource) :=
  let results := map round_resource results in
  let results := map set_existing_cap results in
  if derate_capacity s then
    if capacity_factor_techs_is_list s
    then Ok (map set_unmodified_existing_cap results)
    else Raise (KeyError "unmodified_cap_size")
  else Ok results.

(** Lines 2947-3007 from the cluster list on. *)
Definition finalize_clusters (s : settings)
           (capacity_factors : list (string * string * option Q))
           (cluster_list : list (list Clustering.region_cluster))
  : result (list resource) :=
  results <- concat_clusters cluster_list ;;
  results <- add_capacity_factors s capacity_factors results ;;
  existing_capacity s results.

Definition set_min_power (r : resource) (v : option Q) : resource :=
  {| region := region r; technology := technology r; cluster := cluster r;
     Cap_size := Cap_size r; Min_Power := v;
     Heat_Rate_MMBTU_per_MWh := Heat_Rate_MMBTU_per_MWh r;
     Fixed_OM_Cost_per_MWyr := Fixed_OM_Cost_per_MWyr r;
     Var_OM_Cost_per_MWh := Var_OM_Cost_per_MWh r;
     num_units := num_units r; plant_id_eia := plant_id_eia r;
     unit_id_pudl := unit_id_pudl r;
     capacity_factor := capacity_factor r;
     unmodified_cap_size := unmodified_cap_size r;
     Existing_Cap_MW := Existing_Cap_MW r;
     unmodified_existing_cap_mw := unmodified_existing_cap_mw r |}.

(** [np.arange(len(all_resources)) + 1]. *)
Definition R_ID (n : nat) : list Z :=
  map (fun i => (Z.of_nat i + 1)%Z) (seq 0 n).

(** [create_all_generators] from the two tables on: concatenation, rounding,
    minimum power of the variable resources (the model tag [VRE] is given by
    [is_vre]), and the resource ids. *)
Definition create_all_generators (is_vre : resource -> bool)
           (existing_resources new_resources : list resource)
  : list (resource * Z) :=
  let all_resources := existing_resources ++ new_resources in
  let all_resources := map round_resource all_resources in
  let all_resources :=
    map (fun r => if is_vre r then set_min_power r (Some 0) else r)
        all_resources in
  combine all_resources (R_ID (List.length all_resources)).

(** *** Rounding to three decimals *)

Lemma round_half_even_integer (q : Q) (z : Z) :
  q == inject_Z z -> round_half_even q = z.
Proof.
  intro H. unfold round_half_even.
  rewrite (Qfloor_comp q (inject_Z z) H), Qfloor_Z.
  assert (E : Qcompare (q - inject_Z z) (1 # 2) = Qcompare 0 (1 # 2)).
  { apply Qcompare_comp; [rewrite H; ring | reflexivity]. }
  rewrite E. reflexivity.
Qed.

Lemma round3_idempotent (q : Q) : round3 (round3 q) = round3 q.
Proof.
  unfold round3 at 1.
  rewrite (round_half_even_integer
             _ (round_half_even (q * (1000 # 1)))).
  - reflexivity.
  - unfold round3. field.
Qed.

Lemma round3_times (q : Q) (n : nat) :
  round3 (round3 q * inject_Z (Z.of_nat n))
  == round3 q * inject_Z (Z.of_nat n).
Proof.
  unfold round3 at 1.
  rewrite (round_half_even_integer
             _ (round_half_even (q * (1000 # 1)) * Z.of_nat n)).
  - unfold round3. rewrite inject_Z_mult. field.
  - unfold round3. rewrite inject_Z_mult. field.
Qed.

Example round3_examples :
  Qeq_bool (round3 (10004 # 10000)) (1 # 1)
  && Qeq_bool (round3 (20005 # 10000)) (2 # 1)
  && Qeq_bool (round3 (20015 # 10000)) (2002 # 1000)
  && Qeq_bool (round3 (- (12346 # 10000))) (- (1235 # 1000)) = true.
Proof. reflexivity. Qed.

(** *** When the table is produced *)

Lemma finalize_clusters_ok_iff (s : settings)
      (capacity_factors : list (string * string * option Q))
      (cluster_list : list (list Clustering.region_cluster)) :
  is_ok (finalize_clusters s capacity_factors cluster_list) = true
  <-> cluster_list <> []
      /\ (derate_capacity s = true ->
          capacity_factor_techs_is_list s = true /\ derate_techs s <> None).
Proof.
  unfold finalize_clusters, concat_clusters, add_capacity_factors,
    existing_capacity.
  destruct cluster_list as [|c cl]; simpl.
  - split; [discriminate | intros [H _]; congruence].
  - destruct (capacity_factor_techs_is_list s), (derate_capacity s),
      (derate_techs s); simpl; split; intro H;
      try reflexivity; try discriminate;
      try (split; [discriminate | intro; split; congruence]);
      try (split; [discriminate | intro; discriminate]).
    + destruct H as [_ H]. destruct (H eq_refl) as [_ H']. congruence.
    + destruct H as [_ H]. destruct (H eq_refl) as [H' _]. discriminate.
    + destruct H as [_ H]. destruct (H eq_refl) as [H' _]. discriminate.
Qed.

(** Two unit-groups of 1.0004 MW each in one cluster: the cluster's existing
    capacity is 2 x 1.000 = 2 MW, not the 2.0008 MW the two add up to. *)
Example existing_capacity_is_not_the_sum :
  let unit_group plant :=
    {| Clustering.plant_id_eia := plant; Clustering.unit_id_pudl := "1";
       Clustering.capacity_col := 10004 # 10000;
       Clustering.minimum_load_mw := 0;
       Clustering.heat_rate_mmbtu_mwh := Some (10 # 1);
       Clustering.Fixed_OM_Cost_per_MWyr := Some (30 # 1);
       Clustering.Var_OM_Cost_per_MWh := Some (2 # 1) |} in
  let grouped := Clustering.Clustered [(unit_group 1%Z, 1%nat);
                                      (unit_group 2%Z, 1%nat)] in
  let s := {| capacity_factor_techs_is_list := false;
              derate_capacity := false; derate_techs := None |} in
  match Clustering.calc_unit_cluster_values grouped (Some "Wind") with
  | Ok _df =>
      match finalize_clusters
              s [] [map (Clustering.label_region "WECC" grouped) _df] with
      | Ok [r] =>
          match Existing_Cap_MW r with
          | Some cap => Qeq_bool cap (2 # 1)
                        && negb (Qeq_bool cap (20008 # 10000))
          | None => false
          end
      | _ => false
      end
  | Raise _ => false
  end = true.
Proof. vm_compute. reflexivity. Qed.

End Resources.

(** ** The pipeline from the (region, technology) groups to the final table,
    with the random state k-means may draw from *)

Module Pipeline.

(** What a run is given: the settings, the grouped unit tables in the order
    the loop visits them, and the tables the collaborators supply. *)
Record inputs := {
  alt_cluster_method : list (string * list string);
  num_clusters : string -> string -> Z;
  region_tech_grouped : list (string * string * list Clustering.unit_group);
  settings : Resources.settings;
  capacity_factors : list (string * string * option Q);
  new_resources : list Resources.resource;
  is_vre : Resources.resource -> bool
}.

Section Run.

Variable Entropy : Type.
Variable KMeans_labels :
  option Z -> Z -> list (list (option Q)) -> Entropy
  -> result (list nat) * Entropy.

Definition initial_state (inp : inputs) : Clustering.loop_state :=
  {| Clustering.num_clusters := num_clusters inp;
     Clustering.unit_list := [];
     Clustering.cluster_list := [] |}.

(** The clustering loop of [create_region_technology_clusters]. *)
Definition cluster_all (inp : inputs) (e : Entropy)
  : result Clustering.loop_state * Entropy :=
  Clustering.cluster_groups Entropy KMeans_labels (alt_cluster_method inp)
                            (region_tech_grouped inp) (initial_state inp) e.

(** [create_region_technology_clusters] as far as line 3007: the loop and
    the table of the clusters with their capacities.  The rest of the method
    (lines 3008-3095: storage energy, distributed generation, the columns of
    the enrichment functions, the order of the rows and the profiles) draws
    no random number; it is [ExistingResources.finish_results]. *)
Definition create_region_technology_clusters (inp : inputs) (e : Entropy)
  : result (list Resources.resource) * Entropy :=
  match cluster_all inp e with
  | (Ok st, e') =>
      (Resources.finalize_clusters (settings inp) (capacity_factors inp)
                                   (Clustering.cluster_list st), e')
  | (Raise err, e') => (Raise err, e')
  end.

(** [create_all_generators] on the columns of [Resources.resource], from the
    table of line 3007. *)
Definition create_all_generators (current_gens : bool) (inp : inputs)
           (e : Entropy) : result (list (Resources.resource * Z)) * Entropy :=
  if current_gens then
    match create_region_technology_clusters inp e with
    | (Ok existing_resources, e') =>
        (Ok (Resources.create_all_generators (is_vre inp) existing_resources
                                             (new_resources inp)), e')
    | (Raise err, e') => (Raise err, e')
    end
  else
    (Ok (Resources.create_all_generators (is_vre inp) []
                                         (new_resources inp)), e).

(** With an integer [random_state], k-means does not depend on the state of
    the global generator. *)
Definition seeded : Prop :=
  forall (seed k : Z) (X : list (list (option Q))) (e1 e2 : Entropy),
    fst (KMeans_labels (Some seed) k X e1)
    = fst (KMeans_labels (Some seed) k X e2).

End Run.

Definition sample_inputs : inputs :=
  {| alt_cluster_method := [];
     num_clusters := fun _ _ => 2%Z;
     region_tech_grouped :=
       [("WECC", "Conventional Steam Coal", Clustering.sample_grouped)];
     settings :=
       {| Resources.capacity_factor_techs_is_list := false;
          Resources.derate_capacity := false;
          Resources.derate_techs := None |};
     capacity_factors := [];
     new_resources := [];
     is_vre := fun _ => false |}.

(** *** Two runs from two random states *)

Section Seeded.

Variable Entropy : Type.
Variable KMeans_labels :
  option Z -> Z -> list (list (option Q)) -> Entropy
  -> result (list nat) * Entropy.
Hypothesis Hseed : seeded Entropy KMeans_labels.

Lemma kmeans_frame_seeded (k : Z)
      (X : list (list (option Q))) (grouped : list Clustering.unit_group)
      (e1 e2 : Entropy) :
  fst (Clustering.kmeans_frame Entropy KMeans_labels k X grouped e1)
  = fst (Clustering.kmeans_frame Entropy KMeans_labels k X grouped e2).
Proof.
  unfold Clustering.kmeans_frame.
  pose proof (Hseed 6%Z k X e1 e2) as H.
  destruct (KMeans_labels (Some 6%Z) k X e1) as [[l1|err1] e1'];
    destruct (KMeans_labels (Some 6%Z) k X e2) as [[l2|err2] e2'];
    simpl in H; try discriminate; injection H as ->; reflexivity.
Qed.

Lemma assign_clusters_seeded
      (alt : list (string * list string)) (region tech : string)
      (grouped : list Clustering.unit_group) (k : Z) (e1 e2 : Entropy) :
  fst (Clustering.assign_clusters Entropy KMeans_labels alt region tech
                                  grouped k e1)
  = fst (Clustering.assign_clusters Entropy KMeans_labels alt region tech
                                    grouped k e2).
Proof.
  unfold Clustering.assign_clusters.
  destruct alt as [|a alt].
  - destruct (k >? 0)%Z; [|reflexivity]. now apply kmeans_frame_seeded.
  - destruct (Clustering.uses_alt_method (a :: alt) region tech);
      [reflexivity|].
    destruct (k >? 0)%Z; [|reflexivity]. now apply kmeans_frame_seeded.
Qed.

Lemma cluster_group_seeded
      (alt : list (string * list string))
      (group : string * string * list Clustering.unit_group)
      (st : Clustering.loop_state) (e1 e2 : Entropy) :
  fst (Clustering.cluster_group Entropy KMeans_labels alt group st e1)
  = fst (Clustering.cluster_group Entropy KMeans_labels alt group st e2).
Proof.
  destruct group as [[region tech] grouped].
  unfold Clustering.cluster_group.
  pose proof (assign_clusters_seeded alt region tech grouped
                (Clustering.num_clusters st region tech) e1 e2) as H.
  destruct (Clustering.assign_clusters Entropy KMeans_labels alt region tech
              grouped (Clustering.num_clusters st region tech) e1)
    as [[[k1 f1]|err1] e1'];
    destruct (Clustering.assign_clusters Entropy KMeans_labels alt region
                tech grouped (Clustering.num_clusters st region tech) e2)
      as [[[k2 f2]|err2] e2'];
    simpl in H; try discriminate.
  - injection H as -> ->.
    destruct (k2 =? 0)%Z; [reflexivity|].
    destruct (Clustering.calc_unit_cluster_values f2 (Some tech));
      reflexivity.
  - injection H as ->. reflexivity.
Qed.

Lemma cluster_groups_seeded
      (alt : list (string * list string))
      (groups : list (string * string * list Clustering.unit_group))
      (st : Clustering.loop_state) (e1 e2 : Entropy) :
  fst (Clustering.cluster_groups Entropy KMeans_labels alt groups st e1)
  = fst (Clustering.cluster_groups Entropy KMeans_labels alt groups st e2).
Proof.
  revert st e1 e2. induction groups as [|g groups IH]; intros st e1 e2.
  - reflexivity.
  - simpl.
    pose proof (cluster_group_seeded alt g st e1 e2) as H.
    destruct (Clustering.cluster_group Entropy KMeans_labels alt g st e1)
      as [[st1|err1] e1'];
      destruct (Clustering.cluster_group Entropy KMeans_labels alt g st e2)
        as [[st2|err2] e2'];
      simpl in H; try discriminate.
    + injection H as ->. apply IH.
    + injection H as ->. reflexivity.
Qed.

End Seeded.

(** C7.  Determinism under the fixed seed.  If k-means with an integer seed
    does not depend on the state of the random generator, then two runs on
    the same inputs and settings, whatever the two random states, end the
    clustering loop in the same state (the same cluster label for every
    unit-group, the same aggregates and the same member lists for every
    cluster), and return the same final table, resource ids included; an
    error in one run is the same error in the other. *)
Theorem fixed_seed_determinism
        (Entropy : Type)
        (KMeans_labels : option Z -> Z -> list (list (option Q)) -> Entropy
                         -> result (list nat) * Entropy)
        (Hseed : seeded Entropy KMeans_labels)
        (current_gens : bool) (inp : inputs) (e1 e2 : Entropy) :
  fst (cluster_all Entropy KMeans_labels inp e1)
  = fst (cluster_all Entropy KMeans_labels inp e2)
  /\ fst (create_region_technology_clusters Entropy KMeans_labels inp e1)
     = fst (create_region_technology_clusters Entropy KMeans_labels inp e2)
  /\ fst (create_all_generators Entropy KMeans_labels current_gens inp e1)
     = fst (create_all_generators Entropy KMeans_labels current_gens inp e2).
Proof.
  assert (H1 : fst (cluster_all Entropy KMeans_labels inp e1)
               = fst (cluster_all Entropy KMeans_labels inp e2))
    by (apply cluster_groups_seeded; exact Hseed).
  assert (H2 :
    fst (create_region_technology_clusters Entropy KMeans_labels inp e1)
    = fst (create_region_technology_clusters Entropy KMeans_labels inp e2)).
  { unfold create_region_technology_clusters.
    destruct (cluster_all Entropy KMeans_labels inp e1) as [[st1|err1] e1'];
      destruct (cluster_all Entropy KMeans_labels inp e2)
        as [[st2|err2] e2'];
      simpl in H1; try discriminate; injection H1 as ->; reflexivity. }
  split; [exact H1|]. split; [exact H2|].
  unfold create_all_generators. destruct current_gens; [|reflexivity].
  destruct (create_region_technology_clusters Entropy KMeans_labels inp e1)
    as [[x1|err1] e1'];
    destruct (create_region_technology_clusters Entropy KMeans_labels inp e2)
      as [[x2|err2] e2'];
    simpl in H2; try discriminate; injection H2 as ->; reflexivity.
Qed.

Lemma map_snd_combine {A B : Type} (l1 : list A) (l2 : list B) :
  List.length l1 = List.length l2 -> map snd (combine l1 l2) = l2.
Proof.
  revert l2. induction l1 as [|a l1 IH]; intros [|b l2] H; simpl in *;
    try discriminate; [reflexivity|].
  f_equal. apply IH. lia.
Qed.

(** The resource ids count the rows of the final table from 1. *)
Lemma R_ID_sequential (is_vre : Resources.resource -> bool)
      (existing new : list Resources.resource) :
  map snd (Resources.create_all_generators is_vre existing new)
  = map (fun i => (Z.of_nat i + 1)%Z)
        (seq 0 (List.length existing + List.length new)).
Proof.
  unfold Resources.create_all_generators.
  rewrite map_snd_combine.
  - unfold Resources.R_ID. now rewrite !length_map, length_app.
  - unfold Resources.R_ID. now rewrite !length_map, length_seq.
Qed.

Example sample_run :
  match create_all_generators nat Clustering.KMeans_shifted true
                              sample_inputs 0%nat with
  | (Ok rows, _) =>
      map (fun r => (Resources.cluster (fst r),
                     Resources.num_units (fst r),
                     Resources.plant_id_eia (fst r), snd r)) rows
      = [ (1%nat, Some 1%nat, [1%Z], 1%Z);
          (2%nat, Some 1%nat, [2%Z], 2%Z) ]
  | (Raise _, _) => False
  end.
Proof. vm_compute. reflexivity. Qed.

(** Without a seed the sample labelling does depend on the random state. *)
Example unseeded_run_differs :
  fst (Clustering.KMeans_shifted None 2 [[Some 1]; [Some 2]] 0%nat)
  <> fst (Clustering.KMeans_shifted None 2 [[Some 1]; [Some 2]] 1%nat).
Proof. vm_compute. discriminate. Qed.

Lemma fixed_seed_determinism_witness :
  seeded nat Clustering.KMeans_shifted
  /\ fst (create_all_generators nat Clustering.KMeans_shifted true
                                sample_inputs 0%nat)
     = fst (create_all_generators nat Clustering.KMeans_shifted true
                                  sample_inputs 7%nat).
Proof.
  assert (Hseed : seeded nat Clustering.KMeans_shifted).
  { intros seed k X e1 e2. unfold Clustering.KMeans_shifted.
    destruct (Clustering.KMeans_accepts k X); reflexivity. }
  split; [exact Hseed|].
  exact (proj2 (proj2 (fixed_seed_determinism
                         nat Clustering.KMeans_shifted Hseed true
                         sample_inputs 0%nat 7%nat))).
Defined.

End Pipeline.

(** ** Fuel labels ([add_fuel_labels], the loop over [tech_fuel_map],
    lines 2045-2130) *)

Module FuelLabels.

(** A key of the settings dictionary: missing, present with the value
    [None] (an empty entry of the settings file), or present with a value. *)
Inductive setting (A : Type) : Type :=
| Absent
| Null
| Value (a : A).

Arguments Absent {A}.
Arguments Null {A}.
Arguments Value {A} a.

(** A user fuel price: one number, or one number per region. *)
Inductive user_price : Type :=
| Flat (price : Q)
| ByRegion (prices : list (string * Q)).

Record settings := {
  tech_fuel_map : setting (list (string * string));
  eia_atb_tech_map : setting (list (string * list string));
  aeo_fuel_scenarios : setting (list (string * string));
  user_fuel_price : setting (list (string * user_price));
  aeo_fuel_region_map : setting (list (string * list string));
  model_year : Z
}.

(** One row of the fuel price table. *)
Record fuel_price := {
  year : Z;
  full_fuel_name : string;
  price : Q
}.

(** One row of the generators table. *)
Record generator := {
  technology : string;
  region : string;
  Fuel : option string
}.

Fixpoint lookup {V : Type} (k : string) (d : list (string * V)) : option V :=
  match d with
  | [] => None
  | (k', v) :: rest => if String.eqb k' k then Some v else lookup k rest
  end.

(** [settings.get(key) or {}] followed by [.items()]. *)
Definition items_or_empty {V : Type} (s : setting (list (string * V)))
  : list (string * V) :=
  match s with Value d => d | _ => [] end.

Definition set_fuel (mask : generator -> bool) (name : string)
           (df : list generator) : list generator :=
  map (fun r => if mask r
                then {| technology := technology r; region := region r;
                        Fuel := Some name |}
                else r) df.

Definition fuel_isna (r : generator) : bool :=
  match Fuel r with None => true | Some _ => false end.

Definition isin (x : string) (l : list string) : bool :=
  existsb (String.eqb x) l.

(** [("_").join(parts)]. *)
Definition join_underscore (parts : list string) : string :=
  String.concat "_" parts.

(** The message of the [KeyError] of lines 2069-2073. *)
Definition missing_fuel_message (fuel : string) : string :=
  "The fuel type '" ++ fuel ++ "' is not in the settings parameters "
  ++ "'aeo_fuel_scenarios' or 'user_fuel_price'. All fuels listed in "
  ++ "'tech_fuel_map' must be included in one of these.".

(** The message of the assertion of lines 2111-2116. *)
Definition missing_price_message (fuel_name : string) (model_year : Z)
  : string :=
  fuel_name ++ " doesn't show up in " ++ Removal.astype_str model_year.

(** [fuel_prices.query("year==@model_year & full_fuel_name==@fuel_name")
    .empty is False]. *)
Definition has_price (fuel_prices : list fuel_price) (model_year : Z)
           (fuel_name : string) : bool :=
  existsb (fun p => (year p =? model_year)%Z
                    && String.eqb (full_fuel_name p) fuel_name)
          fuel_prices.

Section TechLoop.

(** Python's and pandas' string methods: [str.lower], [str.rstrip("_")],
    [Series.str.contains(pat, case=False)] and [str.split("_")[0]]. *)
Variable str_lower : string -> string.
Variable str_rstrip_underscore : string -> string.
Variable str_contains_nocase : string -> string -> bool.
Variable split_first : string -> string.

(** Lines 2047-2064. *)
Definition atb_tech_of (s : settings) (eia_tech : string)
  : result (option (list string)) :=
  if String.eqb eia_tech "Natural Gas Steam Turbine" then Ok None
  else
    match eia_atb_tech_map s with
    | Absent => Ok None
    | Null => Raise (TypeError "'NoneType' object is not subscriptable")
    | Value d =>
        match lookup eia_tech d with
        | None => Ok None
        | Some techs => Ok (Some (map (fun tech => (split_first tech ++ "_")%string)
                                      techs))
        end
    end.

(** Line 2065: [settings.get("aeo_fuel_scenarios", {}).get(fuel)]. *)
Definition scenario_of (s : settings) (fuel : string)
  : result (option string) :=
  match aeo_fuel_scenarios s with
  | Absent => Ok None
  | Null => Raise (AttributeError "'NoneType' object has no attribute 'get'")
  | Value d => Ok (lookup fuel d)
  end.

(** [not scenario]: [None] and the empty string are false. *)
Definition falsy (scenario : option string) : bool :=
  match scenario with
  | None => true
  | Some sc => String.eqb sc ""
  end.

Definition eia_match (eia_tech : string) (r : generator) : bool :=
  String.eqb (str_lower (str_rstrip_underscore (technology r)))
             (str_lower eia_tech).

Definition label_atb (atb_tech : option (list string))
           (region_ok : generator -> bool) (name : string)
           (df : list generator) : list generator :=
  match atb_tech with
  | None => df
  | Some techs =>
      fold_left (fun df tech =>
                   set_fuel (fun r => str_contains_nocase tech (technology r)
                                      && region_ok r && fuel_isna r)
                            name df)
                techs df
  end.

(** Lines 2074-2107: a fuel priced by the user. *)
Definition label_user_fuel (eia_tech fuel : string)
           (atb_tech : option (list string)) (p : user_price)
           (df : list generator) : list generator :=
  match p with
  | ByRegion prices =>
      fold_left
        (fun df rp =>
           let region_ := fst rp in
           let fuel_name := (region_ ++ "_" ++ fuel)%string in
           let df := set_fuel (fun r => eia_match eia_tech r
                                        && String.eqb (region r) region_)
                              fuel_name df in
           label_atb atb_tech (fun r => String.eqb (region r) region_)
                     fuel_name df)
        prices df
  | Flat _ =>
      let df := set_fuel (fun r => eia_match eia_tech r && fuel_isna r)
                         fuel df in
      label_atb atb_tech (fun _ => true) fuel df
  end.

(** Lines 2109-2130: one AEO region. *)
Definition label_aeo_region (s : settings) (fuel_prices : list fuel_price)
           (eia_tech fuel scenario : string)
           (atb_tech : option (list string))
           (entry : string * list string) (df : list generator)
  : result (list generator) :=
  let '(aeo_region, model_regions) := entry in
  let fuel_name := join_underscore [aeo_region; scenario; fuel] in
  if has_price fuel_prices (model_year s) fuel_name then
    let df := set_fuel (fun r => String.eqb (technology r) eia_tech
                                 && isin (region r) model_regions)
                       fuel_name df in
    Ok (label_atb atb_tech (fun r => isin (region r) model_regions)
                  fuel_name df)
  else Raise (AssertionError (missing_price_message fuel_name (model_year s))).

(** One turn of the loop over [tech_fuel_map]. *)
Definition label_tech_fuel (s : settings) (fuel_prices : list fuel_price)
           (entry : string * string) (df : list generator)
  : result (list generator) :=
  let '(eia_tech, fuel) := entry in
  atb_tech <- atb_tech_of s eia_tech ;;
  scenario <- scenario_of s fuel ;;
  if falsy scenario then
    (* [if fuel not in settings.get("user_fuel_price", []) or []:] reads as
       [(fuel not in settings.get("user_fuel_price", [])) or []] *)
    match user_fuel_price s with
    | Absent => Raise (KeyError (missing_fuel_message fuel))
    | Null => Raise (TypeError "argument of type 'NoneType' is not iterable")
    | Value prices =>
        match lookup fuel prices with
        | None => Raise (KeyError (missing_fuel_message fuel))
        | Some p => Ok (label_user_fuel eia_tech fuel atb_tech p df)
        end
    end
  else
    match scenario, aeo_fuel_region_map s with
    | None, _ => Ok df
    | Some _, Absent => Raise (KeyError "aeo_fuel_region_map")
    | Some _, Null =>
        Raise (AttributeError "'NoneType' object has no attribute 'items'")
    | Some scenario, Value regions =>
        for_each (label_aeo_region s fuel_prices eia_tech fuel scenario
                                   atb_tech)
                 regions df
    end.

(** [add_fuel_labels] up to line 2130. *)
Definition add_fuel_labels (df : list generator)
           (fuel_prices : list fuel_price) (s : settings)
  : result (list generator) :=
  let df := map (fun r => {| technology := technology r; region := region r;
                             Fuel := None |}) df in
  for_each (label_tech_fuel s fuel_prices)
           (items_or_empty (tech_fuel_map s)) df.

End TechLoop.

(** *** Messages and sample settings *)

(** A message names a string when the string occurs in it. *)
Definition mentions (msg part : string) : Prop :=
  exists before after, msg = (before ++ part ++ after)%string.

(** Settings in which the fuel of a technology has neither an AEO scenario
    nor a user price, the key [user_fuel_price] being present and empty. *)
Definition settings_null_user_fuel_price : settings :=
  {| tech_fuel_map := Value [("Biomass", "biomass")];
     eia_atb_tech_map := Absent;
     aeo_fuel_scenarios := Value [("coal", "reference")];
     user_fuel_price := Null;
     aeo_fuel_region_map := Value [("mountain", ["WECC"])];
     model_year := 2030 |}.

(** The same settings without the key [user_fuel_price]. *)
Definition settings_no_user_fuel_price : settings :=
  {| tech_fuel_map := Value [("Biomass", "biomass")];
     eia_atb_tech_map := Absent;
     aeo_fuel_scenarios := Value [("coal", "reference")];
     user_fuel_price := Absent;
     aeo_fuel_region_map := Value [("mountain", ["WECC"])];
     model_year := 2030 |}.

(** *** The two configuration errors *)

Lemma for_each_first_error {S X : Type} (body : X -> S -> result S)
      (pre post : list X) (x : X) (s0 s1 : S) (e : exn) :
  for_each body pre s0 = Ok s1 -> body x s1 = Raise e ->
  for_each body (pre ++ x :: post) s0 = Raise e.
Proof.
  revert s0. induction pre as [|y pre IH]; simpl; intros s0 Hpre Hx.
  - injection Hpre as ->. now rewrite Hx.
  - destruct (body y s0) as [s'|err]; simpl in *; [|discriminate].
    now apply IH.
Qed.

Lemma missing_fuel_message_mentions (fuel : string) :
  mentions (missing_fuel_message fuel) fuel.
Proof. unfold missing_fuel_message. now eexists; eexists. Qed.

Lemma string_app_assoc (a b c : string) :
  ((a ++ b) ++ c = a ++ (b ++ c))%string.
Proof. induction a as [|ch a IH]; simpl; [reflexivity | now rewrite IH]. Qed.

Lemma missing_price_message_mentions (aeo_region scenario fuel : string)
      (model_year : Z) :
  mentions (missing_price_message
              (join_underscore [aeo_region; scenario; fuel]) model_year)
           fuel.
Proof.
  unfold missing_price_message, join_underscore.
  change (String.concat "_" [aeo_region; scenario; fuel])
    with (aeo_region ++ ("_" ++ (scenario ++ ("_" ++ fuel))))%string.
  exists (aeo_region ++ ("_" ++ (scenario ++ "_")))%string.
  exists (" doesn't show up in " ++ Removal.astype_str model_year)%string.
  rewrite !string_app_assoc. reflexivity.
Qed.

Section Errors.

Variable str_lower : string -> string.
Variable str_rstrip_underscore : string -> string.
Variable str_contains_nocase : string -> string -> bool.
Variable split_first : string -> string.

Let turn := label_tech_fuel str_lower str_rstrip_underscore
                            str_contains_nocase split_first.
Let run := add_fuel_labels str_lower str_rstrip_underscore
                           str_contains_nocase split_first.

(** A fuel with no AEO scenario and no user price: the turn raises the
    [KeyError] that names it, when [user_fuel_price] is missing or is a
    dictionary without the fuel. *)
Lemma missing_fuel_raises (s : settings) (fuel_prices : list fuel_price)
      (eia_tech fuel : string) (df : list generator)
      (atb_tech : option (list string)) (scenario : option string) :
  atb_tech_of split_first s eia_tech = Ok atb_tech ->
  scenario_of s fuel = Ok scenario -> falsy scenario = true ->
  user_fuel_price s = Absent
  \/ (exists prices, user_fuel_price s = Value prices
                     /\ lookup fuel prices = None) ->
  turn s fuel_prices (eia_tech, fuel) df
  = Raise (KeyError (missing_fuel_message fuel)).
Proof.
  intros Hatb Hsc Hf Hu. unfold turn, label_tech_fuel.
  rewrite Hatb, Hsc. simpl. rewrite Hf.
  destruct Hu as [-> | [prices [-> Hl]]]; [reflexivity|].
  now rewrite Hl.
Qed.

(** A fuel with an AEO scenario whose series name for some AEO region has
    no price in the model year: the turn raises the assertion that names the
    series, at the first such region. *)
Lemma missing_price_raises (s : settings) (fuel_prices : list fuel_price)
      (eia_tech fuel scenario aeo_region : string)
      (model_regions : list string)
      (before after : list (string * list string))
      (df : list generator) (atb_tech : option (list string)) :
  atb_tech_of split_first s eia_tech = Ok atb_tech ->
  scenario_of s fuel = Ok (Some scenario) -> scenario <> "" ->
  aeo_fuel_region_map s
  = Value (before ++ (aeo_region, model_regions) :: after) ->
  (forall r, In r before ->
             has_price fuel_prices (model_year s)
                       (join_underscore [fst r; scenario; fuel]) = true) ->
  has_price fuel_prices (model_year s)
            (join_underscore [aeo_region; scenario; fuel]) = false ->
  turn s fuel_prices (eia_tech, fuel) df
  = Raise (AssertionError
             (missing_price_message
                (join_underscore [aeo_region; scenario; fuel])
                (model_year s))).
Proof.
  intros Hatb Hsc Hne Hmap Hbefore Hmiss. unfold turn, label_tech_fuel.
  rewrite Hatb, Hsc. simpl.
  assert (Hf : String.eqb scenario "" = false)
    by now apply String.eqb_neq.
  rewrite Hf, Hmap.
  assert (Hpre : forall df0, exists df1,
             for_each (label_aeo_region str_contains_nocase s fuel_prices
                         eia_tech fuel scenario atb_tech) before df0
             = Ok df1).
  { clear Hmap. induction before as [|[r ms] before IH]; intro df0.
    - now exists df0.
    - pose proof (Hbefore (r, ms) (or_introl eq_refl)) as Hr.
      cbn [fst] in Hr. cbn [for_each label_aeo_region]. rewrite Hr.
      cbn [bind]. apply IH. intros; apply Hbefore; now right. }
  destruct (Hpre df) as [df1 Hdf1].
  apply (for_each_first_error _ _ _ _ _ df1); [exact Hdf1|].
  cbn [label_aeo_region]. now rewrite Hmiss.
Qed.

(** The error of a turn is the error of the whole loop, raised before any
    later entry of [tech_fuel_map] is looked at. *)
Lemma add_fuel_labels_first_error (s : settings)
      (fuel_prices : list fuel_price) (df df1 : list generator)
      (before after : list (string * string)) (entry : string * string)
      (e : exn) :
  tech_fuel_map s = Value (before ++ entry :: after) ->
  for_each (turn s fuel_prices) before
           (map (fun r => {| technology := technology r;
                             region := region r; Fuel := None |}) df)
  = Ok df1 ->
  turn s fuel_prices entry df1 = Raise e ->
  run df fuel_prices s = Raise e.
Proof.
  intros Hmap Hpre Hturn. unfold run, add_fuel_labels. rewrite Hmap. simpl.
  now apply (for_each_first_error _ _ _ _ _ df1).
Qed.

End Errors.

(** C8 (where the code departs from it).  With [user_fuel_price] present
    and empty, a fuel of [tech_fuel_map] that is in neither
    [aeo_fuel_scenarios] nor [user_fuel_price] stops the run with a
    [TypeError] that does not name the fuel; with the key missing, the same
    fuel stops it with the [KeyError] that names it. *)
Theorem add_fuel_labels_null_user_fuel_price
        (str_lower str_rstrip_underscore : string -> string)
        (str_contains_nocase : string -> string -> bool)
        (split_first : string -> string)
        (df : list generator) (fuel_prices : list fuel_price) :
  add_fuel_labels str_lower str_rstrip_underscore str_contains_nocase
                  split_first df fuel_prices settings_null_user_fuel_price
  = Raise (TypeError "argument of type 'NoneType' is not iterable")
  /\ add_fuel_labels str_lower str_rstrip_underscore str_contains_nocase
                     split_first df fuel_prices settings_no_user_fuel_price
     = Raise (KeyError (missing_fuel_message "biomass")).
Proof. split; reflexivity. Qed.

Example missing_price_run :
  add_fuel_labels (fun x => x) (fun x => x) (fun _ _ => false) (fun x => x)
    [ {| technology := "Conventional Steam Coal"; region := "WECC";
         Fuel := None |} ]
    [ {| year := 2030; full_fuel_name := "mountain_reference_coal";
         price := 2 # 1 |} ]
    {| tech_fuel_map := Value [("Conventional Steam Coal", "coal")];
       eia_atb_tech_map := Absent;
       aeo_fuel_scenarios := Value [("coal", "reference")];
       user_fuel_price := Absent;
       aeo_fuel_region_map :=
         Value [("mountain", ["WECC"]); ("pacific", ["CA"])];
       model_year := 2030 |}
  = Raise (AssertionError "pacific_reference_coal doesn't show up in 2030").
Proof. reflexivity. Qed.

End FuelLabels.

(** ** Active and retired units
    ([GeneratorClusters.create_region_technology_clusters],
    lines 2797-2840) *)

Module Retirement.

(** One row of [units_model]: its region and technology (either can be
    null), the retirement year (a float column, NaN when no lifetime is
    configured for the technology and no retirement is planned) and the
    capacity. *)
Record unit_row := {
  plant_id_eia : Z;
  generator_id : string;
  model_region : option string;
  technology : option string;
  retirement_year : option Q;
  capacity_col : option Q
}.

(** [technology.isin(techs)]. *)
Definition tech_isin (techs : list string) (u : unit_row) : bool :=
  match technology u with
  | Some t => existsb (String.eqb t) techs
  | None => false
  end.

(** [.query("technology.isin(@techs).values")], lines 2797-2800. *)
Definition query_techs (techs : list string) (units_model : list unit_row)
  : list unit_row := filter (tech_isin techs) units_model.

(** The mask of lines 2833-2834. *)
Definition active_mask (techs : list string) (model_year : Z)
           (u : unit_row) : bool :=
  tech_isin techs u
  && negb (cell_le (retirement_year u) (inject_Z model_year)).

(** The mask of line 2839. *)
Definition retired_mask (model_year : Z) (u : unit_row) : bool :=
  negb (cell_gt (retirement_year u) (inject_Z model_year)).

Definition key_leb (a b : string * string) : bool :=
  if String.eqb (fst a) (fst b) then String.leb (snd a) (snd b)
  else String.leb (fst a) (fst b).

Definition key_eqb (a b : string * string) : bool :=
  String.eqb (fst a) (fst b) && String.eqb (snd a) (snd b).

(** The group keys: the distinct (region, technology) pairs, ascending. *)
Fixpoint insert_key (k : string * string) (keys : list (string * string))
  : list (string * string) :=
  match keys with
  | [] => [k]
  | k' :: rest =>
      if key_eqb k k' then keys
      else if key_leb k k' then k :: keys
      else k' :: insert_key k rest
  end.

Definition key_of (u : unit_row) : option (string * string) :=
  match model_region u, technology u with
  | Some r, Some t => Some (r, t)
  | _, _ => None
  end.

Fixpoint group_keys (df : list unit_row) : list (string * string) :=
  match df with
  | [] => []
  | u :: rest =>
      match key_of u with
      | Some k => insert_key k (group_keys rest)
      | None => group_keys rest
      end
  end.

Definition has_key (k : string * string) (u : unit_row) : bool :=
  match key_of u with
  | Some k' => key_eqb k' k
  | None => false
  end.

(** [df.groupby(["model_region", "technology"])]: rows with a null key are
    in no group. *)
Definition groupby_region_technology (df : list unit_row)
  : list ((string * string) * list unit_row) :=
  map (fun k => (k, filter (has_key k) df)) (group_keys df).

(** Lines 2832-2836. *)
Definition region_tech_grouped (techs : list string) (model_year : Z)
           (units_model : list unit_row)
  : list ((string * string) * list unit_row) :=
  groupby_region_technology
    (filter (active_mask techs model_year) units_model).

(** Lines 2838-2840. *)
Definition retired (model_year : Z) (units_model : list unit_row)
  : list unit_row :=
  filter (retired_mask model_year) units_model.

Definition sample_unit (gen : string) (tech : string)
           (ret : option Q) : unit_row :=
  {| plant_id_eia := 10; generator_id := gen;
     model_region := Some "WECC"; technology := Some tech;
     retirement_year := ret; capacity_col := Some (50 # 1) |}.

Definition sample_units : list unit_row :=
  [ sample_unit "1" "Solar Photovoltaic" None;
    sample_unit "2" "Solar Photovoltaic" (Some (2045 # 1));
    sample_unit "3" "Solar Photovoltaic" (Some (2025 # 1));
    sample_unit "4" "Geothermal" None ].

Lemma key_eqb_eq (a b : string * string) : key_eqb a b = true <-> a = b.
Proof.
  destruct a as [a1 a2], b as [b1 b2]. unfold key_eqb. simpl.
  rewrite andb_true_iff, !String.eqb_eq. split.
  - now intros [-> ->].
  - intro H. now injection H as -> ->.
Qed.

Lemma insert_key_In (k x : string * string) (keys : list (string * string)) :
  In x (insert_key k keys) <-> x = k \/ In x keys.
Proof.
  induction keys as [|k' keys IH]; simpl.
  - split; [intros [<- | []]; now left | intros [-> | []]; now left].
  - destruct (key_eqb k k') eqn:E.
    + apply key_eqb_eq in E. subst k'. simpl. split.
      * intros [<- | H]; [now left | now right; right].
      * intros [-> | [<- | H]]; [now left | now left | now right].
    + destruct (key_leb k k'); simpl.
      * split; [intros [<- | H]; [now left | now right]
               | intros [-> | H]; [now left | now right]].
      * rewrite IH. split.
        -- intros [<- | [-> | H]];
             [right; now left | now left | right; now right].
        -- intros [-> | [<- | H]];
             [right; now left | now left | right; now right].
Qed.

Lemma group_keys_In (df : list unit_row) (u : unit_row)
      (k : string * string) :
  In u df -> key_of u = Some k -> In k (group_keys df).
Proof.
  induction df as [|v df IH]; simpl; intros Hin Hk; [contradiction|].
  destruct Hin as [-> | Hin].
  - rewrite Hk. apply insert_key_In. now left.
  - destruct (key_of v); [apply insert_key_In; right|]; now apply IH.
Qed.

Lemma tech_isin_some (techs : list string) (u : unit_row) :
  tech_isin techs u = true -> exists t, technology u = Some t.
Proof.
  unfold tech_isin. destruct (technology u) as [t|]; [|discriminate].
  intros _. now exists t.
Qed.

Lemma query_techs_isin (techs : list string) (all_units : list unit_row)
      (u : unit_row) :
  In u (query_techs techs all_units) -> tech_isin techs u = true.
Proof. unfold query_techs. intro H. apply filter_In in H. tauto. Qed.

(** C10.  The active/retired split is not a partition.  A row of the units
    table whose technology is one of the clustered technologies (as every
    row is after the technology query) and whose retirement year is null
    satisfies both masks: it is a row of the retired table, and it is among
    the rows grouped for clustering, in the group of its region and
    technology when its region is not null.  A row whose retirement year is
    not null satisfies exactly one of the two masks. *)
Theorem null_retirement_year_in_both
        (techs : list string) (model_year : Z)
        (units_model : list unit_row) (u : unit_row)
        (Hin : In u units_model)
        (Htech : tech_isin techs u = true) :
  (retirement_year u = None ->
   active_mask techs model_year u = true
   /\ retired_mask model_year u = true
   /\ In u (retired model_year units_model)
   /\ In u (filter (active_mask techs model_year) units_model)
   /\ forall r, model_region u = Some r ->
        exists t rows,
          technology u = Some t
          /\ In ((r, t), rows)
                (region_tech_grouped techs model_year units_model)
          /\ In u rows)
  /\ (forall y, retirement_year u = Some y ->
                active_mask techs model_year u
                = negb (retired_mask model_year u)).
Proof.
  split.
  - intro Hnull.
    assert (Ha : active_mask techs model_year u = true).
    { unfold active_mask. rewrite Htech, Hnull. reflexivity. }
    assert (Hr : retired_mask model_year u = true).
    { unfold retired_mask. rewrite Hnull. reflexivity. }
    assert (Hsel : In u (filter (active_mask techs model_year) units_model)).
    { apply filter_In. now split. }
    split; [exact Ha|]. split; [exact Hr|].
    split; [apply filter_In; now split|].
    split; [exact Hsel|].
    intros r Hreg. destruct (tech_isin_some techs u Htech) as [t Ht].
    assert (Hkey : key_of u = Some (r, t)).
    { unfold key_of. now rewrite Hreg, Ht. }
    exists t, (filter (has_key (r, t))
                      (filter (active_mask techs model_year) units_model)).
    split; [exact Ht|]. split.
    + unfold region_tech_grouped, groupby_region_technology.
      apply in_map_iff. exists (r, t). split; [reflexivity|].
      now apply (group_keys_In _ u).
    + apply filter_In. split; [exact Hsel|].
      unfold has_key. rewrite Hkey. now apply key_eqb_eq.
  - intros y Hy. unfold active_mask, retired_mask. rewrite Htech, Hy.
    simpl. unfold Qlt_bool. now rewrite negb_involutive.
Qed.

Example sample_split :
  map generator_id (retired 2030 (query_techs ["Solar Photovoltaic"]
                                              sample_units))
  = ["1"; "3"]
  /\ map (fun g => (fst g, map generator_id (snd g)))
         (region_tech_grouped ["Solar Photovoltaic"] 2030
            (query_techs ["Solar Photovoltaic"] sample_units))
     = [(("WECC", "Solar Photovoltaic"), ["1"; "2"])].
Proof. split; reflexivity. Qed.

Lemma null_retirement_year_in_both_witness :
  In (sample_unit "1" "Solar Photovoltaic" None)
     (query_techs ["Solar Photovoltaic"] sample_units)
  /\ In (sample_unit "1" "Solar Photovoltaic" None)
        (retired 2030 (query_techs ["Solar Photovoltaic"] sample_units))
  /\ In (sample_unit "1" "Solar Photovoltaic" None)
        (filter (active_mask ["Solar Photovoltaic"] 2030)
                (query_techs ["Solar Photovoltaic"] sample_units)).
Proof.
  assert (Hin : In (sample_unit "1" "Solar Photovoltaic" None)
                   (query_techs ["Solar Photovoltaic"] sample_units))
    by (left; reflexivity).
  split; [exact Hin|].
  destruct (null_retirement_year_in_both ["Solar Photovoltaic"] 2030
              (query_techs ["Solar Photovoltaic"] sample_units)
              (sample_unit "1" "Solar Photovoltaic" None) Hin eq_refl)
    as [Hnull _].
  destruct (Hnull eq_refl) as (_ & _ & Hret & Hact & _).
  split; assumption.
Defined.

End Retirement.

(** ** More on the removal of canceled and retired generators: the key, and
    how the two removals compose (lines 820-899 and 2654-2655) *)

Module RemovalFacts.

Import Removal.

(** No character of the string is an underscore. *)
Fixpoint no_underscore (s : string) : bool :=
  match s with
  | EmptyString => true
  | String c rest =>
      negb (Ascii.eqb c "_"%char) && no_underscore rest
  end.

(** The two removals of [create_region_technology_clusters], one after the
    other. *)
Definition remove_canceled_then_retired
           (df canceled_860m retired_860m : list generator)
  : result (list generator) :=
  df <- remove_canceled_860m df canceled_860m ;;
  remove_retired_860m df retired_860m.

Definition same_generator (a b : generator) : Prop :=
  plant_id_eia a = plant_id_eia b /\ generator_id a = generator_id b.

Lemma string_of_uint_no_underscore (d : Decimal.uint) :
  no_underscore (NilEmpty.string_of_uint d) = true.
Proof. induction d; simpl; auto. Qed.

Lemma astype_str_no_underscore (z : Z) : no_underscore (astype_str z) = true.
Proof.
  unfold astype_str, NilZero.string_of_int, NilZero.string_of_uint.
  destruct (Z.to_int z) as [d|d]; destruct d; simpl;
    auto using string_of_uint_no_underscore.
Qed.

Lemma to_int_not_nil (z : Z) :
  Z.to_int z <> Decimal.Pos Decimal.Nil
  /\ Z.to_int z <> Decimal.Neg Decimal.Nil.
Proof.
  assert (Hpos : forall p, Pos.to_uint p <> Decimal.Nil).
  { intros p H.
    pose proof (DecimalPos.Unsigned.of_to p) as Hp. rewrite H in Hp.
    discriminate. }
  destruct z as [|p|p]; simpl; split; try discriminate;
    intro H; injection H as H; exact (Hpos p H).
Qed.

Lemma astype_str_inj (z1 z2 : Z) : astype_str z1 = astype_str z2 -> z1 = z2.
Proof.
  unfold astype_str. intro H.
  destruct (to_int_not_nil z1) as [H1 H1'].
  destruct (to_int_not_nil z2) as [H2 H2'].
  pose proof (NilZero.isi _ H1 H1') as E1.
  pose proof (NilZero.isi _ H2 H2') as E2.
  rewrite H in E1. rewrite E1 in E2. injection E2 as E.
  rewrite <- (DecimalZ.of_to z1), <- (DecimalZ.of_to z2). now rewrite E.
Qed.

Lemma split_at_underscore (a b x y : string) :
  no_underscore a = true -> no_underscore b = true ->
  (a ++ "_" ++ x = b ++ "_" ++ y)%string -> a = b /\ x = y.
Proof.
  revert b. induction a as [|c a IH]; intros [|c' b] Ha Hb H; simpl in *.
  - injection H as H. now split.
  - injection H as Hc _. subst c'. discriminate.
  - injection H as Hc _. subst c. discriminate.
  - injection H as Hc H. subst c'.
    apply andb_true_iff in Ha. apply andb_true_iff in Hb.
    destruct (IH b (proj2 Ha) (proj2 Hb) H) as [-> ->]. now split.
Qed.

Lemma plant_gen_id_inj (a b : generator) :
  plant_gen_id a = plant_gen_id b <-> same_generator a b.
Proof.
  unfold plant_gen_id, same_generator. split.
  - intro H.
    destruct (split_at_underscore _ _ _ _ (astype_str_no_underscore _)
                (astype_str_no_underscore _) H) as [H1 H2].
    split; [now apply astype_str_inj | exact H2].
  - intros [-> ->]. reflexivity.
Qed.

Lemma isin_keys (g : generator) (amendment : list generator) :
  isin (plant_gen_id g) (map plant_gen_id amendment) = true
  <-> exists c, In c amendment /\ same_generator c g.
Proof.
  unfold isin. rewrite existsb_exists. split.
  - intros [k [Hk He]]. apply String.eqb_eq in He. subst k.
    apply in_map_iff in Hk. destruct Hk as [c [Hc Hin]].
    exists c. split; [exact Hin | now apply plant_gen_id_inj].
  - intros [c [Hin Hs]]. exists (plant_gen_id c). split.
    + now apply in_map.
    + apply String.eqb_eq. symmetry. now apply plant_gen_id_inj.
Qed.

(** X1.  The synthetic key identifies a generator: two rows have the same
    [plant_gen_id] exactly when they have the same plant id and the same
    generator id (the generator id may itself contain underscores).  So a
    row is removed exactly when the amendment table lists its plant and
    generator, and kept exactly when it does not. *)
Theorem removal_is_by_plant_and_generator
        (df amendment : list generator) (g : generator) :
  (forall a b, plant_gen_id a = plant_gen_id b <-> same_generator a b)
  /\ (In g (removed df amendment)
      <-> In g df /\ exists c, In c amendment /\ same_generator c g)
  /\ (In g (kept df amendment)
      <-> In g df /\ ~ exists c, In c amendment /\ same_generator c g).
Proof.
  split; [exact plant_gen_id_inj|]. split.
  - unfold removed. rewrite filter_In, isin_keys. reflexivity.
  - unfold kept. rewrite filter_In, negb_true_iff.
    rewrite <- isin_keys. split; intros [H1 H2]; split; try exact H1.
    + rewrite H2. discriminate.
    + destruct (isin _ _); [exfalso; now apply H2 | reflexivity].
Qed.

Lemma isin_app (k : string) (a b : list string) :
  isin k (a ++ b) = isin k a || isin k b.
Proof. unfold isin. apply existsb_app. Qed.

Lemma kept_kept (df c r : list generator) :
  kept (kept df c) r = kept df (c ++ r).
Proof.
  unfold kept. induction df as [|g df IH]; simpl; [reflexivity|].
  rewrite map_app, isin_app.
  destruct (isin (plant_gen_id g) (map plant_gen_id c)); simpl.
  - rewrite <- map_app. exact IH.
  - destruct (isin (plant_gen_id g) (map plant_gen_id r)); simpl;
      rewrite <- map_app; now rewrite IH.
Qed.

Lemma kept_swap (df c r : list generator) :
  kept df (c ++ r) = kept df (r ++ c).
Proof.
  unfold kept. apply filter_ext. intro g.
  rewrite !map_app, !isin_app. now rewrite orb_comm.
Qed.

Lemma kept_nil (df : list generator) : kept df [] = df.
Proof.
  unfold kept. induction df as [|g df IH]; [reflexivity|].
  simpl. simpl in IH. now rewrite IH.
Qed.

(** X2.  The two removals compose into one: removing the canceled and then
    the retired generators never fails and keeps exactly the rows that
    neither table lists; the order of the two removals does not matter,
    removing the same table twice removes nothing more, and an empty
    amendment table leaves the table as it is. *)
Theorem removals_compose (df canceled_860m retired_860m : list generator) :
  remove_canceled_then_retired df canceled_860m retired_860m
  = Ok (kept df (canceled_860m ++ retired_860m))
  /\ remove_canceled_then_retired df canceled_860m retired_860m
     = (df' <- remove_retired_860m df retired_860m ;;
        remove_canceled_860m df' canceled_860m)
  /\ (df' <- remove_retired_860m df retired_860m ;;
      remove_retired_860m df' retired_860m)
     = remove_retired_860m df retired_860m
  /\ remove_canceled_860m df [] = Ok df.
Proof.
  unfold remove_canceled_then_retired.
  repeat (rewrite ?remove_canceled_860m_kept, ?remove_retired_860m_kept;
          cbn [bind]).
  rewrite !kept_kept.
  split; [reflexivity|].
  split; [now rewrite kept_swap|].
  split; [|now rewrite kept_nil].
  f_equal. unfold kept. apply filter_ext. intro g.
  rewrite map_app, isin_app. now rewrite orb_diag.
Qed.

End RemovalFacts.

(** ** Grouping rows by a key, and weighted averages *)

Module Groupby.

(** [np.average(x, weights=w)] for complete data: the weighted sum and the
    sum of the weights of a list of (value, weight) pairs. *)
Definition weighted_total (l : list (Q * Q)) : Q :=
  Qsum (map (fun xw => fst xw * snd xw) l).

Definition weight_total (l : list (Q * Q)) : Q := Qsum (map snd l).

Section Keys.

Context {K : Type}.
Variable eq_dec : forall a b : K, {a = b} + {a <> b}.
Variable leb : K -> K -> bool.

Fixpoint insert (k : K) (l : list K) : list K :=
  match l with
  | [] => [k]
  | k' :: rest => if leb k k' then k :: l else k' :: insert k rest
  end.

Fixpoint sort (l : list K) : list K :=
  match l with
  | [] => []
  | k :: rest => insert k (sort rest)
  end.

(** The keys of [df.groupby(by)]: the distinct keys, ascending. *)
Definition keys (l : list K) : list K := sort (nodup eq_dec l).

Definition has_key {R : Type} (key : R -> K) (k : K) (r : R) : bool :=
  if eq_dec (key r) k then true else false.

(** [df.groupby(by)] as the list of (key, rows with that key). *)
Definition groupby {R : Type} (key : R -> K) (df : list R)
  : list (K * list R) :=
  map (fun k => (k, filter (has_key key k) df)) (keys (map key df)).

Lemma insert_perm (k : K) (l : list K) : Permutation (k :: l) (insert k l).
Proof.
  induction l as [|k' l IH]; simpl; [apply Permutation_refl|].
  destruct (leb k k'); [apply Permutation_refl|].
  eapply perm_trans; [apply perm_swap|]. now constructor.
Qed.

Lemma sort_perm (l : list K) : Permutation l (sort l).
Proof.
  induction l as [|k l IH]; simpl; [constructor|].
  eapply perm_trans; [|apply insert_perm]. now constructor.
Qed.

Lemma keys_In (l : list K) (k : K) : In k (keys l) <-> In k l.
Proof.
  unfold keys. split; intro H.
  - apply (nodup_In eq_dec).
    now apply (Permutation_in _ (Permutation_sym (sort_perm _))).
  - apply (Permutation_in _ (sort_perm _)). now apply nodup_In.
Qed.

Lemma keys_NoDup (l : list K) : NoDup (keys l).
Proof.
  unfold keys.
  apply (Permutation_NoDup (sort_perm _)). apply NoDup_nodup.
Qed.

Lemma has_key_true {R : Type} (key : R -> K) (k : K) (r : R) :
  has_key key k r = true <-> key r = k.
Proof.
  unfold has_key. destruct (eq_dec (key r) k); split; congruence.
Qed.

Lemma indicator_Qsum (k : K) (ks : list K) (x : Q) :
  NoDup ks -> In k ks ->
  Qsum (map (fun k' => if eq_dec k k' then x else 0) ks) == x.
Proof.
  induction 1 as [|k' ks Hk Hnd IH]; simpl; intro Hin; [contradiction|].
  destruct (eq_dec k k') as [E|E].
  - subst k'.
    assert (H0 : Qsum (map (fun k' => if eq_dec k k' then x else 0) ks)
                 == 0).
    { clear IH Hnd Hin. induction ks as [|k1 ks IH]; simpl; [reflexivity|].
      destruct (eq_dec k k1) as [E|E].
      - subst. exfalso. apply Hk. now left.
      - rewrite IH; [ring|]. intro H. apply Hk. now right. }
    rewrite H0. ring.
  - destruct Hin as [Hin | Hin]; [congruence|].
    rewrite (IH Hin). ring.
Qed.

Lemma Qsum_add {A : Type} (f g : A -> Q) (l : list A) :
  Qsum (map (fun a => f a + g a) l) == Qsum (map f l) + Qsum (map g l).
Proof.
  induction l as [|a l IH]; simpl; [ring|]. rewrite IH. ring.
Qed.

Lemma Qsum_ext {A : Type} (f g : A -> Q) (l : list A) :
  (forall a, In a l -> f a == g a) -> Qsum (map f l) == Qsum (map g l).
Proof.
  induction l as [|a l IH]; simpl; intro H; [reflexivity|].
  rewrite (H a (or_introl eq_refl)), IH; [reflexivity|].
  intros; apply H; now right.
Qed.

(** Summing a column group by group gives the sum over the table. *)
Lemma group_sums {R : Type} (key : R -> K) (f : R -> Q) (df : list R)
      (ks : list K) :
  NoDup ks -> (forall r, In r df -> In (key r) ks) ->
  Qsum (map (fun k => Qsum (map f (filter (has_key key k) df))) ks)
  == Qsum (map f df).
Proof.
  intro Hnd. induction df as [|r df IH]; intro Hin.
  - simpl. clear. induction ks; simpl; [reflexivity|].
    rewrite IHks. ring.
  - rewrite (Qsum_ext _ (fun k => (if eq_dec (key r) k then f r else 0)
                                  + Qsum (map f (filter (has_key key k) df)))).
    + rewrite Qsum_add, IH by (intros; apply Hin; now right).
      rewrite (indicator_Qsum (key r) ks (f r) Hnd
                              (Hin r (or_introl eq_refl))).
      simpl. reflexivity.
    + intros k _. simpl. unfold has_key at 1.
      destruct (eq_dec (key r) k); simpl; ring.
Qed.

End Keys.

Lemma weighted_total_bounds (lo hi : Q) (l : list (Q * Q)) :
  (forall xw, In xw l -> 0 <= snd xw /\ lo <= fst xw /\ fst xw <= hi) ->
  lo * weight_total l <= weighted_total l
  /\ weighted_total l <= hi * weight_total l.
Proof.
  unfold weighted_total, weight_total.
  induction l as [|[x w] l IH]; simpl; intro H.
  - split; lra.
  - destruct (H (x, w) (or_introl eq_refl)) as (Hw & Hlo & Hhi).
    simpl in *.
    destruct IH as [IH1 IH2]; [intros; apply H; now right|].
    split; nra.
Qed.

Lemma weighted_average_bounds (lo hi : Q) (l : list (Q * Q)) :
  (forall xw, In xw l -> 0 <= snd xw /\ lo <= fst xw /\ fst xw <= hi) ->
  0 < weight_total l ->
  lo <= weighted_total l / weight_total l
  /\ weighted_total l / weight_total l <= hi.
Proof.
  intros H Hpos. destruct (weighted_total_bounds lo hi l H) as [H1 H2].
  split.
  - apply Qle_shift_div_l; [exact Hpos | exact H1].
  - apply Qle_shift_div_r; [exact Hpos | exact H2].
Qed.

End Groupby.

(** ** Where heat rates stay missing after the fill (lines 2709-2743) *)

Module HeatRateFacts.

Import HeatRate.

Lemma dropna_nil_iff (s : list (option Q)) :
  dropna s = [] <-> forall x, In x s -> x = None.
Proof.
  split; [apply dropna_nil_all_null|].
  induction s as [|[v|] s IH]; simpl; intro H.
  - reflexivity.
  - specialize (H (Some v) (or_introl eq_refl)). discriminate.
  - apply IH. intros; apply H; now right.
Qed.

Lemma technology_median_none pm (df : list unit_row) (tech : option string) :
  technology_median pm df tech = None
  <-> forall q, In q df -> tech_eq tech q = true -> banded_value pm q = None.
Proof.
  unfold technology_median. rewrite median_none_iff, dropna_nil_iff.
  rewrite banded_units_map. split.
  - intros H q Hq Ht. apply (H (banded_value pm q)).
    apply in_map_iff. exists (set_heat_rate q (banded_value pm q)).
    split; [reflexivity|]. apply filter_In. split.
    + apply in_map_iff. now exists q.
    + exact Ht.
  - intros H x Hx. apply in_map_iff in Hx. destruct Hx as [q' [<- Hq']].
    apply filter_In in Hq'. destruct Hq' as [Hq' Ht].
    apply in_map_iff in Hq'. destruct Hq' as [q [<- Hq]].
    simpl. apply (H q Hq). exact Ht.
Qed.

Lemma Forall2_map_r {A B : Type} (f : A -> B) (P : A -> B -> Prop)
      (l : list A) :
  (forall a, In a l -> P a (f a)) -> Forall2 P l (map f l).
Proof.
  induction l as [|a l IH]; simpl; intro H; constructor.
  - apply H. now left.
  - apply IH. intros; apply H; now right.
Qed.

(** X3.  After lines 2709-2743 every row is the input row with its heat
    rate replaced, and the heat rate is still missing exactly when the row's
    own banded value is missing and no row of the same technology has a
    banded value (a row whose technology is null has no row of the same
    technology).  So within one technology either every row ends with a
    heat rate or none does. *)
Theorem heat_rate_missing_only_without_valid_data
        (prime_mover_hr_map : index_key -> option Q)
        (units_model : list unit_row) :
  Forall2
    (fun r r' =>
       r' = set_heat_rate r (final_value prime_mover_hr_map units_model r)
       /\ (heat_rate_mmbtu_mwh r' = None
           <-> banded_value prime_mover_hr_map r = None
               /\ forall q, In q units_model ->
                            tech_eq (technology_description r) q = true ->
                            banded_value prime_mover_hr_map q = None))
    units_model
    (estimate_heat_rates prime_mover_hr_map units_model).
Proof.
  rewrite estimate_heat_rates_map.
  apply (Forall2_map_r
           (fun r => set_heat_rate
                       r (final_value prime_mover_hr_map units_model r))).
  intros r _. split; [reflexivity|]. simpl. unfold final_value.
  rewrite <- technology_median_none.
  destruct (banded_value prime_mover_hr_map r) as [v|]; simpl.
  - split; [discriminate | intros [H _]; discriminate].
  - split; [now split | now intros [_ H]].
Qed.

End HeatRateFacts.

(** ** Unit heat rates weighted by generation
    ([calculate_weighted_heat_rate] and [unit_generator_heat_rates]) *)

Module UnitHeatRates.

(** One row of PUDL's heat rate by unit table: one unit in one year. *)
Record hr_row := {
  report_year : Z;
  plant_id_eia : Z;
  unit_id_pudl : Z;
  net_generation_mwh : option Q;
  fuel_consumed_mmbtu : option Q;
  heat_rate_mmbtu_mwh : option Q
}.

(** One row of the weighted table. *)
Record weighted_hr := {
  w_plant_id_eia : Z;
  w_unit_id_pudl : Z;
  w_heat_rate_mmbtu_mwh : option Q
}.

Definition unit_key : Type := Z * Z.

Definition unit_key_eq_dec (a b : unit_key) : {a = b} + {a <> b}.
Proof. decide equality; apply Z.eq_dec. Defined.

Definition unit_key_leb (a b : unit_key) : bool :=
  if (fst a =? fst b)%Z then (snd a <=? snd b)%Z else (fst a <=? fst b)%Z.

Definition key_of (r : hr_row) : unit_key :=
  (plant_id_eia r, unit_id_pudl r).

Fixpoint all_some (l : list (option Q)) : option (list Q) :=
  match l with
  | [] => Some []
  | Some v :: rest => option_map (cons v) (all_some rest)
  | None :: rest => None
  end.

Fixpoint complete (l : list (option Q * option Q)) : option (list (Q * Q)) :=
  match l with
  | [] => Some []
  | (Some x, Some w) :: rest => option_map (cons (x, w)) (complete rest)
  | _ :: rest => None
  end.

(** [np.average(x, weights=w)] on (value, weight) pairs: the weights that
    sum to zero raise; a NaN anywhere gives NaN. *)
Definition np_average (l : list (option Q * option Q)) : result (option Q) :=
  match all_some (map snd l) with
  | None => Ok None
  | Some ws =>
      if Qeq_bool (Qsum ws) 0
      then Raise (ZeroDivisionError
                    "Weights sum to zero, can't be normalized")
      else Ok (option_map
                 (fun p => Groupby.weighted_total p / Groupby.weight_total p)
                 (complete l))
  end.

(** [w_hr]. *)
Definition w_hr (df : list hr_row) : result (option Q) :=
  np_average (map (fun r => (heat_rate_mmbtu_mwh r, net_generation_mwh r))
                  df).

Definition calculate_weighted_heat_rate (heat_rate_df : list hr_row)
  : result (list weighted_hr) :=
  Clustering.traverse
    (fun g => hr <- w_hr (snd g) ;;
              Ok {| w_plant_id_eia := fst (fst g);
                    w_unit_id_pudl := snd (fst g);
                    w_heat_rate_mmbtu_mwh := hr |})
    (Groupby.groupby unit_key_eq_dec unit_key_leb key_of heat_rate_df).

(** [DataFrame.dropna()]: a row with a NaN in any column is dropped. *)
Definition no_nan (r : hr_row) : bool :=
  negb (isnull (net_generation_mwh r))
  && negb (isnull (fuel_consumed_mmbtu r))
  && negb (isnull (heat_rate_mmbtu_mwh r)).

(** The rows [unit_generator_heat_rates] keeps of [pudl_out.hr_by_unit()]. *)
Definition selected (data_years : list Z) (unit_hr : list hr_row)
  : list hr_row :=
  filter no_nan
         (filter (fun r => existsb (Z.eqb (report_year r)) data_years
                           && cell_gt (net_generation_mwh r) 0)
                 unit_hr).

Definition unit_generator_heat_rates (hr_by_unit : list hr_row)
           (data_years : list Z) : result (list weighted_hr) :=
  calculate_weighted_heat_rate (selected data_years hr_by_unit).

Definition sample_hr_by_unit : list hr_row :=
  [ {| report_year := 2018; plant_id_eia := 3; unit_id_pudl := 1;
       net_generation_mwh := Some (100 # 1);
       fuel_consumed_mmbtu := Some (1000 # 1);
       heat_rate_mmbtu_mwh := Some (10 # 1) |};
    {| report_year := 2019; plant_id_eia := 3; unit_id_pudl := 1;
       net_generation_mwh := Some (300 # 1);
       fuel_consumed_mmbtu := Some (3600 # 1);
       heat_rate_mmbtu_mwh := Some (12 # 1) |};
    {| report_year := 2019; plant_id_eia := 3; unit_id_pudl := 2;
       net_generation_mwh := Some 0;
       fuel_consumed_mmbtu := Some (5 # 1);
       heat_rate_mmbtu_mwh := None |} ].

Lemma complete_some (l : list (option Q * option Q)) :
  (forall p, In p l -> fst p <> None /\ snd p <> None) ->
  exists c, complete l = Some c
            /\ map (fun xw => (Some (fst xw), Some (snd xw))) c = l.
Proof.
  induction l as [|[[x|] [w|]] l IH]; simpl; intro H.
  - now exists [].
  - destruct IH as [c [Hc Hm]]; [intros; apply H; now right|].
    exists ((x, w) :: c). rewrite Hc. simpl. now rewrite Hm.
  - destruct (H (Some x, None) (or_introl eq_refl)) as [_ E]. now elim E.
  - destruct (H (None, Some w) (or_introl eq_refl)) as [E _]. now elim E.
  - destruct (H (None, None) (or_introl eq_refl)) as [E _]. now elim E.
Qed.

Lemma all_some_complete (l : list (option Q * option Q))
      (c : list (Q * Q)) :
  map (fun xw => (Some (fst xw), Some (snd xw))) c = l ->
  all_some (map snd l) = Some (map snd c).
Proof.
  intros <-. induction c as [|[x w] c IH]; simpl; [reflexivity|].
  now rewrite IH.
Qed.

Lemma Qsum_pos (l : list Q) :
  l <> [] -> (forall w, In w l -> 0 < w) -> 0 < Qsum l.
Proof.
  induction l as [|w l IH]; intros Hne H; [congruence|]. simpl.
  assert (0 < w) by (apply H; now left).
  destruct l as [|w' l'].
  - simpl. lra.
  - assert (0 < Qsum (w' :: l'))
      by (apply IH; [discriminate | intros; apply H; now right]).
    lra.
Qed.

(** The weighted heat rate of a non-empty group of complete rows with
    positive generation. *)
Lemma w_hr_selected (df : list hr_row) :
  df <> [] ->
  (forall r, In r df ->
             no_nan r = true /\ cell_gt (net_generation_mwh r) 0 = true) ->
  exists v, w_hr df = Ok (Some v)
            /\ forall lo hi,
                 (forall r x, In r df -> heat_rate_mmbtu_mwh r = Some x ->
                              lo <= x /\ x <= hi) ->
                 lo <= v /\ v <= hi.
Proof.
  intros Hne Hsel. unfold w_hr, np_average.
  set (l := map (fun r => (heat_rate_mmbtu_mwh r, net_generation_mwh r)) df).
  destruct (complete_some l) as [c [Hc Hm]].
  { intros p Hp. unfold l in Hp. apply in_map_iff in Hp.
    destruct Hp as [r [<- Hr]]. destruct (Hsel r Hr) as [Hn _].
    unfold no_nan in Hn. rewrite !andb_true_iff, !negb_true_iff in Hn.
    destruct Hn as [[H1 _] H3]. simpl.
    destruct (heat_rate_mmbtu_mwh r), (net_generation_mwh r);
      split; discriminate. }
  rewrite (all_some_complete l c Hm), Hc.
  assert (Hin : forall xw, In xw c ->
                  exists r, In r df
                            /\ heat_rate_mmbtu_mwh r = Some (fst xw)
                            /\ net_generation_mwh r = Some (snd xw)).
  { intros xw Hxw.
    assert (Hl : In (Some (fst xw), Some (snd xw)) l).
    { rewrite <- Hm.
      exact (in_map (fun xw0 : Q * Q => (Some (fst xw0), Some (snd xw0)))
                    c xw Hxw). }
    unfold l in Hl. apply in_map_iff in Hl. destruct Hl as [r [Hr Hrin]].
    exists r. injection Hr as H1 H2. now repeat split. }
  assert (Hw : forall xw, In xw c -> 0 < snd xw).
  { intros xw Hxw. destruct (Hin xw Hxw) as [r [Hr [_ Hg]]].
    destruct (Hsel r Hr) as [_ Hpos]. rewrite Hg in Hpos. simpl in Hpos.
    now apply Qlt_bool_iff. }
  assert (Hcne : c <> []).
  { intro E. subst c. simpl in Hm. unfold l in Hm.
    destruct df; [congruence | discriminate]. }
  assert (Hpos : 0 < Groupby.weight_total c).
  { unfold Groupby.weight_total. apply Qsum_pos.
    - destruct c; [congruence | discriminate].
    - intros w Hwin. apply in_map_iff in Hwin.
      destruct Hwin as [xw [<- Hxw]]. now apply Hw. }
  fold (Groupby.weight_total c).
  destruct (Qeq_bool (Groupby.weight_total c) 0) eqn:E.
  { apply Qeq_bool_iff in E. rewrite E in Hpos. discriminate. }
  simpl. eexists. split; [reflexivity|]. intros lo hi Hrange.
  apply Groupby.weighted_average_bounds; [|exact Hpos].
  intros xw Hxw. destruct (Hin xw Hxw) as [r [Hr [Hh _]]].
  split; [apply Qlt_le_weak; now apply Hw|].
  exact (Hrange r (fst xw) Hr Hh).
Qed.

Lemma groupby_In {R : Type} (key : R -> unit_key) (df : list R)
      (g : unit_key * list R) :
  In g (Groupby.groupby unit_key_eq_dec unit_key_leb key df) ->
  snd g = filter (Groupby.has_key unit_key_eq_dec key (fst g)) df
  /\ exists r, In r df /\ key r = fst g.
Proof.
  unfold Groupby.groupby. intro H. apply in_map_iff in H.
  destruct H as [k [<- Hk]]. simpl. split; [reflexivity|].
  apply Groupby.keys_In in Hk. apply in_map_iff in Hk.
  destruct Hk as [r [Hr Hin]]. now exists r.
Qed.

Lemma selected_In (data_years : list Z) (hr_by_unit : list hr_row)
      (r : hr_row) :
  In r (selected data_years hr_by_unit) <->
  In r hr_by_unit
  /\ In (report_year r) data_years
  /\ cell_gt (net_generation_mwh r) 0 = true
  /\ no_nan r = true.
Proof.
  unfold selected. rewrite !filter_In, andb_true_iff.
  assert (Hy : existsb (Z.eqb (report_year r)) data_years = true
               <-> In (report_year r) data_years).
  { rewrite existsb_exists. split.
    - intros [y [Hy E]]. apply Z.eqb_eq in E. now subst.
    - intro H. exists (report_year r). split; [exact H | apply Z.eqb_refl]. }
  rewrite Hy. tauto.
Qed.

(** X4.  [unit_generator_heat_rates] never fails on the weights: whatever
    PUDL's table holds, the rows it keeps (a year of [data_years], positive
    net generation, no NaN) give one row per (plant, unit) that has a kept
    row, each unit once, and the unit's heat rate is a number that lies
    between any bounds that hold for the unit's kept annual heat rates. *)
Theorem unit_heat_rate_is_a_weighted_average
        (hr_by_unit : list hr_row) (data_years : list Z) :
  exists out,
    unit_generator_heat_rates hr_by_unit data_years = Ok out
    /\ NoDup (map (fun w => (w_plant_id_eia w, w_unit_id_pudl w)) out)
    /\ (forall k,
          In k (map (fun w => (w_plant_id_eia w, w_unit_id_pudl w)) out)
          <-> exists r, In r (selected data_years hr_by_unit)
                        /\ key_of r = k)
    /\ forall w, In w out ->
         exists v, w_heat_rate_mmbtu_mwh w = Some v
           /\ forall lo hi,
                (forall r x, In r (selected data_years hr_by_unit) ->
                             key_of r = (w_plant_id_eia w, w_unit_id_pudl w) ->
                             heat_rate_mmbtu_mwh r = Some x ->
                             lo <= x /\ x <= hi) ->
                lo <= v /\ v <= hi.
Proof.
  unfold unit_generator_heat_rates, calculate_weighted_heat_rate.
  set (df := selected data_years hr_by_unit).
  set (groups := Groupby.groupby unit_key_eq_dec unit_key_leb key_of df).
  assert (Hgroup : forall g, In g groups ->
            snd g <> []
            /\ forall r, In r (snd g) ->
                         In r df /\ key_of r = fst g
                         /\ no_nan r = true
                         /\ cell_gt (net_generation_mwh r) 0 = true).
  { intros g Hg. destruct (groupby_In key_of df g Hg) as [Hs [r [Hr Hk]]].
    split.
    - intro E. rewrite Hs in E.
      assert (Hin : In r (filter (Groupby.has_key unit_key_eq_dec key_of
                                                  (fst g)) df)).
      { apply filter_In. split; [exact Hr|].
        now apply Groupby.has_key_true. }
      rewrite E in Hin. exact Hin.
    - intros r' Hr'. rewrite Hs in Hr'. apply filter_In in Hr'.
      destruct Hr' as [Hin Hkey]. apply Groupby.has_key_true in Hkey.
      pose proof (proj1 (selected_In data_years hr_by_unit r') Hin)
        as (_ & _ & Hpos & Hnan).
      now repeat split. }
  assert (Hw : forall g, In g groups ->
            exists v, w_hr (snd g) = Ok (Some v)
              /\ forall lo hi,
                   (forall r x, In r (snd g) ->
                                heat_rate_mmbtu_mwh r = Some x ->
                                lo <= x /\ x <= hi) ->
                   lo <= v /\ v <= hi).
  { intros g Hg. destruct (Hgroup g Hg) as [Hne Hrows].
    apply w_hr_selected; [exact Hne|].
    intros r Hr. now destruct (Hrows r Hr) as (_ & _ & ? & ?). }
  destruct (Clustering.traverse_total
              (fun g => hr <- w_hr (snd g) ;;
                        Ok {| w_plant_id_eia := fst (fst g);
                              w_unit_id_pudl := snd (fst g);
                              w_heat_rate_mmbtu_mwh := hr |})
              groups) as [out Hout].
  { intros g Hg. destruct (Hw g Hg) as [v [Hv _]]. cbv beta.
    unfold unit_key in *. rewrite Hv. simpl. eexists; reflexivity. }
  exists out. split; [exact Hout|].
  pose proof (Clustering.traverse_inv _ _ _ Hout) as HF.
  assert (Hkeys : map (fun w => (w_plant_id_eia w, w_unit_id_pudl w)) out
                  = map fst groups).
  { clear - HF. induction HF as [|g w gs ws Hgw _ IH]; simpl; [reflexivity|].
    rewrite IH.
    destruct (w_hr (snd g)); simpl in Hgw; [|discriminate].
    injection Hgw as <-. cbn [w_plant_id_eia w_unit_id_pudl].
    now rewrite <- surjective_pairing. }
  assert (Hfst : map fst groups
                 = Groupby.keys unit_key_eq_dec unit_key_leb
                                (map key_of df)).
  { unfold groups, Groupby.groupby. rewrite map_map. simpl. apply map_id. }
  rewrite Hkeys, Hfst. split; [apply Groupby.keys_NoDup|]. split.
  - intro k. rewrite Groupby.keys_In, in_map_iff.
    split; intros [r [? ?]]; exists r; now split.
  - intros w Hin.
    assert (Hg : exists g, In g groups
                   /\ (hr <- w_hr (snd g) ;;
                       Ok {| w_plant_id_eia := fst (fst g);
                             w_unit_id_pudl := snd (fst g);
                             w_heat_rate_mmbtu_mwh := hr |}) = Ok w).
    { clear - HF Hin. induction HF as [|g w' gs ws Hgw _ IH];
        [contradiction|].
      destruct Hin as [<- | Hin].
      - exists g. split; [now left | exact Hgw].
      - destruct (IH Hin) as [g' [? ?]]. exists g'. split; [now right|]. 
        assumption. }
    destruct Hg as [g [Hg Hgw]]. destruct (Hw g Hg) as [v [Hv Hb]].
    unfold unit_key in *. rewrite Hv in Hgw. simpl in Hgw. injection Hgw as <-. simpl.
    exists v. split; [reflexivity|]. intros lo hi Hrange. apply Hb.
    intros r x Hr Hx. destruct (Hgroup g Hg) as [_ Hrows].
    destruct (Hrows r Hr) as (Hin' & Hk & _).
    apply (Hrange r x Hin'); [|exact Hx].
    rewrite Hk. now destruct (fst g).
Qed.

End UnitHeatRates.

(** ** Units of one region and technology, grouped ([group_units]) *)

Module GroupUnits.

(** One generator row of [df], with the columns [group_units] reads.  The
    unit id is never null here: [create_region_technology_clusters] has
    filled the missing ones with plant and generator id. *)
Record generator := {
  plant_id_eia : Z;
  unit_id_pudl : string;
  capacity_col : option Q;
  minimum_load_mw : option Q;
  heat_rate_mmbtu_mwh : option Q;
  Fixed_OM_Cost_per_MWyr : option Q;
  Var_OM_Cost_per_MWh : option Q
}.

Definition unit_key : Type := Z * string.

Definition unit_key_eq_dec (a b : unit_key) : {a = b} + {a <> b}.
Proof. decide equality; [apply string_dec | apply Z.eq_dec]. Defined.

Definition key_of (r : generator) : unit_key :=
  (plant_id_eia r, unit_id_pudl r).

(** ["mean"]: NaN cells are skipped, and a column with no value has mean
    NaN. *)
Definition nanmean (s : list (option Q)) : option Q :=
  match HeatRate.dropna s with
  | [] => None
  | v :: vs =>
      Some (Qsum (v :: vs) / inject_Z (Z.of_nat (List.length (v :: vs))))
  end.

(** One row of [df_copy.groupby(by).agg(...)]. *)
Definition agg (g : unit_key * list generator) : Clustering.unit_group :=
  {| Clustering.plant_id_eia := fst (fst g);
     Clustering.unit_id_pudl := snd (fst g);
     Clustering.capacity_col := nansum (map capacity_col (snd g));
     Clustering.minimum_load_mw := nansum (map minimum_load_mw (snd g));
     Clustering.heat_rate_mmbtu_mwh :=
       nanmean (map heat_rate_mmbtu_mwh (snd g));
     Clustering.Fixed_OM_Cost_per_MWyr :=
       nanmean (map Fixed_OM_Cost_per_MWyr (snd g));
     Clustering.Var_OM_Cost_per_MWh :=
       nanmean (map Var_OM_Cost_per_MWh (snd g)) |}.

(** [grouped_units.fillna(grouped_units.mean())]: the two sums hold no NaN,
    the three means are filled with their column's mean. *)
Definition fillna_mean (grouped_units : list Clustering.unit_group)
  : list Clustering.unit_group :=
  let column_mean col := nanmean (map col grouped_units) in
  map (fun u =>
         {| Clustering.plant_id_eia := Clustering.plant_id_eia u;
            Clustering.unit_id_pudl := Clustering.unit_id_pudl u;
            Clustering.capacity_col := Clustering.capacity_col u;
            Clustering.minimum_load_mw := Clustering.minimum_load_mw u;
            Clustering.heat_rate_mmbtu_mwh :=
              HeatRate.fillna (column_mean Clustering.heat_rate_mmbtu_mwh)
                              (Clustering.heat_rate_mmbtu_mwh u);
            Clustering.Fixed_OM_Cost_per_MWyr :=
              HeatRate.fillna (column_mean Clustering.Fixed_OM_Cost_per_MWyr)
                              (Clustering.Fixed_OM_Cost_per_MWyr u);
            Clustering.Var_OM_Cost_per_MWh :=
              HeatRate.fillna (column_mean Clustering.Var_OM_Cost_per_MWh)
                              (Clustering.Var_OM_Cost_per_MWh u) |})
      grouped_units.

Definition out_key (u : Clustering.unit_group) : unit_key :=
  (Clustering.plant_id_eia u, Clustering.unit_id_pudl u).

Definition sample_leb (a b : unit_key) : bool := (fst a <=? fst b)%Z.

Definition sample_df : list generator :=
  [ {| plant_id_eia := 3; unit_id_pudl := "1";
       capacity_col := Some (50 # 1); minimum_load_mw := Some (20 # 1);
       heat_rate_mmbtu_mwh := Some (10 # 1);
       Fixed_OM_Cost_per_MWyr := None; Var_OM_Cost_per_MWh := None |};
    {| plant_id_eia := 3; unit_id_pudl := "1";
       capacity_col := Some (70 # 1); minimum_load_mw := None;
       heat_rate_mmbtu_mwh := None;
       Fixed_OM_Cost_per_MWyr := None; Var_OM_Cost_per_MWh := None |};
    {| plant_id_eia := 7; unit_id_pudl := "7_GT1";
       capacity_col := Some (30 # 1); minimum_load_mw := Some (5 # 1);
       heat_rate_mmbtu_mwh := None;
       Fixed_OM_Cost_per_MWyr := None; Var_OM_Cost_per_MWh := None |} ].

Definition sample_unit : Clustering.unit_group :=
  {| Clustering.plant_id_eia := 3;
     Clustering.unit_id_pudl := "1";
     Clustering.capacity_col := 120 # 1;
     Clustering.minimum_load_mw := 20 # 1;
     Clustering.heat_rate_mmbtu_mwh := Some (10 # 1);
     Clustering.Fixed_OM_Cost_per_MWyr := None;
     Clustering.Var_OM_Cost_per_MWh := None |}.

Section Order.

(** The order in which pandas sorts the group keys. *)
Variable unit_key_leb : unit_key -> unit_key -> bool.

(** [group_units].  Exact arithmetic has no infinity, so
    [replace([np.inf, -np.inf], np.nan)] changes nothing. *)
Definition group_units (df : list generator) : list Clustering.unit_group :=
  fillna_mean
    (map agg (Groupby.groupby unit_key_eq_dec unit_key_leb key_of df)).

Lemma nanmean_none_iff (s : list (option Q)) :
  nanmean s = None <-> forall x, In x s -> x = None.
Proof.
  rewrite <- HeatRateFacts.dropna_nil_iff. unfold nanmean.
  destruct (HeatRate.dropna s); split; congruence.
Qed.

Lemma nansum_Qsum {A : Type} (col : A -> option Q) (l : list A) :
  nansum (map col l)
  == Qsum (map (fun r => match col r with Some v => v | None => 0 end) l).
Proof.
  induction l as [|a l IH]; simpl; [reflexivity|].
  destruct (col a); rewrite IH; ring.
Qed.

Lemma groups_keys (df : list generator) :
  map fst (Groupby.groupby unit_key_eq_dec unit_key_leb key_of df)
  = Groupby.keys unit_key_eq_dec unit_key_leb (map key_of df).
Proof. unfold Groupby.groupby. rewrite map_map. simpl. apply map_id. Qed.

Lemma group_units_keys (df : list generator) :
  map out_key (group_units df)
  = Groupby.keys unit_key_eq_dec unit_key_leb (map key_of df).
Proof.
  rewrite <- groups_keys. unfold group_units, fillna_mean.
  rewrite !map_map. apply map_ext. intro g. unfold out_key. simpl.
  symmetry. apply surjective_pairing.
Qed.

Lemma group_column_sums (col : generator -> option Q) (df : list generator) :
  Qsum (map (fun g => nansum (map col (snd g)))
            (Groupby.groupby unit_key_eq_dec unit_key_leb key_of df))
  == nansum (map col df).
Proof.
  unfold Groupby.groupby. rewrite map_map. simpl.
  rewrite nansum_Qsum.
  rewrite <- (Groupby.group_sums
                unit_key_eq_dec key_of
                (fun r => match col r with Some v => v | None => 0 end) df
                (Groupby.keys unit_key_eq_dec unit_key_leb (map key_of df))).
  - apply Groupby.Qsum_ext. intros k _. apply nansum_Qsum.
  - apply Groupby.keys_NoDup.
  - intros r Hr. apply Groupby.keys_In. now apply in_map.
Qed.

(** A filled column is null in a row exactly when it is null in every
    row before the fill. *)
Lemma fill_none_iff (col : Clustering.unit_group -> option Q)
      (grouped_units : list Clustering.unit_group)
      (u : Clustering.unit_group) :
  In u grouped_units ->
  (HeatRate.fillna (nanmean (map col grouped_units)) (col u) = None
   <-> forall u', In u' grouped_units -> col u' = None).
Proof.
  intro Hu.
  assert (Hm : nanmean (map col grouped_units) = None
               <-> forall u', In u' grouped_units -> col u' = None).
  { rewrite nanmean_none_iff. split.
    - intros H u' Hu'. apply H. now apply in_map.
    - intros H x Hx. apply in_map_iff in Hx. destruct Hx as [u' [<- Hu']].
      now apply H. }
  rewrite <- Hm. destruct (col u) as [v|] eqn:E; simpl.
  - split; [discriminate|]. intro H.
    rewrite (proj1 Hm H u Hu) in E. discriminate.
  - reflexivity.
Qed.

(** A column of means is null in every group exactly when it is null in
    every generator row. *)
Lemma group_means_none_iff (col : generator -> option Q)
      (col' : Clustering.unit_group -> option Q) (df : list generator) :
  (forall g, col' (agg g) = nanmean (map col (snd g))) ->
  ((forall u, In u (map agg (Groupby.groupby unit_key_eq_dec unit_key_leb
                                             key_of df)) ->
              col' u = None)
   <-> forall r, In r df -> col r = None).
Proof.
  intro Hcol. unfold Groupby.groupby. rewrite map_map. split.
  - intros H r Hr.
    pose (k := key_of r).
    assert (Hk : In k (Groupby.keys unit_key_eq_dec unit_key_leb
                                    (map key_of df)))
      by (apply Groupby.keys_In; now apply in_map).
    specialize (H _ (in_map _ _ k Hk)). cbv beta in H.
    rewrite Hcol in H. simpl in H.
    rewrite nanmean_none_iff in H. apply H.
    apply in_map. apply filter_In. split; [exact Hr|].
    now apply Groupby.has_key_true.
  - intros H u Hu. apply in_map_iff in Hu. destruct Hu as [k [<- _]].
    rewrite Hcol. simpl. apply nanmean_none_iff.
    intros x Hx. apply in_map_iff in Hx. destruct Hx as [r [<- Hr]].
    apply filter_In in Hr. now apply H.
Qed.

(** X5.  [group_units] returns one row per (plant, unit) of [df], each
    unit once, and keeps the totals: the capacities of the rows add up to
    the capacity in [df], and the minimum loads to the minimum load in [df]
    (NaN cells counting as zero, as in a pandas sum). *)
Theorem group_units_conserves_capacity (df : list generator) :
  NoDup (map out_key (group_units df))
  /\ (forall k, In k (map out_key (group_units df))
                <-> exists r, In r df /\ key_of r = k)
  /\ Qsum (map Clustering.capacity_col (group_units df))
     == nansum (map capacity_col df)
  /\ Qsum (map Clustering.minimum_load_mw (group_units df))
     == nansum (map minimum_load_mw df).
Proof.
  rewrite group_units_keys. split; [apply Groupby.keys_NoDup|]. split.
  - intro k. rewrite Groupby.keys_In, in_map_iff.
    split; intros [r [? ?]]; exists r; now split.
  - unfold group_units, fillna_mean. rewrite !map_map. simpl.
    split; apply group_column_sums.
Qed.

(** X6.  After the fill with the column mean, each of the three averaged
    columns (heat rate, fixed and variable O&M) is either complete or empty:
    a row of [group_units] has a null there exactly when no generator row of
    [df] has a value in that column. *)
Theorem group_units_fill_is_all_or_nothing
        (df : list generator) (u : Clustering.unit_group) :
  In u (group_units df) ->
  (Clustering.heat_rate_mmbtu_mwh u = None
   <-> forall r, In r df -> heat_rate_mmbtu_mwh r = None)
  /\ (Clustering.Fixed_OM_Cost_per_MWyr u = None
      <-> forall r, In r df -> Fixed_OM_Cost_per_MWyr r = None)
  /\ (Clustering.Var_OM_Cost_per_MWh u = None
      <-> forall r, In r df -> Var_OM_Cost_per_MWh r = None).
Proof.
  unfold group_units, fillna_mean. intro Hu. apply in_map_iff in Hu.
  destruct Hu as [u0 [<- Hu0]]. simpl.
  rewrite !(fun col => fill_none_iff col _ u0 Hu0).
  repeat split;
    try (apply (group_means_none_iff _ _ df); intro g; reflexivity);
    apply (proj2 (group_means_none_iff _ _ df (fun g => eq_refl))).
Qed.

End Order.

Lemma group_units_fill_is_all_or_nothing_witness :
  In sample_unit (group_units sample_leb sample_df)
  /\ (Clustering.heat_rate_mmbtu_mwh sample_unit = None
      <-> forall r, In r sample_df -> heat_rate_mmbtu_mwh r = None)
  /\ (Clustering.Fixed_OM_Cost_per_MWyr sample_unit = None
      <-> forall r, In r sample_df -> Fixed_OM_Cost_per_MWyr r = None)
  /\ (Clustering.Var_OM_Cost_per_MWh sample_unit = None
      <-> forall r, In r sample_df -> Var_OM_Cost_per_MWh r = None).
Proof.
  assert (H : In sample_unit (group_units sample_leb sample_df))
    by (vm_compute; left; reflexivity).
  split; [exact H|].
  exact (group_units_fill_is_all_or_nothing sample_leb sample_df
                                            sample_unit H).
Defined.

End GroupUnits.

(** ** What the cluster aggregates keep of their members *)

Module ClusterFacts.

Import Clustering.

(** [num_units] as the float it multiplies with. *)
Definition units (row : cluster_row) : Q :=
  inject_Z (Z.of_nat (num_units row)).

(** The sample table with both unit-groups in one cluster. *)
Definition sample_clustered : list (unit_group * nat) :=
  combine sample_grouped [1%nat; 1%nat].

Definition sample_row : cluster_row :=
  aggregate_row sample_clustered (Some "Conventional Steam Coal") 1.

Lemma calc_unit_cluster_values_rows (df : list (unit_group * nat))
      (tech : option string) (rows : list cluster_row) :
  calc_unit_cluster_values (Clustered df) tech = Ok rows ->
  let kept := drop_null_heat_rates df in
  rows = map (aggregate_row kept tech) (cluster_keys kept)
  /\ forall c, In c (cluster_keys kept) ->
               ~ total_weight (members c kept) == 0.
Proof.
  simpl. set (kept := drop_null_heat_rates df). intro H.
  apply traverse_inv in H.
  induction H as [|c row l bs Hc _ IH]; simpl.
  - split; [reflexivity | intros c []].
  - rewrite aggregate_cluster_eq in Hc.
    destruct (Qeq_bool (total_weight (members c kept)) 0) eqn:E;
      [discriminate|].
    injection Hc as <-. destruct IH as [-> IH]. split; [reflexivity|].
    intros c' [<- | Hc'].
    + intro Hz. apply Qeq_bool_iff in Hz. congruence.
    + now apply IH.
Qed.

Lemma mean_times_count (col : unit_group -> Q)
      (rows : list (unit_group * nat)) :
  rows <> [] ->
  mean col rows * inject_Z (Z.of_nat (List.length rows))
  == Qsum (map (fun r => col (fst r)) rows).
Proof.
  intro Hne. unfold mean. fold (count rows).
  pose proof (count_pos rows Hne) as Hc.
  field. intro E. rewrite E in Hc. discriminate.
Qed.

Lemma members_has_key (c : nat) (df : list (unit_group * nat)) :
  members c df = filter (Groupby.has_key Nat.eq_dec snd c) df.
Proof.
  unfold members. apply filter_ext. intro r. unfold Groupby.has_key.
  destruct (Nat.eq_dec (snd r) c) as [E|E].
  - now apply Nat.eqb_eq.
  - now apply Nat.eqb_neq.
Qed.

Lemma cluster_sums (col : unit_group -> Q) (df : list (unit_group * nat)) :
  Qsum (map (fun c => Qsum (map (fun r => col (fst r)) (members c df)))
            (cluster_keys df))
  == Qsum (map (fun r => col (fst r)) df).
Proof.
  rewrite <- (Groupby.group_sums Nat.eq_dec snd (fun r => col (fst r)) df
                                 (cluster_keys df)).
  - apply Groupby.Qsum_ext. intros c _. now rewrite members_has_key.
  - apply cluster_keys_NoDup.
  - intros r Hr. apply cluster_keys_In. now exists r.
Qed.

Lemma aggregate_sums (col : unit_group -> Q) (tech : option string)
      (f : cluster_row -> Q) (kept : list (unit_group * nat)) :
  (forall c, f (aggregate_row kept tech c) = mean col (members c kept)) ->
  Qsum (map (fun row => f row * units row)
            (map (aggregate_row kept tech) (cluster_keys kept)))
  == Qsum (map (fun r => col (fst r)) kept).
Proof.
  intro Hf. rewrite map_map, <- cluster_sums.
  apply Groupby.Qsum_ext. intros c Hc. rewrite Hf. unfold units. simpl.
  apply mean_times_count. now apply members_nonempty.
Qed.

Lemma weighted_sum_total (col : unit_group -> option Q)
      (rows : list (unit_group * nat)) (s : Q) :
  weighted_sum col rows = Some s ->
  exists pairs,
    s = Groupby.weighted_total pairs
    /\ total_weight rows = Groupby.weight_total pairs
    /\ forall xw, In xw pairs ->
         exists r, In r rows /\ col (fst r) = Some (fst xw)
                   /\ capacity_col (fst r) = snd xw.
Proof.
  revert s. induction rows as [|r rows IH]; simpl; intros s H.
  - injection H as <-. exists []. repeat split. intros xw [].
  - destruct (col (fst r)) as [x|] eqn:Ex; [|discriminate].
    destruct (weighted_sum col rows) as [acc|]; [|discriminate].
    injection H as <-. destruct (IH acc eq_refl) as [pairs [-> [Hw Hin]]].
    exists ((x, capacity_col (fst r)) :: pairs). split; [reflexivity|].
    split.
    + unfold total_weight, Groupby.weight_total in *. simpl. now rewrite Hw.
    + intros xw [<- | Hxw].
      * exists r. simpl. repeat split; [now left | exact Ex].
      * destruct (Hin xw Hxw) as [r' [Hr' Hcol]].
        exists r'. split; [now right | exact Hcol].
Qed.

Lemma Qsum_nonneg (l : list Q) :
  (forall x, In x l -> 0 <= x) -> 0 <= Qsum l.
Proof.
  induction l as [|x l IH]; simpl; intro H; [lra|].
  assert (0 <= x) by (apply H; now left).
  assert (0 <= Qsum l) by (apply IH; intros; apply H; now right).
  lra.
Qed.

Lemma Qsum_le {A : Type} (f g : A -> Q) (l : list A) :
  (forall a, In a l -> f a <= g a) -> Qsum (map f l) <= Qsum (map g l).
Proof.
  induction l as [|a l IH]; simpl; intro H; [lra|].
  assert (f a <= g a) by (apply H; now left).
  assert (Qsum (map f l) <= Qsum (map g l))
    by (apply IH; intros; apply H; now right).
  lra.
Qed.

(** The weighted mean of a column over rows of non-negative capacity that
    do not sum to zero. *)
Lemma weighted_mean_bounds (col : unit_group -> option Q)
      (rows : list (unit_group * nat)) (lo hi : Q) :
  ~ total_weight rows == 0 ->
  (forall r, In r rows ->
             0 <= capacity_col (fst r)
             /\ forall x, col (fst r) = Some x -> lo <= x /\ x <= hi) ->
  forall v,
    option_map (fun s => s / total_weight rows) (weighted_sum col rows)
    = Some v ->
    lo <= v /\ v <= hi.
Proof.
  intros Hw Hrows v Hv.
  destruct (weighted_sum col rows) as [s|] eqn:Es; [|discriminate].
  simpl in Hv. injection Hv as <-.
  destruct (weighted_sum_total col rows s Es) as [pairs [-> [Ht Hin]]].
  rewrite Ht in *.
  assert (Hpairs : forall xw, In xw pairs ->
                     0 <= snd xw /\ lo <= fst xw /\ fst xw <= hi).
  { intros xw Hxw. destruct (Hin xw Hxw) as [r [Hr [Hc Hcap]]].
    destruct (Hrows r Hr) as [H0 Hb]. rewrite <- Hcap.
    split; [exact H0 | exact (Hb _ Hc)]. }
  apply Groupby.weighted_average_bounds; [exact Hpairs|].
  assert (H0 : 0 <= Groupby.weight_total pairs).
  { unfold Groupby.weight_total. apply Qsum_nonneg.
    intros x Hx. apply in_map_iff in Hx. destruct Hx as [xw [<- Hxw]].
    now apply Hpairs. }
  destruct (Qlt_le_dec 0 (Groupby.weight_total pairs)) as [Hlt|Hle];
    [exact Hlt|].
  exfalso. apply Hw. lra.
Qed.

(** X7.  The cluster rows keep the totals of the rows they are built
    from: capacity per unit times the number of units, added over the
    clusters, is the capacity of the unit-groups with a heat rate, and so for
    the minimum load.  The unit-groups with a null heat rate are not part of
    any total. *)
Theorem cluster_rows_conserve_capacity
        (df : list (unit_group * nat)) (tech : option string)
        (rows : list cluster_row) :
  calc_unit_cluster_values (Clustered df) tech = Ok rows ->
  let kept :=
    filter (fun r => negb (isnull (heat_rate_mmbtu_mwh (fst r)))) df in
  Qsum (map (fun row => capacity_mean row * units row) rows)
  == Qsum (map (fun r => capacity_col (fst r)) kept)
  /\ Qsum (map (fun row => minimum_load_mw_mean row * units row) rows)
     == Qsum (map (fun r => minimum_load_mw (fst r)) kept)
  /\ list_sum (map num_units rows) = List.length kept.
Proof.
  intro H. apply calc_unit_cluster_values_rows in H. simpl in H.
  rewrite drop_null_heat_rates_spec in H. destruct H as [-> _]. simpl.
  split; [|split].
  - apply (aggregate_sums capacity_col). reflexivity.
  - apply (aggregate_sums minimum_load_mw). reflexivity.
  - rewrite map_map. simpl. apply cluster_keys_length_sum.
Qed.

Lemma cluster_rows_conserve_capacity_witness :
  Qsum (map (fun row => capacity_mean row * units row) [sample_row])
  == Qsum (map (fun r => capacity_col (fst r))
               (filter (fun r => negb (isnull (heat_rate_mmbtu_mwh (fst r))))
                       sample_clustered))
  /\ Qsum (map (fun row => minimum_load_mw_mean row * units row)
               [sample_row])
     == Qsum (map (fun r => minimum_load_mw (fst r))
                  (filter (fun r => negb (isnull
                                            (heat_rate_mmbtu_mwh (fst r))))
                          sample_clustered))
  /\ list_sum (map num_units [sample_row])
     = List.length
         (filter (fun r => negb (isnull (heat_rate_mmbtu_mwh (fst r))))
                 sample_clustered).
Proof.
  apply (cluster_rows_conserve_capacity
           sample_clustered (Some "Conventional Steam Coal")).
  reflexivity.
Defined.

(** X8.  The values of a cluster row stay within the range of its
    members: when the members' capacities are not negative, the heat rate
    and the fixed and variable O&M of the cluster lie between any bounds
    that hold for the members' values, and when every member's minimum load
    is between zero and its capacity, [Min_Power] is between 0 and 1. *)
Theorem cluster_row_within_member_range
        (df : list (unit_group * nat)) (tech : option string)
        (rows : list cluster_row) (row : cluster_row) :
  calc_unit_cluster_values (Clustered df) tech = Ok rows ->
  In row rows ->
  let ms := members (cluster row) (drop_null_heat_rates df) in
  (forall r, In r ms -> 0 <= capacity_col (fst r)) ->
  (forall lo hi,
      (forall r x, In r ms -> heat_rate_mmbtu_mwh (fst r) = Some x ->
                   lo <= x /\ x <= hi) ->
      exists v, heat_rate_mmbtu_mwh_wm row = Some v /\ lo <= v /\ v <= hi)
  /\ (forall lo hi v,
        (forall r x, In r ms -> Fixed_OM_Cost_per_MWyr (fst r) = Some x ->
                     lo <= x /\ x <= hi) ->
        Fixed_OM_Cost_per_MWyr_wm row = Some v -> lo <= v /\ v <= hi)
  /\ (forall lo hi v,
        (forall r x, In r ms -> Var_OM_Cost_per_MWh (fst r) = Some x ->
                     lo <= x /\ x <= hi) ->
        Var_OM_Cost_per_MWh_wm row = Some v -> lo <= v /\ v <= hi)
  /\ ((forall r, In r ms ->
                 0 <= minimum_load_mw (fst r)
                 /\ minimum_load_mw (fst r) <= capacity_col (fst r)) ->
      0 <= Min_Power row /\ Min_Power row <= 1).
Proof.
  intros H Hrow. apply calc_unit_cluster_values_rows in H. simpl in H.
  set (kept := drop_null_heat_rates df) in *. destruct H as [-> Hw].
  apply in_map_iff in Hrow. destruct Hrow as [c [<- Hc]].
  simpl. intro Hcap. specialize (Hw c Hc).
  pose proof (members_nonempty kept c Hc) as Hne.
  assert (Hbounds : forall col lo hi v,
             (forall r x, In r (members c kept) -> col (fst r) = Some x ->
                          lo <= x /\ x <= hi) ->
             option_map (fun s => s / total_weight (members c kept))
                        (weighted_sum col (members c kept)) = Some v ->
             lo <= v /\ v <= hi).
  { intros col lo hi v Hb Hv.
    apply (weighted_mean_bounds col (members c kept) lo hi Hw); [|exact Hv].
    intros r Hr. split; [now apply Hcap | intros x Hx; now apply (Hb r)]. }
  split; [|split; [|split]].
  - intros lo hi Hb.
    destruct (weighted_sum_some heat_rate_mmbtu_mwh (members c kept))
      as [s Hs].
    { intros r Hr. apply filter_In in Hr. destruct Hr as [Hr _].
      unfold kept in Hr. rewrite drop_null_heat_rates_spec in Hr.
      apply filter_In in Hr. destruct Hr as [_ Hr].
      destruct (heat_rate_mmbtu_mwh (fst r)); discriminate. }
    exists (s / total_weight (members c kept)).
    split; [now rewrite Hs|].
    apply (Hbounds heat_rate_mmbtu_mwh lo hi); [exact Hb | now rewrite Hs].
  - intros lo hi v. apply Hbounds.
  - intros lo hi v. apply Hbounds.
  - intro Hload.
    pose proof (count_pos _ Hne) as Hcount.
    assert (Hpos : 0 < total_weight (members c kept)).
    { assert (0 <= total_weight (members c kept)).
      { unfold total_weight. apply Qsum_nonneg. intros x Hx.
        apply in_map_iff in Hx. destruct Hx as [r [<- Hr]].
        now apply Hcap. }
      destruct (Qlt_le_dec 0 (total_weight (members c kept)));
        [assumption|]. exfalso. apply Hw. lra. }
    assert (Hl0 : 0 <= Qsum (map (fun r => minimum_load_mw (fst r))
                                 (members c kept))).
    { apply Qsum_nonneg. intros x Hx. apply in_map_iff in Hx.
      destruct Hx as [r [<- Hr]]. now apply Hload. }
    assert (Hl1 : Qsum (map (fun r => minimum_load_mw (fst r))
                            (members c kept))
                  <= total_weight (members c kept)).
    { unfold total_weight. apply Qsum_le. intros r Hr. now apply Hload. }
    unfold mean. fold (total_weight (members c kept)).
    set (L := Qsum (map (fun r => minimum_load_mw (fst r))
                        (members c kept))) in *.
    set (W := total_weight (members c kept)) in *.
    set (n := count (members c kept)) in *.
    assert (E : L / n / (W / n) == L / W).
    { field. split; intro E0; [rewrite E0 in Hpos | rewrite E0 in Hcount];
        discriminate. }
    rewrite E. split.
    + apply Qle_shift_div_l; [exact Hpos | lra].
    + apply Qle_shift_div_r; [exact Hpos | lra].
Qed.

Lemma cluster_row_within_member_range_witness :
  0 <= Min_Power sample_row /\ Min_Power sample_row <= 1.
Proof.
  refine (proj2 (proj2 (proj2
            (cluster_row_within_member_range
               sample_clustered (Some "Conventional Steam Coal")
               [sample_row] sample_row eq_refl (or_introl eq_refl) _))) _).
  - intros r Hr. simpl in Hr. destruct Hr as [<- | [<- | []]];
      simpl; unfold Qle; simpl; lia.
  - intros r Hr. simpl in Hr. destruct Hr as [<- | [<- | []]];
      simpl; unfold Qle; simpl; lia.
Defined.

End ClusterFacts.

(** ** Existing capacity against the clusters it comes from *)

Module CapacityFacts.

Import Resources.

(** Row [r] of [results] describes cluster [c] of [cluster_list]. *)
Definition from_cluster (r : resource) (c : Clustering.region_cluster)
  : Prop :=
  region r = Clustering.region c
  /\ technology r = Clustering.technology (Clustering.values c)
  /\ cluster r = Clustering.cluster (Clustering.values c)
  /\ num_units r = Some (Clustering.num_units (Clustering.values c))
  /\ plant_id_eia r = Clustering.member_plant_id_eia c
  /\ unit_id_pudl r = Clustering.member_unit_id_pudl c.

Definition sample_cluster_list : list (list Clustering.region_cluster) :=
  [[ Clustering.label_region
       "CA_N" (Clustering.Clustered ClusterFacts.sample_clustered)
       ClusterFacts.sample_row ]].

Definition sample_settings (derate : bool) : settings :=
  {| capacity_factor_techs_is_list := true;
     derate_capacity := derate;
     derate_techs := Some ["Conventional Steam Coal"] |}.

Definition sample_capacity_factors : list (string * string * option Q) :=
  [("CA_N", "Conventional Steam Coal", Some (1 # 3))].

Lemma Qcompare_Lt (a b : Q) : Qcompare a b = Lt -> a < b.
Proof. intro H. now apply Qlt_alt. Qed.

Lemma Qcompare_Gt (a b : Q) : Qcompare a b = Gt -> b < a.
Proof. intro H. now apply Qgt_alt. Qed.

Lemma Qcompare_Eq (a b : Q) : Qcompare a b = Eq -> a == b.
Proof. intro H. now apply Qeq_alt. Qed.

(** Rounding to the nearest integer moves a number by a half at most. *)
Lemma round_half_even_error (q : Q) :
  q - (1 # 2) <= inject_Z (round_half_even q)
  /\ inject_Z (round_half_even q) <= q + (1 # 2).
Proof.
  unfold round_half_even.
  pose proof (Qfloor_le q) as Hlo. pose proof (Qlt_floor q) as Hhi.
  rewrite inject_Z_plus in Hhi.
  change (inject_Z 1) with 1 in Hhi.
  destruct (Qcompare (q - inject_Z (Qfloor q)) (1 # 2)) eqn:E.
  - apply Qcompare_Eq in E.
    destruct (Z.even (Qfloor q)); [|rewrite inject_Z_plus;
                                     change (inject_Z 1) with 1];
      split; lra.
  - apply Qcompare_Lt in E. split; lra.
  - apply Qcompare_Gt in E. rewrite inject_Z_plus.
    change (inject_Z 1) with 1. split; lra.
Qed.

Lemma round3_error (q : Q) :
  q - (1 # 2000) <= round3 q /\ round3 q <= q + (1 # 2000).
Proof.
  unfold round3.
  destruct (round_half_even_error (q * (1000 # 1))) as [H1 H2].
  set (z := inject_Z (round_half_even (q * (1000 # 1)))) in *.
  assert (E : z / (1000 # 1) == z * (1 # 1000)) by (field; discriminate).
  rewrite E. split; lra.
Qed.

Lemma merge_capacity_factors_In
      (capacity_factors : list (string * string * option Q))
      (results : list resource) (r : resource) :
  In r (merge_capacity_factors capacity_factors results) ->
  exists r0 cf, In r0 results /\ r = with_capacity_factor r0 cf.
Proof.
  unfold merge_capacity_factors. intro H. apply in_flat_map in H.
  destruct H as [r0 [Hr0 H]]. exists r0.
  destruct (filter _ capacity_factors) as [|m ms].
  - destruct H as [<- | []]. now exists None.
  - apply in_map_iff in H. destruct H as [cf [<- _]]. now exists (snd cf).
Qed.

Lemma merge_capacity_factors_covers
      (capacity_factors : list (string * string * option Q))
      (results : list resource) (r0 : resource) :
  In r0 results ->
  exists cf, In (with_capacity_factor r0 cf)
                (merge_capacity_factors capacity_factors results).
Proof.
  unfold merge_capacity_factors. intro H.
  destruct (filter (fun cf => String.eqb (fst (fst cf)) (region r0)
                              && tech_is (technology r0) (snd (fst cf)))
                   capacity_factors) as [|m ms] eqn:E.
  - exists None. apply in_flat_map. exists r0. split; [exact H|].
    rewrite E. now left.
  - exists (snd m). apply in_flat_map. exists r0. split; [exact H|].
    rewrite E. now left.
Qed.

(** The rows of [results] before the rounding, for any settings that do
    not stop the run: each is a cluster's row with some capacity factor. *)
Lemma add_capacity_factors_rows (s : settings)
      (capacity_factors : list (string * string * option Q))
      (results merged : list resource) :
  derate_capacity s = false ->
  add_capacity_factors s capacity_factors results = Ok merged ->
  (forall r, In r merged ->
             exists r0 cf, In r0 results /\ r = with_capacity_factor r0 cf)
  /\ (forall r0, In r0 results ->
                 exists cf, In (with_capacity_factor r0 cf) merged).
Proof.
  unfold add_capacity_factors. intros Hd H. rewrite Hd in H.
  destruct (capacity_factor_techs_is_list s); injection H as <-.
  - split; [apply merge_capacity_factors_In
           | apply merge_capacity_factors_covers].
  - split.
    + intros r Hr. exists r, (capacity_factor r). split; [exact Hr|].
      now destruct r.
    + intros r0 Hr0. exists (capacity_factor r0).
      now destruct r0.
Qed.

(** X9.  Without derating, every row of the existing-resource table
    describes one cluster of [cluster_list] and every cluster has a row, and
    the row's [Existing_Cap_MW] is the cluster's capacity per unit times its
    number of units up to the rounding of [Cap_size]: it is off by at most
    0.0005 MW per unit. *)
Theorem existing_capacity_close_to_cluster_capacity
        (s : settings)
        (capacity_factors : list (string * string * option Q))
        (cluster_list : list (list Clustering.region_cluster))
        (existing_resources : list resource) :
  derate_capacity s = false ->
  finalize_clusters s capacity_factors cluster_list = Ok existing_resources ->
  (forall r, In r existing_resources ->
     exists c e,
       In c (List.concat cluster_list)
       /\ from_cluster r c
       /\ Existing_Cap_MW r = Some e
       /\ let n := inject_Z (Z.of_nat
                               (Clustering.num_units (Clustering.values c))) in
          let total := Clustering.capacity_mean (Clustering.values c) * n in
          total - n * (1 # 2000) <= e /\ e <= total + n * (1 # 2000))
  /\ (forall c, In c (List.concat cluster_list) ->
                exists r, In r existing_resources /\ from_cluster r c).
Proof.
  intros Hd H. unfold finalize_clusters, concat_clusters in H.
  destruct cluster_list as [|c0 cl]; [discriminate|].
  set (clusters := List.concat (c0 :: cl)) in *. simpl in H.
  destruct (add_capacity_factors s capacity_factors
                                 (map to_resource clusters))
    as [merged|] eqn:Em; [|discriminate].
  simpl in H. unfold existing_capacity in H. rewrite Hd in H.
  injection H as <-.
  destruct (add_capacity_factors_rows s capacity_factors _ merged Hd Em)
    as [Hin Hcov].
  split.
  - intros r Hr. apply in_map_iff in Hr. destruct Hr as [r1 [<- Hr1]].
    apply in_map_iff in Hr1. destruct Hr1 as [r2 [<- Hr2]].
    destruct (Hin r2 Hr2) as [r0 [cf [Hr0 ->]]].
    apply in_map_iff in Hr0. destruct Hr0 as [c [<- Hc]].
    exists c. eexists. split; [exact Hc|].
    split; [now repeat split|]. split; [reflexivity|]. simpl.
    destruct (round3_error
                (Clustering.capacity_mean (Clustering.values c)))
      as [H1 H2].
    assert (Hn : 0 <= inject_Z (Z.of_nat (Clustering.num_units
                                            (Clustering.values c)))).
    { change 0 with (inject_Z 0). rewrite <- Zle_Qle. lia. }
    split; nra.
  - intros c Hc.
    destruct (Hcov (to_resource c) (in_map _ _ _ Hc)) as [cf Hcf].
    exists (set_existing_cap
              (round_resource (with_capacity_factor (to_resource c) cf))).
    split; [|now repeat split].
    apply in_map. now apply in_map.
Qed.

Lemma existing_capacity_close_to_cluster_capacity_witness :
  exists existing_resources,
    finalize_clusters (sample_settings false) sample_capacity_factors
                      sample_cluster_list = Ok existing_resources
    /\ forall c, In c (List.concat sample_cluster_list) ->
                 exists r, In r existing_resources /\ from_cluster r c.
Proof.
  eexists. split; [reflexivity|].
  exact (proj2 (existing_capacity_close_to_cluster_capacity
                  (sample_settings false) sample_capacity_factors
                  sample_cluster_list _ eq_refl eq_refl)).
Defined.

Lemma round_half_even_range (q : Q) :
  (Qfloor q <= round_half_even q <= Qfloor q + 1)%Z.
Proof.
  unfold round_half_even.
  destruct (Qcompare _ _); [destruct (Z.even _)| |]; lia.
Qed.

Lemma round_half_even_mono (x y : Q) :
  x <= y -> (round_half_even x <= round_half_even y)%Z.
Proof.
  intro Hxy. pose proof (Qfloor_resp_le x y Hxy) as Hf.
  destruct (Z.eq_dec (Qfloor x) (Qfloor y)) as [E|E].
  - unfold round_half_even. rewrite <- E.
    destruct (Qcompare (x - inject_Z (Qfloor x)) (1 # 2)) eqn:Ex;
      destruct (Qcompare (y - inject_Z (Qfloor x)) (1 # 2)) eqn:Ey;
      try (destruct (Z.even (Qfloor x))); try lia; exfalso;
      repeat match goal with
             | H : Qcompare _ _ = Eq |- _ => apply Qcompare_Eq in H
             | H : Qcompare _ _ = Lt |- _ => apply Qcompare_Lt in H
             | H : Qcompare _ _ = Gt |- _ => apply Qcompare_Gt in H
             end; lra.
  - pose proof (round_half_even_range x). pose proof (round_half_even_range y).
    lia.
Qed.

Lemma round3_mono (x y : Q) : x <= y -> round3 x <= round3 y.
Proof.
  intro H. unfold round3.
  assert (Hz : (round_half_even (x * (1000 # 1))
                <= round_half_even (y * (1000 # 1)))%Z)
    by (apply round_half_even_mono; lra).
  rewrite Zle_Qle in Hz.
  apply Qmult_le_compat_r; [exact Hz | discriminate].
Qed.

(** X10.  With derating, every row of the existing-resource table keeps
    the cluster's rounded capacity per unit as [unmodified_cap_size], and
    [unmodified_existing_cap_mw] is that times the number of units.  A
    technology that is not in [derate_techs] keeps it as [Cap_size] too; a
    technology in [derate_techs] gets the capacity times the capacity
    factor, rounded, which is NaN (and with it [Existing_Cap_MW]) when the
    technology and region have no capacity factor, and is no more than the
    unmodified size when the capacity is not negative and the factor is at
    most 1. *)
Theorem derated_capacity
        (s : settings)
        (capacity_factors : list (string * string * option Q))
        (cluster_list : list (list Clustering.region_cluster))
        (existing_resources : list resource) (techs : list string)
        (r : resource) :
  derate_capacity s = true ->
  derate_techs s = Some techs ->
  finalize_clusters s capacity_factors cluster_list = Ok existing_resources ->
  In r existing_resources ->
  exists c cf,
    let cap := Clustering.capacity_mean (Clustering.values c) in
    let n := inject_Z (Z.of_nat (Clustering.num_units (Clustering.values c))) in
    In c (List.concat cluster_list)
    /\ from_cluster r c
    /\ capacity_factor r = option_map round3 cf
    /\ unmodified_cap_size r = Some (round3 cap)
    /\ unmodified_existing_cap_mw r = Some (round3 cap * n)
    /\ Existing_Cap_MW r = option_map (fun x => x * n) (Cap_size r)
    /\ (existsb (tech_is (technology r)) techs = false ->
        Cap_size r = Some (round3 cap))
    /\ (existsb (tech_is (technology r)) techs = true ->
        Cap_size r = option_map (fun f => round3 (cap * f)) cf
        /\ (cf = None -> Cap_size r = None /\ Existing_Cap_MW r = None)
        /\ forall f x, cf = Some f -> 0 <= cap -> f <= 1 ->
                       Cap_size r = Some x -> x <= round3 cap).
Proof.
  intros Hd Ht H Hr. unfold finalize_clusters, concat_clusters in H.
  destruct cluster_list as [|c0 cl]; [discriminate|].
  set (clusters := List.concat (c0 :: cl)) in *. simpl in H.
  unfold add_capacity_factors, existing_capacity in H.
  rewrite Hd, Ht in H.
  destruct (capacity_factor_techs_is_list s); simpl in H; [|discriminate].
  injection H as <-.
  apply in_map_iff in Hr. destruct Hr as [r1 [<- Hr1]].
  apply in_map_iff in Hr1. destruct Hr1 as [r2 [<- Hr2]].
  apply in_map_iff in Hr2. destruct Hr2 as [r3 [<- Hr3]].
  apply in_map_iff in Hr3. destruct Hr3 as [r4 [<- Hr4]].
  apply merge_capacity_factors_In in Hr4.
  destruct Hr4 as [r0 [cf [Hr0 ->]]].
  apply in_map_iff in Hr0. destruct Hr0 as [c [<- Hc]].
  exists c, cf. simpl.
  split; [exact Hc|]. split; [now repeat split|].
  split; [reflexivity|]. split; [reflexivity|]. split; [reflexivity|].
  destruct (existsb (tech_is (Clustering.technology (Clustering.values c)))
                    techs) eqn:Ex.
  - split; [now destruct cf|]. split; [discriminate|]. intros _.
    split; [now destruct cf|]. split.
    + intros ->. now split.
    + intros f x -> Hcap Hf Hx. simpl in Hx. injection Hx as <-.
      apply round3_mono. nra.
  - split; [reflexivity|]. split; [reflexivity | discriminate].
Qed.

Lemma derated_capacity_witness :
  exists r c cf,
    In c (List.concat sample_cluster_list)
    /\ from_cluster r c
    /\ capacity_factor r = option_map round3 cf
    /\ Cap_size r
       = option_map
           (fun f => round3 (Clustering.capacity_mean
                               (Clustering.values c) * f)) cf.
Proof.
  pose (r := hd (to_resource (hd (Clustering.label_region
                                    "" (Clustering.Unclustered [])
                                    ClusterFacts.sample_row)
                                 (List.concat sample_cluster_list)))
                (match finalize_clusters (sample_settings true)
                                         sample_capacity_factors
                                         sample_cluster_list with
                 | Ok rows => rows
                 | Raise _ => []
                 end)).
  destruct (derated_capacity
              (sample_settings true) sample_capacity_factors
              sample_cluster_list _ ["Conventional Steam Coal"] r
              eq_refl eq_refl eq_refl (or_introl eq_refl))
    as (c & cf & Hc & Hfrom & Hcf & _ & _ & _ & _ & Hder).
  exists r, c, cf. repeat split; try assumption; try apply Hfrom.
  exact (proj1 (Hder eq_refl)).
Defined.

End CapacityFacts.

(** ** Retirement years ([label_retirement_year]) *)

Module RetirementYear.

(** A generator id as written in the settings file: YAML reads [1] as an
    integer and [GT1] as a string; the code applies [str] to it. *)
Inductive yaml_id : Type :=
| IdInt (z : Z)
| IdStr (s : string).

Definition str (g : yaml_id) : string :=
  match g with
  | IdInt z => Removal.astype_str z
  | IdStr s => s
  end.

(** One generator row with the columns the function reads and writes.  The
    dates are kept as their years; the capacity column only feeds the log
    messages and is left out. *)
Record generator := {
  plant_id_eia : Z;
  generator_id : string;
  technology_description : option string;
  age_col : option Z;
  planned_retirement_date : option Z;
  retirement_year : option Q
}.

(** Which optional columns the table has. *)
Record columns := {
  has_retirement_year : bool;
  has_planned_retirement_date : bool
}.

(** The settings read: [retirement_ages] (missing, null and empty read
    alike), [additional_retirements] (missing, null and empty read alike) and
    [model_year].  [settings["capacity_col"]] is read for the log messages
    only; it is taken to be set and to name a column of the dataframe, and
    every additional retirement to be a record of three entries. *)
Record settings := {
  retirement_ages : list (string * Q);
  additional_retirements : list (Z * yaml_id * Q);
  model_year : option Z
}.

Definition set_retirement_year (r : generator) (v : option Q) : generator :=
  {| plant_id_eia := plant_id_eia r;
     generator_id := generator_id r;
     technology_description := technology_description r;
     age_col := age_col r;
     planned_retirement_date := planned_retirement_date r;
     retirement_year := v |}.

(** [df.technology_description == tech]. *)
Definition tech_is (tech : string) (r : generator) : bool :=
  match technology_description r with
  | Some t => String.eqb t tech
  | None => false
  end.

(** One turn of the loop over [retirement_ages.items()]. *)
Definition apply_lifetime (df : list generator) (item : string * Q)
  : list generator :=
  map (fun r =>
         if tech_is (fst item) r
         then set_retirement_year
                r (option_map (fun y => inject_Z y + snd item) (age_col r))
         else r)
      df.

(** The planned retirement dates; without the column the [KeyError] is
    caught and nothing changes. *)
Definition apply_planned (c : columns) (df : list generator)
  : list generator :=
  if has_planned_retirement_date c then
    map (fun r =>
           match planned_retirement_date r with
           | Some y => set_retirement_year r (Some (inject_Z y))
           | None => r
           end)
        df
  else df.

(** [(df["plant_id_eia"] == plant_id) & (df["generator_id"] == gen_id)]. *)
Definition names (record : Z * yaml_id * Q) (r : generator) : bool :=
  (plant_id_eia r =? fst (fst record))%Z
  && String.eqb (generator_id r) (str (snd (fst record))).

(** One turn of the loop over [settings["additional_retirements"]]. *)
Definition apply_additional (df : list generator) (record : Z * yaml_id * Q)
  : list generator :=
  map (fun r => if names record r
                then set_retirement_year r (Some (snd record))
                else r)
      df.

Definition label_retirement_year (df : list generator) (c : columns)
           (s : settings) (add_additional_retirements : bool)
  : result (list generator) :=
  let start_len := List.length df in
  let df := if has_retirement_year c then df
            else map (fun r => set_retirement_year r None) df in
  let df := fold_left apply_lifetime (retirement_ages s) df in
  let df := apply_planned c df in
  df <- (match additional_retirements s with
         | _ :: _ =>
             if add_additional_retirements then
               match model_year s with
               | Some _ =>
                   Ok (fold_left apply_additional (additional_retirements s)
                                 df)
               | None => Raise (KeyError "model_year")
               end
             else Ok df
         | [] => Ok df
         end) ;;
  if (start_len =? List.length df)%nat then Ok df
  else Raise (AssertionError "").

(** The last entry of a list that satisfies [f]. *)
Definition find_last {A : Type} (f : A -> bool) (l : list A) : option A :=
  find f (rev l).

(** The retirement year the function leaves in a row, by precedence: the
    additional retirement that names the generator, else the planned
    retirement date, else operating year plus lifetime of the technology,
    else what the column held. *)
Definition final_year (c : columns) (s : settings)
           (add_additional_retirements : bool) (r : generator) : option Q :=
  match (if add_additional_retirements
         then find_last (fun record => names record r)
                        (additional_retirements s)
         else None) with
  | Some record => Some (snd record)
  | None =>
      match (if has_planned_retirement_date c
             then planned_retirement_date r else None) with
      | Some y => Some (inject_Z y)
      | None =>
          match find_last (fun item => tech_is (fst item) r)
                          (retirement_ages s) with
          | Some item =>
              option_map (fun y => inject_Z y + snd item) (age_col r)
          | None =>
              if has_retirement_year c then retirement_year r else None
          end
      end
  end.

(** The loops, seen from one row. *)
Definition lifetime_step (item : string * Q) (r : generator) : generator :=
  if tech_is (fst item) r
  then set_retirement_year
         r (option_map (fun y => inject_Z y + snd item) (age_col r))
  else r.

Definition additional_step (record : Z * yaml_id * Q) (r : generator)
  : generator :=
  if names record r then set_retirement_year r (Some (snd record)) else r.

(** A sequence of whole-column assignments acts on each row by itself. *)
Lemma fold_left_map {A X : Type} (step : X -> A -> A) (xs : list X)
      (df : list A) :
  fold_left (fun df x => map (step x) df) xs df
  = map (fun r => fold_left (fun r x => step x r) xs r) df.
Proof.
  revert df. induction xs as [|x xs IH]; intro df; simpl.
  - symmetry. apply map_id.
  - rewrite IH, map_map. reflexivity.
Qed.

(** Assignments under a mask that the assignment does not change: the last
    one whose mask holds decides. *)
Lemma fold_left_last {A X : Type} (mask : X -> A -> bool)
      (value : X -> A -> A) (xs : list X) (r : A) :
  (forall x y a, mask x (value y a) = mask x a) ->
  (forall x y a, value x (value y a) = value x a) ->
  fold_left (fun r x => if mask x r then value x r else r) xs r
  = match find_last (fun x => mask x r) xs with
    | Some x => value x r
    | None => r
    end.
Proof.
  intros Hmask Hvalue. unfold find_last.
  induction xs as [|x xs IH] using rev_ind; [reflexivity|].
  rewrite fold_left_app, rev_app_distr. simpl. rewrite IH.
  assert (Hm : mask x (match find (fun x0 => mask x0 r) (rev xs) with
                       | Some x0 => value x0 r
                       | None => r
                       end) = mask x r).
  { destruct (find _ (rev xs)); [apply Hmask | reflexivity]. }
  rewrite Hm. destruct (mask x r); [|reflexivity].
  destruct (find _ (rev xs)); [apply Hvalue | reflexivity].
Qed.

Lemma lifetimes_row (ages : list (string * Q)) (r : generator) :
  fold_left (fun r item => lifetime_step item r) ages r
  = match find_last (fun item => tech_is (fst item) r) ages with
    | Some item =>
        set_retirement_year
          r (option_map (fun y => inject_Z y + snd item) (age_col r))
    | None => r
    end.
Proof.
  exact (fold_left_last
           (fun item r => tech_is (fst item) r)
           (fun item r =>
              set_retirement_year
                r (option_map (fun y => inject_Z y + snd item) (age_col r)))
           ages r (fun _ _ _ => eq_refl) (fun _ _ _ => eq_refl)).
Qed.

Lemma additional_row (records : list (Z * yaml_id * Q)) (r : generator) :
  fold_left (fun r record => additional_step record r) records r
  = match find_last (fun record => names record r) records with
    | Some record => set_retirement_year r (Some (snd record))
    | None => r
    end.
Proof.
  exact (fold_left_last
           (fun record r => names record r)
           (fun record r => set_retirement_year r (Some (snd record)))
           records r (fun _ _ _ => eq_refl) (fun _ _ _ => eq_refl)).
Qed.

Lemma set_retirement_year_same (r : generator) :
  set_retirement_year r (retirement_year r) = r.
Proof. now destruct r. Qed.

(** The row the three assignments leave, additional retirements included
    or not. *)
Lemma row_steps (c : columns) (s : settings) (additional : bool)
      (r : generator) :
  let r0 := if has_retirement_year c then r
            else set_retirement_year r None in
  let r1 := fold_left (fun r item => lifetime_step item r)
                      (retirement_ages s) r0 in
  let r2 := if has_planned_retirement_date c
            then match planned_retirement_date r1 with
                 | Some y => set_retirement_year r1 (Some (inject_Z y))
                 | None => r1
                 end
            else r1 in
  (if additional
   then fold_left (fun r record => additional_step record r)
                  (additional_retirements s) r2
   else r2)
  = set_retirement_year r (final_year c s additional r).
Proof.
  intros r0 r1 r2.
  assert (E1 : r1 = set_retirement_year
                      r (match find_last (fun item => tech_is (fst item) r)
                                         (retirement_ages s) with
                         | Some item =>
                             option_map (fun y => inject_Z y + snd item)
                                        (age_col r)
                         | None => if has_retirement_year c
                                   then retirement_year r else None
                         end)).
  { unfold r1. rewrite lifetimes_row. unfold r0.
    destruct (has_retirement_year c).
    - destruct (find_last _ _); [reflexivity|].
      symmetry. apply set_retirement_year_same.
    - change (fun item : string * Q =>
                tech_is (fst item) (set_retirement_year r None))
        with (fun item : string * Q => tech_is (fst item) r).
      destruct (find_last _ _); reflexivity. }
  assert (E2 : r2 = set_retirement_year
                      r (match (if has_planned_retirement_date c
                                then planned_retirement_date r else None) with
                         | Some y => Some (inject_Z y)
                         | None => retirement_year r1
                         end)).
  { unfold r2. rewrite E1. simpl.
    destruct (has_planned_retirement_date c); [|reflexivity].
    destruct (planned_retirement_date r); reflexivity. }
  unfold final_year. destruct additional.
  - rewrite additional_row, E2.
    change (fun record : Z * yaml_id * Q =>
              names record (set_retirement_year r ?v))
      with (fun record : Z * yaml_id * Q => names record r).
    destruct (find_last _ (additional_retirements s)); [reflexivity|].
    rewrite E1. simpl.
    destruct (if has_planned_retirement_date c
              then planned_retirement_date r else None); reflexivity.
  - rewrite E2, E1. simpl.
    destruct (if has_planned_retirement_date c
              then planned_retirement_date r else None); reflexivity.
Qed.

(** X11.  [label_retirement_year] changes nothing but the retirement
    year, keeps every row (its closing assertion never fails), and leaves in
    each row the year given by this precedence: the last additional
    retirement of the settings that names the generator by plant id and
    generator id (when they are asked for), else the planned retirement
    date, else the operating year plus the lifetime of the last
    [retirement_ages] entry for the technology (null when the operating
    date is), else what the column held before (null without the column).
    With [capacity_col] set, the only failure is the [KeyError] for a
    missing [model_year] when additional retirements are configured and
    asked for. *)
Theorem retirement_year_precedence
        (df : list generator) (c : columns) (s : settings)
        (add_additional_retirements : bool) :
  label_retirement_year df c s add_additional_retirements
  = match additional_retirements s, add_additional_retirements,
          model_year s with
    | _ :: _, true, None => Raise (KeyError "model_year")
    | _, _, _ =>
        Ok (map (fun r =>
                   set_retirement_year
                     r (final_year c s add_additional_retirements r))
                df)
    end.
Proof.
  unfold label_retirement_year.
  set (df0 := if has_retirement_year c then df
              else map (fun r => set_retirement_year r None) df).
  assert (E0 : df0 = map (fun r => if has_retirement_year c then r
                                   else set_retirement_year r None) df).
  { unfold df0. destruct (has_retirement_year c);
      [symmetry; apply map_id | reflexivity]. }
  assert (E1 : fold_left apply_lifetime (retirement_ages s) df0
               = map (fun r => fold_left (fun r item => lifetime_step item r)
                                         (retirement_ages s) r) df0)
    by apply (fold_left_map lifetime_step).
  assert (E2 : forall l, apply_planned c l
               = map (fun r1 =>
                        if has_planned_retirement_date c
                        then match planned_retirement_date r1 with
                             | Some y =>
                                 set_retirement_year r1 (Some (inject_Z y))
                             | None => r1
                             end
                        else r1) l).
  { intro l. unfold apply_planned.
    destruct (has_planned_retirement_date c);
      [reflexivity | symmetry; apply map_id]. }
  assert (E3 : forall l, fold_left apply_additional
                                   (additional_retirements s) l
               = map (fun r => fold_left
                                 (fun r record => additional_step record r)
                                 (additional_retirements s) r) l)
    by (intro l; apply (fold_left_map additional_step)).
  assert (Hwith : (fold_left apply_additional (additional_retirements s)
                             (apply_planned
                                c (fold_left apply_lifetime
                                             (retirement_ages s) df0)))
                  = map (fun r => set_retirement_year
                                    r (final_year c s true r)) df).
  { rewrite E3, E2, E1, E0, !map_map. apply map_ext. intro r.
    exact (row_steps c s true r). }
  assert (Hwithout : apply_planned
                       c (fold_left apply_lifetime (retirement_ages s) df0)
                     = map (fun r => set_retirement_year
                                       r (final_year c s false r)) df).
  { rewrite E2, E1, E0, !map_map. apply map_ext. intro r.
    exact (row_steps c s false r). }
  destruct (additional_retirements s) as [|record records] eqn:Ea.
  - rewrite Hwithout. cbn [bind]. rewrite length_map, Nat.eqb_refl.
    f_equal. apply map_ext. intro r. unfold final_year. rewrite Ea.
    now destruct add_additional_retirements.
  - destruct add_additional_retirements.
    + destruct (model_year s); [|reflexivity].
      rewrite Hwith. cbn [bind]. rewrite length_map, Nat.eqb_refl.
      reflexivity.
    + rewrite Hwithout. cbn [bind]. rewrite length_map, Nat.eqb_refl.
      reflexivity.
Qed.

End RetirementYear.

(** ** Technology groups ([group_technologies]) *)

Module GroupTechnologies.

Record generator := {
  plant_id_eia : Z;
  generator_id : string;
  model_region : option string;
  technology_description : option string
}.

(** The table while the function runs: the rows with the scratch column
    [_technology]. *)
Definition scratch : Type := generator * option string.

(** [Series.isin(values)]: a null is in no list. *)
Definition isin (x : option string) (values : list string) : bool :=
  match x with
  | Some t => existsb (String.eqb t) values
  | None => false
  end.

(** [df["model_region"] == region]. *)
Definition region_is (region : string) (r : generator) : bool :=
  match model_region r with
  | Some m => String.eqb m region
  | None => false
  end.

(** One turn of the loop over [tech_groups.items()]. *)
Definition apply_group (df : list scratch) (item : string * list string)
  : list scratch :=
  map (fun r => if isin (technology_description (fst r)) (snd item)
                then (fst r, Some (fst item)) else r)
      df.

(** One turn of the loop over [regional_no_grouping.items()]. *)
Definition apply_no_grouping (df : list scratch)
           (item : string * list string) : list scratch :=
  map (fun r => if region_is (fst item) (fst r)
                   && isin (technology_description (fst r)) (snd item)
                then (fst r, technology_description (fst r)) else r)
      df.

Definition set_technology (r : generator) (t : option string) : generator :=
  {| plant_id_eia := plant_id_eia r;
     generator_id := generator_id r;
     model_region := model_region r;
     technology_description := t |}.

Definition group_technologies (df : list generator)
           (group_technologies : bool)
           (tech_groups regional_no_grouping : list (string * list string))
  : list generator :=
  if negb group_technologies then df
  else
    let df := map (fun r => (r, technology_description r)) df in
    let df := fold_left apply_group tech_groups df in
    let df := fold_left apply_no_grouping regional_no_grouping df in
    map (fun r => set_technology (fst r) (snd r)) df.

(** The technology a row ends with: its own where its region keeps the
    technology apart, else the last group that lists it, else its own. *)
Definition grouped_technology
           (tech_groups regional_no_grouping : list (string * list string))
           (r : generator) : option string :=
  let t := technology_description r in
  if existsb (fun item => region_is (fst item) r && isin t (snd item))
             regional_no_grouping
  then t
  else match RetirementYear.find_last (fun item => isin t (snd item))
                                      tech_groups with
       | Some item => Some (fst item)
       | None => t
       end.

Definition sample_tech_groups : list (string * list string) :=
  [("Biomass", ["Wood/Wood Waste Biomass"; "Landfill Gas"]);
   ("Peaker", ["Natural Gas Fired Combustion Turbine";
               "Petroleum Liquids"])].

Definition sample_no_grouping : list (string * list string) :=
  [("CA_N", ["Landfill Gas"])].

Definition sample_generators : list generator :=
  [ {| plant_id_eia := 1; generator_id := "A";
       model_region := Some "CA_N";
       technology_description := Some "Landfill Gas" |};
    {| plant_id_eia := 2; generator_id := "B";
       model_region := Some "CA_S";
       technology_description := Some "Landfill Gas" |};
    {| plant_id_eia := 3; generator_id := "C";
       model_region := None;
       technology_description := None |} ].

Definition group_step (item : string * list string) (r : scratch) : scratch :=
  if isin (technology_description (fst r)) (snd item)
  then (fst r, Some (fst item)) else r.

Definition no_grouping_step (item : string * list string) (r : scratch)
  : scratch :=
  if region_is (fst item) (fst r)
     && isin (technology_description (fst r)) (snd item)
  then (fst r, technology_description (fst r)) else r.

Lemma find_last_none_iff {A : Type} (f : A -> bool) (l : list A) :
  RetirementYear.find_last f l = None <-> existsb f l = false.
Proof.
  unfold RetirementYear.find_last. split; intro H.
  - destruct (existsb f l) eqn:E; [|reflexivity].
    apply existsb_exists in E. destruct E as [x [Hx Hf]].
    apply in_rev in Hx. pose proof (find_none _ _ H x Hx) as Hn.
    simpl in Hn. congruence.
  - destruct (find f (rev l)) as [x|] eqn:E; [|reflexivity].
    apply find_some in E. destruct E as [Hx Hf].
    assert (existsb f l = true)
      by (apply existsb_exists; exists x; split;
          [now apply in_rev | exact Hf]).
    congruence.
Qed.

Lemma groups_row (tech_groups : list (string * list string)) (r : scratch) :
  fold_left (fun r item => group_step item r) tech_groups r
  = match RetirementYear.find_last
            (fun item => isin (technology_description (fst r)) (snd item))
            tech_groups with
    | Some item => (fst r, Some (fst item))
    | None => r
    end.
Proof.
  exact (RetirementYear.fold_left_last
           (fun item (r : scratch) =>
              isin (technology_description (fst r)) (snd item))
           (fun item (r : scratch) => (fst r, Some (fst item)))
           tech_groups r (fun _ _ _ => eq_refl) (fun _ _ _ => eq_refl)).
Qed.

Lemma no_grouping_row (regional_no_grouping : list (string * list string))
      (r : scratch) :
  fold_left (fun r item => no_grouping_step item r) regional_no_grouping r
  = if existsb (fun item =>
                  region_is (fst item) (fst r)
                  && isin (technology_description (fst r)) (snd item))
               regional_no_grouping
    then (fst r, technology_description (fst r))
    else r.
Proof.
  unfold no_grouping_step.
  rewrite (RetirementYear.fold_left_last
             (fun item (r : scratch) =>
                region_is (fst item) (fst r)
                && isin (technology_description (fst r)) (snd item))
             (fun item (r : scratch) =>
                (fst r, technology_description (fst r)))
             regional_no_grouping r
             (fun _ _ _ => eq_refl) (fun _ _ _ => eq_refl)).
  destruct (RetirementYear.find_last _ regional_no_grouping) eqn:E.
  - destruct (existsb _ regional_no_grouping) eqn:Ex; [reflexivity|].
    apply find_last_none_iff in Ex. congruence.
  - apply find_last_none_iff in E. now rewrite E.
Qed.

Lemma group_technologies_rows
      (df : list generator)
      (tech_groups regional_no_grouping : list (string * list string)) :
  group_technologies df true tech_groups regional_no_grouping
  = map (fun r => set_technology
                    r (grouped_technology tech_groups regional_no_grouping r))
        df.
Proof.
  unfold group_technologies. simpl.
  rewrite (RetirementYear.fold_left_map group_step).
  rewrite (RetirementYear.fold_left_map no_grouping_step).
  rewrite !map_map. apply map_ext. intro r.
  rewrite no_grouping_row, groups_row. unfold grouped_technology.
  destruct (RetirementYear.find_last _ tech_groups) as [item|]; simpl;
    destruct (existsb _ regional_no_grouping); reflexivity.
Qed.

(** X12.  [group_technologies] keeps every row and changes nothing but
    the technology.  With the flag off it returns the table as it is.  With
    the flag on, a row whose region lists its technology under
    [regional_no_grouping] keeps its technology; any other row takes the
    name of the last group of [tech_groups] that lists its technology, and
    keeps its technology (a null included) when no group does. *)
Theorem group_technologies_precedence
        (df : list generator) (flag : bool)
        (tech_groups regional_no_grouping : list (string * list string)) :
  group_technologies df flag tech_groups regional_no_grouping
  = if flag
    then map (fun r =>
                set_technology
                  r (grouped_technology tech_groups regional_no_grouping r))
             df
    else df.
Proof.
  destruct flag; [apply group_technologies_rows | reflexivity].
Qed.

(** X13.  Grouping twice is grouping once, as long as no group's name is
    itself listed as a member of a group. *)
Theorem group_technologies_idempotent
        (df : list generator) (flag : bool)
        (tech_groups regional_no_grouping : list (string * list string)) :
  (forall g g', In g tech_groups -> In g' tech_groups ->
                ~ In (fst g) (snd g')) ->
  group_technologies
    (group_technologies df flag tech_groups regional_no_grouping)
    flag tech_groups regional_no_grouping
  = group_technologies df flag tech_groups regional_no_grouping.
Proof.
  intro Hnames. destruct flag; [|reflexivity].
  rewrite !group_technologies_rows, map_map. apply map_ext. intro r.
  set (t := technology_description r).
  assert (Hset : forall t',
             grouped_technology tech_groups regional_no_grouping
                                (set_technology r t')
             = if existsb (fun item => region_is (fst item) r
                                       && isin t' (snd item))
                          regional_no_grouping
               then t'
               else match RetirementYear.find_last
                            (fun item => isin t' (snd item)) tech_groups with
                    | Some item => Some (fst item)
                    | None => t'
                    end) by (intro; reflexivity).
  transitivity
    (set_technology
       r (grouped_technology
            tech_groups regional_no_grouping
            (set_technology
               r (grouped_technology tech_groups regional_no_grouping r))));
    [reflexivity|].
  f_equal. rewrite Hset. unfold grouped_technology. fold t.
  destruct (existsb (fun item => region_is (fst item) r
                                 && isin t (snd item))
                    regional_no_grouping) eqn:Ex.
  - rewrite Ex. reflexivity.
  - destruct (RetirementYear.find_last
                (fun item => isin t (snd item)) tech_groups)
      as [g|] eqn:Eg.
    + assert (Hg : In g tech_groups).
      { unfold RetirementYear.find_last in Eg. apply find_some in Eg.
        now apply in_rev. }
      assert (Hnone : RetirementYear.find_last
                        (fun item => isin (Some (fst g)) (snd item))
                        tech_groups = None).
      { apply find_last_none_iff.
        destruct (existsb _ tech_groups) eqn:E; [|reflexivity].
        apply existsb_exists in E. destruct E as [g' [Hg' Hin]].
        simpl in Hin. apply existsb_exists in Hin.
        destruct Hin as [m [Hm Hmeq]]. apply String.eqb_eq in Hmeq.
        subst m. exfalso. exact (Hnames g g' Hg Hg' Hm). }
      rewrite Hnone.
      destruct (existsb (fun item => region_is (fst item) r
                                     && isin (Some (fst g)) (snd item))
                        regional_no_grouping); reflexivity.
    + rewrite Ex, Eg. reflexivity.
Qed.

Lemma group_technologies_idempotent_witness :
  group_technologies
    (group_technologies sample_generators true sample_tech_groups
                        sample_no_grouping)
    true sample_tech_groups sample_no_grouping
  = group_technologies sample_generators true sample_tech_groups
                       sample_no_grouping.
Proof.
  apply group_technologies_idempotent.
  intros g g' Hg Hg' Hin. simpl in Hg, Hg'.
  destruct Hg as [<- | [<- | []]]; destruct Hg' as [<- | [<- | []]];
    simpl in Hin; intuition discriminate.
Defined.

End GroupTechnologies.

(** ** Small hydroelectric plants ([label_small_hydro]) *)

Module SmallHydro.

Record generator := {
  plant_id_eia : Z;
  generator_id : string;
  model_region : option string;
  technology_description : option string;
  cap_col : option Q
}.

(** The settings read.  [small_hydro] stands for its truth value; the
    other three keys are read with [settings[...]] and can be missing. *)
Record settings := {
  small_hydro : bool;
  model_regions : option (list string);
  small_hydro_regions : option (list string);
  small_hydro_mw : option Q
}.

Definition conventional : string := "Conventional Hydroelectric".
Definition small : string := "Small Hydroelectric".

(** [technology_description == t]. *)
Definition is_tech (t : string) (r : generator) : bool :=
  match technology_description r with
  | Some x => String.eqb x t
  | None => false
  end.

(** [df.query("technology_description == t")[cap_col].sum()]. *)
Definition capacity_of (t : string) (df : list generator) : Q :=
  nansum (map cap_col (filter (is_tech t) df)).

(** The list comprehension of lines 596-600.  [region_agg_map] is the
    dictionary [reverse_dict_of_lists] returns; listing it gives its keys.
    The condition, and with it [settings["small_hydro_regions"]], is only
    evaluated when there is a region to test. *)
Definition keep_regions (s : settings)
           (region_agg_map : list (string * string)) : result (list string) :=
  match model_regions s with
  | None => Raise (KeyError "model_regions")
  | Some regions =>
      match regions ++ map fst region_agg_map with
      | [] => Ok []
      | xs =>
          match small_hydro_regions s with
          | None => Raise (KeyError "small_hydro_regions")
          | Some listed =>
              Ok (filter (fun x => existsb (String.eqb x) listed) xs)
          end
      end
  end.

(** [df["model_region"].isin(keep_regions)]. *)
Definition region_isin (keep : list string) (r : generator) : bool :=
  match model_region r with
  | Some m => existsb (String.eqb m) keep
  | None => false
  end.

(** The conventional hydro rows in the kept regions. *)
Definition hydro_rows (keep : list string) (df : list generator)
  : list generator :=
  filter (fun r => is_tech conventional r && region_isin keep r) df.

(** [plant_capacity]: the summed capacity of each plant, [by] being the
    plant id as at the call site. *)
Definition plant_capacity (keep : list string) (df : list generator)
  : list (Z * Q) :=
  map (fun g => (fst g, nansum (map cap_col (snd g))))
      (Groupby.groupby Z.eq_dec Z.leb plant_id_eia (hydro_rows keep df)).

Definition small_hydro_plants (keep : list string) (size_cap : Q)
           (df : list generator) : list Z :=
  map fst (filter (fun p => Qle_bool (snd p) size_cap)
                  (plant_capacity keep df)).

Definition set_technology (r : generator) (t : string) : generator :=
  {| plant_id_eia := plant_id_eia r;
     generator_id := generator_id r;
     model_region := model_region r;
     technology_description := Some t;
     cap_col := cap_col r |}.

Definition relabel (plants : list Z) (r : generator) : generator :=
  if is_tech conventional r && existsb (Z.eqb (plant_id_eia r)) plants
  then set_technology r small else r.

(** [np.allclose(a, b)] with the default tolerances. *)
Definition allclose (a b : Q) : bool :=
  Qle_bool (Qabs (a - b)) ((1 # 100000000) + (1 # 100000) * Qabs b).

Definition label_small_hydro (df : list generator) (s : settings)
           (region_agg_map : list (string * string))
  : result (list generator) :=
  if negb (small_hydro s) then Ok df
  else
    keep <- keep_regions s region_agg_map ;;
    let start_len := List.length df in
    match small_hydro_mw s with
    | None => Raise (KeyError "small_hydro_mw")
    | Some size_cap =>
        let start_hydro_capacity := capacity_of conventional df in
        let plants := small_hydro_plants keep size_cap df in
        let df := map (relabel plants) df in
        let end_len := List.length df in
        let small_hydro_capacity := capacity_of small df in
        let end_conv_hydro_capacity := capacity_of conventional df in
        if negb (start_len =? end_len)%nat then Raise (AssertionError "")
        else if negb (allclose start_hydro_capacity
                               (small_hydro_capacity
                                + end_conv_hydro_capacity))
             then Raise (AssertionError "")
             else Ok df
    end.

(** The summed conventional hydro capacity of a plant in the kept
    regions. *)
Definition plant_hydro_capacity (keep : list string) (df : list generator)
           (plant : Z) : Q :=
  nansum (map cap_col
              (filter (fun r => (plant_id_eia r =? plant)%Z)
                      (hydro_rows keep df))).

Definition sample_settings : settings :=
  {| small_hydro := true;
     model_regions := Some ["CA_N"; "WECC_AZ"];
     small_hydro_regions := Some ["CA_N"];
     small_hydro_mw := Some (30 # 1) |}.

Definition sample_hydro (plant : Z) (region tech : string) (mw : Q)
  : generator :=
  {| plant_id_eia := plant; generator_id := "1";
     model_region := Some region; technology_description := Some tech;
     cap_col := Some mw |}.

Definition sample_df : list generator :=
  [ sample_hydro 1 "CA_N" conventional (10 # 1);
    sample_hydro 1 "CA_N" conventional (15 # 1);
    sample_hydro 2 "CA_N" conventional (500 # 1);
    sample_hydro 3 "WECC_AZ" conventional (5 # 1) ].

(** The sample table after one call. *)
Definition sample_out : list generator :=
  map (relabel (small_hydro_plants ["CA_N"] (30 # 1) sample_df)) sample_df.

Lemma small_hydro_plants_In (keep : list string) (size_cap : Q)
      (df : list generator) (plant : Z) :
  In plant (small_hydro_plants keep size_cap df)
  <-> (exists r, In r (hydro_rows keep df) /\ plant_id_eia r = plant)
      /\ plant_hydro_capacity keep df plant <= size_cap.
Proof.
  unfold small_hydro_plants, plant_capacity, Groupby.groupby.
  rewrite map_map, in_map_iff. split.
  - intros [p [<- Hp]]. apply filter_In in Hp. destruct Hp as [Hp Hle].
    apply in_map_iff in Hp. destruct Hp as [k [<- Hk]]. simpl in *.
    apply Groupby.keys_In in Hk. apply in_map_iff in Hk.
    destruct Hk as [r [Hr Hin]]. split; [now exists r|].
    apply Qle_bool_iff in Hle. unfold plant_hydro_capacity.
    erewrite filter_ext; [exact Hle|].
    intro a. unfold Groupby.has_key.
    destruct (Z.eq_dec (plant_id_eia a) k) as [E|E];
      [now apply Z.eqb_eq | now apply Z.eqb_neq].
  - intros [[r [Hr Hplant]] Hle].
    exists (plant, nansum (map cap_col
                               (filter (Groupby.has_key Z.eq_dec plant_id_eia
                                                        plant)
                                       (hydro_rows keep df)))).
    split; [reflexivity|]. apply filter_In. split.
    + apply in_map_iff. exists plant. split; [reflexivity|].
      apply Groupby.keys_In. apply in_map_iff. now exists r.
    + simpl. apply Qle_bool_iff. unfold plant_hydro_capacity in Hle.
      erewrite filter_ext; [exact Hle|].
      intro a. unfold Groupby.has_key.
      destruct (Z.eq_dec (plant_id_eia a) plant) as [E|E];
        [symmetry; now apply Z.eqb_eq | symmetry; now apply Z.eqb_neq].
Qed.

(** Relabelling moves capacity from conventional to small hydro and
    leaves the two together as they were. *)
Lemma relabel_conserves (plants : list Z) (df : list generator) :
  capacity_of small (map (relabel plants) df)
  + capacity_of conventional (map (relabel plants) df)
  == capacity_of small df + capacity_of conventional df.
Proof.
  unfold capacity_of. induction df as [|r df IH]; [reflexivity|].
  cbn [map]. unfold relabel at 1 3.
  destruct (is_tech conventional r) eqn:Ec; cbn [andb].
  - assert (Es : is_tech small r = false).
    { unfold is_tech in *. destruct (technology_description r) as [x|];
        [|reflexivity].
      apply String.eqb_eq in Ec. now subst x. }
    destruct (existsb (Z.eqb (plant_id_eia r)) plants).
    + cbn [filter]. change (is_tech small (set_technology r small)) with true.
      change (is_tech conventional (set_technology r small)) with false.
      rewrite Es, Ec. cbn [map nansum cap_col set_technology].
      destruct (cap_col r); cbn [nansum]; lra.
    + cbn [filter]. rewrite Es, Ec. cbn [map nansum].
      destruct (cap_col r); cbn [nansum]; lra.
  - cbn [filter]. rewrite Ec.
    destruct (is_tech small r); cbn [map nansum];
      destruct (cap_col r); cbn [nansum]; lra.
Qed.

Lemma allclose_comp (a a' b b' : Q) :
  a == a' -> b == b' -> allclose a b = allclose a' b'.
Proof.
  intros Ha Hb. unfold allclose.
  assert (E1 : Qabs (a - b) == Qabs (a' - b')) by now rewrite Ha, Hb.
  assert (E2 : (1 # 100000000) + (1 # 100000) * Qabs b
               == (1 # 100000000) + (1 # 100000) * Qabs b')
    by now rewrite Hb.
  destruct (Qle_bool (Qabs (a' - b')) _) eqn:E.
  - apply Qle_bool_iff. apply Qle_bool_iff in E. now rewrite E1, E2.
  - destruct (Qle_bool (Qabs (a - b)) _) eqn:E'; [|reflexivity].
    apply Qle_bool_iff in E'. rewrite E1, E2 in E'.
    apply Qle_bool_iff in E'. congruence.
Qed.

(** The function once the settings are read. *)
Lemma label_small_hydro_run (df : list generator) (s : settings)
      (region_agg_map : list (string * string)) (keep : list string)
      (size_cap : Q) :
  small_hydro s = true ->
  keep_regions s region_agg_map = Ok keep ->
  small_hydro_mw s = Some size_cap ->
  label_small_hydro df s region_agg_map
  = if allclose (capacity_of conventional df)
                (capacity_of small df + capacity_of conventional df)
    then Ok (map (relabel (small_hydro_plants keep size_cap df)) df)
    else Raise (AssertionError "").
Proof.
  intros Hflag Hkeep Hsize. unfold label_small_hydro.
  rewrite Hflag, Hkeep, Hsize. cbn [negb bind].
  rewrite length_map, Nat.eqb_refl. cbn [negb].
  rewrite (allclose_comp _ (capacity_of conventional df) _
                         (capacity_of small df
                          + capacity_of conventional df)
                         (Qeq_refl _) (relabel_conserves _ df)).
  now destruct (allclose _ _).
Qed.

Lemma allclose_iff (S C : Q) :
  allclose C (S + C) = true
  <-> Qabs S <= (1 # 100000000) + (1 # 100000) * Qabs (S + C).
Proof.
  unfold allclose. rewrite Qle_bool_iff.
  assert (E : Qabs (C - (S + C)) == Qabs S).
  { rewrite <- (Qabs_opp S). apply Qabs_wd. ring. }
  now rewrite E.
Qed.

Lemma capacity_of_none (t : string) (df : list generator) :
  (forall r, In r df -> is_tech t r = false) -> capacity_of t df = 0.
Proof.
  intro H. unfold capacity_of.
  induction df as [|r df IH]; [reflexivity|]. simpl.
  rewrite (H r (or_introl eq_refl)). apply IH.
  intros; apply H; now right.
Qed.

Lemma label_small_hydro_relabels_aux
      (df : list generator) (s : settings)
      (region_agg_map : list (string * string)) (keep : list string)
      (size_cap : Q) :
  small_hydro s = true ->
  keep_regions s region_agg_map = Ok keep ->
  small_hydro_mw s = Some size_cap ->
  (forall r, In r df -> is_tech small r = false) ->
  forall out,
    label_small_hydro df s region_agg_map = Ok out ->
    capacity_of small out + capacity_of conventional out
    == capacity_of conventional df.
Proof.
  intros Hflag Hkeep Hsize Hnone out Hout.
  rewrite (label_small_hydro_run df s region_agg_map keep size_cap
                                 Hflag Hkeep Hsize) in Hout.
  destruct (allclose _ _); [|discriminate]. injection Hout as <-.
  rewrite relabel_conserves, (capacity_of_none small df Hnone). ring.
Qed.

(** X14.  With small hydro switched on, its settings present and no row
    labelled small hydro beforehand, [label_small_hydro] passes its two
    assertions and returns every row with nothing but the technology
    changed.  A row becomes "Small Hydroelectric" exactly when it is
    conventional hydro at a plant that has conventional hydro in a kept
    region and whose conventional hydro capacity in the kept regions sums to
    [small_hydro_mw] or less; and small plus conventional hydro capacity
    afterwards is the conventional hydro capacity before. *)
Theorem label_small_hydro_relabels
        (df : list generator) (s : settings)
        (region_agg_map : list (string * string)) (keep : list string)
        (size_cap : Q) :
  small_hydro s = true ->
  keep_regions s region_agg_map = Ok keep ->
  small_hydro_mw s = Some size_cap ->
  (forall r, In r df -> is_tech small r = false) ->
  exists out,
    label_small_hydro df s region_agg_map = Ok out
    /\ Forall2
         (fun r r' =>
            plant_id_eia r' = plant_id_eia r
            /\ generator_id r' = generator_id r
            /\ model_region r' = model_region r
            /\ cap_col r' = cap_col r
            /\ technology_description r'
               = (if is_tech conventional r
                     && existsb (Z.eqb (plant_id_eia r))
                                (small_hydro_plants keep size_cap df)
                  then Some small else technology_description r)
            /\ (is_tech small r' = true
                <-> is_tech conventional r = true
                    /\ (exists r0, In r0 (hydro_rows keep df)
                                   /\ plant_id_eia r0 = plant_id_eia r)
                    /\ plant_hydro_capacity keep df (plant_id_eia r)
                       <= size_cap))
         df out
    /\ capacity_of small out + capacity_of conventional out
       == capacity_of conventional df.
Proof.
  intros Hflag Hkeep Hsize Hnone.
  exists (map (relabel (small_hydro_plants keep size_cap df)) df).
  pose proof (capacity_of_none small df Hnone) as HS.
  split; [|split].
  - rewrite (label_small_hydro_run df s region_agg_map keep size_cap
                                   Hflag Hkeep Hsize).
    assert (Hc : allclose (capacity_of conventional df)
                          (capacity_of small df
                           + capacity_of conventional df) = true).
    { apply allclose_iff. rewrite HS. change (Qabs 0) with 0.
      pose proof (Qabs_nonneg (0 + capacity_of conventional df)). lra. }
    now rewrite Hc.
  - apply HeatRateFacts.Forall2_map_r. intros r Hr.
    set (plants := small_hydro_plants keep size_cap df).
    assert (Hex : existsb (Z.eqb (plant_id_eia r)) plants = true
                  <-> (exists r0, In r0 (hydro_rows keep df)
                                  /\ plant_id_eia r0 = plant_id_eia r)
                      /\ plant_hydro_capacity keep df (plant_id_eia r)
                         <= size_cap).
    { rewrite existsb_exists, <- small_hydro_plants_In. split.
      - intros [p [Hp Heq]]. apply Z.eqb_eq in Heq. now subst.
      - intro H. exists (plant_id_eia r).
        split; [exact H | apply Z.eqb_refl]. }
    unfold relabel.
    destruct (is_tech conventional r) eqn:Ec; cbn [andb].
    + destruct (existsb (Z.eqb (plant_id_eia r)) plants) eqn:Ex.
      * do 5 (split; [reflexivity|]).
        split; [intros _; split; [reflexivity | now apply Hex]
               | reflexivity].
      * do 5 (split; [reflexivity|]). rewrite (Hnone r Hr).
        split; [discriminate|]. intros [_ H]. apply Hex in H. discriminate.
    + do 5 (split; [reflexivity|]). rewrite (Hnone r Hr).
      split; [discriminate | intros [H _]; discriminate].
  - rewrite relabel_conserves, HS. ring.
Qed.

Lemma label_small_hydro_relabels_witness :
  exists out,
    label_small_hydro sample_df sample_settings [] = Ok out
    /\ capacity_of small out + capacity_of conventional out
       == capacity_of conventional sample_df.
Proof.
  destruct (label_small_hydro_relabels
              sample_df sample_settings [] ["CA_N"] (30 # 1)
              eq_refl eq_refl eq_refl) as [out [Hout [_ Hcap]]].
  - intros r Hr. simpl in Hr.
    destruct Hr as [<- | [<- | [<- | [<- | []]]]]; reflexivity.
  - exists out. now split.
Defined.

(** X15.  With small hydro switched on and its settings present, the
    closing assertion of [label_small_hydro] compares the conventional hydro
    capacity at the start with small plus conventional hydro capacity at the
    end, so the call returns exactly when the capacity labelled small hydro
    at the start is within [np.allclose]'s tolerance of zero, and raises
    [AssertionError] otherwise.  With small hydro switched off the table is
    returned as it is, whatever the other settings. *)
Theorem label_small_hydro_assertion
        (df : list generator) (s : settings)
        (region_agg_map : list (string * string)) :
  (small_hydro s = false -> label_small_hydro df s region_agg_map = Ok df)
  /\ forall keep size_cap,
       small_hydro s = true ->
       keep_regions s region_agg_map = Ok keep ->
       small_hydro_mw s = Some size_cap ->
       (is_ok (label_small_hydro df s region_agg_map) = true
        <-> Qabs (capacity_of small df)
            <= (1 # 100000000)
               + (1 # 100000)
                 * Qabs (capacity_of small df + capacity_of conventional df))
       /\ (is_ok (label_small_hydro df s region_agg_map) = false ->
           label_small_hydro df s region_agg_map
           = Raise (AssertionError "")).
Proof.
  split.
  - intro H. unfold label_small_hydro. now rewrite H.
  - intros keep size_cap Hflag Hkeep Hsize.
    rewrite (label_small_hydro_run df s region_agg_map keep size_cap
                                   Hflag Hkeep Hsize).
    rewrite <- allclose_iff.
    destruct (allclose _ _); simpl; split;
      try tauto; try discriminate; try reflexivity.
Qed.

(** X16.  [label_small_hydro] cannot be run again on its own result:
    when the first call relabelled more capacity than the tolerance of the
    assertion allows (1e-8 plus 1e-5 of the hydro capacity), a second call
    with the same settings raises [AssertionError]. *)
Theorem label_small_hydro_not_rerunnable
        (df out : list generator) (s : settings)
        (region_agg_map : list (string * string)) (keep : list string)
        (size_cap : Q) :
  small_hydro s = true ->
  keep_regions s region_agg_map = Ok keep ->
  small_hydro_mw s = Some size_cap ->
  (forall r, In r df -> is_tech small r = false) ->
  label_small_hydro df s region_agg_map = Ok out ->
  (1 # 100000000) + (1 # 100000) * Qabs (capacity_of conventional df)
  < capacity_of small out ->
  label_small_hydro out s region_agg_map = Raise (AssertionError "").
Proof.
  intros Hflag Hkeep Hsize Hnone Hout Hbig.
  pose proof (label_small_hydro_relabels_aux
                df s region_agg_map keep size_cap
                Hflag Hkeep Hsize Hnone out Hout) as Hcap.
  rewrite (label_small_hydro_run out s region_agg_map keep size_cap
                                 Hflag Hkeep Hsize).
  destruct (allclose _ _) eqn:E; [|reflexivity].
  apply allclose_iff in E. rewrite Hcap in E.
  pose proof (Qle_Qabs (capacity_of small out)). lra.
Qed.

Lemma label_small_hydro_assertion_witness :
  is_ok (label_small_hydro sample_df sample_settings []) = true
  <-> Qabs (capacity_of small sample_df)
      <= (1 # 100000000)
         + (1 # 100000)
           * Qabs (capacity_of small sample_df
                   + capacity_of conventional sample_df).
Proof.
  exact (proj1 (proj2 (label_small_hydro_assertion
                         sample_df sample_settings [])
                      ["CA_N"] (30 # 1) eq_refl eq_refl eq_refl)).
Defined.

Lemma label_small_hydro_not_rerunnable_witness :
  label_small_hydro sample_df sample_settings [] = Ok sample_out
  /\ label_small_hydro sample_out sample_settings []
     = Raise (AssertionError "").
Proof.
  assert (Hout : label_small_hydro sample_df sample_settings []
                 = Ok sample_out) by reflexivity.
  split; [exact Hout|].
  apply (label_small_hydro_not_rerunnable
           sample_df sample_out sample_settings [] ["CA_N"] (30 # 1)
           eq_refl eq_refl eq_refl).
  - intros r Hr. simpl in Hr.
    destruct Hr as [<- | [<- | [<- | [<- | []]]]]; reflexivity.
  - exact Hout.
  - reflexivity.
Defined.

End SmallHydro.

(** ** Transmission investment costs ([calculate_transmission_inv_cost]) *)

Module Transmission.

Definition TRANSMISSION_TYPES : list string := ["spur"; "offshore_spur"; "tx"].

(** The value of [capex_mw_mile] in the settings: a dictionary, a number, or
    anything else (of which only the truth value is read). *)
Inductive capex_setting : Type :=
| CapexDict (d : list (string * option Q))
| CapexNumber (q : Q)
| CapexOther (truthy : bool).

(** The parameters of one transmission type; [None] is a missing key. *)
Record params := {
  wacc : option Q;
  investment_years : option Z;
  capex_mw_mile : option capex_setting
}.

(** One resource; [miles t] is the cell of column [<t>_miles]. *)
Record resource := {
  region : string;
  technology : string;
  miles : string -> option Q
}.

(** The resource table: which [<t>_miles] columns it has, and its rows. *)
Record resource_table := {
  miles_columns : list string;
  rows : list resource
}.

Record offshore_cost := {
  o_technology : string;
  tech_detail : string;
  cost_case : string;
  o_capex_mw_mile : option Q
}.

(** The columns [<t>_capex] and [<t>_inv_mwyr] of one transmission type. *)
Definition cost_columns : Type := list (option Q) * list (option Q).

Record loop_state := {
  use_offshore_spur_costs : bool;
  new_columns : list (string * cost_columns)
}.

Definition has_key {V : Type} (d : list (string * V)) (k : string) : bool :=
  existsb (fun e => String.eqb (fst e) k) d.

(** [d.get(k)], and what [Series.map(d)] gives for one cell. *)
Definition lookup {V : Type} (d : list (string * V)) (k : string) : option V :=
  option_map snd (find (fun e => String.eqb (fst e) k) d).

Definition map_cell (d : list (string * option Q)) (k : string) : option Q :=
  match lookup d k with
  | Some v => v
  | None => None
  end.

(** [x in TRANSMISSION_TYPES if f"{x}_miles" in resource_df]. *)
Definition resource_ttypes (df : resource_table) : list string :=
  filter (fun x => existsb (String.eqb x) (miles_columns df))
         TRANSMISSION_TYPES.

(** [not params.get("capex_mw_mile")]. *)
Definition falsy (c : option capex_setting) : bool :=
  match c with
  | None => true
  | Some (CapexDict []) => true
  | Some (CapexDict (_ :: _)) => false
  | Some (CapexNumber q) => Qeq_bool q 0
  | Some (CapexOther truthy) => negb truthy
  end.

(** The technology to cost dictionary built from the offshore spur costs; a
    later row replaces an earlier one with the same key. *)
Definition offshore_dict (offshore_spur_costs : list offshore_cost)
  : list (string * option Q) :=
  rev (map (fun c => (String.concat "_" [o_technology c; tech_detail c;
                                         cost_case c],
                      o_capex_mw_mile c))
           offshore_spur_costs).

(** [capex_mw_mile.fillna(0) * resource_df[f"{ttype}_miles"]]. *)
Definition capex_column (df : resource_table) (ttype : string)
           (capex_mw_mile : resource -> option Q) : list (option Q) :=
  map (fun r =>
         Resources.cell_mul
           (Some (match capex_mw_mile r with Some v => v | None => 0 end))
           (miles r ttype))
      (rows df).

(** [resource_df[name] = column]. *)
Definition set_column (ttype : string) (c : cost_columns)
           (columns : list (string * cost_columns))
  : list (string * cost_columns) :=
  if has_key columns ttype
  then map (fun e => if String.eqb (fst e) ttype then (ttype, c) else e)
           columns
  else columns ++ [(ttype, c)].

Definition sample_params (c : capex_setting) : params :=
  {| wacc := Some (5 # 100); investment_years := Some 60%Z;
     capex_mw_mile := Some c |}.

Definition sample_ttypes : list (string * params) :=
  [("offshore_spur", sample_params (CapexNumber 0));
   ("tx", sample_params (CapexDict [("CA_N", Some (1000 # 1));
                                    ("CA_S", Some (2000 # 1))]))].

Definition sample_offshore_spur_costs : list offshore_cost :=
  [ {| o_technology := "OffShoreWind"; tech_detail := "fixed";
       cost_case := "Mid"; o_capex_mw_mile := Some (5000 # 1) |} ].

Definition sample_table : resource_table :=
  {| miles_columns := ["offshore_spur"; "tx"];
     rows := [ {| region := "CA_N";
                  technology := "OffShoreWind_fixed_Mid";
                  miles := fun t => if String.eqb t "tx"
                                    then Some (10 # 1) else Some (20 # 1) |};
               {| region := "CA_S";
                  technology := "LandbasedWind";
                  miles := fun _ => Some (5 # 1) |} ] |}.

(** A stand-in for the annuity formula. *)
Definition sample_calculator (capex : list (option Q)) (w : Q) (years : Z)
  : list (option Q) :=
  map (option_map (fun c => c * w)) capex.

Section Calculator.

(** [powergenome.nrelatb.investment_cost_calculator]. *)
Variable investment_cost_calculator : list (option Q) -> Q -> Z
                                      -> list (option Q).

(** One turn of the loop over [ttypes.items()]. *)
Definition body (df : resource_table)
           (offshore_spur_costs : option (list offshore_cost))
           (entry : string * params) (st : loop_state) : result loop_state :=
  let ttype := fst entry in
  let p := snd entry in
  if negb (existsb (String.eqb ttype) (resource_ttypes df)) then Ok st
  else
    let offshore :=
      match offshore_spur_costs with
      | Some costs =>
          if String.eqb ttype "offshore_spur" && falsy (capex_mw_mile p)
          then Some costs else None
      | None => None
      end in
    let flag := match offshore with
                | Some _ => true
                | None => use_offshore_spur_costs st
                end in
    let capex := match offshore with
                 | Some costs => Some (CapexDict (offshore_dict costs))
                 | None => capex_mw_mile p
                 end in
    match wacc p, investment_years p, capex with
    | Some w, Some years, Some c =>
        match c with
        | CapexDict d =>
            capex_mw_mile <-
              (if flag then Ok (fun r => map_cell d (technology r))
               else if forallb (fun r => has_key d (region r)) (rows df)
                    then Ok (fun r => map_cell d (region r))
                    else Raise (KeyError
                                  "capex_mw_mile missing regions")) ;;
            let capex_col := capex_column df ttype capex_mw_mile in
            Ok {| use_offshore_spur_costs := flag;
                  new_columns :=
                    set_column ttype
                               (capex_col,
                                investment_cost_calculator capex_col w years)
                               (new_columns st) |}
        | CapexNumber _ =>
            (* [capex_mw_mile.fillna(0)] on a number *)
            Raise (AttributeError "fillna")
        | CapexOther _ =>
            Raise (TypeError
                     "capex_mw_mile should be numeric or a dictionary")
        end
    | _, _, _ => Raise (KeyError "missing required keys")
    end.

(** [calculate_transmission_inv_cost], returning the columns it adds. *)
Definition calculate_transmission_inv_cost
           (df : resource_table) (ttypes : list (string * params))
           (offshore_spur_costs : option (list offshore_cost))
  : result (list (string * cost_columns)) :=
  if existsb (fun x => negb (has_key ttypes x)) (resource_ttypes df)
  then Raise (KeyError "missing transmission line types")
  else
    st <- for_each (body df offshore_spur_costs) ttypes
                   {| use_offshore_spur_costs := false; new_columns := [] |} ;;
    Ok (new_columns st).

(** The capex column of a type whose dictionary is read by technology. *)
Definition by_technology (df : resource_table) (ttype : string)
           (d : list (string * option Q)) : list (option Q) :=
  capex_column df ttype (fun r => map_cell d (technology r)).

Lemma for_each_split {S X : Type} (f : X -> S -> result S)
      (pre post : list X) (x : X) (s0 s' : S) :
  for_each f (pre ++ x :: post) s0 = Ok s' ->
  exists s1 s2, for_each f pre s0 = Ok s1 /\ f x s1 = Ok s2
                /\ for_each f post s2 = Ok s'.
Proof.
  revert s0. induction pre as [|y pre IH]; simpl; intros s0 H.
  - destruct (f x s0) as [s2|] eqn:E; simpl in H; [|discriminate].
    exists s0, s2. now repeat split.
  - destruct (f y s0) as [sy|]; simpl in H; [|discriminate].
    destruct (IH sy H) as (s1 & s2 & H1 & H2 & H3).
    exists s1, s2. now repeat split.
Qed.

Lemma lookup_set_column (t : string) (c : cost_columns)
      (columns : list (string * cost_columns)) :
  lookup (set_column t c columns) t = Some c.
Proof.
  unfold set_column, lookup, has_key.
  induction columns as [|e columns IH]; simpl.
  - now rewrite String.eqb_refl.
  - destruct (String.eqb (fst e) t) eqn:E; simpl.
    + now rewrite String.eqb_refl.
    + destruct (existsb _ columns) eqn:Ex; simpl; rewrite E; exact IH.
Qed.

Lemma lookup_set_column_other (t t' : string) (c : cost_columns)
      (columns : list (string * cost_columns)) :
  t' <> t ->
  lookup (set_column t' c columns) t = lookup columns t.
Proof.
  intro Hne. apply String.eqb_neq in Hne.
  unfold set_column, lookup, has_key.
  destruct (existsb (fun e => String.eqb (fst e) t') columns).
  - f_equal. induction columns as [|e columns IH]; simpl; [reflexivity|].
    destruct (String.eqb (fst e) t') eqn:E; simpl.
    + apply String.eqb_eq in E. rewrite Hne, E, Hne. exact IH.
    + destruct (String.eqb (fst e) t); [reflexivity | exact IH].
  - f_equal. induction columns as [|e columns IH]; simpl.
    + now rewrite Hne.
    + destruct (String.eqb (fst e) t); [reflexivity | exact IH].
Qed.

Lemma body_inv (df : resource_table)
      (offshore_spur_costs : option (list offshore_cost))
      (t : string) (p : params) (st st' : loop_state) :
  body df offshore_spur_costs (t, p) st = Ok st' ->
  In t (resource_ttypes df) ->
  exists w years d (by_tech : bool),
    wacc p = Some w /\ investment_years p = Some years
    /\ (capex_mw_mile p = Some (CapexDict d)
        \/ (t = "offshore_spur" /\ falsy (capex_mw_mile p) = true
            /\ exists costs, offshore_spur_costs = Some costs
                             /\ d = offshore_dict costs /\ by_tech = true))
    /\ (use_offshore_spur_costs st = true -> by_tech = true)
    /\ use_offshore_spur_costs st' = by_tech
    /\ new_columns st'
       = (let col := capex_column
                       df t (fun r => map_cell d (if by_tech
                                                  then technology r
                                                  else region r)) in
          set_column t (col, investment_cost_calculator col w years)
                     (new_columns st)).
Proof.
  unfold body. cbn [fst snd]. intros H Hin.
  assert (Hex : existsb (String.eqb t) (resource_ttypes df) = true).
  { apply existsb_exists. exists t. split; [exact Hin|].
    apply String.eqb_refl. }
  rewrite Hex in H. cbn [negb] in H.
  destruct (wacc p) as [w|]; [|discriminate].
  destruct (investment_years p) as [years|]; [|discriminate].
  set (offshore := match offshore_spur_costs with
                   | Some costs =>
                       if String.eqb t "offshore_spur"
                          && falsy (capex_mw_mile p)
                       then Some costs else None
                   | None => None
                   end) in *.
  destruct offshore as [costs|] eqn:Eo.
  - cbn [bind] in H. injection H as <-.
    exists w, years, (offshore_dict costs), true.
    split; [reflexivity|]. split; [reflexivity|]. split.
    + right. unfold offshore in Eo.
      destruct offshore_spur_costs as [costs'|]; [|discriminate].
      destruct (String.eqb t "offshore_spur") eqn:Et; [|discriminate].
      destruct (falsy (capex_mw_mile p)) eqn:Ef; [|discriminate].
      injection Eo as ->. apply String.eqb_eq in Et.
      split; [exact Et|]. split; [reflexivity|]. now exists costs.
    + now repeat split.
  - destruct (capex_mw_mile p) as [[d|q|b]|]; try discriminate.
    destruct (use_offshore_spur_costs st) eqn:Ef.
    + cbn [bind] in H. injection H as <-.
      exists w, years, d, true. repeat split; auto.
    + destruct (forallb _ (rows df)); [|discriminate].
      cbn [bind] in H. injection H as <-.
      exists w, years, d, false. repeat split; auto.
Qed.

Lemma body_skip (df : resource_table)
      (offshore_spur_costs : option (list offshore_cost))
      (t : string) (p : params) (st : loop_state) :
  ~ In t (resource_ttypes df) ->
  body df offshore_spur_costs (t, p) st = Ok st.
Proof.
  intro Hin. unfold body. cbn [fst snd].
  destruct (existsb (String.eqb t) (resource_ttypes df)) eqn:E;
    [|reflexivity].
  apply existsb_exists in E. destruct E as [x [Hx Heq]].
  apply String.eqb_eq in Heq. now subst x.
Qed.

Lemma in_dec_ttypes (df : resource_table) (t : string) :
  {In t (resource_ttypes df)} + {~ In t (resource_ttypes df)}.
Proof. apply in_dec, string_dec. Qed.

(** Once the offshore spur costs are in use they stay in use, and a turn
    for another type leaves the columns of a type as they are. *)
Lemma for_each_keeps (df : resource_table)
      (offshore_spur_costs : option (list offshore_cost))
      (t : string) (entries : list (string * params)) (st st' : loop_state) :
  for_each (body df offshore_spur_costs) entries st = Ok st' ->
  (use_offshore_spur_costs st = true -> use_offshore_spur_costs st' = true)
  /\ (~ In t (map fst entries) ->
      lookup (new_columns st') t = lookup (new_columns st) t).
Proof.
  revert st. induction entries as [|[t' p'] entries IH]; simpl; intros st H.
  - injection H as <-. now split.
  - destruct (body df offshore_spur_costs (t', p') st) as [s1|] eqn:E;
      simpl in H; [|discriminate].
    destruct (IH s1 H) as [IHflag IHcol].
    destruct (in_dec_ttypes df t') as [Hin|Hin].
    + destruct (body_inv _ _ _ _ _ _ E Hin)
        as (w & years & d & by_tech & _ & _ & _ & Hmono & Hflag & Hcols).
      split.
      * intro Hst. apply IHflag. rewrite Hflag. now apply Hmono.
      * intro Hnot. rewrite IHcol by tauto. rewrite Hcols. simpl.
        apply lookup_set_column_other. tauto.
    + rewrite body_skip in E by exact Hin. injection E as <-.
      split; [exact IHflag|]. intro Hnot. apply IHcol. tauto.
Qed.

(** X17.  A numeric [capex_mw_mile] never gives a result: whenever
    [calculate_transmission_inv_cost] returns, no transmission type with a
    miles column in the resources has a number there, except a zero under
    [offshore_spur] that the offshore spur costs replace.  (The number has
    no [fillna]; the call raises [AttributeError].) *)
Theorem numeric_capex_mw_mile_never_returns
        (df : resource_table) (ttypes : list (string * params))
        (offshore_spur_costs : option (list offshore_cost))
        (columns : list (string * cost_columns))
        (t : string) (p : params) (q : Q) :
  calculate_transmission_inv_cost df ttypes offshore_spur_costs = Ok columns ->
  In (t, p) ttypes ->
  In t (resource_ttypes df) ->
  capex_mw_mile p = Some (CapexNumber q) ->
  t = "offshore_spur" /\ q == 0 /\ offshore_spur_costs <> None.
Proof.
  unfold calculate_transmission_inv_cost. intros H Hin Ht Hq.
  destruct (existsb _ (resource_ttypes df)); [discriminate|].
  destruct (for_each _ ttypes _) as [st|] eqn:E; [|discriminate].
  apply in_split in Hin. destruct Hin as (pre & post & ->).
  apply for_each_split in E. destruct E as (s1 & s2 & _ & Hbody & _).
  destruct (body_inv _ _ _ _ _ _ Hbody Ht)
    as (w & years & d & by_tech & _ & _ & Hcapex & _).
  destruct Hcapex as [Hd | (-> & Hf & costs & -> & _)]; [congruence|].
  rewrite Hq in Hf. simpl in Hf. apply Qeq_bool_iff in Hf.
  split; [reflexivity|]. split; [exact Hf | discriminate].
Qed.

(** X18.  The switch to the offshore spur costs is never switched back.
    When the settings list [offshore_spur] without its own cost per mile,
    offshore spur costs are given, and a later transmission type has a
    dictionary of costs per region, that dictionary is read by the
    resource's technology, not by its region, and the check that every
    region is covered is skipped: a resource whose technology is not a key
    of the dictionary gets a capex of zero. *)
Theorem offshore_spur_costs_flag_is_sticky
        (df : resource_table)
        (pre post : list (string * params)) (t : string) (p p_off : params)
        (costs : list offshore_cost) (d : list (string * option Q))
        (columns : list (string * cost_columns)) :
  calculate_transmission_inv_cost
    df (pre ++ (t, p) :: post) (Some costs) = Ok columns ->
  NoDup (map fst (pre ++ (t, p) :: post)) ->
  In ("offshore_spur", p_off) pre ->
  falsy (capex_mw_mile p_off) = true ->
  In "offshore_spur" (resource_ttypes df) ->
  In t (resource_ttypes df) ->
  capex_mw_mile p = Some (CapexDict d) ->
  exists w years,
    wacc p = Some w /\ investment_years p = Some years
    /\ lookup columns t
       = Some (by_technology df t d,
               investment_cost_calculator (by_technology df t d) w years)
    /\ forall i r,
         nth_error (rows df) i = Some r ->
         has_key d (technology r) = false ->
         nth_error (by_technology df t d) i
         = Some (Resources.cell_mul (Some 0) (miles r t)).
Proof.
  unfold calculate_transmission_inv_cost.
  intros H Hnd Hoff Hfalsy Hoff_in Ht Hd.
  destruct (existsb _ (resource_ttypes df)); [discriminate|].
  destruct (for_each _ (pre ++ (t, p) :: post) _) as [st|] eqn:E;
    [|discriminate].
  cbn [bind] in H. injection H as <-.
  apply for_each_split in E. destruct E as (s1 & s2 & Hpre & Hbody & Hpost).
  (* the flag is set by the end of [pre] *)
  assert (Hflag : use_offshore_spur_costs s1 = true).
  { apply in_split in Hoff. destruct Hoff as (pre1 & pre2 & ->).
    apply for_each_split in Hpre.
    destruct Hpre as (a1 & a2 & _ & Hbody_off & Hrest).
    destruct (body_inv _ _ _ _ _ _ Hbody_off Hoff_in)
      as (w & years & d' & by_tech & _ & _ & Hcapex & _ & Hset & _).
    apply (proj1 (for_each_keeps df (Some costs) t pre2 a2 s1 Hrest)).
    rewrite Hset.
    destruct Hcapex as [Hd' | (_ & _ & costs' & _ & _ & ->)];
      [|reflexivity].
    rewrite Hd' in Hfalsy. simpl in Hfalsy.
    destruct d' as [|e d']; [|discriminate].
    (* an empty dictionary of its own is falsy too *)
    unfold body in Hbody_off. cbn [fst snd] in Hbody_off.
    assert (Hex : existsb (String.eqb "offshore_spur") (resource_ttypes df)
                  = true).
    { apply existsb_exists. exists "offshore_spur".
      split; [exact Hoff_in | reflexivity]. }
    rewrite Hex, Hd' in Hbody_off. cbn in Hbody_off.
    destruct (wacc p_off); [|discriminate].
    destruct (investment_years p_off); [|discriminate].
    cbn in Hbody_off. injection Hbody_off as <-. simpl in Hset.
    now rewrite <- Hset. }
  assert (Hnot_off : t <> "offshore_spur").
  { intro Heq. subst t. rewrite map_app in Hnd. simpl in Hnd.
    apply NoDup_remove_2 in Hnd. apply Hnd. apply in_or_app. left.
    apply in_map_iff. now exists ("offshore_spur", p_off). }
  destruct (body_inv _ _ _ _ _ _ Hbody Ht)
    as (w & years & d' & by_tech & Hw & Hy & Hcapex & Hmono & _ & Hcols).
  destruct Hcapex as [Hd' | (Heq & _)]; [|contradiction].
  rewrite Hd in Hd'. injection Hd' as <-.
  rewrite (Hmono Hflag) in Hcols. simpl in Hcols.
  exists w, years. split; [exact Hw|]. split; [exact Hy|]. split.
  - rewrite (proj2 (for_each_keeps df (Some costs) t post s2 st Hpost)).
    + rewrite Hcols. apply lookup_set_column.
    + rewrite map_app in Hnd. simpl in Hnd.
      apply NoDup_remove_2 in Hnd. intro Hin. apply Hnd.
      apply in_or_app. now right.
  - intros i r Hr Hkey. unfold by_technology, capex_column.
    rewrite nth_error_map, Hr. simpl. unfold map_cell, lookup.
    assert (Hfind : find (fun e => String.eqb (fst e) (technology r)) d
                    = None).
    { unfold has_key in Hkey.
      destruct (find _ d) as [e|] eqn:Ef; [|reflexivity].
      apply find_some in Ef.
      assert (existsb (fun e => String.eqb (fst e) (technology r)) d = true)
        by (apply existsb_exists; now exists e).
      congruence. }
    now rewrite Hfind.
Qed.

End Calculator.

Lemma numeric_capex_mw_mile_never_returns_witness :
  "offshore_spur" = "offshore_spur" /\ 0 == 0
  /\ Some sample_offshore_spur_costs <> None.
Proof.
  exact (numeric_capex_mw_mile_never_returns
           sample_calculator sample_table sample_ttypes
           (Some sample_offshore_spur_costs) _
           "offshore_spur" (sample_params (CapexNumber 0)) 0
           eq_refl (or_introl eq_refl) (or_introl eq_refl) eq_refl).
Defined.

Lemma offshore_spur_costs_flag_is_sticky_witness :
  exists columns capex inv,
    calculate_transmission_inv_cost
      sample_calculator sample_table sample_ttypes
      (Some sample_offshore_spur_costs) = Ok columns
    /\ lookup columns "tx" = Some (capex, inv)
    /\ nth_error capex 1 = Some (Resources.cell_mul (Some 0) (Some (5 # 1))).
Proof.
  destruct (offshore_spur_costs_flag_is_sticky
              sample_calculator sample_table
              [("offshore_spur", sample_params (CapexNumber 0))] []
              "tx"
              (sample_params (CapexDict [("CA_N", Some (1000 # 1));
                                         ("CA_S", Some (2000 # 1))]))
              (sample_params (CapexNumber 0))
              sample_offshore_spur_costs
              [("CA_N", Some (1000 # 1)); ("CA_S", Some (2000 # 1))]
              _ eq_refl)
    as (w & years & _ & _ & Hcol & Hzero).
  - repeat constructor; simpl; intuition discriminate.
  - now left.
  - reflexivity.
  - now left.
  - right. now left.
  - reflexivity.
  - eexists. eexists. eexists. split; [reflexivity|].
    split; [exact Hcol|].
    exact (Hzero 1%nat _ eq_refl eq_refl).
Defined.

End Transmission.

(** ** Where a fuel label comes from ([add_fuel_labels] without a CCS fuel
    map) *)

Module FuelLabelFacts.

Import FuelLabels.

(** The last line of [add_fuel_labels]: the rows still without a fuel get
    the text "None". *)
Definition fill_none (df : list generator) : list generator :=
  set_fuel fuel_isna "None" df.

(** The columns [add_fuel_labels] does not write. *)
Definition shape (df : list generator) : list (string * string) :=
  map (fun r => (technology r, region r)) df.

(** [name] is the series of an AEO fuel of the settings for an AEO region
    that holds [region], and has a price in the model year. *)
Definition aeo_label (s : settings) (fuel_prices : list fuel_price)
           (region name : string) : Prop :=
  exists eia_tech fuel scenarios scenario regions aeo_region model_regions,
    In (eia_tech, fuel) (items_or_empty (tech_fuel_map s))
    /\ aeo_fuel_scenarios s = Value scenarios
    /\ lookup fuel scenarios = Some scenario
    /\ aeo_fuel_region_map s = Value regions
    /\ In (aeo_region, model_regions) regions
    /\ isin region model_regions = true
    /\ name = join_underscore [aeo_region; scenario; fuel]
    /\ has_price fuel_prices (model_year s) name = true.

(** [name] is a fuel the user has priced, for all regions or for
    [region]. *)
Definition user_label (s : settings) (region name : string) : Prop :=
  exists eia_tech fuel prices p,
    In (eia_tech, fuel) (items_or_empty (tech_fuel_map s))
    /\ user_fuel_price s = Value prices
    /\ lookup fuel prices = Some p
    /\ match p with
       | Flat _ => name = fuel
       | ByRegion by_region =>
           In region (map fst by_region)
           /\ name = (region ++ "_" ++ fuel)%string
       end.

Definition configured (s : settings) (fuel_prices : list fuel_price)
           (df : list generator) : Prop :=
  forall r name, In r df -> Fuel r = Some name ->
                 aeo_label s fuel_prices (region r) name
                 \/ user_label s (region r) name.

Definition sample_settings : settings :=
  {| tech_fuel_map := Value [("Conventional Steam Coal", "coal");
                             ("Biomass", "biomass")];
     eia_atb_tech_map := Absent;
     aeo_fuel_scenarios := Value [("coal", "reference")];
     user_fuel_price := Value [("biomass", Flat (3 # 1))];
     aeo_fuel_region_map := Value [("mountain", ["WECC"])];
     model_year := 2030 |}.

Definition sample_fuel_prices : list fuel_price :=
  [ {| year := 2030; full_fuel_name := "mountain_reference_coal";
       price := 2 # 1 |} ].

Definition sample_generators : list generator :=
  [ {| technology := "Conventional Steam Coal"; region := "WECC";
       Fuel := Some "stale" |};
    {| technology := "Biomass"; region := "WECC"; Fuel := None |};
    {| technology := "Onshore Wind Turbine"; region := "WECC";
       Fuel := None |} ].

Lemma for_each_invariant {S X : Type} (P : S -> Prop)
      (body : X -> S -> result S) (xs : list X) (s0 s' : S) :
  (forall x s1 s2, In x xs -> P s1 -> body x s1 = Ok s2 -> P s2) ->
  P s0 -> for_each body xs s0 = Ok s' -> P s'.
Proof.
  revert s0. induction xs as [|x xs IH]; simpl; intros s0 Hstep H0 H.
  - now injection H as <-.
  - destruct (body x s0) as [s1|] eqn:E; simpl in H; [|discriminate].
    apply (IH s1).
    + intros y a b Hy. apply Hstep. now right.
    + apply (Hstep x s0 s1); [now left | exact H0 | exact E].
    + exact H.
Qed.

Lemma fold_left_invariant {S X : Type} (P : S -> Prop)
      (f : S -> X -> S) (xs : list X) (s0 : S) :
  (forall x s, In x xs -> P s -> P (f s x)) ->
  P s0 -> P (fold_left f xs s0).
Proof.
  revert s0. induction xs as [|x xs IH]; simpl; intros s0 Hstep H0;
    [exact H0|].
  apply IH.
  - intros y a Hy. apply Hstep. now right.
  - apply Hstep; [now left | exact H0].
Qed.

Lemma shape_set_fuel (mask : generator -> bool) (name : string)
      (df : list generator) :
  shape (set_fuel mask name df) = shape df.
Proof.
  unfold shape, set_fuel. rewrite map_map. apply map_ext.
  intro r. now destruct (mask r).
Qed.

Section Labels.

Variable str_lower : string -> string.
Variable str_rstrip_underscore : string -> string.
Variable str_contains_nocase : string -> string -> bool.
Variable split_first : string -> string.

(** [add_fuel_labels] when the settings have no [ccs_fuel_map] (or an
    empty one): the loop over [tech_fuel_map], then the last line. *)
Definition add_fuel_labels_without_ccs (df : list generator)
           (fuel_prices : list fuel_price) (s : settings)
  : result (list generator) :=
  df <- add_fuel_labels str_lower str_rstrip_underscore str_contains_nocase
                        split_first df fuel_prices s ;;
  Ok (fill_none df).

Variable s : settings.
Variable fuel_prices : list fuel_price.

Let good (region name : string) : Prop :=
  aeo_label s fuel_prices region name \/ user_label s region name.

Let inv (shape0 : list (string * string)) (df : list generator) : Prop :=
  shape df = shape0 /\ configured s fuel_prices df.

Lemma set_fuel_inv (shape0 : list (string * string))
      (mask : generator -> bool) (name : string) (df : list generator) :
  (forall r, mask r = true -> good (region r) name) ->
  inv shape0 df -> inv shape0 (set_fuel mask name df).
Proof.
  intros Hmask [Hshape Hconf]. split.
  - now rewrite shape_set_fuel.
  - intros r' name' Hr' Hname. unfold set_fuel in Hr'.
    apply in_map_iff in Hr'. destruct Hr' as [r [<- Hr]].
    destruct (mask r) eqn:Em.
    + simpl in *. injection Hname as <-. now apply Hmask.
    + now apply (Hconf r).
Qed.

Lemma label_atb_inv (shape0 : list (string * string))
      (atb_tech : option (list string)) (region_ok : generator -> bool)
      (name : string) (df : list generator) :
  (forall r, region_ok r = true -> good (region r) name) ->
  inv shape0 df ->
  inv shape0 (label_atb str_contains_nocase atb_tech region_ok name df).
Proof.
  intros Hok Hinv. unfold label_atb. destruct atb_tech as [techs|];
    [|exact Hinv].
  apply fold_left_invariant; [|exact Hinv].
  intros tech df' _ Hdf'. apply set_fuel_inv; [|exact Hdf'].
  intros r Hr. apply andb_true_iff in Hr. destruct Hr as [Hr _].
  apply andb_true_iff in Hr. destruct Hr as [_ Hr]. now apply Hok.
Qed.

Lemma label_tech_fuel_inv (shape0 : list (string * string))
      (entry : string * string) (df df' : list generator) :
  In entry (items_or_empty (tech_fuel_map s)) ->
  inv shape0 df ->
  label_tech_fuel str_lower str_rstrip_underscore str_contains_nocase
                  split_first s fuel_prices entry df = Ok df' ->
  inv shape0 df'.
Proof.
  destruct entry as [eia_tech fuel]. intros Hentry Hinv H.
  unfold label_tech_fuel in H.
  destruct (atb_tech_of split_first s eia_tech) as [atb_tech|];
    [|discriminate].
  destruct (scenario_of s fuel) as [scenario|] eqn:Esc; [|discriminate].
  cbn [bind] in H.
  destruct (falsy scenario) eqn:Ef.
  - destruct (user_fuel_price s) as [| |prices] eqn:Eu; try discriminate.
    destruct (lookup fuel prices) as [p|] eqn:El; [|discriminate].
    injection H as <-.
    assert (Huser : forall region name,
               match p with
               | Flat _ => name = fuel
               | ByRegion by_region =>
                   In region (map fst by_region)
                   /\ name = (region ++ "_" ++ fuel)%string
               end -> good region name).
    { intros region name Hp. right.
      exists eia_tech, fuel, prices, p. now repeat split. }
    unfold label_user_fuel. destruct p as [q|by_region].
    + apply label_atb_inv; [intros; now apply Huser|].
      apply set_fuel_inv; [intros; now apply Huser | exact Hinv].
    + apply fold_left_invariant; [|exact Hinv].
      intros rp df0 Hrp Hdf0.
      assert (Hregion : forall r, String.eqb (region r) (fst rp) = true ->
                                  good (region r)
                                       (fst rp ++ "_" ++ fuel)%string).
      { intros r Hr. apply String.eqb_eq in Hr. apply Huser.
        rewrite Hr. split; [now apply in_map | reflexivity]. }
      apply label_atb_inv; [exact Hregion|].
      apply set_fuel_inv; [|exact Hdf0].
      intros r Hr. apply andb_true_iff in Hr. now apply Hregion.
  - destruct scenario as [scenario|]; [|now injection H as <-].
    destruct (aeo_fuel_region_map s) as [| |regions] eqn:Er;
      try discriminate.
    unfold scenario_of in Esc.
    destruct (aeo_fuel_scenarios s) as [| |scenarios] eqn:Es;
      try discriminate.
    injection Esc as Esc.
    revert H. apply for_each_invariant; [|exact Hinv].
    intros [aeo_region model_regions] d1 d2 Hin Hd1 Hd2.
    cbn [label_aeo_region] in Hd2.
    destruct (has_price fuel_prices (model_year s)
                        (join_underscore [aeo_region; scenario; fuel]))
      eqn:Ep; [|discriminate].
    injection Hd2 as <-.
    assert (Haeo : forall r, isin (region r) model_regions = true ->
                             good (region r)
                                  (join_underscore
                                     [aeo_region; scenario; fuel])).
    { intros r Hr. left.
      exists eia_tech, fuel, scenarios, scenario, regions, aeo_region,
        model_regions.
      now repeat split. }
    apply label_atb_inv; [exact Haeo|].
    apply set_fuel_inv; [|exact Hd1].
    intros r Hr. apply andb_true_iff in Hr. now apply Haeo.
Qed.

(** X19.  Without a CCS fuel map, [add_fuel_labels] keeps the rows and
    their technology and region, throws away any fuel the table came with,
    and gives every row a fuel: the text "None", or the price series of an
    AEO fuel of [tech_fuel_map] for an AEO region that holds the row's
    region (and that series has a price in the model year), or a fuel of
    [tech_fuel_map] priced by the user, prefixed by the row's region when
    the user prices it by region. *)
Theorem fuel_labels_are_configured
        (df out : list generator) :
  add_fuel_labels_without_ccs df fuel_prices s = Ok out ->
  shape out = shape df
  /\ forall r, In r out ->
       exists name,
         Fuel r = Some name
         /\ (name = "None"
             \/ aeo_label s fuel_prices (region r) name
             \/ user_label s (region r) name).
Proof.
  unfold add_fuel_labels_without_ccs, add_fuel_labels. intro H.
  destruct (for_each _ (items_or_empty (tech_fuel_map s)) _) as [df'|] eqn:E;
    [|discriminate].
  cbn [bind] in H. injection H as <-.
  assert (Hinv : inv (shape df) df').
  { revert E. apply for_each_invariant.
    - intros x s1 s2 Hx Hs1 Hb. exact (label_tech_fuel_inv _ x s1 s2 Hx Hs1 Hb).
    - split; [|intros r name Hr Hname].
      + unfold shape. rewrite map_map. reflexivity.
      + apply in_map_iff in Hr. destruct Hr as [r0 [<- _]]. discriminate. }
  destruct Hinv as [Hshape Hconf]. split.
  - unfold fill_none. now rewrite shape_set_fuel.
  - intros r' Hr'. unfold fill_none, set_fuel in Hr'.
    apply in_map_iff in Hr'. destruct Hr' as [r [<- Hr]].
    unfold fuel_isna. destruct (Fuel r) as [name|] eqn:En.
    + exists name. split; [exact En|]. right. now apply (Hconf r).
    + exists "None". split; [reflexivity | now left].
Qed.

End Labels.

Lemma fuel_labels_are_configured_witness :
  exists out,
    add_fuel_labels_without_ccs (fun x => x) (fun x => x) (fun _ _ => false)
                                (fun x => x) sample_generators
                                sample_fuel_prices sample_settings = Ok out
    /\ shape out = shape sample_generators
    /\ forall r, In r out ->
         exists name,
           Fuel r = Some name
           /\ (name = "None"
               \/ aeo_label sample_settings sample_fuel_prices (region r) name
               \/ user_label sample_settings (region r) name).
Proof.
  eexists. split; [reflexivity|].
  exact (fuel_labels_are_configured
           (fun x => x) (fun x => x) (fun _ _ => false) (fun x => x)
           sample_settings sample_fuel_prices sample_generators _ eq_refl).
Defined.

End FuelLabelFacts.

(** ** Startup costs and the settings they rewrite
    ([startup_nonfuel_costs]) *)

Module StartupCosts.

Record resource := {
  technology : string;
  Start_Cost_per_MW : Q
}.

(** The settings read.  [cost_tables] holds the settings whose values are
    dictionaries of costs by cost technology, under their keys; the function
    looks two of them up, [startup_vom_costs_mw] and the one named by
    [startup_costs_type], and rewrites them in place. *)
Record settings := {
  target_usd_year : option Z;
  startup_vom_costs_usd_year : option Z;
  startup_costs_per_cold_start_usd_year : option Z;
  startup_costs_type : option string;
  cost_tables : list (string * list (string * Q));
  existing_startup_costs_tech_map : list (string * string);
  new_build_startup_costs : list (string * string)
}.

Definition lookup {V : Type} (k : string) (d : list (string * V)) : option V :=
  option_map snd (find (fun e => String.eqb (fst e) k) d).

(** [settings.get(key, {})]. *)
Definition get_table (key : option string)
           (tables : list (string * list (string * Q)))
  : list (string * Q) :=
  match key with
  | Some k => match lookup k tables with Some t => t | None => [] end
  | None => []
  end.

(** The dictionary under [key] rewritten in place; a dictionary that
    [settings.get] made up for a missing key is not part of the settings. *)
Definition update_table (key : option string)
           (f : list (string * Q) -> list (string * Q))
           (tables : list (string * list (string * Q)))
  : list (string * list (string * Q)) :=
  match key with
  | Some k => map (fun e => if String.eqb (fst e) k then (fst e, f (snd e))
                            else e) tables
  | None => tables
  end.

Definition set_cost_tables (s : settings)
           (tables : list (string * list (string * Q))) : settings :=
  {| target_usd_year := target_usd_year s;
     startup_vom_costs_usd_year := startup_vom_costs_usd_year s;
     startup_costs_per_cold_start_usd_year :=
       startup_costs_per_cold_start_usd_year s;
     startup_costs_type := startup_costs_type s;
     cost_tables := tables;
     existing_startup_costs_tech_map := existing_startup_costs_tech_map s;
     new_build_startup_costs := new_build_startup_costs s |}.

(** The truth value of a year of the settings. *)
Definition truthy (y : option Z) : bool :=
  match y with
  | Some v => negb (v =? 0)%Z
  | None => false
  end.

Definition year_of (y : option Z) : Z :=
  match y with Some v => v | None => 0%Z end.

Definition set_cost (mask : resource -> bool) (v : Q) (df : list resource)
  : list resource :=
  map (fun r => if mask r
                then {| technology := technology r; Start_Cost_per_MW := v |}
                else r) df.

Definition vom_key : option string := Some "startup_vom_costs_mw".

Section Adjustment.

(** [powergenome.price_adjustment.inflation_price_adjustment] and pandas'
    [str.contains] (pattern first), without and with case. *)
Variable inflation_price_adjustment : Q -> Z -> Z -> Q.
Variable str_contains_nocase : string -> string -> bool.
Variable str_contains : string -> string -> bool.

(** [for key, cost in costs.items(): costs[key] = inflation_price_adjustment(
    price=cost, base_year=..., target_year=...)]. *)
Definition adjust (base_year target_year : Z) (costs : list (string * Q))
  : list (string * Q) :=
  map (fun kc => (fst kc,
                  inflation_price_adjustment (snd kc) base_year target_year))
      costs.

(** One turn of either loop over a technology map. *)
Definition assign_cost (contains : string -> string -> bool)
           (vom_costs startup_costs : list (string * Q))
           (entry : string * string) (df : list resource)
  : result (list resource) :=
  match lookup (snd entry) vom_costs, lookup (snd entry) startup_costs with
  | Some v, Some c =>
      Ok (set_cost (fun r => contains (fst entry) (technology r)) (v + c) df)
  | _, _ => Raise (KeyError (snd entry))
  end.

(** The function from [df["Start_Cost_per_MW"] = 0] on. *)
Definition assign_costs (vom_costs startup_costs : list (string * Q))
           (s : settings) (df : list resource) : result (list resource) :=
  let df := set_cost (fun _ => true) 0 df in
  df <- for_each (assign_cost str_contains_nocase vom_costs startup_costs)
                 (existing_startup_costs_tech_map s) df ;;
  for_each (assign_cost str_contains vom_costs startup_costs)
           (new_build_startup_costs s) df.

(** [startup_nonfuel_costs]: the table it returns (or the exception) and the
    settings as it leaves them. *)
Definition startup_nonfuel_costs (df : list resource) (s : settings)
  : result (list resource) * settings :=
  let target := target_usd_year s in
  let tables := cost_tables s in
  let tables :=
    if truthy target && truthy (startup_vom_costs_usd_year s)
    then update_table vom_key
                      (adjust (year_of (startup_vom_costs_usd_year s))
                              (year_of target))
                      tables
    else tables in
  let startup_type := startup_costs_type s in
  let tables :=
    if truthy target && truthy (startup_costs_per_cold_start_usd_year s)
    then update_table startup_type
                      (adjust
                         (year_of (startup_costs_per_cold_start_usd_year s))
                         (year_of target))
                      tables
    else tables in
  let vom_costs := get_table vom_key tables in
  let startup_costs := get_table startup_type tables in
  (assign_costs vom_costs startup_costs s df, set_cost_tables s tables).

(** [create_all_generators] with existing generators: the function runs on
    the existing resources and then, with the same settings object, on the
    new ones. *)
Definition both_runs (existing new : list resource) (s : settings)
  : result (list resource) * result (list resource) * settings :=
  let (existing_resources, s) := startup_nonfuel_costs existing s in
  let (new_resources, s) := startup_nonfuel_costs new s in
  (existing_resources, new_resources, s).

End Adjustment.

Definition sample_settings : settings :=
  {| target_usd_year := Some 2020%Z;
     startup_vom_costs_usd_year := Some 2011%Z;
     startup_costs_per_cold_start_usd_year := Some 2011%Z;
     startup_costs_type := Some "startup_costs_per_cold_start_mw";
     cost_tables :=
       [("startup_vom_costs_mw", [("gas_cc", 1 # 1)]);
        ("startup_costs_per_cold_start_mw", [("gas_cc", 100 # 1)])];
     existing_startup_costs_tech_map :=
       [("Natural Gas Fired Combined Cycle", "gas_cc")];
     new_build_startup_costs := [("NaturalGas_CC", "gas_cc")] |}.

(** A stand-in for the inflation adjustment: ten percent. *)
Definition sample_adjustment (price : Q) (base target : Z) : Q :=
  price * (11 # 10).

Definition sample_existing : list resource :=
  [ {| technology := "Natural Gas Fired Combined Cycle";
       Start_Cost_per_MW := 0 |} ].

Definition sample_new : list resource :=
  [ {| technology := "NaturalGas_CC"; Start_Cost_per_MW := 0 |} ].

Lemma lookup_update_same (k : string)
      (f : list (string * Q) -> list (string * Q))
      (tables : list (string * list (string * Q))) :
  lookup k (update_table (Some k) f tables) = option_map f (lookup k tables).
Proof.
  unfold lookup, update_table.
  induction tables as [|e tables IH]; simpl; [reflexivity|].
  destruct (String.eqb (fst e) k) eqn:E; simpl; rewrite E; simpl;
    [reflexivity | exact IH].
Qed.

Lemma lookup_update_other (k k' : string)
      (f : list (string * Q) -> list (string * Q))
      (tables : list (string * list (string * Q))) :
  k' <> k ->
  lookup k (update_table (Some k') f tables) = lookup k tables.
Proof.
  intro Hne. unfold lookup, update_table.
  induction tables as [|e tables IH]; simpl; [reflexivity|].
  destruct (String.eqb (fst e) k') eqn:E; simpl.
  - apply String.eqb_eq in E.
    assert (E' : String.eqb (fst e) k = false)
      by (apply String.eqb_neq; congruence).
    rewrite E'. exact IH.
  - destruct (String.eqb (fst e) k); [reflexivity | exact IH].
Qed.

Section Twice.

Variable inflation_price_adjustment : Q -> Z -> Z -> Q.
Variable str_contains_nocase : string -> string -> bool.
Variable str_contains : string -> string -> bool.

Lemma get_table_update_same (k : string) (base target : Z)
      (tables : list (string * list (string * Q))) :
  get_table (Some k)
            (update_table (Some k)
                          (adjust inflation_price_adjustment base target)
                          tables)
  = adjust inflation_price_adjustment base target
           (get_table (Some k) tables).
Proof.
  unfold get_table. rewrite lookup_update_same.
  now destruct (lookup k tables).
Qed.

Lemma get_table_update_other (k k' : string)
      (f : list (string * Q) -> list (string * Q))
      (tables : list (string * list (string * Q))) :
  k' <> k ->
  get_table (Some k) (update_table (Some k') f tables)
  = get_table (Some k) tables.
Proof.
  intro Hne. unfold get_table. now rewrite lookup_update_other.
Qed.

Lemma lookup_adjust (base target : Z) (costs : list (string * Q))
      (tech : string) :
  lookup tech (adjust inflation_price_adjustment base target costs)
  = option_map (fun c => inflation_price_adjustment c base target)
               (lookup tech costs).
Proof.
  unfold lookup, adjust.
  induction costs as [|e costs IH]; simpl; [reflexivity|].
  destruct (String.eqb (fst e) tech); [reflexivity | exact IH].
Qed.

(** One run, when both adjustments apply and the two dictionaries are
    different settings. *)
Lemma startup_nonfuel_costs_adjusts (df : list resource) (s : settings)
      (k : string) :
  truthy (target_usd_year s) = true ->
  truthy (startup_vom_costs_usd_year s) = true ->
  truthy (startup_costs_per_cold_start_usd_year s) = true ->
  startup_costs_type s = Some k ->
  k <> "startup_vom_costs_mw" ->
  let target := year_of (target_usd_year s) in
  let adjust_vom :=
    adjust inflation_price_adjustment
           (year_of (startup_vom_costs_usd_year s)) target in
  let adjust_startup :=
    adjust inflation_price_adjustment
           (year_of (startup_costs_per_cold_start_usd_year s)) target in
  exists tables,
    startup_nonfuel_costs inflation_price_adjustment str_contains_nocase
                          str_contains df s
    = (assign_costs str_contains_nocase str_contains
                    (adjust_vom (get_table vom_key (cost_tables s)))
                    (adjust_startup (get_table (Some k) (cost_tables s)))
                    s df,
       set_cost_tables s tables)
    /\ get_table vom_key tables
       = adjust_vom (get_table vom_key (cost_tables s))
    /\ get_table (Some k) tables
       = adjust_startup (get_table (Some k) (cost_tables s)).
Proof.
  intros Ht Hv Hc Hk Hne. simpl.
  unfold startup_nonfuel_costs. rewrite Ht, Hv, Hc, Hk. cbn [andb].
  set (t1 := update_table
               vom_key
               (adjust inflation_price_adjustment
                       (year_of (startup_vom_costs_usd_year s))
                       (year_of (target_usd_year s)))
               (cost_tables s)).
  set (t2 := update_table
               (Some k)
               (adjust inflation_price_adjustment
                       (year_of (startup_costs_per_cold_start_usd_year s))
                       (year_of (target_usd_year s)))
               t1).
  assert (Hvom : get_table vom_key t2
                 = adjust inflation_price_adjustment
                          (year_of (startup_vom_costs_usd_year s))
                          (year_of (target_usd_year s))
                          (get_table vom_key (cost_tables s))).
  { unfold t2, t1, vom_key.
    rewrite get_table_update_other by exact Hne.
    apply get_table_update_same. }
  assert (Hstartup : get_table (Some k) t2
                     = adjust inflation_price_adjustment
                              (year_of (startup_costs_per_cold_start_usd_year
                                          s))
                              (year_of (target_usd_year s))
                              (get_table (Some k) (cost_tables s))).
  { unfold t2, t1, vom_key. rewrite get_table_update_same.
    now rewrite get_table_update_other by congruence. }
  exists t2. rewrite Hvom, Hstartup. now repeat split.
Qed.

(** X20.  [startup_nonfuel_costs] writes the inflation-adjusted costs back
    into the settings, and [create_all_generators] calls it twice with the
    same settings: first for the existing resources, then for the new ones.
    So when a target dollar year and the two cost dollar years are set, the
    existing resources get startup costs adjusted once and the new resources
    get costs adjusted twice. *)
Theorem new_resources_startup_costs_adjusted_twice
        (existing new : list resource) (s : settings) (k : string) :
  truthy (target_usd_year s) = true ->
  truthy (startup_vom_costs_usd_year s) = true ->
  truthy (startup_costs_per_cold_start_usd_year s) = true ->
  startup_costs_type s = Some k ->
  k <> "startup_vom_costs_mw" ->
  let target := year_of (target_usd_year s) in
  let vom_year := year_of (startup_vom_costs_usd_year s) in
  let startup_year := year_of (startup_costs_per_cold_start_usd_year s) in
  let adjust_vom := adjust inflation_price_adjustment vom_year target in
  let adjust_startup :=
    adjust inflation_price_adjustment startup_year target in
  let vom_costs := get_table vom_key (cost_tables s) in
  let startup_costs := get_table (Some k) (cost_tables s) in
  let runs := both_runs inflation_price_adjustment str_contains_nocase
                        str_contains existing new s in
  fst (fst runs)
  = assign_costs str_contains_nocase str_contains
                 (adjust_vom vom_costs) (adjust_startup startup_costs)
                 s existing
  /\ snd (fst runs)
     = assign_costs str_contains_nocase str_contains
                    (adjust_vom (adjust_vom vom_costs))
                    (adjust_startup (adjust_startup startup_costs))
                    s new
  /\ forall tech v c,
       lookup tech vom_costs = Some v ->
       lookup tech startup_costs = Some c ->
       lookup tech (adjust_vom (adjust_vom vom_costs))
       = Some (inflation_price_adjustment
                 (inflation_price_adjustment v vom_year target)
                 vom_year target)
       /\ lookup tech (adjust_startup (adjust_startup startup_costs))
          = Some (inflation_price_adjustment
                    (inflation_price_adjustment c startup_year target)
                    startup_year target).
Proof.
  intros Ht Hv Hc Hk Hne. cbv zeta. unfold both_runs.
  pose proof (startup_nonfuel_costs_adjusts existing s k Ht Hv Hc Hk Hne)
    as H1.
  cbv zeta in H1. destruct H1 as (tables & -> & Hvom & Hstartup).
  pose proof (startup_nonfuel_costs_adjusts
                new (set_cost_tables s tables) k Ht Hv Hc Hk Hne) as H2.
  cbv zeta in H2. destruct H2 as (tables' & -> & _ & _).
  cbn [fst snd set_cost_tables cost_tables target_usd_year
       startup_vom_costs_usd_year startup_costs_per_cold_start_usd_year].
  rewrite Hvom, Hstartup.
  split; [reflexivity|]. split; [reflexivity|].
  intros tech v c Hlv Hlc. rewrite !lookup_adjust, Hlv, Hlc. now split.
Qed.

End Twice.

Lemma new_resources_startup_costs_adjusted_twice_witness :
  both_runs sample_adjustment String.eqb String.eqb
            sample_existing sample_new sample_settings
  = (Ok [ {| technology := "Natural Gas Fired Combined Cycle";
             Start_Cost_per_MW
             := (1 # 1) * (11 # 10) + (100 # 1) * (11 # 10) |} ],
     Ok [ {| technology := "NaturalGas_CC";
             Start_Cost_per_MW
             := (1 # 1) * (11 # 10) * (11 # 10)
                + (100 # 1) * (11 # 10) * (11 # 10) |} ],
     snd (both_runs sample_adjustment String.eqb String.eqb
                    sample_existing sample_new sample_settings)).
Proof.
  destruct (new_resources_startup_costs_adjusted_twice
              sample_adjustment String.eqb String.eqb
              sample_existing sample_new sample_settings
              "startup_costs_per_cold_start_mw"
              eq_refl eq_refl eq_refl eq_refl)
    as (Hexisting & Hnew & _).
  - discriminate.
  - destruct (both_runs sample_adjustment String.eqb String.eqb
                        sample_existing sample_new sample_settings)
      as [[r1 r2] s2].
    cbn [fst snd] in *. rewrite Hexisting, Hnew. reflexivity.
Defined.

End StartupCosts.

(** ** Startup fuel and the settings it rewrites ([startup_fuel]) *)

Module StartupFuel.

Record resource := {
  technology : string;
  Start_fuel_MMBTU_per_MW : Q
}.

(** An entry of [eia_atb_tech_map]: one ATB technology or a list. *)
Inductive atb_entry : Type :=
| One (tech : string)
| Many (techs : list string).

Definition as_list (e : atb_entry) : list string :=
  match e with
  | One tech => [tech]
  | Many techs => techs
  end.

(** The settings read; [eia_atb_tech_map] can be missing. *)
Record settings := {
  startup_fuel_use : list (string * Q);
  eia_atb_tech_map : option (list (string * atb_entry))
}.

Definition set_entry (k : string) (e : atb_entry)
           (m : list (string * atb_entry)) : list (string * atb_entry) :=
  map (fun x => if String.eqb (fst x) k then (fst x, e) else x) m.

Definition set_fuel_use (mask : resource -> bool) (v : Q)
           (df : list resource) : list resource :=
  map (fun r => if mask r
                then {| technology := technology r;
                        Start_fuel_MMBTU_per_MW := v |}
                else r) df.

Section Contains.

(** [Series.str.contains(pat, case=False)], pattern first. *)
Variable str_contains_nocase : string -> string -> bool.

(** The inner loop [for tech in atb_tech]. *)
Definition assign_fuel_use (atb_tech : list string) (fuel_use : Q)
           (df : list resource) : list resource :=
  fold_left
    (fun df tech =>
       let df := set_fuel_use
                   (fun r => String.eqb (technology r) tech) fuel_use df in
       set_fuel_use (fun r => str_contains_nocase tech (technology r))
                    fuel_use df)
    atb_tech df.

(** The loop over [startup_fuel_use]: the table, or the exception that
    stopped the loop, and the technology map as the loop leaves it. *)
Fixpoint startup_fuel_loop (entries : list (string * Q))
         (df : list resource) (m : option (list (string * atb_entry)))
  : result (list resource) * option (list (string * atb_entry)) :=
  match entries with
  | [] => (Ok df, m)
  | (eia_tech, fuel_use) :: rest =>
      match m with
      | None => (Raise (KeyError "eia_atb_tech_map"), m)
      | Some tech_map =>
          match StartupCosts.lookup eia_tech tech_map with
          | None => (Raise (KeyError eia_tech), m)
          | Some e =>
              let atb_tech := as_list e ++ [eia_tech] in
              let tech_map := set_entry eia_tech (Many atb_tech) tech_map in
              startup_fuel_loop rest
                                (assign_fuel_use atb_tech fuel_use df)
                                (Some tech_map)
          end
      end
  end.

(** [startup_fuel]: what it returns and the settings as it leaves them. *)
Definition startup_fuel (df : list resource) (s : settings)
  : result (list resource) * settings :=
  let df := set_fuel_use (fun _ => true) 0 df in
  let (df, m) := startup_fuel_loop (startup_fuel_use s) df
                                   (eia_atb_tech_map s) in
  (df, {| startup_fuel_use := startup_fuel_use s; eia_atb_tech_map := m |}).

(** A technology name matches one of the ATB technologies. *)
Definition matches (atb_tech : list string) (r : resource) : bool :=
  existsb (fun tech => String.eqb (technology r) tech
                       || str_contains_nocase tech (technology r))
          atb_tech.

(** Two technology maps list the same technologies once each key's own
    name is added. *)
Definition same_techs (m1 m2 : list (string * atb_entry)) : Prop :=
  forall k,
    match StartupCosts.lookup k m1, StartupCosts.lookup k m2 with
    | Some e1, Some e2 =>
        forall x, In x (as_list e1 ++ [k]) <-> In x (as_list e2 ++ [k])
    | None, None => True
    | _, _ => False
    end.

End Contains.

Definition sample_settings : settings :=
  {| startup_fuel_use := [("Natural Gas Fired Combined Cycle", 2 # 1)];
     eia_atb_tech_map :=
       Some [("Natural Gas Fired Combined Cycle", One "NaturalGas_CC")] |}.

Definition sample_resources : list resource :=
  [ {| technology := "NaturalGas_CC"; Start_fuel_MMBTU_per_MW := 9 # 1 |};
    {| technology := "Onshore Wind Turbine";
       Start_fuel_MMBTU_per_MW := 9 # 1 |} ].

Lemma lookup_set_entry_same (k : string) (e e0 : atb_entry)
      (m : list (string * atb_entry)) :
  StartupCosts.lookup k m = Some e0 ->
  StartupCosts.lookup k (set_entry k e m) = Some e.
Proof.
  unfold StartupCosts.lookup, set_entry.
  induction m as [|x m IH]; simpl; [discriminate|].
  destruct (String.eqb (fst x) k) eqn:E; simpl; rewrite E; simpl;
    [reflexivity | exact IH].
Qed.

Lemma lookup_set_entry_other (k k' : string) (e : atb_entry)
      (m : list (string * atb_entry)) :
  k' <> k ->
  StartupCosts.lookup k (set_entry k' e m) = StartupCosts.lookup k m.
Proof.
  intro Hne. unfold StartupCosts.lookup, set_entry.
  induction m as [|x m IH]; simpl; [reflexivity|].
  destruct (String.eqb (fst x) k') eqn:E; simpl.
  - apply String.eqb_eq in E.
    assert (E' : String.eqb (fst x) k = false)
      by (apply String.eqb_neq; congruence).
    rewrite E'. exact IH.
  - destruct (String.eqb (fst x) k); [reflexivity | exact IH].
Qed.

Section Runs.

Variable str_contains_nocase : string -> string -> bool.

(** The inner loop gives the fuel use to the rows that match one of the
    technologies. *)
Lemma assign_fuel_use_rows (atb_tech : list string) (fuel_use : Q)
      (df : list resource) :
  assign_fuel_use str_contains_nocase atb_tech fuel_use df
  = set_fuel_use (matches str_contains_nocase atb_tech) fuel_use df.
Proof.
  unfold assign_fuel_use, matches. revert df.
  induction atb_tech as [|tech l IH]; intro df; simpl.
  - unfold set_fuel_use. symmetry. apply map_id.
  - rewrite IH. unfold set_fuel_use. rewrite !map_map. apply map_ext.
    intro r.
    destruct (String.eqb (technology r) tech) eqn:E1; simpl.
    + rewrite Tauto.if_same.
      now destruct (existsb _ l).
    + destruct (str_contains_nocase tech (technology r)) eqn:E2; simpl.
      * now destruct (existsb _ l).
      * reflexivity.
Qed.

Lemma matches_ext (l1 l2 : list string) (r : resource) :
  (forall x, In x l1 <-> In x l2) ->
  matches str_contains_nocase l1 r = matches str_contains_nocase l2 r.
Proof.
  intro H. unfold matches.
  destruct (existsb _ l2) eqn:E2.
  - apply existsb_exists in E2. destruct E2 as [x [Hx Hm]].
    apply existsb_exists. exists x. split; [now apply H | exact Hm].
  - destruct (existsb _ l1) eqn:E1; [|reflexivity].
    apply existsb_exists in E1. destruct E1 as [x [Hx Hm]].
    assert (existsb (fun tech => String.eqb (technology r) tech
                                 || str_contains_nocase tech (technology r))
                    l2 = true)
      by (apply existsb_exists; exists x; split; [now apply H | exact Hm]).
    congruence.
Qed.

Lemma same_techs_refl (m : list (string * atb_entry)) : same_techs m m.
Proof. intro k. now destruct (StartupCosts.lookup k m). Qed.

Lemma same_techs_trans (m1 m2 m3 : list (string * atb_entry)) :
  same_techs m1 m2 -> same_techs m2 m3 -> same_techs m1 m3.
Proof.
  intros H12 H23 k. specialize (H12 k). specialize (H23 k).
  destruct (StartupCosts.lookup k m1), (StartupCosts.lookup k m2),
    (StartupCosts.lookup k m3); try tauto.
  intro x. rewrite H12. apply H23.
Qed.

(** Appending a key's own name to its entry keeps the technologies. *)
Lemma same_techs_append (m : list (string * atb_entry)) (k : string)
      (e : atb_entry) :
  StartupCosts.lookup k m = Some e ->
  same_techs m (set_entry k (Many (as_list e ++ [k])) m).
Proof.
  intros Hk k'. destruct (string_dec k k') as [<- | Hne].
  - rewrite Hk, (lookup_set_entry_same k _ e m Hk). simpl.
    intro x. rewrite !in_app_iff. simpl. tauto.
  - rewrite lookup_set_entry_other by exact Hne.
    now destruct (StartupCosts.lookup k' m).
Qed.

Lemma same_techs_step (m1 m2 : list (string * atb_entry)) (k : string)
      (e1 e2 : atb_entry) :
  same_techs m1 m2 ->
  StartupCosts.lookup k m1 = Some e1 ->
  StartupCosts.lookup k m2 = Some e2 ->
  same_techs (set_entry k (Many (as_list e1 ++ [k])) m1)
             (set_entry k (Many (as_list e2 ++ [k])) m2).
Proof.
  intros H H1 H2.
  apply (same_techs_trans _ m1).
  - intro k'. pose proof (same_techs_append m1 k e1 H1 k') as Ha.
    destruct (StartupCosts.lookup k' m1),
      (StartupCosts.lookup k' (set_entry k (Many (as_list e1 ++ [k])) m1));
      try tauto.
    intro x. symmetry. apply Ha.
  - apply (same_techs_trans _ m2); [exact H|].
    now apply same_techs_append.
Qed.

(** The loop leaves a map with the same technologies, and from maps with
    the same technologies it returns the same table or exception. *)
Lemma startup_fuel_loop_same (entries : list (string * Q))
      (df : list resource) (m1 m2 : list (string * atb_entry)) :
  same_techs m1 m2 ->
  fst (startup_fuel_loop str_contains_nocase entries df (Some m1))
  = fst (startup_fuel_loop str_contains_nocase entries df (Some m2))
  /\ exists m1' m2',
       snd (startup_fuel_loop str_contains_nocase entries df (Some m1))
       = Some m1'
       /\ snd (startup_fuel_loop str_contains_nocase entries df (Some m2))
          = Some m2'
       /\ same_techs m1' m2' /\ same_techs m1 m1'.
Proof.
  revert df m1 m2. induction entries as [|[k fuel_use] entries IH];
    intros df m1 m2 H; simpl.
  - split; [reflexivity|]. exists m1, m2.
    repeat split; auto using same_techs_refl.
  - pose proof (H k) as Hk.
    destruct (StartupCosts.lookup k m1) as [e1|] eqn:E1;
      destruct (StartupCosts.lookup k m2) as [e2|] eqn:E2; try contradiction.
    + rewrite !assign_fuel_use_rows.
      assert (Hdf : set_fuel_use
                      (matches str_contains_nocase (as_list e1 ++ [k]))
                      fuel_use df
                    = set_fuel_use
                        (matches str_contains_nocase (as_list e2 ++ [k]))
                        fuel_use df).
      { unfold set_fuel_use. apply map_ext. intro r.
        now rewrite (matches_ext _ _ r Hk). }
      rewrite Hdf.
      destruct (IH (set_fuel_use
                      (matches str_contains_nocase (as_list e2 ++ [k]))
                      fuel_use df)
                   _ _ (same_techs_step m1 m2 k e1 e2 H E1 E2))
        as (Hfst & m1' & m2' & H1 & H2 & H12 & H11).
      split; [exact Hfst|]. exists m1', m2'.
      repeat split; auto.
      apply (same_techs_trans _ _ _ (same_techs_append m1 k e1 E1) H11).
    + split; [reflexivity|]. exists m1, m2.
      repeat split; auto using same_techs_refl.
Qed.

Lemma startup_fuel_loop_lookup (entries : list (string * Q)) :
  forall (df r : list resource) (m : list (string * atb_entry))
         (m' : option (list (string * atb_entry))),
    NoDup (map fst entries) ->
    startup_fuel_loop str_contains_nocase entries df (Some m) = (Ok r, m') ->
    exists tech_map,
      m' = Some tech_map
      /\ (forall k, In k (map fst entries) ->
                    exists e, StartupCosts.lookup k m = Some e
                              /\ StartupCosts.lookup k tech_map
                                 = Some (Many (as_list e ++ [k])))
      /\ (forall k, ~ In k (map fst entries) ->
                    StartupCosts.lookup k tech_map = StartupCosts.lookup k m).
Proof.
  induction entries as [|[k0 fuel_use] entries IH];
    intros df r m m' Hnd H; simpl in H.
  - injection H as _ <-. exists m. split; [reflexivity|].
    split; [intros k [] | reflexivity].
  - destruct (StartupCosts.lookup k0 m) as [e0|] eqn:E0; [|discriminate].
    simpl in Hnd. apply NoDup_cons_iff in Hnd. destruct Hnd as [Hk0 Hnd].
    destruct (IH _ _ _ _ Hnd H) as (tm & -> & Hin & Hout).
    exists tm. split; [reflexivity|]. split.
    + intros k Hk. simpl in Hk. destruct Hk as [<- | Hk].
      * exists e0. split; [exact E0|].
        rewrite (Hout k0 Hk0). apply (lookup_set_entry_same _ _ e0 _ E0).
      * destruct (Hin k Hk) as [e [He Htm]].
        assert (Hne : k0 <> k) by (intros ->; contradiction).
        rewrite lookup_set_entry_other in He by exact Hne.
        exists e. now split.
    + intros k Hk. simpl in Hk. rewrite (Hout k) by tauto.
      apply lookup_set_entry_other. tauto.
Qed.

(** X21.  [startup_fuel] rewrites the settings: it appends each
    technology's own name to that technology's entry of [eia_atb_tech_map],
    every time it runs.  The table it returns does not depend on that: run
    again on the settings it left, it returns the same table. *)
Theorem startup_fuel_rewrites_settings
        (df df1 : list resource) (s s1 : settings) :
  startup_fuel str_contains_nocase df s = (Ok df1, s1) ->
  fst (startup_fuel str_contains_nocase df s1) = Ok df1
  /\ startup_fuel_use s1 = startup_fuel_use s
  /\ (NoDup (map fst (startup_fuel_use s)) ->
      forall k, In k (map fst (startup_fuel_use s)) ->
        exists tech_map tech_map1 e,
          eia_atb_tech_map s = Some tech_map
          /\ eia_atb_tech_map s1 = Some tech_map1
          /\ StartupCosts.lookup k tech_map = Some e
          /\ StartupCosts.lookup k tech_map1
             = Some (Many (as_list e ++ [k]))).
Proof.
  unfold startup_fuel. intro H.
  set (df0 := set_fuel_use (fun _ => true) 0 df) in *.
  destruct (startup_fuel_loop str_contains_nocase (startup_fuel_use s) df0
                              (eia_atb_tech_map s)) as [r m1] eqn:E.
  injection H as -> <-. cbn [startup_fuel_use eia_atb_tech_map].
  destruct (eia_atb_tech_map s) as [m|] eqn:Em.
  - destruct (startup_fuel_loop_same (startup_fuel_use s) df0 m m
                                     (same_techs_refl m))
      as (_ & m1' & _ & H1 & _ & _ & Hsame).
    rewrite E in H1. simpl in H1. subst m1.
    destruct (startup_fuel_loop_same (startup_fuel_use s) df0 m m1' Hsame)
      as (Hfst & _).
    rewrite E in Hfst. simpl in Hfst.
    split; [|split; [reflexivity|]].
    + destruct (startup_fuel_loop str_contains_nocase (startup_fuel_use s)
                                  df0 (Some m1')) as [r' m2].
      simpl in *. now symmetry.
    + intros Hnd k Hk.
      destruct (startup_fuel_loop_lookup _ _ _ _ _ Hnd E)
        as (tm & Htm & Hin & _).
      injection Htm as <-.
      destruct (Hin k Hk) as [e [He Hl]].
      exists m, m1', e. now repeat split.
  - destruct (startup_fuel_use s) as [|[k0 f0] rest] eqn:Eu.
    + simpl in E. injection E as <- <-. simpl.
      split; [reflexivity|]. split; [reflexivity|]. intros _ k [].
    + simpl in E. discriminate.
Qed.

End Runs.

Lemma startup_fuel_rewrites_settings_witness :
  exists df1 s1,
    startup_fuel String.eqb sample_resources sample_settings = (Ok df1, s1)
    /\ fst (startup_fuel String.eqb sample_resources s1) = Ok df1
    /\ eia_atb_tech_map s1
       = Some [("Natural Gas Fired Combined Cycle",
                Many ["NaturalGas_CC"; "Natural Gas Fired Combined Cycle"])].
Proof.
  eexists. eexists. split; [reflexivity|].
  split; [|reflexivity].
  exact (proj1 (startup_fuel_rewrites_settings
                  String.eqb sample_resources _ sample_settings _ eq_refl)).
Defined.

End StartupFuel.

(** ** Cluster counts that are not positive *)

Module ClusterCounts.

Import Clustering.

(** The region, technology and units of a group of the loop. *)
Definition group_region (g : string * string * list unit_group) : string :=
  fst (fst g).

Definition group_tech (g : string * string * list unit_group) : string :=
  snd (fst g).

(** No group is clustered by owner. *)
Definition default_method (alt_cluster_method : list (string * list string))
           (groups : list (string * string * list unit_group)) : Prop :=
  forall g, In g groups ->
            uses_alt_method alt_cluster_method (group_region g) (group_tech g)
            = false.

Definition sample_inputs (k : Z) : Pipeline.inputs :=
  {| Pipeline.alt_cluster_method := [];
     Pipeline.num_clusters := fun _ _ => k;
     Pipeline.region_tech_grouped :=
       [("WECC", "Conventional Steam Coal", sample_grouped)];
     Pipeline.settings :=
       {| Resources.capacity_factor_techs_is_list := false;
          Resources.derate_capacity := false;
          Resources.derate_techs := None |};
     Pipeline.capacity_factors := [];
     Pipeline.new_resources := [];
     Pipeline.is_vre := fun _ => false |}.

Section Loop.

Variable Entropy : Type.
Variable KMeans_labels :
  option Z -> Z -> list (list (option Q)) -> Entropy
  -> result (list nat) * Entropy.

Lemma assign_clusters_not_positive
      (alt : list (string * list string)) (region tech : string)
      (grouped : list unit_group) (k : Z) (e : Entropy) :
  uses_alt_method alt region tech = false -> (k <= 0)%Z ->
  assign_clusters Entropy KMeans_labels alt region tech grouped k e
  = (Ok (k, Unclustered grouped), e).
Proof.
  intros Halt Hk. unfold assign_clusters.
  assert (Hgt : (k >? 0)%Z = false) by lia.
  destruct alt as [|a alt]; [now rewrite Hgt|].
  now rewrite Halt, Hgt.
Qed.

Lemma cluster_group_zero
      (alt : list (string * list string)) (region tech : string)
      (grouped : list unit_group) (st : loop_state) (e : Entropy) :
  uses_alt_method alt region tech = false ->
  num_clusters st region tech = 0%Z ->
  cluster_group Entropy KMeans_labels alt (region, tech, grouped) st e
  = (Ok {| num_clusters := set_num_clusters (num_clusters st) region tech 0;
           unit_list := unit_list st ++ [Unclustered grouped];
           cluster_list := cluster_list st |}, e).
Proof.
  intros Halt Hk. unfold cluster_group.
  rewrite assign_clusters_not_positive by (auto; lia).
  now rewrite Hk.
Qed.

Lemma cluster_group_negative
      (alt : list (string * list string)) (region tech : string)
      (grouped : list unit_group) (st : loop_state) (e : Entropy) :
  uses_alt_method alt region tech = false ->
  (num_clusters st region tech < 0)%Z ->
  cluster_group Entropy KMeans_labels alt (region, tech, grouped) st e
  = (Raise (KeyError "cluster"), e).
Proof.
  intros Halt Hk. unfold cluster_group.
  rewrite assign_clusters_not_positive by (auto; lia).
  assert (Hz : (num_clusters st region tech =? 0)%Z = false) by lia.
  now rewrite Hz.
Qed.

(** Groups with a count of zero pass through the loop without a cluster
    and without a call of k-means. *)
Lemma cluster_groups_zero (alt : list (string * list string))
      (groups : list (string * string * list unit_group)) :
  forall (st : loop_state) (e : Entropy),
    default_method alt groups ->
    (forall g, In g groups ->
               num_clusters st (group_region g) (group_tech g) = 0%Z) ->
    exists st',
      cluster_groups Entropy KMeans_labels alt groups st e = (Ok st', e)
      /\ cluster_list st' = cluster_list st
      /\ unit_list st'
         = unit_list st ++ map (fun g => Unclustered (snd g)) groups
      /\ forall r t, num_clusters st' r t = num_clusters st r t.
Proof.
  induction groups as [|[[region tech] grouped] groups IH];
    intros st e Halt Hzero.
  - exists st. simpl. rewrite app_nil_r. now repeat split.
  - cbn [cluster_groups].
    assert (Hk : num_clusters st region tech = 0%Z)
      by exact (Hzero (region, tech, grouped) (or_introl eq_refl)).
    rewrite cluster_group_zero;
      [|exact (Halt (region, tech, grouped) (or_introl eq_refl)) | exact Hk].
    set (st1 := {| num_clusters :=
                     set_num_clusters (num_clusters st) region tech 0;
                   unit_list := unit_list st ++ [Unclustered grouped];
                   cluster_list := cluster_list st |}).
    assert (Hsame : forall r t, num_clusters st1 r t = num_clusters st r t).
    { intros r t. simpl. unfold set_num_clusters.
      destruct (String.eqb r region && String.eqb t tech) eqn:E;
        [|reflexivity].
      apply andb_true_iff in E. destruct E as [Er Et].
      apply String.eqb_eq in Er, Et. subst. now rewrite Hk. }
    destruct (IH st1 e) as (st' & Hrun & Hcl & Hul & Hnc).
    + intros g Hg. apply Halt. now right.
    + intros g Hg. rewrite Hsame. apply Hzero. now right.
    + exists st'. split; [exact Hrun|]. split; [exact Hcl|]. split.
      * rewrite Hul. simpl. now rewrite <- app_assoc.
      * intros r t. now rewrite Hnc, Hsame.
Qed.

Lemma cluster_groups_app (alt : list (string * list string))
      (pre post : list (string * string * list unit_group))
      (st st1 : loop_state) (e e1 : Entropy) :
  cluster_groups Entropy KMeans_labels alt pre st e = (Ok st1, e1) ->
  cluster_groups Entropy KMeans_labels alt (pre ++ post) st e
  = cluster_groups Entropy KMeans_labels alt post st1 e1.
Proof.
  revert st e. induction pre as [|g pre IH]; intros st e H; simpl in *.
  - now injection H as <- <-.
  - destruct (cluster_group Entropy KMeans_labels alt g st e)
      as [[st'|err] e']; [now apply IH | discriminate].
Qed.

(** X22.  A cluster count of zero drops the technology: its units are
    kept aside and no cluster row is made, so when every group has a count
    of zero the run stops at [pd.concat] with [ValueError]; k-means is never
    called.  A negative count is not treated as zero: the first group with
    one, after groups with zero, stops the run with [KeyError: 'cluster']. *)
Theorem cluster_counts_not_positive (inp : Pipeline.inputs) (e : Entropy) :
  default_method (Pipeline.alt_cluster_method inp)
                 (Pipeline.region_tech_grouped inp) ->
  ((forall g, In g (Pipeline.region_tech_grouped inp) ->
              Pipeline.num_clusters inp (group_region g) (group_tech g)
              = 0%Z) ->
   Pipeline.create_region_technology_clusters Entropy KMeans_labels inp e
   = (Raise (ValueError "No objects to concatenate"), e))
  /\ (forall pre g post,
        Pipeline.region_tech_grouped inp = pre ++ g :: post ->
        (forall g', In g' pre ->
                    Pipeline.num_clusters inp (group_region g')
                                          (group_tech g') = 0%Z) ->
        (Pipeline.num_clusters inp (group_region g) (group_tech g) < 0)%Z ->
        Pipeline.create_region_technology_clusters Entropy KMeans_labels
                                                   inp e
        = (Raise (KeyError "cluster"), e)).
Proof.
  intro Halt. unfold Pipeline.create_region_technology_clusters,
                Pipeline.cluster_all.
  split.
  - intro Hzero.
    destruct (cluster_groups_zero _ _ (Pipeline.initial_state inp) e
                                  Halt Hzero)
      as (st' & -> & Hcl & _).
    simpl in Hcl. unfold Resources.finalize_clusters. now rewrite Hcl.
  - intros pre g post Hsplit Hzero Hneg. rewrite Hsplit in *.
    destruct (cluster_groups_zero
                (Pipeline.alt_cluster_method inp) pre
                (Pipeline.initial_state inp) e) as (st1 & Hrun & _ & _ & Hnc).
    + intros g' Hg'. apply Halt. apply in_or_app. now left.
    + exact Hzero.
    + rewrite (cluster_groups_app _ _ _ _ _ _ _ Hrun).
      destruct g as [[region tech] grouped]. cbn [cluster_groups].
      rewrite cluster_group_negative; [reflexivity | |].
      * apply (Halt (region, tech, grouped)). apply in_or_app.
        right. now left.
      * rewrite Hnc. exact Hneg.
Qed.

End Loop.

Lemma cluster_counts_not_positive_witness :
  Pipeline.create_region_technology_clusters
    nat KMeans_round_robin (sample_inputs 0) 0%nat
  = (Raise (ValueError "No objects to concatenate"), 0%nat)
  /\ Pipeline.create_region_technology_clusters
       nat KMeans_round_robin (sample_inputs (-1)) 0%nat
     = (Raise (KeyError "cluster"), 0%nat).
Proof.
  split.
  - apply (proj1 (cluster_counts_not_positive
                    nat KMeans_round_robin (sample_inputs 0) 0%nat
                    (fun g _ => eq_refl))).
    intros g Hg. reflexivity.
  - apply (proj2 (cluster_counts_not_positive
                    nat KMeans_round_robin (sample_inputs (-1)) 0%nat
                    (fun g _ => eq_refl))
                 [] ("WECC", "Conventional Steam Coal", sample_grouped) []
                 eq_refl).
    + intros g' [].
    + reflexivity.
Defined.

End ClusterCounts.

(** ** The cluster counts by region and technology
    ([create_region_technology_clusters], lines 2817-2830) *)

Module NumClusters.

(** The settings read: the counts by technology, the model regions, and the
    counts that replace them in some regions ([alt_num_clusters], empty when
    it is missing or null). *)
Record settings := {
  num_clusters : list (string * Z);
  model_regions : list string;
  alt_num_clusters : list (string * list (string * Z))
}.

Definition get {V : Type} (k : string) (d : list (string * V)) : option V :=
  StartupCosts.lookup k d.

(** [d[k] = v]. *)
Definition put {V : Type} (k : string) (v : V) (d : list (string * V))
  : list (string * V) :=
  if existsb (fun e => String.eqb (fst e) k) d
  then map (fun e => if String.eqb (fst e) k then (fst e, v) else e) d
  else d ++ [(k, v)].

(** [num_clusters[region] = settings["num_clusters"].copy()] for every
    model region. *)
Definition initial (s : settings) : list (string * list (string * Z)) :=
  fold_left (fun nc region => put region (num_clusters s) nc)
            (model_regions s) [].

(** [num_clusters[region][tech] = cluster_size]. *)
Definition set_count (override : string * string * Z)
           (nc : list (string * list (string * Z)))
  : result (list (string * list (string * Z))) :=
  let '(region, tech, cluster_size) := override in
  match get region nc with
  | Some counts => Ok (put region (put tech cluster_size counts) nc)
  | None => Raise (KeyError region)
  end.

(** The dictionary [num_clusters] of lines 2819-2830. *)
Definition build (s : settings)
  : result (list (string * list (string * Z))) :=
  for_each
    (fun entry nc =>
       for_each (fun item nc => set_count (fst entry, fst item, snd item) nc)
                (snd entry) nc)
    (alt_num_clusters s) (initial s).

(** [num_clusters[region][tech]]. *)
Definition count (nc : list (string * list (string * Z)))
           (region tech : string) : option Z :=
  match get region nc with
  | Some counts => get tech counts
  | None => None
  end.

(** The overrides in the order the two loops reach them. *)
Definition overrides (s : settings) : list (string * string * Z) :=
  flat_map (fun entry => map (fun item => (fst entry, fst item, snd item))
                             (snd entry))
           (alt_num_clusters s).

Definition names (region tech : string) (override : string * string * Z)
  : bool :=
  String.eqb (fst (fst override)) region
  && String.eqb (snd (fst override)) tech.

Definition sample_settings : settings :=
  {| num_clusters := [("Conventional Steam Coal", 3%Z);
                      ("Natural Gas Fired Combined Cycle", 2%Z)];
     model_regions := ["CA_N"; "CA_S"];
     alt_num_clusters := [("CA_N", [("Conventional Steam Coal", 1%Z)])] |}.

Lemma get_put_same {V : Type} (k : string) (v : V) (d : list (string * V)) :
  get k (put k v d) = Some v.
Proof.
  unfold get, put, StartupCosts.lookup.
  destruct (existsb (fun e => String.eqb (fst e) k) d) eqn:Ex.
  - induction d as [|e d IH]; simpl in *; [discriminate|].
    destruct (String.eqb (fst e) k) eqn:E; simpl; rewrite E; simpl;
      [reflexivity | now apply IH].
  - induction d as [|e d IH]; simpl in *.
    + now rewrite String.eqb_refl.
    + destruct (String.eqb (fst e) k) eqn:E; [discriminate|].
      now apply IH.
Qed.

Lemma get_put_other {V : Type} (k k' : string) (v : V)
      (d : list (string * V)) :
  k' <> k -> get k (put k' v d) = get k d.
Proof.
  intro Hne. unfold get, put, StartupCosts.lookup.
  assert (Hkk : String.eqb k' k = false) by now apply String.eqb_neq.
  destruct (existsb (fun e => String.eqb (fst e) k') d).
  - f_equal. induction d as [|e d IH]; simpl; [reflexivity|].
    destruct (String.eqb (fst e) k') eqn:E; simpl.
    + apply String.eqb_eq in E. rewrite E, Hkk. exact IH.
    + destruct (String.eqb (fst e) k); [reflexivity | exact IH].
  - f_equal. induction d as [|e d IH]; simpl.
    + now rewrite Hkk.
    + destruct (String.eqb (fst e) k); [reflexivity | exact IH].
Qed.

Lemma initial_get (s : settings) (region : string) :
  get region (initial s)
  = if existsb (String.eqb region) (model_regions s)
    then Some (num_clusters s) else None.
Proof.
  unfold initial.
  assert (H : forall nc,
             get region (fold_left (fun nc r => put r (num_clusters s) nc)
                                   (model_regions s) nc)
             = if existsb (String.eqb region) (model_regions s)
               then Some (num_clusters s) else get region nc).
  { induction (model_regions s) as [|r l IH]; intro nc; simpl;
      [reflexivity|].
    rewrite IH. destruct (existsb (String.eqb region) l);
      [now rewrite orb_true_r|].
    rewrite orb_false_r. destruct (String.eqb region r) eqn:E.
    - apply String.eqb_eq in E. subst. apply get_put_same.
    - apply get_put_other. apply String.eqb_neq in E. congruence. }
  rewrite H. now destruct (existsb _ _).
Qed.

Lemma build_flat (s : settings) :
  build s = for_each set_count (overrides s) (initial s).
Proof.
  unfold build, overrides. generalize (initial s).
  induction (alt_num_clusters s) as [|[region items] alt IH]; intro nc;
    [reflexivity|].
  cbn [for_each flat_map fst snd].
  assert (H : forall nc0 rest,
             for_each set_count
                      (map (fun item => (region, fst item, snd item)) items
                       ++ rest) nc0
             = (nc1 <- for_each (fun item nc => set_count
                                                  (region, fst item, snd item)
                                                  nc) items nc0 ;;
                for_each set_count rest nc1)).
  { induction items as [|item items IHi]; intros nc0 rest; [reflexivity|].
    cbn [map app for_each].
    destruct (set_count (region, fst item, snd item) nc0); cbn [bind];
      [apply IHi | reflexivity]. }
  rewrite H.
  destruct (for_each _ items nc); cbn [bind]; [apply IH | reflexivity].
Qed.

Lemma count_set_count (override : string * string * Z)
      (nc nc' : list (string * list (string * Z))) (region tech : string) :
  set_count override nc = Ok nc' ->
  get (fst (fst override)) nc <> None
  /\ (forall r, get r nc' = None <-> get r nc = None)
  /\ count nc' region tech
     = if names region tech override then Some (snd override)
       else count nc region tech.
Proof.
  destruct override as [[r t] size]. unfold set_count, names, count.
  cbn [fst snd]. destruct (get r nc) as [counts|] eqn:Er; [|discriminate].
  intro H. injection H as <-. split; [discriminate|]. split.
  - intro r'. destruct (string_dec r r') as [<- | Hne].
    + rewrite get_put_same, Er. split; discriminate.
    + now rewrite get_put_other.
  - destruct (String.eqb r region) eqn:E1.
    + apply String.eqb_eq in E1. subst region. rewrite get_put_same, Er.
      cbn [andb]. destruct (String.eqb t tech) eqn:E2.
      * apply String.eqb_eq in E2. subst. apply get_put_same.
      * apply get_put_other. apply String.eqb_neq in E2. exact E2.
    + cbn [andb]. rewrite get_put_other; [reflexivity|].
      apply String.eqb_neq in E1. exact E1.
Qed.

(** X23.  The cluster counts of a model region are the counts of
    [num_clusters], except where [alt_num_clusters] gives the region its own
    count for a technology (the last one given wins); a count given to one
    region changes no other region, and regions outside [model_regions] have
    no counts.  Building them fails, with [KeyError], exactly when
    [alt_num_clusters] gives a count to a region that is not a model
    region. *)
Theorem alt_num_clusters_override_one_region (s : settings) :
  (is_ok (build s) = true
   <-> forall override, In override (overrides s) ->
                        In (fst (fst override)) (model_regions s))
  /\ forall nc, build s = Ok nc ->
       forall region tech,
         count nc region tech
         = if existsb (String.eqb region) (model_regions s)
           then match RetirementYear.find_last (names region tech)
                                               (overrides s) with
                | Some override => Some (snd override)
                | None => get tech (num_clusters s)
                end
           else None.
Proof.
  rewrite build_flat.
  assert (Hregion : forall r, get r (initial s) <> None
                              <-> In r (model_regions s)).
  { intro r. rewrite initial_get.
    destruct (existsb (String.eqb r) (model_regions s)) eqn:E.
    - split; [|discriminate]. intros _. apply existsb_exists in E.
      destruct E as [x [Hx Hr]]. apply String.eqb_eq in Hr. now subst.
    - split; [congruence|]. intro H.
      assert (existsb (String.eqb r) (model_regions s) = true)
        by (apply existsb_exists; exists r; split;
            [exact H | apply String.eqb_refl]).
      congruence. }
  assert (Hrun : forall l,
             (forall o, In o l -> get (fst (fst o)) (initial s) <> None) ->
             exists nc,
               for_each set_count l (initial s) = Ok nc
               /\ (forall r, get r nc = None <-> get r (initial s) = None)
               /\ forall region tech,
                    count nc region tech
                    = match RetirementYear.find_last (names region tech) l with
                      | Some o => Some (snd o)
                      | None => count (initial s) region tech
                      end).
  { induction l as [|o l IH] using rev_ind; intro Hl.
    - exists (initial s). now repeat split.
    - destruct IH as (nc & Hnc & Hnone & Hcount).
      { intros o' Ho'. apply Hl. apply in_or_app. now left. }
      assert (Happ : for_each set_count (l ++ [o]) (initial s)
                     = set_count o nc).
      { clear - Hnc. revert Hnc. generalize (initial s).
        induction l as [|x l IHl]; intros nc0 H; simpl in *.
        - injection H as <-. now destruct (set_count o nc0).
        - destruct (set_count x nc0); simpl in *; [now apply IHl|].
          discriminate. }
      assert (Ho : get (fst (fst o)) nc <> None).
      { intro H. apply Hnone in H. revert H. apply Hl.
        apply in_or_app. right. now left. }
      destruct (set_count o nc) as [nc'|] eqn:Eo.
      + exists nc'. split; [exact Happ|]. split.
        * intro r.
          destruct (count_set_count o nc nc' r "" Eo) as (_ & H & _).
          rewrite H. apply Hnone.
        * intros region tech.
          destruct (count_set_count o nc nc' region tech Eo) as (_ & _ & H).
          rewrite H. unfold RetirementYear.find_last.
          rewrite rev_app_distr. simpl.
          destruct (names region tech o); [reflexivity|].
          apply Hcount.
      + exfalso. destruct o as [[r t] size]. unfold set_count in Eo.
        cbn [fst] in Ho. destruct (get r nc); [discriminate | congruence]. }
  split.
  - split.
    + intros Hok o Ho. apply Hregion.
      apply in_split in Ho. destruct Ho as (pre & post & Hsplit).
      rewrite Hsplit in Hok.
      destruct (for_each set_count (pre ++ o :: post) (initial s))
        as [nc|] eqn:E; [|discriminate].
      apply Transmission.for_each_split in E.
      destruct E as (s1 & s2 & Hpre & Hbody & _).
      assert (Hkeep : forall l nc0 nc1 r,
                 for_each set_count l nc0 = Ok nc1 ->
                 get r nc1 <> None -> get r nc0 <> None).
      { induction l as [|x l IHl]; intros nc0 nc1 r H Hr; simpl in H.
        - now injection H as <-.
        - destruct (set_count x nc0) as [nc2|] eqn:Ex; simpl in H;
            [|discriminate].
          destruct (count_set_count x nc0 nc2 r "" Ex) as (_ & Hn & _).
          intro H0. apply Hn in H0. revert H0. now apply (IHl nc2 nc1). }
      apply (Hkeep pre (initial s) s1); [exact Hpre|].
      destruct (count_set_count o s1 s2 "" "" Hbody) as (H & _). exact H.
    + intro H. destruct (Hrun (overrides s)) as (nc & -> & _).
      * intros o Ho. apply Hregion. now apply H.
      * reflexivity.
  - intros nc Hnc region tech.
    assert (Hall : forall o, In o (overrides s) ->
                             get (fst (fst o)) (initial s) <> None).
    { intros o Ho. apply in_split in Ho.
      destruct Ho as (pre & post & Hsplit). rewrite Hsplit in Hnc.
      apply Transmission.for_each_split in Hnc.
      destruct Hnc as (s1 & s2 & Hpre & Hbody & _).
      destruct (count_set_count o s1 s2 "" "" Hbody) as (H & _).
      clear - Hpre H. revert Hpre. generalize (initial s).
      induction pre as [|x l IHl]; intros nc0 Hpre; simpl in Hpre.
      - now injection Hpre as <-.
      - destruct (set_count x nc0) as [nc2|] eqn:Ex; simpl in Hpre;
          [|discriminate].
        destruct (count_set_count x nc0 nc2 (fst (fst o)) "" Ex)
          as (_ & Hn & _).
        intro H0. apply Hn in H0. revert H0. now apply IHl. }
    destruct (Hrun (overrides s) Hall) as (nc' & Hnc' & _ & Hcount).
    rewrite Hnc in Hnc'. injection Hnc' as <-.
    rewrite Hcount. unfold count at 1. rewrite initial_get.
    destruct (existsb (String.eqb region) (model_regions s)) eqn:E;
      [reflexivity|].
    destruct (RetirementYear.find_last (names region tech) (overrides s))
      as [o|] eqn:Ef; [|reflexivity].
    exfalso. unfold RetirementYear.find_last in Ef. apply find_some in Ef.
    destruct Ef as [Ho Hn]. apply in_rev in Ho.
    apply Hall in Ho. apply Hregion in Ho.
    unfold names in Hn. apply andb_true_iff in Hn. destruct Hn as [Hn _].
    apply String.eqb_eq in Hn. rewrite Hn in Ho.
    assert (existsb (String.eqb region) (model_regions s) = true)
      by (apply existsb_exists; exists region; split;
          [exact Ho | apply String.eqb_refl]).
    congruence.
Qed.

Lemma alt_num_clusters_override_one_region_witness :
  exists nc,
    build sample_settings = Ok nc
    /\ count nc "CA_N" "Conventional Steam Coal" = Some 1%Z
    /\ count nc "CA_S" "Conventional Steam Coal" = Some 3%Z.
Proof.
  eexists. split; [reflexivity|].
  split;
    rewrite (proj2 (alt_num_clusters_override_one_region sample_settings)
                   _ eq_refl); reflexivity.
Defined.

End NumClusters.

(** ** Prime movers of combined cycle plants
    ([modify_cc_prime_mover_code]) *)

Module PrimeMover.

(** One row of the table whose prime mover codes are changed, with the two
    columns read and the other columns as [rest]. *)
Record row (A : Type) := {
  plant_id_eia : Z;
  prime_mover_code : option string;
  rest : A
}.

Arguments plant_id_eia {A} r.
Arguments prime_mover_code {A} r.
Arguments rest {A} r.

(** One row of [gens_860], with the columns read. *)
Record generator := {
  g_plant_id_eia : Z;
  unit_id_pudl : option string;
  technology_description : option string
}.

(** The plants with a combined cycle generator that has no PUDL unit id. *)
Definition cc_without_pudl_id (gens_860 : list generator) : list Z :=
  map g_plant_id_eia
      (filter (fun g =>
                 match unit_id_pudl g with None => true | Some _ => false end
                 && match technology_description g with
                    | Some t => String.eqb t "Natural Gas Fired Combined Cycle"
                    | None => false
                    end)
              gens_860).

(** [df["prime_mover_code"].isin(["CA", "CT"])]. *)
Definition is_ca_ct (code : option string) : bool :=
  match code with
  | Some c => String.eqb c "CA" || String.eqb c "CT"
  | None => false
  end.

Definition modify_cc_prime_mover_code {A : Type} (df : list (row A))
           (gens_860 : list generator) : list (row A) :=
  let plants := cc_without_pudl_id gens_860 in
  map (fun r =>
         if existsb (Z.eqb (plant_id_eia r)) plants
            && is_ca_ct (prime_mover_code r)
         then {| plant_id_eia := plant_id_eia r;
                 prime_mover_code := Some "CC";
                 rest := rest r |}
         else r)
      df.

(** X24.  [modify_cc_prime_mover_code] keeps every row and changes only
    prime mover codes: a code becomes CC exactly when it is CA or CT at a
    plant that has a combined cycle generator without a PUDL unit id, and
    every other code, CS included, stays as it is.  Afterwards no such plant
    has a CA or CT row left, and a second call changes nothing. *)
Theorem modify_cc_prime_mover_code_only_ca_ct
        {A : Type} (df : list (row A)) (gens_860 : list generator) :
  let out := modify_cc_prime_mover_code df gens_860 in
  Forall2
    (fun r r' =>
       plant_id_eia r' = plant_id_eia r
       /\ rest r' = rest r
       /\ prime_mover_code r'
          = (if is_ca_ct (prime_mover_code r)
             then if existsb (Z.eqb (plant_id_eia r))
                             (cc_without_pudl_id gens_860)
                  then Some "CC" else prime_mover_code r
             else prime_mover_code r))
    df out
  /\ (forall r', In r' out ->
                 In (plant_id_eia r') (cc_without_pudl_id gens_860) ->
                 is_ca_ct (prime_mover_code r') = false)
  /\ modify_cc_prime_mover_code out gens_860 = out.
Proof.
  simpl. unfold modify_cc_prime_mover_code.
  set (plants := cc_without_pudl_id gens_860).
  split; [|split].
  - apply HeatRateFacts.Forall2_map_r. intros r _.
    destruct (existsb (Z.eqb (plant_id_eia r)) plants),
      (is_ca_ct (prime_mover_code r)); now repeat split.
  - intros r' Hr' Hplant. apply in_map_iff in Hr'.
    destruct Hr' as [r [<- _]].
    destruct (existsb (Z.eqb (plant_id_eia r)) plants) eqn:Ex.
    + destruct (is_ca_ct (prime_mover_code r)) eqn:Ec; simpl;
        [reflexivity | exact Ec].
    + simpl in *. exfalso.
      assert (existsb (Z.eqb (plant_id_eia r)) plants = true)
        by (apply existsb_exists; exists (plant_id_eia r);
            split; [exact Hplant | apply Z.eqb_refl]).
      congruence.
  - rewrite map_map. apply map_ext. intro r.
    destruct (existsb (Z.eqb (plant_id_eia r)) plants) eqn:Ex;
      destruct (is_ca_ct (prime_mover_code r)) eqn:Ec; simpl;
      rewrite ?Ex, ?Ec; simpl; try reflexivity.
Qed.

End PrimeMover.

(** ** Capacity factors by region and technology
    ([gentype_region_capacity_factor], from the year filter on) *)

Module CapacityFactor.

(** One row of [capacity_factor] as the year filter finds it: a plant and
    technology in one year, with its region, capacity and net generation.
    The report date is kept as its year. *)
Record plant_year := {
  model_region : option string;
  technology_description : option string;
  report_year : Z;
  cap_col : option Q;
  net_generation_mwh : option Q
}.

(** The quotient of two floats: a number, plus or minus infinity, or NaN. *)
Inductive ratio : Type :=
| Finite (q : Q)
| Infinite
| NotANumber.

(** One row of the table returned. *)
Record region_technology := {
  region : string;
  technology : string;
  potential_generation_mwh : Q;
  total_net_generation_mwh : Q;
  capacity_factor : ratio
}.

Definition is_leap (y : Z) : bool :=
  ((y mod 4 =? 0) && (negb (y mod 100 =? 0) || (y mod 400 =? 0)))%Z.

(** The hours between the start of the year and the start of the next. *)
Definition hours (y : Z) : Q :=
  if is_leap y then 8784 # 1 else 8760 # 1.

Definition tech_is (tech : string) (r : plant_year) : bool :=
  match technology_description r with
  | Some t => String.eqb t tech
  | None => false
  end.

(** The loop over [years_filter.items()] and [pd.concat(df_list)]. *)
Definition select (years_filter : list (string * list Z))
           (capacity_factor : list plant_year) : result (list plant_year) :=
  match years_filter with
  | [] => Raise (ValueError "No objects to concatenate")
  | _ :: _ =>
      Ok (flat_map
            (fun f => filter (fun r => tech_is (fst f) r
                                       && existsb (Z.eqb (report_year r))
                                                  (snd f))
                             capacity_factor)
            years_filter)
  end.

Definition potential (r : plant_year) : option Q :=
  option_map (fun c => c * hours (report_year r)) (cap_col r).

(** Float division, which does not raise. *)
Definition divide (a b : Q) : ratio :=
  if Qeq_bool b 0
  then if Qeq_bool a 0 then NotANumber else Infinite
  else Finite (a / b).

Definition key_eq_dec (a b : string * string) : {a = b} + {a <> b}.
Proof. decide equality; apply string_dec. Defined.

(** The rows a groupby keeps: a null key drops the row. *)
Definition keyed (r : plant_year) : bool :=
  match model_region r, technology_description r with
  | Some _, Some _ => true
  | _, _ => false
  end.

Definition key_of (r : plant_year) : string * string :=
  (match model_region r with Some x => x | None => "" end,
   match technology_description r with Some x => x | None => "" end).

Definition aggregate (g : string * string * list plant_year)
  : region_technology :=
  let potential_sum := nansum (map potential (snd g)) in
  let net_sum := nansum (map net_generation_mwh (snd g)) in
  {| region := fst (fst g);
     technology := snd (fst g);
     potential_generation_mwh := potential_sum;
     total_net_generation_mwh := net_sum;
     capacity_factor := divide net_sum potential_sum |}.

(** [gentype_region_capacity_factor] from line 1974 on. *)
Definition capacity_factor_tech_region
           (years_filter : list (string * list Z))
           (capacity_factor : list plant_year)
  : result (list region_technology) :=
  selected <- select years_filter capacity_factor ;;
  Ok (map aggregate
          (Groupby.groupby key_eq_dec Retirement.key_leb key_of
                           (filter keyed selected))).

Definition sample_rows : list plant_year :=
  [ {| model_region := Some "CA_N";
       technology_description := Some "Onshore Wind Turbine";
       report_year := 2019; cap_col := Some (100 # 1);
       net_generation_mwh := Some (262800 # 1) |};
    {| model_region := Some "CA_N";
       technology_description := Some "Onshore Wind Turbine";
       report_year := 2020; cap_col := Some (100 # 1);
       net_generation_mwh := Some (263520 # 1) |} ].

Definition sample_years_filter : list (string * list Z) :=
  [("Onshore Wind Turbine", [2019%Z; 2020%Z])].

Lemma hours_pos (y : Z) : 0 < hours y.
Proof. unfold hours. now destruct (is_leap y). Qed.

Lemma select_In (years_filter : list (string * list Z))
      (capacity_factor selected : list plant_year) (r : plant_year) :
  select years_filter capacity_factor = Ok selected ->
  In r selected ->
  In r capacity_factor
  /\ exists tech years,
       In (tech, years) years_filter
       /\ technology_description r = Some tech
       /\ In (report_year r) years.
Proof.
  unfold select. intros H Hr.
  assert (Hsel : selected
                 = flat_map
                     (fun f => filter
                                 (fun r => tech_is (fst f) r
                                           && existsb (Z.eqb (report_year r))
                                                      (snd f))
                                 capacity_factor)
                     years_filter)
    by (destruct years_filter; [discriminate | now injection H as <-]).
  subst selected. apply in_flat_map in Hr.
  destruct Hr as [[tech years] [Hf Hr]]. apply filter_In in Hr.
  destruct Hr as [Hin Hm]. apply andb_true_iff in Hm.
  destruct Hm as [Ht Hy]. cbn [fst snd] in *. split; [exact Hin|].
  exists tech, years. split; [exact Hf|]. split.
  - unfold tech_is in Ht. destruct (technology_description r) as [t|];
      [|discriminate]. apply String.eqb_eq in Ht. now subst.
  - apply existsb_exists in Hy. destruct Hy as [y [Hy Heq]].
    apply Z.eqb_eq in Heq. now subst.
Qed.

Lemma key_of_keyed (r : plant_year) (k : string * string) :
  keyed r = true -> key_of r = k ->
  model_region r = Some (fst k) /\ technology_description r = Some (snd k).
Proof.
  unfold keyed, key_of. intros Hk <-.
  destruct (model_region r), (technology_description r);
    try discriminate. now split.
Qed.

Lemma nansum_bounds (lo hi : plant_year -> option Q)
      (rows : list plant_year) :
  rows <> [] ->
  (forall r, In r rows -> exists n p, lo r = Some n /\ hi r = Some p
                                      /\ 0 <= n /\ n <= p /\ 0 < p) ->
  0 <= nansum (map lo rows)
  /\ nansum (map lo rows) <= nansum (map hi rows)
  /\ 0 < nansum (map hi rows).
Proof.
  induction rows as [|r rows IH]; intros Hne H; [congruence|].
  destruct (H r (or_introl eq_refl)) as (n & p & Hn & Hp & H0 & Hle & Hpos).
  simpl. rewrite Hn, Hp.
  destruct rows as [|r' rows'].
  - simpl. repeat split; lra.
  - destruct IH as (I0 & Ile & Ipos);
      [discriminate | intros; apply H; now right|].
    repeat split; lra.
Qed.

(** X25.  The capacity factor table has one row per region and
    technology, each pair once; a row is there only for a technology of the
    year filter that has generation data in one of its years.  When every
    plant-year behind a row has a positive capacity and a net generation
    between zero and capacity times the hours of the year, the row's
    capacity factor is a number between 0 and 1. *)
Theorem capacity_factor_rows_are_unique
        (years_filter : list (string * list Z))
        (plant_years : list plant_year)
        (out : list region_technology) :
  capacity_factor_tech_region years_filter plant_years = Ok out ->
  NoDup (map (fun o => (region o, technology o)) out)
  /\ forall o, In o out ->
       (exists r years,
           In r plant_years
           /\ model_region r = Some (region o)
           /\ technology_description r = Some (technology o)
           /\ In (technology o, years) years_filter
           /\ In (report_year r) years)
       /\ ((forall r, In r plant_years ->
                      model_region r = Some (region o) ->
                      technology_description r = Some (technology o) ->
                      exists c n,
                        cap_col r = Some c /\ net_generation_mwh r = Some n
                        /\ 0 < c /\ 0 <= n
                        /\ n <= c * hours (report_year r)) ->
           exists q, capacity_factor o = Finite q /\ 0 <= q /\ q <= 1).
Proof.
  unfold capacity_factor_tech_region. intro H.
  destruct (select years_filter plant_years) as [selected|] eqn:Es;
    [|discriminate].
  cbn [bind] in H. injection H as <-.
  set (rows := filter keyed selected).
  split.
  - rewrite map_map. unfold Groupby.groupby. rewrite map_map.
    rewrite (map_ext _ (fun k : string * string => k));
      [|intros [a b]; reflexivity].
    rewrite map_id. apply Groupby.keys_NoDup.
  - intros o Ho. apply in_map_iff in Ho. destruct Ho as [g [<- Hg]].
    unfold Groupby.groupby in Hg. apply in_map_iff in Hg.
    destruct Hg as [k [<- Hk]]. apply Groupby.keys_In in Hk.
    apply in_map_iff in Hk. destruct Hk as [r0 [Hkey Hr0]].
    unfold rows in Hr0. apply filter_In in Hr0. destruct Hr0 as [Hsel Hkeyed].
    destruct (key_of_keyed r0 k Hkeyed Hkey) as [Hreg Htech].
    destruct (select_In _ _ _ r0 Es Hsel)
      as (Hin & tech & years & Hf & Ht & Hy).
    cbn [aggregate region technology capacity_factor fst snd].
    split.
    + exists r0, years. repeat split; auto. congruence.
    + intro Hgood.
      set (members := filter (Groupby.has_key key_eq_dec key_of k) rows).
      assert (Hmem : forall r, In r members ->
                 exists n p, net_generation_mwh r = Some n
                             /\ potential r = Some p
                             /\ 0 <= n /\ n <= p /\ 0 < p).
      { intros r Hr. unfold members in Hr. apply filter_In in Hr.
        destruct Hr as [Hr Hk]. apply Groupby.has_key_true in Hk.
        unfold rows in Hr. apply filter_In in Hr. destruct Hr as [Hs Hkd].
        destruct (key_of_keyed r k Hkd Hk) as [Hreg' Htech'].
        destruct (select_In _ _ _ r Es Hs) as (Hin' & _).
        destruct (Hgood r Hin' Hreg' Htech')
          as (c & n & Hc & Hn & Hcpos & Hn0 & Hle).
        exists n, (c * hours (report_year r)).
        unfold potential. rewrite Hc, Hn. repeat split; auto.
        pose proof (hours_pos (report_year r)). nra. }
      assert (Hne : members <> []).
      { intro E. assert (Hin0 : In r0 members).
        { unfold members. apply filter_In. split.
          - unfold rows. apply filter_In. now split.
          - now apply Groupby.has_key_true. }
        rewrite E in Hin0. exact Hin0. }
      destruct (nansum_bounds net_generation_mwh potential members Hne Hmem)
        as (H0 & Hle & Hpos).
      unfold divide.
      destruct (Qeq_bool (nansum (map potential members)) 0) eqn:Ez.
      { apply Qeq_bool_iff in Ez. rewrite Ez in Hpos. discriminate. }
      eexists. split; [reflexivity|]. split.
      * apply Qle_shift_div_l; [exact Hpos | lra].
      * apply Qle_shift_div_r; [exact Hpos | lra].
Qed.

Lemma capacity_factor_rows_are_unique_witness :
  exists out,
    capacity_factor_tech_region sample_years_filter sample_rows = Ok out
    /\ NoDup (map (fun o => (region o, technology o)) out).
Proof.
  eexists. split; [reflexivity|].
  exact (proj1 (capacity_factor_rows_are_unique
                  sample_years_filter sample_rows _ eq_refl)).
Defined.

End CapacityFactor.

(** ** Merging the capacity factors into the clusters *)

Module CapacityFactorMerge.

Import Resources.

(** The capacity factor of the table for a resource's region and
    technology. *)
Definition factor_of (capacity_factors : list (string * string * option Q))
           (r : resource) : option Q :=
  match find (fun cf => String.eqb (fst (fst cf)) (region r)
                        && tech_is (technology r) (snd (fst cf)))
             capacity_factors with
  | Some cf => snd cf
  | None => None
  end.

Lemma filter_unique {A K : Type} (key : A -> K) (p : A -> bool)
      (l : list A) :
  NoDup (map key l) ->
  (forall x y, p x = true -> p y = true -> key x = key y) ->
  filter p l = match find p l with Some x => [x] | None => [] end.
Proof.
  intros Hnd Hp. induction l as [|a l IH]; simpl; [reflexivity|].
  simpl in Hnd. apply NoDup_cons_iff in Hnd. destruct Hnd as [Ha Hnd].
  destruct (p a) eqn:Ea.
  - f_equal. destruct (filter p l) as [|b rest] eqn:Ef; [reflexivity|].
    exfalso. assert (Hb : In b (filter p l)) by (rewrite Ef; now left).
    apply filter_In in Hb. destruct Hb as [Hb Hpb].
    apply Ha. rewrite (Hp a b Ea Hpb). now apply in_map.
  - now apply IH.
Qed.

Lemma flat_map_singleton {A B : Type} (f : A -> list B) (g : A -> B)
      (l : list A) :
  (forall a, f a = [g a]) -> flat_map f l = map g l.
Proof.
  intro H. induction l as [|a l IH]; simpl; [reflexivity|].
  now rewrite H, IH.
Qed.

(** With one capacity factor per region and technology the merge keeps
    the rows one for one. *)
Lemma merge_capacity_factors_unique
      (capacity_factors : list (string * string * option Q))
      (results : list resource) :
  NoDup (map fst capacity_factors) ->
  merge_capacity_factors capacity_factors results
  = map (fun r => with_capacity_factor r (factor_of capacity_factors r))
        results.
Proof.
  intro Hnd. unfold merge_capacity_factors.
  apply flat_map_singleton. intro r. unfold factor_of.
  rewrite (filter_unique fst _ capacity_factors Hnd).
  - now destruct (find _ capacity_factors).
  - intros [[r1 t1] f1] [[r2 t2] f2] H1 H2. cbn [fst snd] in *.
    apply andb_true_iff in H1, H2. destruct H1 as [Hr1 Ht1], H2 as [Hr2 Ht2].
    apply String.eqb_eq in Hr1, Hr2. unfold tech_is in Ht1, Ht2.
    destruct (technology r) as [t|]; [|discriminate].
    apply String.eqb_eq in Ht1, Ht2. congruence.
Qed.

Lemma Forall2_map_l {A B : Type} (f : A -> B) (P : B -> A -> Prop)
      (l : list A) :
  (forall a, In a l -> P (f a) a) -> Forall2 P (map f l) l.
Proof.
  induction l as [|a l IH]; simpl; intro H; constructor.
  - apply H. now left.
  - apply IH. intros; apply H; now right.
Qed.

(** X26.  When the capacity factor table has each region and technology
    once, as [gentype_region_capacity_factor] makes it, the existing-resource
    table has exactly one row per cluster, in the order of [cluster_list],
    and where the capacity factors are merged the row holds the rounded
    factor of its region and technology, NaN when the table has none. *)
Theorem unique_capacity_factors_keep_the_rows
        (s : settings)
        (capacity_factors : list (string * string * option Q))
        (cluster_list : list (list Clustering.region_cluster))
        (existing_resources : list resource) :
  NoDup (map fst capacity_factors) ->
  finalize_clusters s capacity_factors cluster_list = Ok existing_resources ->
  Forall2
    (fun r c =>
       CapacityFacts.from_cluster r c
       /\ (capacity_factor_techs_is_list s = true ->
           capacity_factor r
           = option_map round3 (factor_of capacity_factors (to_resource c))))
    existing_resources (List.concat cluster_list).
Proof.
  intros Hnd H. unfold finalize_clusters, concat_clusters in H.
  destruct cluster_list as [|c0 cl]; [discriminate|].
  set (clusters := List.concat (c0 :: cl)) in *. cbn [bind] in H.
  unfold add_capacity_factors, existing_capacity in H.
  rewrite (merge_capacity_factors_unique _ _ Hnd) in H.
  destruct (capacity_factor_techs_is_list s) eqn:El;
    destruct (derate_capacity s) eqn:Ed; cbn [bind] in H;
    try discriminate.
  - destruct (derate_techs s) as [techs|]; [|discriminate].
    cbn [bind] in H. injection H as <-. rewrite !map_map.
    apply Forall2_map_l. intros c _. split; [now repeat split|].
    intros _. reflexivity.
  - injection H as <-. rewrite !map_map.
    apply Forall2_map_l. intros c _. split; [now repeat split|].
    intros _. reflexivity.
  - injection H as <-. rewrite !map_map.
    apply Forall2_map_l. intros c _. split; [now repeat split|].
    discriminate.
Qed.

Lemma unique_capacity_factors_keep_the_rows_witness :
  exists existing_resources,
    finalize_clusters (CapacityFacts.sample_settings true)
                      CapacityFacts.sample_capacity_factors
                      CapacityFacts.sample_cluster_list
    = Ok existing_resources
    /\ List.length existing_resources
       = List.length (List.concat CapacityFacts.sample_cluster_list).
Proof.
  eexists. split; [reflexivity|].
  apply (Forall2_length
           (unique_capacity_factors_keep_the_rows
              (CapacityFacts.sample_settings true)
              CapacityFacts.sample_capacity_factors
              CapacityFacts.sample_cluster_list _
              ltac:(repeat constructor; simpl; tauto) eq_refl)).
Defined.

End CapacityFactorMerge.

(** ** Unit ids and missing seasonal capacity
    ([supplement_generator_860_data], lines 776-803) *)

Module SeasonalCapacity.

(** A unit id: the number PUDL gives, or the text made of plant and
    generator id for a generator without one. *)
Inductive unit_id : Type :=
| Pudl (n : Z)
| PlantGen (s : string).

(** One generator after the merges, with the columns read and written;
    [capacity_col] is the column named by [settings["capacity_col"]]. *)
Record generator := {
  plant_id_eia : Z;
  generator_id : string;
  unit_id_pudl : option unit_id;
  capacity_col : option Q;
  capacity_mw : option Q
}.

Definition unit_key : Type := Z * unit_id.

Definition unit_id_eq_dec (a b : unit_id) : {a = b} + {a <> b}.
Proof. decide equality; [apply Z.eq_dec | apply string_dec]. Defined.

Definition unit_key_eq_dec (a b : unit_key) : {a = b} + {a <> b}.
Proof. decide equality; [apply unit_id_eq_dec | apply Z.eq_dec]. Defined.

(** Lines 776-783: the missing unit ids. *)
Definition fill_unit_id (g : generator) : unit_id :=
  match unit_id_pudl g with
  | Some u => u
  | None => PlantGen (Removal.astype_str (plant_id_eia g) ++ "_"
                      ++ generator_id g)
  end.

Definition fill_unit_ids (gens_860_model : list generator)
  : list generator :=
  map (fun g => {| plant_id_eia := plant_id_eia g;
                   generator_id := generator_id g;
                   unit_id_pudl := Some (fill_unit_id g);
                   capacity_col := capacity_col g;
                   capacity_mw := capacity_mw g |})
      gens_860_model.

Definition key_of (g : generator) : unit_key :=
  (plant_id_eia g, fill_unit_id g).

Definition set_capacity (g : generator) (v : option Q) : generator :=
  {| plant_id_eia := plant_id_eia g;
     generator_id := generator_id g;
     unit_id_pudl := unit_id_pudl g;
     capacity_col := v;
     capacity_mw := capacity_mw g |}.

(** The body of the loop over [check_units]: the groups hold the rows
    whose capacity is null, so the test that all of a group's capacities are
    null is made on those rows only. *)
Definition fill_unit (df : list generator)
           (group : unit_key * list generator) : list generator :=
  if forallb (fun g => isnull (capacity_col g)) (snd group)
  then map (fun g => if unit_key_eq_dec (key_of g) (fst group)
                     then set_capacity g (capacity_mw g) else g)
           df
  else df.

(** Two generators of one unit; the first has a summer capacity. *)
Definition sample_unit : list generator :=
  [ {| plant_id_eia := 3; generator_id := "GT1";
       unit_id_pudl := Some (Pudl 1);
       capacity_col := Some (90 # 1); capacity_mw := Some (100 # 1) |};
    {| plant_id_eia := 3; generator_id := "ST1";
       unit_id_pudl := Some (Pudl 1);
       capacity_col := None; capacity_mw := Some (50 # 1) |} ].

Section Order.

(** The order in which pandas sorts the group keys. *)
Variable unit_key_leb : unit_key -> unit_key -> bool.

(** Lines 776-803. *)
Definition fill_missing_capacity (gens_860_model : list generator)
  : list generator :=
  let df := fill_unit_ids gens_860_model in
  let check_units :=
    Groupby.groupby unit_key_eq_dec unit_key_leb key_of
                    (filter (fun g => isnull (capacity_col g)) df) in
  fold_left fill_unit check_units df.

(** Some generator of the unit of [g] has no capacity. *)
Definition unit_lacks_capacity (gens_860_model : list generator)
           (g : generator) : bool :=
  existsb (fun g' => (if unit_key_eq_dec (key_of g') (key_of g)
                      then true else false)
                     && isnull (capacity_col g'))
          gens_860_model.

Lemma key_of_fill (g : generator) :
  key_of {| plant_id_eia := plant_id_eia g;
            generator_id := generator_id g;
            unit_id_pudl := Some (fill_unit_id g);
            capacity_col := capacity_col g;
            capacity_mw := capacity_mw g |}
  = key_of g.
Proof. reflexivity. Qed.

Lemma fold_fill_units (groups : list (unit_key * list generator))
      (df : list generator) :
  (forall group, In group groups ->
                 forallb (fun g => isnull (capacity_col g)) (snd group)
                 = true) ->
  fold_left fill_unit groups df
  = map (fun g => if existsb (fun group =>
                                if unit_key_eq_dec (key_of g) (fst group)
                                then true else false)
                             groups
                  then set_capacity g (capacity_mw g) else g)
        df.
Proof.
  revert df. induction groups as [|group groups IH]; intros df Hall;
    cbn [fold_left].
  - symmetry. apply map_id.
  - rewrite IH by (intros; apply Hall; now right).
    unfold fill_unit. rewrite (Hall group (or_introl eq_refl)).
    rewrite map_map. apply map_ext. intro g.
    assert (Hcons : forall f : unit_key * list generator -> bool,
               existsb f (group :: groups) = f group || existsb f groups)
      by reflexivity.
    rewrite Hcons. cbv beta.
    destruct (unit_key_eq_dec (key_of g) (fst group)) as [E|E]; cbn [orb].
    + change (key_of (set_capacity g (capacity_mw g))) with (key_of g).
      now destruct (existsb _ groups).
    + reflexivity.
Qed.

(** X27.  Where a unit has a generator without the seasonal capacity,
    every generator of the unit gets its nameplate capacity as seasonal
    capacity, also the generators that had a seasonal value: the test
    "all generators of the unit are missing the value" is made on the rows
    that miss it, so it always holds.  A generator of a unit in which none
    is missing keeps its value, and afterwards a capacity is missing only
    where the nameplate capacity is missing too.  Every generator has a unit
    id afterwards. *)
Theorem seasonal_capacity_filled_for_the_whole_unit
        (gens_860_model : list generator) :
  Forall2
    (fun g g' =>
       plant_id_eia g' = plant_id_eia g
       /\ generator_id g' = generator_id g
       /\ capacity_mw g' = capacity_mw g
       /\ unit_id_pudl g' = Some (fill_unit_id g)
       /\ capacity_col g'
          = (if unit_lacks_capacity gens_860_model g
             then capacity_mw g else capacity_col g)
       /\ (capacity_col g' = None -> capacity_mw g = None))
    gens_860_model (fill_missing_capacity gens_860_model).
Proof.
  unfold fill_missing_capacity.
  set (df := fill_unit_ids gens_860_model).
  set (missing := filter (fun g => isnull (capacity_col g)) df).
  rewrite fold_fill_units.
  - unfold df, fill_unit_ids. rewrite map_map.
    apply HeatRateFacts.Forall2_map_r. intros g Hg. rewrite key_of_fill.
    assert (Hex : existsb (fun group =>
                             if unit_key_eq_dec (key_of g) (fst group)
                             then true else false)
                          (Groupby.groupby unit_key_eq_dec unit_key_leb
                                           key_of missing)
                  = unit_lacks_capacity gens_860_model g).
    { unfold unit_lacks_capacity.
      destruct (existsb _ gens_860_model) eqn:E.
      - apply existsb_exists in E. destruct E as [g' [Hg' Hm]].
        apply andb_true_iff in Hm. destruct Hm as [Hk Hnull].
        destruct (unit_key_eq_dec (key_of g') (key_of g)) as [Ek|];
          [|discriminate].
        apply existsb_exists.
        exists (key_of g,
                filter (Groupby.has_key unit_key_eq_dec key_of (key_of g))
                       missing).
        split.
        + unfold Groupby.groupby. apply in_map_iff. exists (key_of g).
          split; [reflexivity|]. apply Groupby.keys_In.
          rewrite <- Ek. apply in_map_iff.
          exists {| plant_id_eia := plant_id_eia g';
                    generator_id := generator_id g';
                    unit_id_pudl := Some (fill_unit_id g');
                    capacity_col := capacity_col g';
                    capacity_mw := capacity_mw g' |}.
          split; [reflexivity|]. unfold missing. apply filter_In.
          split; [|exact Hnull]. unfold df, fill_unit_ids.
          apply in_map_iff. now exists g'.
        + cbn [fst].
          destruct (unit_key_eq_dec (key_of g) (key_of g)) as [|n];
            [reflexivity | now elim n].
      - destruct (existsb _ (Groupby.groupby _ _ _ missing)) eqn:E';
          [|reflexivity].
        apply existsb_exists in E'. destruct E' as [group [Hgroup Hk]].
        destruct (unit_key_eq_dec (key_of g) (fst group)) as [Ek|];
          [|discriminate].
        unfold Groupby.groupby in Hgroup. apply in_map_iff in Hgroup.
        destruct Hgroup as [k [<- Hkeys]]. simpl in Ek. subst k.
        apply Groupby.keys_In in Hkeys. apply in_map_iff in Hkeys.
        destruct Hkeys as [m [Hmk Hm]]. unfold missing in Hm.
        apply filter_In in Hm. destruct Hm as [Hm Hnull].
        unfold df, fill_unit_ids in Hm. apply in_map_iff in Hm.
        destruct Hm as [g' [<- Hg']]. rewrite key_of_fill in Hmk.
        simpl in Hnull.
        assert (existsb (fun g' => (if unit_key_eq_dec (key_of g') (key_of g)
                                    then true else false)
                                   && isnull (capacity_col g'))
                        gens_860_model = true).
        { apply existsb_exists. exists g'. split; [exact Hg'|].
          rewrite Hnull.
          destruct (unit_key_eq_dec (key_of g') (key_of g)) as [|n];
            [reflexivity | now elim n]. }
        congruence. }
    rewrite Hex.
    destruct (unit_lacks_capacity gens_860_model g) eqn:El; simpl.
    + now repeat split.
    + repeat split; try reflexivity. intro Hnone. exfalso.
      unfold unit_lacks_capacity in El.
      assert (existsb (fun g' => (if unit_key_eq_dec (key_of g') (key_of g)
                                  then true else false)
                                 && isnull (capacity_col g'))
                      gens_860_model = true).
      { apply existsb_exists. exists g. split; [exact Hg|].
        rewrite Hnone.
        destruct (unit_key_eq_dec (key_of g) (key_of g)) as [|n];
          [reflexivity | now elim n]. }
      congruence.
  - intros group Hgroup. unfold Groupby.groupby in Hgroup.
    apply in_map_iff in Hgroup. destruct Hgroup as [k [<- _]]. simpl.
    apply forallb_forall. intros g Hg. apply filter_In in Hg.
    destruct Hg as [Hg _]. unfold missing in Hg. apply filter_In in Hg.
    now destruct Hg.
Qed.

End Order.

Example seasonal_value_overwritten :
  map capacity_col
      (fill_missing_capacity (fun _ _ => true) sample_unit)
  = [Some (100 # 1); Some (50 # 1)].
Proof. reflexivity. Qed.

End SeasonalCapacity.

(** ** One region and technology from the generators to the clusters
    ([group_units], k-means and [calc_unit_cluster_values] in one turn of
    the loop) *)

Module GroupClustering.

Import Clustering.

Definition sample_generator (plant : Z) (unit : string) (cap : Q)
           (hr fom : option Q) : GroupUnits.generator :=
  {| GroupUnits.plant_id_eia := plant;
     GroupUnits.unit_id_pudl := unit;
     GroupUnits.capacity_col := Some cap;
     GroupUnits.minimum_load_mw := Some (cap * (4 # 10));
     GroupUnits.heat_rate_mmbtu_mwh := hr;
     GroupUnits.Fixed_OM_Cost_per_MWyr := fom;
     GroupUnits.Var_OM_Cost_per_MWh := None |}.

(** Three generators in two units; one heat rate and one fixed O&M are
    known. *)
Definition sample_df : list GroupUnits.generator :=
  [ sample_generator 1 "1" (100 # 1) (Some (10 # 1)) None;
    sample_generator 1 "1" (50 # 1) None None;
    sample_generator 2 "2_GT1" (300 # 1) None (Some (30 # 1)) ].

Section Turn.

Variable Entropy : Type.
Variable KMeans_labels :
  option Z -> Z -> list (list (option Q)) -> Entropy
  -> result (list nat) * Entropy.
Variable unit_key_leb : GroupUnits.unit_key -> GroupUnits.unit_key -> bool.

Lemma nansum_pos {A : Type} (col : A -> option Q) (l : list A) :
  l <> [] ->
  (forall a, In a l -> exists c, col a = Some c /\ 0 < c) ->
  0 < nansum (map col l).
Proof.
  induction l as [|a l IH]; intros Hne H; [congruence|].
  destruct (H a (or_introl eq_refl)) as (c & Hc & Hpos). simpl. rewrite Hc.
  destruct l as [|b l'].
  - simpl. lra.
  - assert (0 < nansum (map col (b :: l')))
      by (apply IH; [discriminate | intros; apply H; now right]).
    lra.
Qed.

(** The units of a table of generators with positive capacities, one of
    them with a heat rate and one with a fixed O&M cost: every unit has a
    positive capacity, a heat rate and a fixed O&M cost. *)
Lemma group_units_complete (df : list GroupUnits.generator)
      (u : unit_group) :
  (forall g, In g df ->
             exists c, GroupUnits.capacity_col g = Some c /\ 0 < c) ->
  (exists g, In g df /\ GroupUnits.heat_rate_mmbtu_mwh g <> None) ->
  (exists g, In g df /\ GroupUnits.Fixed_OM_Cost_per_MWyr g <> None) ->
  In u (GroupUnits.group_units unit_key_leb df) ->
  0 < capacity_col u
  /\ heat_rate_mmbtu_mwh u <> None
  /\ Fixed_OM_Cost_per_MWyr u <> None.
Proof.
  intros Hcap [g1 [Hg1 Hhr]] [g2 [Hg2 Hfom]] Hu.
  unfold GroupUnits.group_units, GroupUnits.fillna_mean in Hu.
  apply in_map_iff in Hu. destruct Hu as [u0 [<- Hu0]]. cbn [capacity_col
    heat_rate_mmbtu_mwh Fixed_OM_Cost_per_MWyr].
  split; [|split].
  - apply in_map_iff in Hu0. destruct Hu0 as [grp [<- Hgrp]].
    unfold Groupby.groupby in Hgrp. apply in_map_iff in Hgrp.
    destruct Hgrp as [k [<- Hk]]. cbn [GroupUnits.agg capacity_col snd].
    apply Groupby.keys_In in Hk. apply in_map_iff in Hk.
    destruct Hk as [g [Hkey Hg]].
    apply nansum_pos.
    + intro E.
      assert (Hin : In g (filter (Groupby.has_key GroupUnits.unit_key_eq_dec
                                                  GroupUnits.key_of k) df)).
      { apply filter_In. split; [exact Hg|].
        now apply Groupby.has_key_true. }
      rewrite E in Hin. exact Hin.
    + intros a Ha. apply filter_In in Ha. apply Hcap. tauto.
  - intro Hnone.
    pose proof (proj1 (GroupUnits.fill_none_iff heat_rate_mmbtu_mwh _ u0 Hu0)
                      Hnone) as Hall.
    pose proof (proj1 (GroupUnits.group_means_none_iff
                         unit_key_leb GroupUnits.heat_rate_mmbtu_mwh
                         heat_rate_mmbtu_mwh df (fun _ => eq_refl))
                      Hall) as Hdf.
    exact (Hhr (Hdf g1 Hg1)).
  - intro Hnone.
    pose proof (proj1 (GroupUnits.fill_none_iff Fixed_OM_Cost_per_MWyr _ u0
                                                Hu0)
                      Hnone) as Hall.
    pose proof (proj1 (GroupUnits.group_means_none_iff
                         unit_key_leb GroupUnits.Fixed_OM_Cost_per_MWyr
                         Fixed_OM_Cost_per_MWyr df (fun _ => eq_refl))
                      Hall) as Hdf.
    exact (Hfom (Hdf g2 Hg2)).
Qed.

Lemma map_fst_combine {A B : Type} (a : list A) (b : list B) :
  List.length a = List.length b -> map fst (combine a b) = a.
Proof.
  revert b. induction a as [|x a IH]; intros [|y b] H; simpl in *;
    try reflexivity; try discriminate.
  f_equal. apply IH. lia.
Qed.

(** X28.  One turn of the clustering loop from the generators on, under
    the default method with a positive cluster count and a k-means that
    keeps scikit-learn's contract.  When the generators of the region and
    technology have positive capacities, one of them a heat rate and one of
    them a fixed O&M cost, the turn does not fail, the numbers of units of
    its clusters add up to the number of units, and the clusters keep the
    totals of the generators: capacity per unit times number of units, added
    over the clusters, is the generators' capacity, and so for the minimum
    load. *)
Theorem group_is_clustered_without_loss
        (region tech : string) (df : list GroupUnits.generator)
        (st : loop_state) (e : Entropy) :
  KMeans_contract KMeans_labels ->
  (0 < num_clusters st region tech)%Z ->
  df <> [] ->
  (forall g, In g df ->
             exists c, GroupUnits.capacity_col g = Some c /\ 0 < c) ->
  (exists g, In g df /\ GroupUnits.heat_rate_mmbtu_mwh g <> None) ->
  (exists g, In g df /\ GroupUnits.Fixed_OM_Cost_per_MWyr g <> None) ->
  let grouped := GroupUnits.group_units unit_key_leb df in
  exists st' e' rows,
    cluster_group Entropy KMeans_labels [] (region, tech, grouped) st e
    = (Ok st', e')
    /\ cluster_list st' = cluster_list st ++ [rows]
    /\ list_sum (sizes rows) = List.length grouped
    /\ Qsum (map (fun row => capacity_mean (values row)
                             * ClusterFacts.units (values row)) rows)
       == nansum (map GroupUnits.capacity_col df)
    /\ Qsum (map (fun row => minimum_load_mw_mean (values row)
                             * ClusterFacts.units (values row)) rows)
       == nansum (map GroupUnits.minimum_load_mw df).
Proof.
  intros [Hrange Htotal] Hk Hne Hcap Hhr Hfom grouped.
  pose proof (fun u => group_units_complete df u Hcap Hhr Hfom) as Hcomplete.
  fold grouped in Hcomplete.
  assert (Hgne : grouped <> []).
  { intro E. destruct df as [|g df']; [congruence|].
    assert (Hin : In (GroupUnits.key_of g)
                     (map GroupUnits.out_key grouped)).
    { unfold grouped. rewrite GroupUnits.group_units_keys.
      apply Groupby.keys_In. now left. }
    rewrite E in Hin. exact Hin. }
  assert (Hn : (0 < List.length grouped)%nat)
    by (destruct grouped; [congruence | simpl; lia]).
  set (k := Z.min (num_clusters st region tech)
                  (Z.of_nat (List.length grouped))).
  assert (Hk' : (0 < k)%Z) by (unfold k; lia).
  destruct (Htotal (Some 6%Z) k (map cluster_cols grouped) e)
    as [labels_ [e' HKM]].
  { rewrite length_map. unfold k. lia. }
  { intros x c Hx Hc. apply in_map_iff in Hx. destruct Hx as [u [<- Hu]].
    destruct (Hcomplete u Hu) as (_ & H1 & H2).
    unfold cluster_cols in Hc. simpl in Hc.
    destruct Hc as [<- | [<- | []]]; assumption. }
  destruct (Hrange _ _ _ _ _ _ HKM) as [Hlen _].
  rewrite length_map in Hlen.
  set (clustered := combine grouped (map S labels_)).
  set (rows := map (label_region region (Clustered clustered))
                   (map (aggregate_row clustered (Some tech))
                        (cluster_keys clustered))).
  assert (Hfst : map fst clustered = grouped).
  { unfold clustered. apply map_fst_combine. now rewrite length_map. }
  assert (Hcols : forall col : unit_group -> Q,
             Qsum (map (fun r => col (fst r)) clustered)
             = Qsum (map col grouped)).
  { intro col. now rewrite <- Hfst, map_map. }
  eexists. exists e', rows. split.
  { exact (cluster_group_default Entropy KMeans_labels region tech grouped
             st e e' labels_ Hk' HKM Hlen
             (fun u Hu => proj1 (proj2 (Hcomplete u Hu)))
             (fun u Hu => proj1 (Hcomplete u Hu))). }
  cbn [cluster_list]. split; [reflexivity|]. split; [|split].
  - unfold rows. rewrite sizes_label_region, cluster_keys_length_sum.
    unfold clustered. rewrite length_combine, length_map. lia.
  - unfold rows. rewrite map_map.
    rewrite (map_ext _ (fun row => capacity_mean row
                                   * ClusterFacts.units row))
      by reflexivity.
    rewrite (ClusterFacts.aggregate_sums capacity_col (Some tech)
               capacity_mean clustered (fun _ => eq_refl)).
    rewrite Hcols. unfold grouped, GroupUnits.group_units,
                     GroupUnits.fillna_mean.
    rewrite !map_map. cbn [capacity_col GroupUnits.agg].
    apply GroupUnits.group_column_sums.
  - unfold rows. rewrite map_map.
    rewrite (map_ext _ (fun row => minimum_load_mw_mean row
                                   * ClusterFacts.units row))
      by reflexivity.
    rewrite (ClusterFacts.aggregate_sums minimum_load_mw (Some tech)
               minimum_load_mw_mean clustered (fun _ => eq_refl)).
    rewrite Hcols. unfold grouped, GroupUnits.group_units,
                     GroupUnits.fillna_mean.
    rewrite !map_map. cbn [minimum_load_mw GroupUnits.agg].
    apply GroupUnits.group_column_sums.
Qed.

End Turn.

Lemma group_is_clustered_without_loss_witness :
  exists st' e' rows,
    cluster_group nat KMeans_round_robin []
                  ("WECC", "Conventional Steam Coal",
                   GroupUnits.group_units GroupUnits.sample_leb sample_df)
                  (sample_state 2) 0%nat
    = (Ok st', e')
    /\ cluster_list st' = cluster_list (sample_state 2) ++ [rows]
    /\ list_sum (sizes rows)
       = List.length (GroupUnits.group_units GroupUnits.sample_leb
                                             sample_df)
    /\ Qsum (map (fun row => capacity_mean (values row)
                             * ClusterFacts.units (values row)) rows)
       == nansum (map GroupUnits.capacity_col sample_df)
    /\ Qsum (map (fun row => minimum_load_mw_mean (values row)
                             * ClusterFacts.units (values row)) rows)
       == nansum (map GroupUnits.minimum_load_mw sample_df).
Proof.
  apply (group_is_clustered_without_loss
           nat KMeans_round_robin GroupUnits.sample_leb
           "WECC" "Conventional Steam Coal" sample_df (sample_state 2) 0%nat
           KMeans_round_robin_contract).
  - reflexivity.
  - discriminate.
  - intros g Hg. simpl in Hg.
    destruct Hg as [<- | [<- | [<- | []]]]; eexists;
      (split; [reflexivity | reflexivity]).
  - eexists. split; [left; reflexivity | discriminate].
  - eexists. split; [right; right; left; reflexivity | discriminate].
Defined.

End GroupClustering.

(** ** The existing-resource table as the method returns it
    ([GeneratorClusters.create_region_technology_clusters] from
    [pd.concat(self.cluster_list)] to its [return], lines 2947-3095, with
    [energy_storage_mwh] and [add_dg_resources]) *)

Module ExistingResources.

Import Resources.

(** What is read after line 3007: three settings (a missing, null or empty
    [energy_storage_duration] reads as the empty list, a missing or null
    [region_wind_pv_cap_fn] as [None]) and the [sort_gens] attribute of the
    object. *)
Record options := {
  energy_storage_duration : list (string * Q);
  region_wind_pv_cap_fn : option string;
  dg_as_resource : bool;
  sort_gens : bool
}.

(** One column of [dg_profiles], the table [make_distributed_gen_profiles]
    supplies: a region and its hourly generation, the first hour apart from
    the later ones, so that the column has a maximum. *)
Record dg_profile := {
  dg_region : string;
  first_hour : Q;
  later_hours : list Q
}.

Definition hours (p : dg_profile) : list Q := first_hour p :: later_hours p.

(** [s.max()]. *)
Definition series_max (p : dg_profile) : Q :=
  fold_left (fun m v => if Qle_bool m v then v else m)
            (later_hours p) (first_hour p).

(** [round(3)] of a quotient: infinity and NaN stay what they are. *)
Definition round_ratio (x : CapacityFactor.ratio) : CapacityFactor.ratio :=
  match x with
  | CapacityFactor.Finite q => CapacityFactor.Finite (round3 q)
  | other => other
  end.

(** The columns of a distributed-generation row that are columns of
    [resource]: technology, region, cluster and [Existing_Cap_MW], which is
    [cap.round(0).astype(int)]; every other column is NaN (the two list
    columns read as empty). *)
Definition dg_columns (p : dg_profile) : resource :=
  {| region := dg_region p;
     technology := Some "distributed_generation";
     cluster := 1;
     Cap_size := None;
     Min_Power := None;
     Heat_Rate_MMBTU_per_MWh := None;
     Fixed_OM_Cost_per_MWyr := None;
     Var_OM_Cost_per_MWh := None;
     num_units := None;
     plant_id_eia := [];
     unit_id_pudl := [];
     capacity_factor := None;
     unmodified_cap_size := None;
     Existing_Cap_MW := Some (inject_Z (round_half_even (series_max p)));
     unmodified_existing_cap_mw := None |}.


Section Tail.

(** The values, for one row, of the columns that [startup_fuel],
    [add_fuel_labels], [startup_nonfuel_costs] and [add_genx_model_tags]
    add: [Start_fuel_MMBTU_per_MW], [Fuel], [Start_Cost_per_MW] and the
    model tags.  The model tags are named in the settings and are taken to
    be new columns. *)
Variable Enrichment : Type.

(** One row of [self.results] after line 3007: the columns of [resource]
    and the columns the rest of the method adds. *)
Record output_row := {
  columns : resource;
  Existing_Cap_MWh : option Q;
  profile : option (list CapacityFactor.ratio);
  enrichment : option Enrichment;
  Resource : option string
}.

(** [powergenome.external_data.overwrite_wind_pv_capacity], called when
    [region_wind_pv_cap_fn] is set. *)
Variable overwrite_wind_pv_capacity :
  list output_row -> result (list output_row).

(** The four functions piped at lines 3042-3050, as one: they raise, or
    give every row its values in the columns they add.  The functions are
    embedded one by one in the modules [StartupFuel], [FuelLabels] and
    [StartupCosts]. *)
Variable enrichment_pipes : list output_row -> result (output_row -> Enrichment).

(** [DataFrame.sort_values(["region", "technology"])]. *)
Variable sort_values : list output_row -> list output_row.

(** [powergenome.util.snake_case_col], value by value. *)
Variable snake_case_col : option string -> option string.

(** One turn of the loop of lines 3061-3093, from the technology and the
    region of the row: no profile for the row ([continue]), the profile of
    its resource group, or the [ValueError] for several matching groups. *)
Variable existing_profile :
  option string -> string -> result (option (list CapacityFactor.ratio)).

Definition new_row (r : resource) : output_row :=
  {| columns := r; Existing_Cap_MWh := None; profile := None;
     enrichment := None; Resource := None |}.

Definition set_Existing_Cap_MWh (r : output_row) (v : option Q)
  : output_row :=
  {| columns := columns r; Existing_Cap_MWh := v; profile := profile r;
     enrichment := enrichment r; Resource := Resource r |}.

Definition set_profile (r : output_row)
           (v : option (list CapacityFactor.ratio)) : output_row :=
  {| columns := columns r; Existing_Cap_MWh := Existing_Cap_MWh r;
     profile := v; enrichment := enrichment r; Resource := Resource r |}.

Definition set_enrichment (r : output_row) (v : option Enrichment)
  : output_row :=
  {| columns := columns r; Existing_Cap_MWh := Existing_Cap_MWh r;
     profile := profile r; enrichment := v; Resource := Resource r |}.

Definition set_Resource (r : output_row) (v : option string) : output_row :=
  {| columns := columns r; Existing_Cap_MWh := Existing_Cap_MWh r;
     profile := profile r; enrichment := enrichment r; Resource := v |}.

(** [energy_storage_mwh(df, energy_storage_duration, "technology",
    "Existing_Cap_MW", "Existing_Cap_MWh")]: one assignment per technology
    of the dictionary. *)
Definition energy_storage_mwh (energy_storage_duration : list (string * Q))
           (df : list output_row) : list output_row :=
  fold_left
    (fun df kv =>
       map (fun r =>
              if tech_is (technology (columns r)) (fst kv)
              then set_Existing_Cap_MWh
                     r (option_map (fun cap => cap * snd kv)
                                   (Existing_Cap_MW (columns r)))
              else r)
           df)
    energy_storage_duration df.

(** One row of the table [add_dg_resources] builds: the profile is
    [(s / cap).round(3)]. *)
Definition dg_row (p : dg_profile) : output_row :=
  {| columns := dg_columns p;
     Existing_Cap_MWh := None;
     profile :=
       Some (map (fun v => round_ratio
                             (CapacityFactor.divide v (series_max p)))
                 (hours p));
     enrichment := None;
     Resource := None |}.

(** [add_dg_resources]: [pd.concat([gen_df, df], ignore_index=True)]. *)
Definition add_dg_resources (dg_profiles : list dg_profile)
           (gen_df : list output_row) : list output_row :=
  gen_df ++ map dg_row dg_profiles.

(** Lines 3061-3093 for one row. *)
Definition add_profile (r : output_row) : result output_row :=
  p <- existing_profile (technology (columns r)) (region (columns r)) ;;
  Ok (match p with
      | Some x => set_profile r (Some x)
      | None => r
      end).

(** Lines 3008-3095. *)
Definition finish_results (o : options) (dg_profiles : list dg_profile)
           (results : list resource) : result (list output_row) :=
  let results := map new_row results in
  let results := energy_storage_mwh (energy_storage_duration o) results in
  results <- match region_wind_pv_cap_fn o with
             | Some _ => overwrite_wind_pv_capacity results
             | None => Ok results
             end ;;
  let results :=
    if dg_as_resource o
    then add_dg_resources dg_profiles results
    else map (fun r => set_profile r None) results in
  added <- enrichment_pipes results ;;
  let results :=
    map (fun r => set_enrichment r (Some (added r))) results in
  let results := if sort_gens o then sort_values results else results in
  let results :=
    map (fun r => set_Resource r (snake_case_col (technology (columns r))))
        results in
  Clustering.traverse add_profile results.

(** The method from the cluster list on (lines 2947-3095). *)
Definition create_region_technology_clusters
           (s : settings)
           (capacity_factors : list (string * string * option Q))
           (o : options) (dg_profiles : list dg_profile)
           (cluster_list : list (list Clustering.region_cluster))
  : result (list output_row) :=
  results <- finalize_clusters s capacity_factors cluster_list ;;
  finish_results o dg_profiles results.

End Tail.

Arguments columns {Enrichment} _.
Arguments Existing_Cap_MWh {Enrichment} _.
Arguments profile {Enrichment} _.
Arguments enrichment {Enrichment} _.
Arguments Resource {Enrichment} _.

(** *** Sample data *)

(** Rows in the order of their region, then of their technology, a null
    technology last; rows with the same region and technology keep their
    order. *)
Definition row_leb {Enrichment : Type} (a b : output_row Enrichment)
  : bool :=
  match String.compare (region (columns a)) (region (columns b)) with
  | Lt => true
  | Gt => false
  | Eq =>
      match technology (columns a), technology (columns b) with
      | Some t, Some t' => String.leb t t'
      | None, Some _ => false
      | _, None => true
      end
  end.

Fixpoint insert_row {Enrichment : Type} (r : output_row Enrichment)
         (df : list (output_row Enrichment)) : list (output_row Enrichment) :=
  match df with
  | [] => [r]
  | q :: rest => if row_leb r q then r :: df else q :: insert_row r rest
  end.

Definition sort_rows {Enrichment : Type} (df : list (output_row Enrichment))
  : list (output_row Enrichment) :=
  fold_right insert_row [] df.

(** Two wind unit-groups of 1.0004 MW each, in one cluster. *)
Definition sample_frame : list (Clustering.unit_group * nat) :=
  [ ({| Clustering.plant_id_eia := 1; Clustering.unit_id_pudl := "1";
        Clustering.capacity_col := 10004 # 10000;
        Clustering.minimum_load_mw := 0;
        Clustering.heat_rate_mmbtu_mwh := Some 0;
        Clustering.Fixed_OM_Cost_per_MWyr := Some (30 # 1);
        Clustering.Var_OM_Cost_per_MWh := Some 0 |}, 1%nat);
    ({| Clustering.plant_id_eia := 2; Clustering.unit_id_pudl := "1";
        Clustering.capacity_col := 10004 # 10000;
        Clustering.minimum_load_mw := 0;
        Clustering.heat_rate_mmbtu_mwh := Some 0;
        Clustering.Fixed_OM_Cost_per_MWyr := Some (30 # 1);
        Clustering.Var_OM_Cost_per_MWh := Some 0 |}, 1%nat) ].

Definition sample_cluster : Clustering.region_cluster :=
  Clustering.label_region
    "WECC" (Clustering.Clustered sample_frame)
    (Clustering.aggregate_row sample_frame (Some "Onshore Wind Turbine") 1).

Definition sample_settings : settings :=
  {| capacity_factor_techs_is_list := false;
     derate_capacity := false;
     derate_techs := None |}.

Definition sample_options : options :=
  {| energy_storage_duration := [("Batteries", 4 # 1)];
     region_wind_pv_cap_fn := None;
     dg_as_resource := true;
     sort_gens := true |}.

(** Distributed generation in one region, with a peak of 4.6 MW. *)
Definition sample_dg_profiles : list dg_profile :=
  [ {| dg_region := "CA_N"; first_hour := 3 # 1;
       later_hours := [46 # 10; 4 # 1] |} ].

(** A run of the method on the sample data: the enrichment is the fuel
    label alone, and no resource group has a profile. *)
Definition sample_run : result (list (output_row string)) :=
  create_region_technology_clusters
    string (fun df => Ok df) (fun _ => Ok (fun _ => "None"))
    sort_rows (fun t => t) (fun _ _ => Ok None)
    sample_settings [] sample_options sample_dg_profiles [[sample_cluster]].

(** *** The rows of the table at line 3007 *)



(** *** The rows the rest of the method keeps and adds *)


Section Kept.

Variable Enrichment : Type.
Variable overwrite_wind_pv_capacity :
  list (output_row Enrichment) -> result (list (output_row Enrichment)).
Variable enrichment_pipes :
  list (output_row Enrichment) -> result (output_row Enrichment -> Enrichment).
Variable sort_values :
  list (output_row Enrichment) -> list (output_row Enrichment).
Variable snake_case_col : option string -> option string.
Variable existing_profile :
  option string -> string -> result (option (list CapacityFactor.ratio)).





End Kept.



End ExistingResources.
